(** * LE Audio unicast client (system/bta/le_audio/client.cc)

    A shallow embedding of [LeAudioClientImpl]: the client object is a record
    that is threaded through every member function, the calls the client makes
    on its collaborators (upper-layer callbacks, group state machine, audio
    HAL, GATT and HCI) are appended to a log in program order, and what a
    collaborator answers is taken from an explicit interface.  *)

From Stdlib Require Import ZArith List Bool Lia.
From stdpp Require Import base option list gmap fin_maps.
Import ListNotations.

Local Open Scope Z_scope.

(** ** Machine integers *)

(** Conversions to the fixed-width integer types of the C++ code, written as
    the wrap-around they perform. *)
Definition to_uint8 (x : Z) : Z := x mod 256.
Definition to_uint16 (x : Z) : Z := x mod 65536.
Definition to_uint32 (x : Z) : Z := x mod 4294967296.
Definition to_uint64 (x : Z) : Z := x mod 18446744073709551616.
Definition to_int16 (x : Z) : Z := (x + 32768) mod 65536 - 32768.
Definition to_int32 (x : Z) : Z := (x + 2147483648) mod 4294967296 - 2147483648.

Definition is_int16 (x : Z) : Prop := -32768 <= x <= 32767.
Definition is_uint8 (x : Z) : Prop := 0 <= x <= 255.

(** ** Faults

    Behaviour that the C++ standard leaves undefined, or that aborts the
    process, ends a computation with a fault instead of a value. *)
Inductive Fault : Type :=
| EmptyOptionalAccess     (* operator-> or operator* on an empty std::optional *)
| NullPointerAccess       (* member access through a null pointer *)
| OutOfRange              (* access past the end of a std::vector *)
| AssertionFailure        (* LOG_ASSERT / CHECK *)
| OutOfFuel.              (* the iteration bound of the model was exhausted *)

Inductive Result (A : Type) : Type :=
| Done (a : A)
| Abort (f : Fault).
Arguments Done {A} a.
Arguments Abort {A} f.

Definition rbind {A B : Type} (r : Result A) (k : A -> Result B) : Result B :=
  match r with
  | Done a => k a
  | Abort f => Abort f
  end.

Declare Scope result_scope.
Delimit Scope result_scope with result.
Notation "'let!' x ':=' r 'in' k" := (rbind r (fun x => k))
  (at level 10, x pattern, r at level 100, k at level 200) : result_scope.
Local Open Scope result_scope.

Definition is_Done {A : Type} (r : Result A) : bool :=
  match r with Done _ => true | Abort _ => false end.

(** [runs_to r P]: the computation ends without a fault, with a value that
    satisfies [P]. *)
Definition runs_to {A : Type} (r : Result A) (P : A -> Prop) : Prop :=
  match r with Done a => P a | Abort _ => False end.

(** ** Enumerations *)

(** [enum class AudioState] of client.cc; the enumerators are ordered as
    declared (IDLE = 0x00 and counting), and the code compares them. *)
Module AudioState.
Inductive t : Type :=
| IDLE
| READY_TO_START
| STARTED
| READY_TO_RELEASE
| RELEASING.

Definition to_Z (s : t) : Z :=
  match s with
  | IDLE => 0
  | READY_TO_START => 1
  | STARTED => 2
  | READY_TO_RELEASE => 3
  | RELEASING => 4
  end.

Definition eqb (a b : t) : bool := to_Z a =? to_Z b.
Definition geb (a b : t) : bool := to_Z b <=? to_Z a.
Definition gtb (a b : t) : bool := to_Z b <? to_Z a.
End AudioState.

(** Modelled from the spec: the ASE state set of le_audio_types.h, which is
    not part of the sources at hand (spec section 3, "ASE state set"). *)
Module AseState.
Inductive t : Type :=
| BTA_LE_AUDIO_ASE_STATE_IDLE
| BTA_LE_AUDIO_ASE_STATE_CODEC_CONFIGURED
| BTA_LE_AUDIO_ASE_STATE_QOS_CONFIGURED
| BTA_LE_AUDIO_ASE_STATE_ENABLING
| BTA_LE_AUDIO_ASE_STATE_STREAMING
| BTA_LE_AUDIO_ASE_STATE_DISABLING
| BTA_LE_AUDIO_ASE_STATE_RELEASING.

Definition eqb (a b : t) : bool :=
  match a, b with
  | BTA_LE_AUDIO_ASE_STATE_IDLE, BTA_LE_AUDIO_ASE_STATE_IDLE
  | BTA_LE_AUDIO_ASE_STATE_CODEC_CONFIGURED, BTA_LE_AUDIO_ASE_STATE_CODEC_CONFIGURED
  | BTA_LE_AUDIO_ASE_STATE_QOS_CONFIGURED, BTA_LE_AUDIO_ASE_STATE_QOS_CONFIGURED
  | BTA_LE_AUDIO_ASE_STATE_ENABLING, BTA_LE_AUDIO_ASE_STATE_ENABLING
  | BTA_LE_AUDIO_ASE_STATE_STREAMING, BTA_LE_AUDIO_ASE_STATE_STREAMING
  | BTA_LE_AUDIO_ASE_STATE_DISABLING, BTA_LE_AUDIO_ASE_STATE_DISABLING
  | BTA_LE_AUDIO_ASE_STATE_RELEASING, BTA_LE_AUDIO_ASE_STATE_RELEASING => true
  | _, _ => false
  end.
End AseState.

(** Modelled from the spec: the audio context enum of le_audio_types.h (spec
    section 3, "Audio context enum"), with RFU for its "(reserved)" entry. *)
Module LeAudioContextType.
Inductive t : Type :=
| UNSPECIFIED
| CONVERSATIONAL
| MEDIA
| GAME
| RINGTONE
| NOTIFICATIONS
| INSTRUCTIONAL
| ALERTS
| EMERGENCYALARM
| RFU.

Definition eqb (a b : t) : bool :=
  match a, b with
  | UNSPECIFIED, UNSPECIFIED | CONVERSATIONAL, CONVERSATIONAL
  | MEDIA, MEDIA | GAME, GAME | RINGTONE, RINGTONE
  | NOTIFICATIONS, NOTIFICATIONS | INSTRUCTIONAL, INSTRUCTIONAL
  | ALERTS, ALERTS | EMERGENCYALARM, EMERGENCYALARM | RFU, RFU => true
  | _, _ => false
  end.
End LeAudioContextType.

(** [GroupStreamStatus] as StatusReportCb switches on it. *)
Module GroupStreamStatus.
Inductive t : Type :=
| IDLE
| STREAMING
| RELEASING
| SUSPENDING
| SUSPENDED
| CONFIGURED_AUTONOMOUS
| CONFIGURED_BY_USER
| DESTROYED.
End GroupStreamStatus.

(** The values of [audio_content_type_t] and [audio_usage_t] that
    AudioContentToLeAudioContext names in a case label; every other value of
    the C enumeration is [OTHER] with its number. *)
Inductive audio_content_type_t : Type :=
| AUDIO_CONTENT_TYPE_SPEECH
| AUDIO_CONTENT_TYPE_MUSIC
| AUDIO_CONTENT_TYPE_MOVIE
| AUDIO_CONTENT_TYPE_SONIFICATION
| AUDIO_CONTENT_TYPE_OTHER (n : Z).

Inductive audio_usage_t : Type :=
| AUDIO_USAGE_VOICE_COMMUNICATION
| AUDIO_USAGE_GAME
| AUDIO_USAGE_NOTIFICATION
| AUDIO_USAGE_NOTIFICATION_TELEPHONY_RINGTONE
| AUDIO_USAGE_ALARM
| AUDIO_USAGE_EMERGENCY
| AUDIO_USAGE_OTHER (n : Z).

(** ** Context classification *)

Definition AudioContentToLeAudioContext
    (current_context_type : LeAudioContextType.t)
    (content_type : audio_content_type_t) (usage : audio_usage_t)
  : LeAudioContextType.t :=
  let classify :=
    match content_type with
    | AUDIO_CONTENT_TYPE_SPEECH => LeAudioContextType.CONVERSATIONAL
    | AUDIO_CONTENT_TYPE_MUSIC
    | AUDIO_CONTENT_TYPE_MOVIE
    | AUDIO_CONTENT_TYPE_SONIFICATION => LeAudioContextType.MEDIA
    | _ =>
        (* Context is not clear, consider also usage of stream *)
        match usage with
        | AUDIO_USAGE_VOICE_COMMUNICATION => LeAudioContextType.CONVERSATIONAL
        | AUDIO_USAGE_GAME => LeAudioContextType.GAME
        | AUDIO_USAGE_NOTIFICATION => LeAudioContextType.NOTIFICATIONS
        | AUDIO_USAGE_NOTIFICATION_TELEPHONY_RINGTONE => LeAudioContextType.RINGTONE
        | AUDIO_USAGE_ALARM => LeAudioContextType.ALERTS
        | AUDIO_USAGE_EMERGENCY => LeAudioContextType.EMERGENCYALARM
        | _ => LeAudioContextType.MEDIA
        end
    end in
  if LeAudioContextType.eqb current_context_type LeAudioContextType.CONVERSATIONAL
  then
    match content_type with
    | AUDIO_CONTENT_TYPE_SONIFICATION
    | AUDIO_CONTENT_TYPE_SPEECH => LeAudioContextType.CONVERSATIONAL
    | _ =>
        match usage with
        | AUDIO_USAGE_NOTIFICATION_TELEPHONY_RINGTONE
        | AUDIO_USAGE_NOTIFICATION
        | AUDIO_USAGE_ALARM
        | AUDIO_USAGE_EMERGENCY
        | AUDIO_USAGE_VOICE_COMMUNICATION => LeAudioContextType.CONVERSATIONAL
        | _ => classify
        end
    end
  else classify.

(** [std::find] over the candidate vector. *)
Definition contains (c : LeAudioContextType.t) (l : list LeAudioContextType.t) : bool :=
  existsb (LeAudioContextType.eqb c) l.

(** Indexing an empty vector with [available_contents[0]] is out of range. *)
Definition ChooseContextType (available_contents : list LeAudioContextType.t)
  : Result LeAudioContextType.t :=
  (* Mini policy. Voice is prio 1, media is prio 2 *)
  if contains LeAudioContextType.CONVERSATIONAL available_contents
  then Done LeAudioContextType.CONVERSATIONAL
  else if contains LeAudioContextType.MEDIA available_contents
  then Done LeAudioContextType.MEDIA
  else match available_contents with
       | c :: _ => Done c
       | [] => Abort OutOfRange
       end.

(** ** Downlink mono mix (get_mono_stream) *)

(** [int16_t left = (int16_t)((sample[1] << 8) + sample[0]) >> 1;] the cast
    binds tighter than the shift, the shift is the arithmetic one on a signed
    operand, and the result is stored in an [int16_t]. *)
Definition halved_sample (lo hi : Z) : Z :=
  to_int16 (Z.shiftr (to_int16 (Z.shiftl hi 8 + lo)) 1).

(** [uint16_t mono_data = (int16_t)(((uint32_t)left + (uint32_t)right) >> 1);]
    followed by [chan_mono.push_back(mono_data)] into a vector of [int16_t]. *)
Definition mono_data (left right : Z) : Z :=
  to_uint16 (to_int16 (Z.shiftr (to_uint32 (to_uint32 left + to_uint32 right)) 1)).

Definition mono_sample (b0 b1 b2 b3 : Z) : Z :=
  to_int16 (mono_data (halved_sample b0 b1) (halved_sample b2 b3)).

(** The four octets of frame [i] at [data.data() + i * 4]. *)
Definition frame_at (data : list Z) (i : Z) : Result (Z * Z * Z * Z) :=
  if i <? 0 then Abort OutOfRange else
  match drop (Z.to_nat (i * 4)) data with
  | b0 :: b1 :: b2 :: b3 :: _ => Done (b0, b1, b2, b3)
  | _ => Abort OutOfRange
  end.

(** [for (int i = 0; i < pitch * num_of_frames_per_ch; i += pitch)]: the loop
    is run with an iteration bound. *)
Fixpoint get_mono_stream_loop (fuel : nat) (data : list Z) (pitch bound i : Z)
    (chan_mono : list Z) : Result (list Z) :=
  if i <? bound then
    match fuel with
    | O => Abort OutOfFuel
    | S fuel' =>
        let! (b0, b1, b2, b3) := frame_at data i in
        get_mono_stream_loop fuel' data pitch bound (i + pitch)
          (chan_mono ++ [mono_sample b0 b1 b2 b3])
    end
  else Done chan_mono.

(** [num_of_frames_per_ch] is the [uint16_t] that receives
    [lc3_frame_samples(dt_us, af_hz)]. *)
Definition get_mono_stream (frame_samples : Z) (data : list Z)
    (chan_mono : list Z) (pitch : Z) : Result (list Z) :=
  let num_of_frames_per_ch := to_uint16 frame_samples in
  get_mono_stream_loop (Z.to_nat num_of_frames_per_ch) data pitch
    (pitch * num_of_frames_per_ch) 0 chan_mono.

(** ** Record update

    [r <| field := v |>] is the record [r] with one field replaced, as an
    assignment to a member does it. *)
Class Setter {R T : Type} (proj : R -> T) := setter : (T -> T) -> R -> R.
Arguments setter {R T} proj {Setter} _ _ /.

Ltac make_setter eta proj :=
  let f := fresh "f" in
  let r := fresh "r" in
  refine (fun f r => _);
  let body := eval cbv beta delta [eta] in (eta r) in
  match eval pattern (proj r) in body with
  | ?g _ => exact (g (f (proj r)))
  end.

Notation "r <| proj := v |>" := (setter proj (fun _ => v) r)
  (at level 1, left associativity, format "r  <| proj  :=  v |>").

(** ** Data model *)

(** A Bluetooth device address stands for the device object itself: the
    registry owns the devices, and groups refer to their members. *)
Abbreviation RawAddress := Z (only parsing).

(** [struct ase] with the members the client reads, directly or through the
    accessors of the device.  The codec configuration holds optional values;
    [sampling_frequency_hz] and [frame_duration_us] stand for what
    GetSamplingFrequencyHz() and GetFrameDurationUs() return. *)
Record ase : Type := mk_ase {
  val_hdl : Z;
  ccc_hdl : Z;
  direction : Z;
  active : bool;
  ase_state : AseState.t;
  cis_conn_hdl : Z;
  audio_channel_allocation : option Z;
  channel_count : Z;
  sampling_frequency_hz : Z;
  frame_duration_us : Z;
  octets_per_codec_frame : option Z;
  codec_frames_blocks_per_sdu : option Z;
}.

(** Parsed PAC records are only stored by the client. *)
Abbreviation acs_ac_record := (list Z) (only parsing).

(** The device object.  Its address is the key under which the registry holds
    it ([address_] never changes). *)
Record LeAudioDevice : Type := mk_LeAudioDevice {
  conn_id_ : option Z;           (* None: GATT_INVALID_CONN_ID *)
  group_id_ : option Z;          (* None: bluetooth::groups::kGroupUnknown *)
  encrypted_ : bool;
  known_service_handles_ : bool;
  notify_connected_after_read_ : bool;
  removing_device_ : bool;
  connecting_actively_ : bool;
  first_connection_ : bool;
  csis_member_ : bool;
  audio_directions_ : Z;
  snk_audio_locations_ : Z;
  src_audio_locations_ : Z;
  avail_contexts_ : Z * Z;       (* sink, source *)
  supp_contexts_ : Z * Z;
  snk_pacs_ : list (Z * list acs_ac_record);   (* value handle, records *)
  src_pacs_ : list (Z * list acs_ac_record);
  snk_audio_locations_hdls_ : Z;               (* value handles *)
  src_audio_locations_hdls_ : Z;
  audio_avail_hdls_ : Z;
  audio_supp_cont_hdls_ : Z;
  ctp_hdls_ : Z;
  ases_ : list ase;
}.

Definition eta_LeAudioDevice (d : LeAudioDevice) : LeAudioDevice :=
  mk_LeAudioDevice (conn_id_ d) (group_id_ d) (encrypted_ d)
    (known_service_handles_ d) (notify_connected_after_read_ d)
    (removing_device_ d) (connecting_actively_ d) (first_connection_ d)
    (csis_member_ d) (audio_directions_ d) (snk_audio_locations_ d)
    (src_audio_locations_ d) (avail_contexts_ d) (supp_contexts_ d)
    (snk_pacs_ d) (src_pacs_ d) (snk_audio_locations_hdls_ d)
    (src_audio_locations_hdls_ d) (audio_avail_hdls_ d)
    (audio_supp_cont_hdls_ d) (ctp_hdls_ d) (ases_ d).

#[global] Instance set_conn_id_ : Setter conn_id_ := ltac:(make_setter eta_LeAudioDevice conn_id_).
#[global] Instance set_group_id_ : Setter group_id_ := ltac:(make_setter eta_LeAudioDevice group_id_).
#[global] Instance set_removing_device_ : Setter removing_device_ := ltac:(make_setter eta_LeAudioDevice removing_device_).
#[global] Instance set_connecting_actively_ : Setter connecting_actively_ := ltac:(make_setter eta_LeAudioDevice connecting_actively_).
#[global] Instance set_first_connection_ : Setter first_connection_ := ltac:(make_setter eta_LeAudioDevice first_connection_).
#[global] Instance set_audio_directions_ : Setter audio_directions_ := ltac:(make_setter eta_LeAudioDevice audio_directions_).
#[global] Instance set_snk_audio_locations_ : Setter snk_audio_locations_ := ltac:(make_setter eta_LeAudioDevice snk_audio_locations_).
#[global] Instance set_src_audio_locations_ : Setter src_audio_locations_ := ltac:(make_setter eta_LeAudioDevice src_audio_locations_).
#[global] Instance set_avail_contexts_ : Setter avail_contexts_ := ltac:(make_setter eta_LeAudioDevice avail_contexts_).
#[global] Instance set_supp_contexts_ : Setter supp_contexts_ := ltac:(make_setter eta_LeAudioDevice supp_contexts_).
#[global] Instance set_snk_pacs_ : Setter snk_pacs_ := ltac:(make_setter eta_LeAudioDevice snk_pacs_).
#[global] Instance set_src_pacs_ : Setter src_pacs_ := ltac:(make_setter eta_LeAudioDevice src_pacs_).
#[global] Instance set_ases_ : Setter ases_ := ltac:(make_setter eta_LeAudioDevice ases_).

(** One entry of an [AudioSetConfiguration], and the configuration. *)
Record SetConfiguration : Type := mk_SetConfiguration {
  ent_direction : Z;
  ent_device_cnt : Z;
  ent_ase_cnt : Z;
}.

Record AudioSetConfiguration : Type := mk_AudioSetConfiguration {
  conf_name : list Z;
  confs : list SetConfiguration;
}.

(** [struct stream_configuration].  The members that exist once per direction
    ([sink_streams], [source_streams], [sink_num_of_devices], ...) are held in
    one record per direction. *)
Record direction_configuration : Type := mk_direction_configuration {
  streams : list (Z * Z);            (* CIS handle, audio location *)
  num_of_devices : Z;
  num_of_channels : Z;
  sample_frequency_hz : Z;
  stream_frame_duration_us : Z;
  stream_audio_channel_allocation : Z;
  stream_octets_per_codec_frame : Z;
  stream_codec_frames_blocks_per_sdu : Z;
}.

Record stream_configuration : Type := mk_stream_configuration {
  conf : option AudioSetConfiguration;   (* a pointer; None: null *)
  sink : direction_configuration;
  source : direction_configuration;
}.

Definition sink_streams (sc : stream_configuration) := streams (sink sc).
Definition source_streams (sc : stream_configuration) := streams (source sc).
Definition sink_num_of_devices (sc : stream_configuration) := num_of_devices (sink sc).
Definition sink_num_of_channels (sc : stream_configuration) := num_of_channels (sink sc).
Definition sink_octets_per_codec_frame (sc : stream_configuration) :=
  stream_octets_per_codec_frame (sink sc).
Definition source_octets_per_codec_frame (sc : stream_configuration) :=
  stream_octets_per_codec_frame (source sc).

(** The group object.  Its identifier is the key under which the registry
    holds it ([group_id_] is a const member).  The member list holds the
    addresses of the member devices in insertion order. *)
Record LeAudioDeviceGroup : Type := mk_LeAudioDeviceGroup {
  leAudioDevices : list RawAddress;
  cig_created_ : bool;
  current_state_ : AseState.t;
  target_state_ : AseState.t;
  pending_configuration_ : bool;
  pending_update_available_contexts_ : option Z;
  active_contexts_mask_ : Z;
  current_context_type : LeAudioContextType.t;
  group_audio_directions_ : Z;
  group_snk_audio_locations_ : Z;
  group_src_audio_locations_ : Z;
  stream_conf : stream_configuration;
}.

Definition eta_LeAudioDeviceGroup (g : LeAudioDeviceGroup) : LeAudioDeviceGroup :=
  mk_LeAudioDeviceGroup (leAudioDevices g) (cig_created_ g) (current_state_ g)
    (target_state_ g) (pending_configuration_ g)
    (pending_update_available_contexts_ g) (active_contexts_mask_ g)
    (current_context_type g) (group_audio_directions_ g)
    (group_snk_audio_locations_ g) (group_src_audio_locations_ g)
    (stream_conf g).

#[global] Instance set_leAudioDevices : Setter leAudioDevices := ltac:(make_setter eta_LeAudioDeviceGroup leAudioDevices).
#[global] Instance set_cig_created_ : Setter cig_created_ := ltac:(make_setter eta_LeAudioDeviceGroup cig_created_).
#[global] Instance set_current_state_ : Setter current_state_ := ltac:(make_setter eta_LeAudioDeviceGroup current_state_).
#[global] Instance set_target_state_ : Setter target_state_ := ltac:(make_setter eta_LeAudioDeviceGroup target_state_).
#[global] Instance set_pending_configuration_ : Setter pending_configuration_ := ltac:(make_setter eta_LeAudioDeviceGroup pending_configuration_).
#[global] Instance set_pending_update_available_contexts_ : Setter pending_update_available_contexts_ := ltac:(make_setter eta_LeAudioDeviceGroup pending_update_available_contexts_).
#[global] Instance set_active_contexts_mask_ : Setter active_contexts_mask_ := ltac:(make_setter eta_LeAudioDeviceGroup active_contexts_mask_).
#[global] Instance set_group_snk_audio_locations_ : Setter group_snk_audio_locations_ := ltac:(make_setter eta_LeAudioDeviceGroup group_snk_audio_locations_).
#[global] Instance set_group_src_audio_locations_ : Setter group_src_audio_locations_ := ltac:(make_setter eta_LeAudioDeviceGroup group_src_audio_locations_).
#[global] Instance set_stream_conf : Setter stream_conf := ltac:(make_setter eta_LeAudioDeviceGroup stream_conf).

Record LeAudioCodecConfiguration : Type := mk_LeAudioCodecConfiguration {
  num_channels : Z;
  sample_rate : Z;
  bits_per_sample : Z;
  data_interval_us : Z;
}.

(** ** Calls on collaborators

    Every call the client makes on a collaborator is logged with its
    arguments; a group or device argument is logged by its identifier. *)
Inductive ConnectionState : Type := CONNECTED | DISCONNECTED.
Inductive GroupNodeStatus : Type := ADDED | REMOVED.

Inductive Call : Type :=
(* LeAudioClientCallbacks *)
| OnConnectionState (state : ConnectionState) (address : RawAddress)
| OnGroupNodeStatus (address : RawAddress) (group_id : Z) (status : GroupNodeStatus)
| OnAudioConf (directions group_id snk_locations src_locations avail_contexts : Z)
| OnSinkAudioLocationAvailable (address : RawAddress) (snk_locations : Z)
(* LeAudioGroupStateMachine *)
| StartStream_call (group_id context_type : Z)
| StopStream_call (group_id : Z)
| ConfigureStream_call (group_id context_type : Z)
| AttachToStream_call (group_id : Z) (address : RawAddress)
| ProcessGattNotifEvent_call (address : RawAddress) (hdl : Z) (value : list Z)
| ProcessHciNotifOnCigCreate_call (status cig_id : Z)
| ProcessHciNotifOnCigRemove_call (status cig_id : Z)
(* LeAudioClientAudioSource: the downlink, the peer is a speaker *)
| AudioSource_ConfirmStreamingRequest
| AudioSource_CancelStreamingRequest
| AudioSource_SuspendedForReconfiguration
| AudioSource_UpdateRemoteDelay (remote_delay_ms : Z)
(* LeAudioClientAudioSink: the uplink, the peer is a microphone *)
| AudioSink_ConfirmStreamingRequest
| AudioSink_CancelStreamingRequest
| AudioSink_SuspendedForReconfiguration
| AudioSink_UpdateRemoteDelay (remote_delay_ms : Z)
| AudioSink_SendData (pcm : list Z)
(* codec manager and LC3 library *)
| UpdateActiveSourceAudioConfig_call (remote_delay_ms : Z)
| UpdateActiveSinkAudioConfig_call (remote_delay_ms : Z)
| lc3_decode_call (is_left : bool) (data : option (list Z)) (pcm_size : Z)
(* GATT client, GATT queue, HCI and the groups module *)
| BtaGattQueue_ReadCharacteristic (conn_id : option Z) (hdl : Z) (notify_flag : bool)
| BtaGattQueue_Clean (conn_id : Z)
| BTA_GATTC_Close (conn_id : Z)
| BTA_GATTC_Open (address : RawAddress) (is_direct : bool)
| BTA_GATTC_CancelOpen (address : RawAddress) (is_direct : bool)
| acl_disconnect_from_handle (acl_handle : Z)
| DeviceGroups_AddDevice (address : RawAddress) (group_id : option Z)
| DeviceGroups_RemoveDevice (address : RawAddress) (group_id : Z)
| btif_storage_set_leaudio_autoconnect (address : RawAddress) (autoconnect : bool)
(* error log lines that a claim refers to *)
| LOG_ERROR_bad_dt_us (dt_us : Z)
| LOG_ERROR_unknown_handle (cis_conn_hdl : Z).

Definition Call_is_OnAudioConf (c : Call) : bool :=
  match c with OnAudioConf _ _ _ _ _ => true | _ => false end.
Definition Call_is_StartStream (c : Call) : bool :=
  match c with StartStream_call _ _ => true | _ => false end.
Definition Call_is_StopStream (c : Call) : bool :=
  match c with StopStream_call _ => true | _ => false end.
Definition Call_is_AttachToStream (c : Call) : bool :=
  match c with AttachToStream_call _ _ => true | _ => false end.

Inductive CodecLocation : Type := HOST | ADSP | CONTROLLER.

(** A control point notification: the (response code, reason) of its entries. *)
Record ctp_ntf : Type := mk_ctp_ntf { entries : list (Z * Z) }.

(** ** The client object *)

Record LeAudioClientImpl : Type := mk_LeAudioClientImpl {
  leAudioDevices_ : gmap Z LeAudioDevice;
  aseGroups_ : gmap Z LeAudioDeviceGroup;
  active_group_id_ : option Z;   (* None: bluetooth::groups::kGroupUnknown *)
  current_context_type_ : LeAudioContextType.t;
  stream_setup_start_timestamp_ : Z;
  stream_setup_end_timestamp_ : Z;
  audio_receiver_state_ : AudioState.t;      (* Microphone (s) *)
  audio_sender_state_ : AudioState.t;        (* Speaker(s) *)
  current_source_codec_config : LeAudioCodecConfiguration;
  current_sink_codec_config : LeAudioCodecConfiguration;
  audio_framework_source_config : LeAudioCodecConfiguration;
  audio_framework_sink_config : LeAudioCodecConfiguration;
  lc3_encoder_left_mem : bool;               (* true: allocated *)
  lc3_encoder_right_mem : bool;
  lc3_decoder_left_mem : bool;
  lc3_decoder_right_mem : bool;
  suspend_timeout_ : option (Z * Z);         (* scheduled: timeout ms, group id *)
  cached_channel_data_ : list Z;
  cached_channel_timestamp_ : Z;
  cached_channel_is_left_ : bool;
  calls : list Call;                         (* oldest first *)
}.

Definition eta_LeAudioClientImpl (c : LeAudioClientImpl) : LeAudioClientImpl :=
  mk_LeAudioClientImpl (leAudioDevices_ c) (aseGroups_ c) (active_group_id_ c)
    (current_context_type_ c) (stream_setup_start_timestamp_ c)
    (stream_setup_end_timestamp_ c) (audio_receiver_state_ c)
    (audio_sender_state_ c) (current_source_codec_config c)
    (current_sink_codec_config c) (audio_framework_source_config c)
    (audio_framework_sink_config c) (lc3_encoder_left_mem c)
    (lc3_encoder_right_mem c) (lc3_decoder_left_mem c)
    (lc3_decoder_right_mem c) (suspend_timeout_ c) (cached_channel_data_ c)
    (cached_channel_timestamp_ c) (cached_channel_is_left_ c) (calls c).

#[global] Instance set_leAudioDevices_ : Setter leAudioDevices_ := ltac:(make_setter eta_LeAudioClientImpl leAudioDevices_).
#[global] Instance set_aseGroups_ : Setter aseGroups_ := ltac:(make_setter eta_LeAudioClientImpl aseGroups_).
#[global] Instance set_active_group_id_ : Setter active_group_id_ := ltac:(make_setter eta_LeAudioClientImpl active_group_id_).
#[global] Instance set_current_context_type_ : Setter current_context_type_ := ltac:(make_setter eta_LeAudioClientImpl current_context_type_).
#[global] Instance set_stream_setup_start_timestamp_ : Setter stream_setup_start_timestamp_ := ltac:(make_setter eta_LeAudioClientImpl stream_setup_start_timestamp_).
#[global] Instance set_stream_setup_end_timestamp_ : Setter stream_setup_end_timestamp_ := ltac:(make_setter eta_LeAudioClientImpl stream_setup_end_timestamp_).
#[global] Instance set_audio_receiver_state_ : Setter audio_receiver_state_ := ltac:(make_setter eta_LeAudioClientImpl audio_receiver_state_).
#[global] Instance set_audio_sender_state_ : Setter audio_sender_state_ := ltac:(make_setter eta_LeAudioClientImpl audio_sender_state_).
#[global] Instance set_lc3_encoder_left_mem : Setter lc3_encoder_left_mem := ltac:(make_setter eta_LeAudioClientImpl lc3_encoder_left_mem).
#[global] Instance set_lc3_encoder_right_mem : Setter lc3_encoder_right_mem := ltac:(make_setter eta_LeAudioClientImpl lc3_encoder_right_mem).
#[global] Instance set_lc3_decoder_left_mem : Setter lc3_decoder_left_mem := ltac:(make_setter eta_LeAudioClientImpl lc3_decoder_left_mem).
#[global] Instance set_lc3_decoder_right_mem : Setter lc3_decoder_right_mem := ltac:(make_setter eta_LeAudioClientImpl lc3_decoder_right_mem).
#[global] Instance set_suspend_timeout_ : Setter suspend_timeout_ := ltac:(make_setter eta_LeAudioClientImpl suspend_timeout_).
#[global] Instance set_cached_channel_data_ : Setter cached_channel_data_ := ltac:(make_setter eta_LeAudioClientImpl cached_channel_data_).
#[global] Instance set_cached_channel_timestamp_ : Setter cached_channel_timestamp_ := ltac:(make_setter eta_LeAudioClientImpl cached_channel_timestamp_).
#[global] Instance set_cached_channel_is_left_ : Setter cached_channel_is_left_ := ltac:(make_setter eta_LeAudioClientImpl cached_channel_is_left_).
#[global] Instance set_calls : Setter calls := ltac:(make_setter eta_LeAudioClientImpl calls).

(** Log one call. *)
Definition call (c : Call) (st : LeAudioClientImpl) : LeAudioClientImpl :=
  st <| calls := calls st ++ [c] |>.

(** ** Collaborators *)

(** What client.cc takes from headers and modules that are not among the
    sources at hand: enumerator values and constants (le_audio_types.h,
    client_parser.h), the parsers, the methods of [LeAudioDevice] and
    [LeAudioDeviceGroup] that compute over PAC records and configurations
    (devices.cc), and the stack (BTM, groups module, codec manager, LC3, OSI).
    A method that changes the object it is called on returns the new value of
    what it changes next to its result. *)
Class Environment : Type := {
  (* le_audio_types *)
  context_value : LeAudioContextType.t -> Z;
  kLeAudioDirectionSink : Z;
  kLeAudioDirectionSource : Z;
  kLeAudioLocationAnyLeft : Z;
  kLeAudioLocationAnyRight : Z;
  get_num_of_devices_in_configuration : option AudioSetConfiguration -> Z;
  (* client_parser *)
  kCtpResponseCodeInvalidConfigurationParameterValue : Z;
  kCtpResponseInvalidAseCisMapping : Z;
  ParsePac : list Z -> option (list acs_ac_record);
  ParseAudioLocations : list Z -> Z;
  ParseAvailableAudioContexts : list Z -> Z * Z;
  ParseSupportedAudioContexts : list Z -> Z * Z;
  ParseAseCtpNotification : list Z -> option ctp_ntf;
  (* LeAudioDevice *)
  SetAvailableContexts : LeAudioDevice -> Z -> Z -> Z * (Z * Z);
  GetAvailableContexts : LeAudioDevice -> Z;
  RegisterPACs : list acs_ac_record -> list acs_ac_record -> list acs_ac_record;
  ConfigureAses : LeAudioDevice -> SetConfiguration -> LeAudioContextType.t ->
                  Z -> Z -> Z -> bool -> bool * (list ase * Z);
  (* LeAudioDeviceGroup *)
  UpdateActiveContextsMap :
    LeAudioDeviceGroup -> gmap Z LeAudioDevice -> Z -> option Z * Z;
  ReloadAudioLocations :
    LeAudioDeviceGroup -> gmap Z LeAudioDevice -> bool * (Z * Z);
  GetCodecConfigurationByDirection :
    LeAudioDeviceGroup -> gmap Z LeAudioDevice -> LeAudioContextType.t -> Z ->
    option LeAudioCodecConfiguration;
  GetRemoteDelay : LeAudioDeviceGroup -> gmap Z LeAudioDevice -> Z -> Z;
  (* stack *)
  BTM_GetHCIConnHandle : RawAddress -> option Z;     (* None: HCI_INVALID_HANDLE *)
  DeviceGroups_GetGroupId : RawAddress -> option Z;  (* None: kGroupUnknown *)
  GetCodecLocation : CodecLocation;
  lc3_frame_samples : Z -> Z -> Z;
  lc3_decode : bool -> option (list Z) -> Z -> Z -> Z * list Z;
  time_get_os_boottime_us : Z;
  osi_property_get_int32 : Z -> Z;
}.

(** [class LeAudioGroupStateMachine]: the methods the client calls.  A method
    is handed the group and reaches the devices through it; it returns what
    both have become. *)
Class LeAudioGroupStateMachine : Type := {
  StartStream :
    LeAudioDeviceGroup -> gmap Z LeAudioDevice -> Z ->
    bool * (LeAudioDeviceGroup * gmap Z LeAudioDevice);
  StopStream :
    LeAudioDeviceGroup -> gmap Z LeAudioDevice ->
    LeAudioDeviceGroup * gmap Z LeAudioDevice;
  ConfigureStream :
    LeAudioDeviceGroup -> gmap Z LeAudioDevice -> LeAudioContextType.t ->
    bool * (LeAudioDeviceGroup * gmap Z LeAudioDevice);
  AttachToStream :
    LeAudioDeviceGroup -> gmap Z LeAudioDevice -> RawAddress ->
    LeAudioDeviceGroup * gmap Z LeAudioDevice;
  ProcessGattNotifEvent :
    list Z -> Z -> RawAddress -> option LeAudioDeviceGroup ->
    gmap Z LeAudioDevice -> option LeAudioDeviceGroup * gmap Z LeAudioDevice;
  ProcessHciNotifOnCigCreate :
    Z -> list Z -> LeAudioDeviceGroup -> gmap Z LeAudioDevice ->
    LeAudioDeviceGroup * gmap Z LeAudioDevice;
  ProcessHciNotifOnCigRemove :
    Z -> LeAudioDeviceGroup -> gmap Z LeAudioDevice ->
    LeAudioDeviceGroup * gmap Z LeAudioDevice;
}.

(** ** Registries, groups and devices (devices.cc)

    The accessors of the two registries and of the group, which client.cc
    calls and devices.cc defines. *)

(** Modelled from the spec: LeAudioDevices::Add and the constructor of
    LeAudioDevice (section 3, Device: a new device is disconnected, not
    encrypted, unassigned, with no handle known). *)
Definition new_LeAudioDevice (first_connection : bool) : LeAudioDevice :=
  {| conn_id_ := None; group_id_ := None; encrypted_ := false;
     known_service_handles_ := false; notify_connected_after_read_ := false;
     removing_device_ := false; connecting_actively_ := first_connection;
     first_connection_ := first_connection; csis_member_ := false;
     audio_directions_ := 0; snk_audio_locations_ := 0;
     src_audio_locations_ := 0; avail_contexts_ := (0, 0);
     supp_contexts_ := (0, 0); snk_pacs_ := []; src_pacs_ := [];
     snk_audio_locations_hdls_ := 0; src_audio_locations_hdls_ := 0;
     audio_avail_hdls_ := 0; audio_supp_cont_hdls_ := 0; ctp_hdls_ := 0;
     ases_ := [] |}.

Definition empty_direction_configuration : direction_configuration :=
  {| streams := []; num_of_devices := 0; num_of_channels := 0;
     sample_frequency_hz := 0; stream_frame_duration_us := 0;
     stream_audio_channel_allocation := 0; stream_octets_per_codec_frame := 0;
     stream_codec_frames_blocks_per_sdu := 0 |}.

(** Modelled from the spec: the constructor of LeAudioDeviceGroup (section 3,
    Group and Lifecycles: a group is created without members, idle, with no
    CIG and nothing pending). *)
Definition new_LeAudioDeviceGroup : LeAudioDeviceGroup :=
  {| leAudioDevices := []; cig_created_ := false;
     current_state_ := AseState.BTA_LE_AUDIO_ASE_STATE_IDLE;
     target_state_ := AseState.BTA_LE_AUDIO_ASE_STATE_IDLE;
     pending_configuration_ := false;
     pending_update_available_contexts_ := None;
     active_contexts_mask_ := 0;
     current_context_type := LeAudioContextType.UNSPECIFIED;
     group_audio_directions_ := 0; group_snk_audio_locations_ := 0;
     group_src_audio_locations_ := 0;
     stream_conf := {| conf := None;
                       sink := empty_direction_configuration;
                       source := empty_direction_configuration |} |}.

(** Modelled from the spec: LeAudioDeviceGroup::IsEmpty (section 3: a group is
    empty when its member list is). *)
Definition IsEmpty (g : LeAudioDeviceGroup) : bool :=
  match leAudioDevices g with [] => true | _ => false end.

(** Modelled from the spec: LeAudioDeviceGroup::IsInTransition (section 3:
    in transition means current state differs from target state). *)
Definition IsInTransition (g : LeAudioDeviceGroup) : bool :=
  negb (AseState.eqb (target_state_ g) (current_state_ g)).

(** Modelled from the spec: LeAudioDeviceGroups::IsAnyInTransition (section
    4.3, start-stream step 2: any group of the registry is in transition). *)
Definition IsAnyInTransition (groups : gmap Z LeAudioDeviceGroup) : bool :=
  existsb (fun kg => IsInTransition kg.2) (map_to_list groups).

Definition is_connected (devices : gmap Z LeAudioDevice) (a : RawAddress) : bool :=
  match devices !! a with
  | Some d => bool_decide (is_Some (conn_id_ d))
  | None => false
  end.

(** Modelled from the spec: LeAudioDeviceGroup::NumOfConnected and
    IsAnyDeviceConnected (section 3: a device holds a connection handle or is
    disconnected; the group counts its connected members). *)
Definition NumOfConnected (g : LeAudioDeviceGroup)
    (devices : gmap Z LeAudioDevice) : Z :=
  Z.of_nat (length (List.filter (is_connected devices) (leAudioDevices g))).

Definition IsAnyDeviceConnected (g : LeAudioDeviceGroup)
    (devices : gmap Z LeAudioDevice) : bool :=
  negb (NumOfConnected g devices =? 0).

(** A device is active when one of its ASEs is marked active
    (LeAudioDevice::HaveActiveAse). *)
Definition HaveActiveAse (d : LeAudioDevice) : bool := existsb active (ases_ d).

Definition is_active (devices : gmap Z LeAudioDevice) (a : RawAddress) : bool :=
  match devices !! a with
  | Some d => HaveActiveAse d
  | None => false
  end.

(** The part of [l] behind the first occurrence of [a]. *)
Fixpoint behind (a : RawAddress) (l : list RawAddress) : list RawAddress :=
  match l with
  | [] => []
  | x :: l' => if x =? a then l' else behind a l'
  end.

(** Modelled from the spec: the iteration over a group's members (section 3:
    the member list is ordered and free of duplicates; section 4.3: the
    active members are visited in that order). *)
Definition is_registered (devices : gmap Z LeAudioDevice) (a : RawAddress) : bool :=
  bool_decide (is_Some (devices !! a)).

Definition GetFirstDevice (g : LeAudioDeviceGroup)
    (devices : gmap Z LeAudioDevice) : option RawAddress :=
  List.find (is_registered devices) (leAudioDevices g).

Definition GetNextDevice (g : LeAudioDeviceGroup)
    (devices : gmap Z LeAudioDevice) (a : RawAddress) : option RawAddress :=
  List.find (is_registered devices) (behind a (leAudioDevices g)).

Definition active_devices (g : LeAudioDeviceGroup)
    (devices : gmap Z LeAudioDevice) : list RawAddress :=
  List.filter (is_active devices) (leAudioDevices g).

Definition GetFirstActiveDevice (g : LeAudioDeviceGroup)
    (devices : gmap Z LeAudioDevice) : option RawAddress :=
  List.find (is_active devices) (leAudioDevices g).

Definition GetNextActiveDevice (g : LeAudioDeviceGroup)
    (devices : gmap Z LeAudioDevice) (a : RawAddress) : option RawAddress :=
  List.find (is_active devices) (behind a (leAudioDevices g)).

Definition IsDeviceInTheGroup (g : LeAudioDeviceGroup) (a : RawAddress) : bool :=
  existsb (Z.eqb a) (leAudioDevices g).

(** ** The member functions of LeAudioClientImpl *)

Section Client.
Context {E : Environment} {SM : LeAudioGroupStateMachine}.

(** A [LeAudioDeviceGroup*] is the identifier of a registered group, or
    null; a [LeAudioDevice*] is the address of a registered device, or
    null.  A lookup returns the pointer together with the object as it is
    at that moment.  Reading through a pointer whose object is not in the
    registry is a fault. *)
Definition FindById (st : LeAudioClientImpl) (group_id : option Z)
  : option (Z * LeAudioDeviceGroup) :=
  match group_id with
  | Some id =>
      match aseGroups_ st !! id with
      | Some g => Some (id, g)
      | None => None
      end
  | None => None
  end.

Definition FindByAddress (st : LeAudioClientImpl) (address : RawAddress)
  : option LeAudioDevice :=
  leAudioDevices_ st !! address.

Definition group_at (st : LeAudioClientImpl) (id : Z) : Result LeAudioDeviceGroup :=
  match aseGroups_ st !! id with
  | Some g => Done g
  | None => Abort NullPointerAccess
  end.

Definition device_at (st : LeAudioClientImpl) (address : RawAddress)
  : Result LeAudioDevice :=
  match leAudioDevices_ st !! address with
  | Some d => Done d
  | None => Abort NullPointerAccess
  end.

Definition update_group (id : Z) (f : LeAudioDeviceGroup -> LeAudioDeviceGroup)
    (st : LeAudioClientImpl) : LeAudioClientImpl :=
  st <| aseGroups_ := alter f id (aseGroups_ st) |>.

Definition update_device (address : RawAddress)
    (f : LeAudioDevice -> LeAudioDevice) (st : LeAudioClientImpl)
  : LeAudioClientImpl :=
  st <| leAudioDevices_ := alter f address (leAudioDevices_ st) |>.

(** What a state machine method leaves behind is stored back. *)
Definition store_back (id : Z)
    (r : LeAudioDeviceGroup * gmap Z LeAudioDevice) (st : LeAudioClientImpl)
  : LeAudioClientImpl :=
  st <| aseGroups_ := <[id := r.1]> (aseGroups_ st) |>
     <| leAudioDevices_ := r.2 |>.

(** Modelled from the spec: LeAudioDeviceGroups::FindByConnId walks the
    registry for the device that holds the connection (section 3). *)
Definition FindByConnId (st : LeAudioClientImpl) (conn_id : Z)
  : option RawAddress :=
  fst <$> List.find (fun kd => bool_decide (conn_id_ kd.2 = Some conn_id))
                    (map_to_list (leAudioDevices_ st)).

(** Modelled from the spec: LeAudioDeviceGroup::AddNode and RemoveNode
    (section 3 and 9: the group lists its members in insertion order, the
    device refers to its group by id). *)
Definition AddNode (id : Z) (address : RawAddress) (st : LeAudioClientImpl)
  : LeAudioClientImpl :=
  update_group id (fun g => g <| leAudioDevices := leAudioDevices g ++ [address] |>)
    (update_device address (fun d => d <| group_id_ := Some id |>) st).

Definition RemoveNode (id : Z) (address : RawAddress) (st : LeAudioClientImpl)
  : LeAudioClientImpl :=
  update_group id
    (fun g => g <| leAudioDevices :=
                     List.filter (fun a => negb (a =? address)) (leAudioDevices g) |>)
    (update_device address (fun d => d <| group_id_ := None |>) st).

Definition SuspendedForReconfiguration (st : LeAudioClientImpl)
  : LeAudioClientImpl :=
  let st :=
    if AudioState.gtb (audio_sender_state_ st) AudioState.IDLE
    then call AudioSource_SuspendedForReconfiguration st else st in
  if AudioState.gtb (audio_receiver_state_ st) AudioState.IDLE
  then call AudioSink_SuspendedForReconfiguration st else st.

Definition CancelStreamingRequest (st : LeAudioClientImpl) : LeAudioClientImpl :=
  let st :=
    if AudioState.geb (audio_sender_state_ st) AudioState.READY_TO_START
    then (call AudioSource_CancelStreamingRequest st)
           <| audio_sender_state_ := AudioState.IDLE |>
    else st in
  if AudioState.geb (audio_receiver_state_ st) AudioState.READY_TO_START
  then (call AudioSink_CancelStreamingRequest st)
         <| audio_receiver_state_ := AudioState.IDLE |>
  else st.

Definition ControlPointNotificationHandler (ntf : ctp_ntf)
    (st : LeAudioClientImpl) : LeAudioClientImpl :=
  fold_left
    (fun st entry =>
       if (entry.1 =? kCtpResponseCodeInvalidConfigurationParameterValue)
          && (entry.2 =? kCtpResponseInvalidAseCisMapping)
       then CancelStreamingRequest st
       else st)
    (entries ntf) st.

Definition DisconnectDevice (leAudioDevice : RawAddress)
    (acl_force_disconnect : bool) (st : LeAudioClientImpl)
  : Result LeAudioClientImpl :=
  let! d := device_at st leAudioDevice in
  match conn_id_ d with
  | None => Done st
  | Some conn_id =>
      match (if acl_force_disconnect
             then BTM_GetHCIConnHandle leAudioDevice else None) with
      | Some acl_handle => Done (call (acl_disconnect_from_handle acl_handle) st)
      | None =>
          Done (update_device leAudioDevice (fun d => d <| conn_id_ := None |>)
                  (call (BTA_GATTC_Close conn_id)
                     (call (BtaGattQueue_Clean conn_id) st)))
      end
  end.

(** The do-while loop of OnLeAudioDeviceSetStateTimeout, with an iteration
    bound. *)
Fixpoint disconnect_active_devices (fuel : nat) (group : Z)
    (leAudioDevice : RawAddress) (st : LeAudioClientImpl)
  : Result LeAudioClientImpl :=
  match fuel with
  | O => Abort OutOfFuel
  | S fuel' =>
      let! st := DisconnectDevice leAudioDevice true st in
      let! g := group_at st group in
      match GetNextActiveDevice g (leAudioDevices_ st) leAudioDevice with
      | Some next => disconnect_active_devices fuel' group next st
      | None => Done st
      end
  end.

Definition OnLeAudioDeviceSetStateTimeout (group_id : Z)
    (st : LeAudioClientImpl) : Result LeAudioClientImpl :=
  match aseGroups_ st !! group_id with
  | None => (* Group removed *) Done st
  | Some _ =>
      let st := update_group group_id
                  (fun g => g <| target_state_ := AseState.BTA_LE_AUDIO_ASE_STATE_IDLE |>)
                  st in
      let st := CancelStreamingRequest st in
      let! g := group_at st group_id in
      let first :=
        match GetFirstActiveDevice g (leAudioDevices_ st) with
        | Some a => Some a
        | None => GetFirstDevice g (leAudioDevices_ st)
        end in
      match first with
      | None => Done st
      | Some a =>
          disconnect_active_devices (S (length (leAudioDevices g))) group_id a st
      end
  end.

(** [group->UpdateActiveContextsMap(update_contexts)] and
    [group->ReloadAudioLocations()]: the result, and the group as the call
    leaves it. *)
Definition group_UpdateActiveContextsMap (group : Z) (update_contexts : Z)
    (st : LeAudioClientImpl) : Result (option Z * LeAudioClientImpl) :=
  let! g := group_at st group in
  let r := UpdateActiveContextsMap g (leAudioDevices_ st) update_contexts in
  Done (r.1, update_group group (fun g => g <| active_contexts_mask_ := r.2 |>) st).

Definition group_ReloadAudioLocations (group : Z) (st : LeAudioClientImpl)
  : Result (bool * LeAudioClientImpl) :=
  let! g := group_at st group in
  let r := ReloadAudioLocations g (leAudioDevices_ st) in
  Done (r.1, update_group group
               (fun g => g <| group_snk_audio_locations_ := r.2.1 |>
                           <| group_src_audio_locations_ := r.2.2 |>) st).

(** [callbacks_->OnAudioConf(group->audio_directions_, group->group_id_,
    group->snk_audio_locations_.to_ulong(),
    group->src_audio_locations_.to_ulong(), contexts)]. *)
Definition callbacks_OnAudioConf (group : Z) (contexts : Z)
    (st : LeAudioClientImpl) : Result LeAudioClientImpl :=
  let! g := group_at st group in
  Done (call (OnAudioConf (group_audio_directions_ g) group
                (group_snk_audio_locations_ g) (group_src_audio_locations_ g)
                contexts) st).

(** [a || b()] with [b] evaluated only when [a] is false. *)
Definition or_else (a : bool)
    (b : LeAudioClientImpl -> Result (bool * LeAudioClientImpl))
    (st : LeAudioClientImpl) : Result (bool * LeAudioClientImpl) :=
  if a then Done (true, st) else b st.

Definition UpdateContextAndLocations (group : Z) (leAudioDevice : RawAddress)
    (st : LeAudioClientImpl) : Result LeAudioClientImpl :=
  let! d := device_at st leAudioDevice in
  let! (new_group_updated_contexts, st) :=
    group_UpdateActiveContextsMap group (GetAvailableContexts d) st in
  let! (cond, st) :=
    or_else (bool_decide (is_Some new_group_updated_contexts))
            (group_ReloadAudioLocations group) st in
  if cond then
    match new_group_updated_contexts with
    | Some contexts => callbacks_OnAudioConf group contexts st
    | None => Abort EmptyOptionalAccess
    end
  else Done st.

Definition remove_group_if_possible (group : option Z)
    (st : LeAudioClientImpl) : Result LeAudioClientImpl :=
  match group with
  | None => Done st
  | Some id =>
      let! g := group_at st id in
      if IsEmpty g && negb (cig_created_ g)
      then Done (st <| aseGroups_ := delete id (aseGroups_ st) |>)
      else Done st
  end.

Definition group_remove_node (group : Z) (address : RawAddress)
    (update_group_module : bool) (st : LeAudioClientImpl)
  : Result LeAudioClientImpl :=
  let! _ := group_at st group in
  let! _ := device_at st address in
  let st := RemoveNode group address st in
  let st :=
    if update_group_module
    then if bool_decide (DeviceGroups_GetGroupId address = Some group)
         then call (DeviceGroups_RemoveDevice address group) st
         else st
    else st in
  let st := call (OnGroupNodeStatus address group REMOVED) st in
  let! g := group_at st group in
  (* Remove group if this was the last leAudioDevice in this group *)
  if IsEmpty g then remove_group_if_possible (Some group) st
  else
    (* Removing node from group touch its context integrity *)
    let! (updated_contexts, st) :=
      group_UpdateActiveContextsMap group (active_contexts_mask_ g) st in
    let! (cond, st) :=
      or_else (bool_decide (is_Some updated_contexts))
              (group_ReloadAudioLocations group) st in
    if cond then
      let! g := group_at st group in
      callbacks_OnAudioConf group (active_contexts_mask_ g) st
    else Done st.

(** The notify flag is set for the last ASE when the device asks for it. *)
Definition AseInitialStateReadRequest (leAudioDevice : RawAddress)
    (st : LeAudioClientImpl) : Result LeAudioClientImpl :=
  let! d := device_at st leAudioDevice in
  let ases_num := length (ases_ d) in
  Done (fold_left
          (fun st ia =>
             call (BtaGattQueue_ReadCharacteristic (conn_id_ d) (val_hdl ia.2)
                     (notify_connected_after_read_ d
                      && bool_decide (S ia.1 = ases_num))) st)
          (combine (seq 0 ases_num) (ases_ d)) st).

(** Modelled from the spec: LeAudioDeviceGroups::Add (section 3: groups are
    keyed by group id; adding an id that is present fails). *)
Definition aseGroups_Add (id : Z) (st : LeAudioClientImpl)
  : option Z * LeAudioClientImpl :=
  match aseGroups_ st !! id with
  | Some _ => (None, st)
  | None => (Some id, st <| aseGroups_ := <[id := new_LeAudioDeviceGroup]> (aseGroups_ st) |>)
  end.

(** The second half of group_add_node, from the point where new_group is
    known: the device leaves its old group, joins the new one, and both
    groups have their contexts and locations refreshed. *)
Definition group_add_node_tail (address : RawAddress) (update_group_module : bool)
    (old_group : option Z) (new_group : Z) (st : LeAudioClientImpl)
  : Result LeAudioClientImpl :=
  (* If device was in the group and it was not removed by the
     application, lets do it now *)
  let! st := match old_group with
             | Some og => group_remove_node og address update_group_module st
             | None => Done st
             end in
  let! _ := group_at st new_group in
  let! _ := device_at st address in
  let st := AddNode new_group address st in
  let st := call (OnGroupNodeStatus address new_group ADDED) st in
  (* If device is connected and added to the group, lets read ASE states *)
  let! d := device_at st address in
  let! st := if bool_decide (is_Some (conn_id_ d))
             then AseInitialStateReadRequest address st else Done st in
  (* Group may be destroyed once moved its last node to new group *)
  let! st :=
    match FindById st old_group with
    | Some (og, g) =>
        (* Removing node from group may touch its context integrity *)
        let! (old_group_updated_contexts, st) :=
          group_UpdateActiveContextsMap og (active_contexts_mask_ g) st in
        let! (cond, st) :=
          or_else (bool_decide (is_Some old_group_updated_contexts))
                  (group_ReloadAudioLocations og) st in
        if cond then
          let! g := group_at st og in
          callbacks_OnAudioConf og (active_contexts_mask_ g) st
        else Done st
    | None => Done st
    end in
  UpdateContextAndLocations new_group address st.

Definition group_add_node (group_id : option Z) (address : RawAddress)
    (update_group_module : bool) (st : LeAudioClientImpl)
  : Result LeAudioClientImpl :=
  let known := FindByAddress st address in
  match known, group_id with
  | None, None => Done st
  | _, _ =>
      let! (old_group, st) :=
        match known with
        | None =>
            Done (None, st <| leAudioDevices_ :=
                                <[address := new_LeAudioDevice true]> (leAudioDevices_ st) |>)
        | Some d =>
            match group_id_ d with
            | Some og => let! _ := group_at st og in Done (Some og, st)
            | None => Done (None, st)
            end
        end in
      let id := DeviceGroups_GetGroupId address in
      match group_id with
      | None =>
          match id with
          | None =>
              (* We will get back here when group will be created *)
              Done (call (DeviceGroups_AddDevice address None) st)
          | Some id =>
              match aseGroups_Add id st with
              | (None, st) => Done st
              | (Some new_group, st) =>
                  group_add_node_tail address update_group_module old_group
                    new_group st
              end
          end
      | Some group_id =>
          if negb (bool_decide (id = Some group_id)) then Abort AssertionFailure
          else
            match aseGroups_ st !! group_id with
            | None =>
                match aseGroups_Add group_id st with
                | (None, st) => Abort NullPointerAccess
                | (Some new_group, st) =>
                  group_add_node_tail address update_group_module old_group
                    new_group st
                end
            | Some g =>
                if IsDeviceInTheGroup g address then Done st
                else group_add_node_tail address update_group_module old_group
                       group_id st
            end
      end
  end.

Definition GroupRemoveNode (group_id : option Z) (address : RawAddress)
    (st : LeAudioClientImpl) : Result LeAudioClientImpl :=
  match FindByAddress st address with
  | None => Done st
  | Some d =>
      if negb (bool_decide (group_id_ d = group_id)) then Done st
      else match FindById st group_id with
           | None => Done st
           | Some (group, _) => group_remove_node group address true st
           end
  end.

Definition BackgroundConnectIfGroupConnected (leAudioDevice : RawAddress)
    (st : LeAudioClientImpl) : Result LeAudioClientImpl :=
  let! d := device_at st leAudioDevice in
  match FindById st (group_id_ d) with
  | None => Done st
  | Some (_, g) =>
      if negb (IsAnyDeviceConnected g (leAudioDevices_ st)) then Done st
      else Done (call (BTA_GATTC_Open leAudioDevice false) st)
  end.

Definition Disconnect (address : RawAddress) (st : LeAudioClientImpl)
  : Result LeAudioClientImpl :=
  match FindByAddress st address with
  | None => Done st
  | Some d =>
      (* cancel pending direct connect *)
      let st :=
        if connecting_actively_ d
        then update_device address (fun d => d <| connecting_actively_ := false |>)
               (call (BTA_GATTC_CancelOpen address true) st)
        else st in
      (* Removes all registrations for connection *)
      let st := call (BTA_GATTC_CancelOpen address false) st in
      if bool_decide (is_Some (conn_id_ d))
      then DisconnectDevice address false st
      else BackgroundConnectIfGroupConnected address st
  end.

Definition RemoveDevice (address : RawAddress) (st : LeAudioClientImpl)
  : Result LeAudioClientImpl :=
  match FindByAddress st address with
  | None => Done st
  | Some d =>
      if bool_decide (is_Some (conn_id_ d)) then
        let! st := Disconnect address st in
        Done (update_device address (fun d => d <| removing_device_ := true |>) st)
      else
        let! st :=
          match group_id_ d with
          | Some id => group_remove_node id address true st
          | None => Done st
          end in
        Done (st <| leAudioDevices_ := delete address (leAudioDevices_ st) |>)
  end.

Definition InternalGroupStream (group_id : option Z) (context_type : Z)
    (st : LeAudioClientImpl) : bool * LeAudioClientImpl :=
  if context_value LeAudioContextType.RFU <=? context_type then (false, st)
  else
    match FindById st group_id with
    | None => (false, st)
    | Some (group, g) =>
        let supported_context_type := active_contexts_mask_ g in
        let final_context_type :=
          if Z.land context_type supported_context_type =? 0
          then context_value LeAudioContextType.UNSPECIFIED
          else context_type in
        if negb (IsAnyDeviceConnected g (leAudioDevices_ st)) then (false, st)
        (* Check if any group is in the transition state. If so, we don't
           allow to start new group to stream *)
        else if IsAnyInTransition (aseGroups_ st) then (false, st)
        else
          let r := StartStream g (leAudioDevices_ st) final_context_type in
          let st := store_back group r.2
                      (call (StartStream_call group final_context_type) st) in
          if r.1
          then (true, st <| stream_setup_start_timestamp_ := time_get_os_boottime_us |>)
          else (false, st)
    end.

Definition GroupStream (group_id : option Z) (context_type : Z)
    (st : LeAudioClientImpl) : LeAudioClientImpl :=
  (InternalGroupStream group_id context_type st).2.

Definition GroupStop (group_id : option Z) (st : LeAudioClientImpl)
  : LeAudioClientImpl :=
  match FindById st group_id with
  | None => st
  | Some (group, g) =>
      if IsEmpty g then st
      else if AseState.eqb (current_state_ g) AseState.BTA_LE_AUDIO_ASE_STATE_IDLE
      then st
      else store_back group (StopStream g (leAudioDevices_ st))
             (call (StopStream_call group) st)
  end.

(** The two CIG events of the ISO manager; [evt->cig_id] names the group. *)
Inductive cig_event : Type :=
| kIsoEventCigOnCreateCmpl (status cig_id : Z) (conn_handles : list Z)
| kIsoEventCigOnRemoveCmpl (status cig_id : Z)
| kIsoEventCigOther (event_type : Z).

(** The state machine is handed the group that FindById returns; what it
    does with a null group is its own affair and leaves the registry of the
    client as it is. *)
Definition IsoCigEventsCb (event : cig_event) (st : LeAudioClientImpl)
  : Result LeAudioClientImpl :=
  match event with
  | kIsoEventCigOnCreateCmpl status cig_id conn_handles =>
      let st := call (ProcessHciNotifOnCigCreate_call status cig_id) st in
      match FindById st (Some cig_id) with
      | Some (group, g) =>
          Done (store_back group
                  (ProcessHciNotifOnCigCreate status conn_handles g (leAudioDevices_ st))
                  st)
      | None => Done st
      end
  | kIsoEventCigOnRemoveCmpl status cig_id =>
      let st := call (ProcessHciNotifOnCigRemove_call status cig_id) st in
      match FindById st (Some cig_id) with
      | Some (group, g) =>
          let st := store_back group
                      (ProcessHciNotifOnCigRemove status g (leAudioDevices_ st)) st in
          remove_group_if_possible (Some group) st
      | None => remove_group_if_possible None st
      end
  | kIsoEventCigOther _ => Done st
  end.

(** The first entry of a PAC list with the given value handle gets new
    records. *)
Fixpoint register_pacs_at (hdl : Z) (pac_recs : list acs_ac_record)
    (pacs : list (Z * list acs_ac_record)) : list (Z * list acs_ac_record) :=
  match pacs with
  | [] => []
  | ent :: rest =>
      if ent.1 =? hdl then (ent.1, RegisterPACs ent.2 pac_recs) :: rest
      else ent :: register_pacs_at hdl pac_recs rest
  end.

Definition has_handle (hdl : Z) (pacs : list (Z * list acs_ac_record)) : bool :=
  existsb (fun ent => ent.1 =? hdl) pacs.

(** The branch of LeAudioCharValueHandle for the Available Audio Contexts
    characteristic. *)
Definition on_available_audio_contexts (leAudioDevice : RawAddress)
    (d : LeAudioDevice) (value : list Z) (st : LeAudioClientImpl)
  : Result LeAudioClientImpl :=
  let avail_audio_contexts := ParseAvailableAudioContexts value in
  let r := SetAvailableContexts d avail_audio_contexts.1 avail_audio_contexts.2 in
  let updated_avail_contexts := r.1 in
  let st := update_device leAudioDevice (fun d => d <| avail_contexts_ := r.2 |>) st in
  if negb (updated_avail_contexts =? 0) then
    (* Update scenario map considering changed active context types *)
    match FindById st (group_id_ d) with
    | Some (group, g) =>
        (* Update of available context may happen during state transition
           or while streaming. Don't bother current transition or streaming
           process. Update configuration once group became idle. *)
        if IsInTransition g
           || AseState.eqb (current_state_ g) AseState.BTA_LE_AUDIO_ASE_STATE_STREAMING
        then Done (update_group group
                     (fun g => g <| pending_update_available_contexts_ :=
                                      Some updated_avail_contexts |>) st)
        else
          let! (updated_contexts, st) :=
            group_UpdateActiveContextsMap group updated_avail_contexts st in
          if bool_decide (is_Some updated_contexts) then
            let! g := group_at st group in
            callbacks_OnAudioConf group (active_contexts_mask_ g) st
          else Done st
    | None => Done st
    end
  else Done st.

(** The two branches for the Sink and Source Audio Locations
    characteristics; [sink] tells them apart. *)
Definition on_audio_locations (sink_side : bool) (leAudioDevice : RawAddress)
    (d : LeAudioDevice) (value : list Z) (st : LeAudioClientImpl)
  : Result LeAudioClientImpl :=
  let audio_locations := ParseAudioLocations value in
  let dir := if sink_side then kLeAudioDirectionSink else kLeAudioDirectionSource in
  let stored := if sink_side then snk_audio_locations_ d else src_audio_locations_ d in
  (* Value may not change *)
  if negb (Z.land (audio_directions_ d) dir =? 0)
     && (Z.lxor stored audio_locations =? 0)
  then Done st
  else
    let st :=
      update_device leAudioDevice
        (fun d =>
           let d := d <| audio_directions_ := Z.lor (audio_directions_ d) dir |> in
           if sink_side then d <| snk_audio_locations_ := audio_locations |>
           else d <| src_audio_locations_ := audio_locations |>) st in
    let st := if sink_side
              then call (OnSinkAudioLocationAvailable leAudioDevice audio_locations) st
              else st in
    match FindById st (group_id_ d) with
    | Some (group, _) =>
        let! (reloaded, st) := group_ReloadAudioLocations group st in
        if reloaded then
          let! g := group_at st group in
          callbacks_OnAudioConf group (active_contexts_mask_ g) st
        else Done st
    | None => Done st
    end.

(** The two branches for a Sink PAC or Source PAC characteristic. *)
Definition on_pac (sink_side : bool) (leAudioDevice : RawAddress)
    (d : LeAudioDevice) (hdl : Z) (value : list Z) (st : LeAudioClientImpl)
  : Result LeAudioClientImpl :=
  (* Guard consistency of PAC records structure *)
  match ParsePac value with
  | None => Done st
  | Some pac_recs =>
      let st :=
        update_device leAudioDevice
          (fun d => if sink_side
                    then d <| snk_pacs_ := register_pacs_at hdl pac_recs (snk_pacs_ d) |>
                    else d <| src_pacs_ := register_pacs_at hdl pac_recs (src_pacs_ d) |>)
          st in
      match FindById st (group_id_ d) with
      | Some (group, _) =>
          let! d := device_at st leAudioDevice in
          let! (_, st) :=
            group_UpdateActiveContextsMap group (GetAvailableContexts d) st in
          Done st
      | None => Done st
      end
  end.

(** This is a generic read/notify/indicate handler for gatt. Here messages
    are dispatched to correct elements e.g. ASEs, PACs, audio locations etc. *)
Definition LeAudioCharValueHandle (conn_id hdl : Z) (value : list Z)
    (st : LeAudioClientImpl) : Result LeAudioClientImpl :=
  match FindByConnId st conn_id with
  | None => Done st
  | Some leAudioDevice =>
      let! d := device_at st leAudioDevice in
      if existsb (fun a => val_hdl a =? hdl) (ases_ d) then
        let group := FindById st (group_id_ d) in
        let st := call (ProcessGattNotifEvent_call leAudioDevice hdl value) st in
        let r := ProcessGattNotifEvent value hdl leAudioDevice (snd <$> group)
                   (leAudioDevices_ st) in
        let st := st <| leAudioDevices_ := r.2 |> in
        match group, r.1 with
        | Some (id, _), Some g => Done (st <| aseGroups_ := <[id := g]> (aseGroups_ st) |>)
        | _, _ => Done st
        end
      else if has_handle hdl (snk_pacs_ d) then on_pac true leAudioDevice d hdl value st
      else if has_handle hdl (src_pacs_ d) then on_pac false leAudioDevice d hdl value st
      else if hdl =? snk_audio_locations_hdls_ d
      then on_audio_locations true leAudioDevice d value st
      else if hdl =? src_audio_locations_hdls_ d
      then on_audio_locations false leAudioDevice d value st
      else if hdl =? audio_avail_hdls_ d
      then on_available_audio_contexts leAudioDevice d value st
      else if hdl =? audio_supp_cont_hdls_ d
      then (* Just store if for now *)
        Done (update_device leAudioDevice
                (fun d => d <| supp_contexts_ := ParseSupportedAudioContexts value |>) st)
      else if hdl =? ctp_hdls_ d
      then match ParseAseCtpNotification value with
           | Some ntf => Done (ControlPointNotificationHandler ntf st)
           | None => Done st
           end
      else Done st
  end.

Definition HandlePendingAvailableContexts (group : option Z)
    (st : LeAudioClientImpl) : Result LeAudioClientImpl :=
  match group with
  | None => Done st
  | Some id =>
      let! g := group_at st id in
      (* Update group configuration with pending available context *)
      match pending_update_available_contexts_ g with
      | Some pending_update_available_contexts =>
          let! (updated_contexts, st) :=
            group_UpdateActiveContextsMap id pending_update_available_contexts st in
          let! st := match updated_contexts with
                     | Some contexts => callbacks_OnAudioConf id contexts st
                     | None => Done st
                     end in
          Done (update_group id
                  (fun g => g <| pending_update_available_contexts_ := None |>) st)
      | None => Done st
      end
  end.

(** The loop of AttachToStreamingGroupIfNeeded over the entries of the
    configuration: a ConfigureAses that fails ends the function.  The
    result tells whether every entry was configured. *)
Fixpoint configure_entries (ents : list SetConfiguration)
    (leAudioDevice : RawAddress) (context_type : LeAudioContextType.t)
    (sink_num_of_active_ases source_num_of_active_ases : Z)
    (sink_group_audio_locations source_group_audio_locations : Z)
    (st : LeAudioClientImpl) : Result (bool * LeAudioClientImpl) :=
  match ents with
  | [] => Done (true, st)
  | ent :: ents' =>
      let! d := device_at st leAudioDevice in
      let sink_side := ent_direction ent =? kLeAudioDirectionSink in
      let r := ConfigureAses d ent context_type
                 (if sink_side then sink_num_of_active_ases
                  else source_num_of_active_ases)
                 sink_group_audio_locations source_group_audio_locations true in
      let st := update_device leAudioDevice (fun d => d <| ases_ := r.2.1 |>) st in
      if negb r.1 then Done (false, st)
      else configure_entries ents' leAudioDevice context_type
             (if sink_side then r.2.2 else sink_num_of_active_ases)
             (if sink_side then source_num_of_active_ases else r.2.2)
             sink_group_audio_locations source_group_audio_locations st
  end.

(** [for (auto [cis_handle, audio_location] : streams)] accumulating the
    locations and counting in a [uint8_t]. *)
Definition group_audio_locations (streams : list (Z * Z)) : Z :=
  fold_left (fun acc s => Z.lor acc s.2) streams 0.
Definition num_of_active_ases (streams : list (Z * Z)) : Z :=
  fold_left (fun acc _ => to_uint8 (acc + 1)) streams 0.

Definition AttachToStreamingGroupIfNeeded (leAudioDevice : RawAddress)
    (st : LeAudioClientImpl) : Result LeAudioClientImpl :=
  let! d := device_at st leAudioDevice in
  if negb (bool_decide (group_id_ d = active_group_id_ st)) then Done st
  else
    (* Restore configuration *)
    let group := FindById st (active_group_id_ st) in
    if AudioState.eqb (audio_sender_state_ st) AudioState.IDLE
       && AudioState.eqb (audio_receiver_state_ st) AudioState.IDLE
    then Done st
    else
      match group with
      | None => Abort NullPointerAccess
      | Some (group, g) =>
          let stream_conf := stream_conf g in
          let num_of_devices :=
            get_num_of_devices_in_configuration (conf stream_conf) in
          if num_of_devices <? NumOfConnected g (leAudioDevices_ st) then
            (* Second device got just paired. We need to reconfigure CIG *)
            let st := update_group group
                        (fun g => g <| pending_configuration_ := true |>) st in
            let! g := group_at st group in
            Done (store_back group (StopStream g (leAudioDevices_ st))
                    (call (StopStream_call group) st))
          else
            (* Second device got reconnect. Try to get it to the stream
               seamlessly *)
            match conf stream_conf with
            | None => Abort NullPointerAccess
            | Some c =>
                let! (configured, st) :=
                  configure_entries (confs c) leAudioDevice (current_context_type g)
                    (num_of_active_ases (sink_streams stream_conf))
                    (num_of_active_ases (source_streams stream_conf))
                    (group_audio_locations (sink_streams stream_conf))
                    (group_audio_locations (source_streams stream_conf)) st in
                if configured then
                  let! g := group_at st group in
                  Done (store_back group
                          (AttachToStream g (leAudioDevices_ st) leAudioDevice)
                          (call (AttachToStream_call group leAudioDevice) st))
                else Done st
            end
      end.

Definition connectionReady (leAudioDevice : RawAddress)
    (st : LeAudioClientImpl) : Result LeAudioClientImpl :=
  let st := call (OnConnectionState CONNECTED leAudioDevice) st in
  let! d := device_at st leAudioDevice in
  let! st :=
    match group_id_ d with
    | Some group =>
        let! st := UpdateContextAndLocations group leAudioDevice st in
        AttachToStreamingGroupIfNeeded leAudioDevice st
    | None => Done st
    end in
  let! d := device_at st leAudioDevice in
  if first_connection_ d
  then Done (update_device leAudioDevice (fun d => d <| first_connection_ := false |>)
               (call (btif_storage_set_leaudio_autoconnect leAudioDevice true) st))
  else Done st.

(** GetStreamConfigurationByDirection: one active ASE of the direction is
    added to what the loops have gathered.  A value that is still 0 is
    taken from the ASE, any other must agree with it (LOG_ASSERT). *)
Definition agree (gathered : Z) (of_ase : Z) : Result Z :=
  if gathered =? 0 then Done of_ase
  else if gathered =? of_ase then Done gathered
  else Abort AssertionFailure.

Definition agree_optional (gathered : Z) (of_ase : option Z) : Result Z :=
  if gathered =? 0 then
    match of_ase with Some v => Done v | None => Abort EmptyOptionalAccess end
  else if bool_decide (of_ase = Some gathered) then Done gathered
  else Abort AssertionFailure.

Definition add_ase (acc : direction_configuration) (a : ase)
  : Result direction_configuration :=
  match audio_channel_allocation a with
  | None => Abort EmptyOptionalAccess
  | Some allocation =>
      let! sample_freq_hz := agree (sample_frequency_hz acc) (sampling_frequency_hz a) in
      let! frame_duration := agree (stream_frame_duration_us acc) (frame_duration_us a) in
      let! octets_per_frame :=
        agree_optional (stream_octets_per_codec_frame acc) (octets_per_codec_frame a) in
      let! blocks_per_sdu :=
        agree_optional (stream_codec_frames_blocks_per_sdu acc)
                       (codec_frames_blocks_per_sdu a) in
      Done {| streams := streams acc ++ [(cis_conn_hdl a, allocation)];
              num_of_devices := num_of_devices acc;
              num_of_channels := num_of_channels acc + channel_count a;
              sample_frequency_hz := sample_freq_hz;
              stream_frame_duration_us := frame_duration;
              stream_audio_channel_allocation :=
                Z.lor (stream_audio_channel_allocation acc) allocation;
              stream_octets_per_codec_frame := octets_per_frame;
              stream_codec_frames_blocks_per_sdu := blocks_per_sdu |}
  end.

Definition active_ases_by_direction (d : LeAudioDevice) (dir : Z) : list ase :=
  List.filter (fun a => active a && (direction a =? dir)) (ases_ d).

Definition add_device (dir : Z) (devices : gmap Z LeAudioDevice)
    (acc : Result direction_configuration) (device : RawAddress)
  : Result direction_configuration :=
  let! acc := acc in
  match devices !! device with
  | None => Abort NullPointerAccess
  | Some d =>
      let ases := active_ases_by_direction d dir in
      let acc :=
        match ases with
        | [] => acc
        | _ => {| streams := streams acc;
                  num_of_devices := num_of_devices acc + 1;
                  num_of_channels := num_of_channels acc;
                  sample_frequency_hz := sample_frequency_hz acc;
                  stream_frame_duration_us := stream_frame_duration_us acc;
                  stream_audio_channel_allocation := stream_audio_channel_allocation acc;
                  stream_octets_per_codec_frame := stream_octets_per_codec_frame acc;
                  stream_codec_frames_blocks_per_sdu :=
                    stream_codec_frames_blocks_per_sdu acc |}
        end in
      fold_left (fun acc a => let! acc := acc in add_ase acc a) ases (Done acc)
  end.

(** The result is the pointer to the stream configuration of the group
    ([true]) or null ([false]). *)
Definition GetStreamConfigurationByDirection (group : Z) (dir : Z)
    (st : LeAudioClientImpl) : Result (bool * LeAudioClientImpl) :=
  let! g := group_at st group in
  let! gathered :=
    fold_left (add_device dir (leAudioDevices_ st))
              (active_devices g (leAudioDevices_ st))
              (Done empty_direction_configuration) in
  match streams gathered with
  | [] => Done (false, st)
  | _ =>
      let sc := stream_conf g in
      let sc :=
        if dir =? kLeAudioDirectionSource
        then {| conf := conf sc; sink := sink sc; source := gathered |}
        else if dir =? kLeAudioDirectionSink
        then {| conf := conf sc; sink := gathered; source := source sc |}
        else sc in
      match conf sc with
      | None => Abort NullPointerAccess
      | Some _ => Done (true, update_group group (fun g => g <| stream_conf := sc |>) st)
      end
  end.

Definition CleanCachedMicrophoneData (st : LeAudioClientImpl) : LeAudioClientImpl :=
  st <| cached_channel_data_ := [] |>
     <| cached_channel_timestamp_ := 0 |>
     <| cached_channel_is_left_ := false |>.

Definition StartSendingAudio (group_id : option Z) (st : LeAudioClientImpl)
  : Result (bool * LeAudioClientImpl) :=
  match FindById st group_id with
  | None => Abort NullPointerAccess
  | Some (group, g) =>
      match GetFirstActiveDevice g (leAudioDevices_ st) with
      | None => Abort AssertionFailure
      | Some _ =>
          (* Assume 2 ases max just for now. *)
          let! (stream_conf, st) :=
            GetStreamConfigurationByDirection group kLeAudioDirectionSink st in
          if negb stream_conf then Done (false, st)
          else
            let! g := group_at st group in
            let remote_delay_ms :=
              GetRemoteDelay g (leAudioDevices_ st) kLeAudioDirectionSink in
            let st :=
              match GetCodecLocation with
              | HOST =>
                  (* a leftover instance is freed, then both are allocated *)
                  st <| lc3_encoder_left_mem := true |>
                     <| lc3_encoder_right_mem := true |>
              | ADSP => call (UpdateActiveSourceAudioConfig_call remote_delay_ms) st
              | CONTROLLER => st
              end in
            let st := call (AudioSource_UpdateRemoteDelay remote_delay_ms) st in
            let st := call AudioSource_ConfirmStreamingRequest st in
            Done (true, st <| audio_sender_state_ := AudioState.STARTED |>)
      end
  end.

Definition StartReceivingAudio (group_id : option Z) (st : LeAudioClientImpl)
  : Result LeAudioClientImpl :=
  match FindById st group_id with
  | None => Abort NullPointerAccess
  | Some (group, _) =>
      let! (stream_conf, st) :=
        GetStreamConfigurationByDirection group kLeAudioDirectionSource st in
      if negb stream_conf then Done st
      else
        let! g := group_at st group in
        let remote_delay_ms :=
          GetRemoteDelay g (leAudioDevices_ st) kLeAudioDirectionSource in
        let st := CleanCachedMicrophoneData st in
        let st :=
          match GetCodecLocation with
          | HOST =>
              st <| lc3_decoder_left_mem := true |>
                 <| lc3_decoder_right_mem := true |>
          | ADSP => call (UpdateActiveSinkAudioConfig_call remote_delay_ms) st
          | CONTROLLER => st
          end in
        let st := call (AudioSink_UpdateRemoteDelay remote_delay_ms) st in
        let st := call AudioSink_ConfirmStreamingRequest st in
        Done (st <| audio_receiver_state_ := AudioState.STARTED |>)
  end.

Definition SuspendAudio (st : LeAudioClientImpl) : LeAudioClientImpl :=
  let st := st <| audio_receiver_state_ := AudioState.IDLE |>
               <| audio_sender_state_ := AudioState.IDLE |> in
  let st :=
    if lc3_encoder_left_mem st
    then st <| lc3_encoder_left_mem := false |> <| lc3_encoder_right_mem := false |>
    else st in
  if lc3_decoder_left_mem st
  then st <| lc3_decoder_left_mem := false |> <| lc3_decoder_right_mem := false |>
  else st.

Definition StopAudio (st : LeAudioClientImpl) : LeAudioClientImpl := SuspendAudio st.

Definition OnAudioResume (g : LeAudioDeviceGroup) (st : LeAudioClientImpl)
  : bool * LeAudioClientImpl :=
  if AseState.eqb (target_state_ g) AseState.BTA_LE_AUDIO_ASE_STATE_STREAMING
  then (true, st)
  else InternalGroupStream (active_group_id_ st)
         (context_value (current_context_type_ st)) st.

Definition kAudioSuspentKeepIsoAliveTimeoutMs : Z := 5000.

(** [alarm_set_on_mloop(suspend_timeout_, timeoutMs, ..., active_group_id_)];
    an alarm that is scheduled is cancelled first, so the field holds the
    one pending alarm.  [timeoutMs] is a [uint64_t]: it is handed to
    osi_property_get_int32 as the [int32_t] default, and the [int32_t] that
    comes back is converted to [uint64_t]. *)
Definition OnAudioSuspend (st : LeAudioClientImpl) : LeAudioClientImpl :=
  match active_group_id_ st with
  | None => st
  | Some id =>
      (* Group should tie in time to get requested status *)
      let timeoutMs := kAudioSuspentKeepIsoAliveTimeoutMs in
      let timeoutMs :=
        to_uint64 (to_int32 (osi_property_get_int32 (to_int32 timeoutMs))) in
      st <| suspend_timeout_ := Some (timeoutMs, id) |>
  end.

(** The callback of the alarm: [instance->GroupStop(PTR_TO_INT(data))]. *)
Definition suspend_timeout_expired (st : LeAudioClientImpl) : LeAudioClientImpl :=
  match suspend_timeout_ st with
  | Some (_, id) => GroupStop (Some id) (st <| suspend_timeout_ := None |>)
  | None => st
  end.

(** [if (alarm_is_scheduled(suspend_timeout_)) alarm_cancel(suspend_timeout_)] *)
Definition alarm_cancel_suspend_timeout (st : LeAudioClientImpl)
  : LeAudioClientImpl :=
  st <| suspend_timeout_ := None |>.

Definition OnAudioSinkSuspend (st : LeAudioClientImpl) : LeAudioClientImpl :=
  let last_suspends (st : LeAudioClientImpl) :=
    (* Last suspends group - triggers group stop *)
    if AudioState.eqb (audio_receiver_state_ st) AudioState.IDLE
       || AudioState.eqb (audio_receiver_state_ st) AudioState.READY_TO_RELEASE
    then OnAudioSuspend st else st in
  match audio_sender_state_ st with
  | AudioState.READY_TO_START
  | AudioState.STARTED =>
      last_suspends (st <| audio_sender_state_ := AudioState.READY_TO_RELEASE |>)
  | AudioState.RELEASING => st
  | AudioState.IDLE =>
      if AudioState.eqb (audio_receiver_state_ st) AudioState.READY_TO_RELEASE
      then OnAudioSuspend st else st
  | AudioState.READY_TO_RELEASE => last_suspends st
  end.

Definition OnAudioSourceSuspend (st : LeAudioClientImpl) : LeAudioClientImpl :=
  let last_suspends (st : LeAudioClientImpl) :=
    (* Last suspends group - triggers group stop *)
    if AudioState.eqb (audio_sender_state_ st) AudioState.IDLE
       || AudioState.eqb (audio_sender_state_ st) AudioState.READY_TO_RELEASE
    then OnAudioSuspend st else st in
  match audio_receiver_state_ st with
  | AudioState.READY_TO_START
  | AudioState.STARTED =>
      last_suspends (st <| audio_receiver_state_ := AudioState.READY_TO_RELEASE |>)
  | AudioState.RELEASING => st
  | AudioState.IDLE =>
      if AudioState.eqb (audio_sender_state_ st) AudioState.READY_TO_RELEASE
      then OnAudioSuspend st else st
  | AudioState.READY_TO_RELEASE => last_suspends st
  end.

Definition OnAudioSinkResume (st : LeAudioClientImpl) : Result LeAudioClientImpl :=
  match FindById st (active_group_id_ st) with
  | None => Done st
  | Some (_, g) =>
      (* Check if the device resume is expected *)
      match GetCodecConfigurationByDirection g (leAudioDevices_ st)
              (current_context_type_ st) kLeAudioDirectionSink with
      | None => Done (call AudioSource_CancelStreamingRequest st)
      | Some _ =>
          match audio_sender_state_ st with
          | AudioState.STARTED =>
              (* Looks like previous Confirm did not get to the Audio Framework *)
              Done (call AudioSource_ConfirmStreamingRequest st)
          | AudioState.IDLE =>
              match audio_receiver_state_ st with
              | AudioState.IDLE =>
                  (* Stream is not started. Try to do it. *)
                  let r := OnAudioResume g st in
                  if r.1
                  then Done (r.2 <| audio_sender_state_ := AudioState.READY_TO_START |>)
                  else Done (call AudioSource_CancelStreamingRequest r.2)
              | AudioState.READY_TO_START
              | AudioState.STARTED =>
                  let st := st <| audio_sender_state_ := AudioState.READY_TO_START |> in
                  (* If signalling part is completed trigger start reveivin
                     audio here, otherwise it'll be called on group
                     streaming state callback *)
                  if AseState.eqb (current_state_ g)
                       AseState.BTA_LE_AUDIO_ASE_STATE_STREAMING
                  then let! (_, st) := StartSendingAudio (active_group_id_ st) st in
                       Done st
                  else Done st
              | AudioState.RELEASING
              | AudioState.READY_TO_RELEASE =>
                  (* If group is reconfiguring, reassing state and wait for
                     the stream to be established *)
                  if pending_configuration_ g
                  then Done (st <| audio_sender_state_ := audio_receiver_state_ st |>)
                  else Done (call AudioSource_CancelStreamingRequest st)
              end
          | AudioState.READY_TO_START => Done st
          | AudioState.READY_TO_RELEASE =>
              match audio_receiver_state_ st with
              | AudioState.STARTED
              | AudioState.IDLE
              | AudioState.READY_TO_RELEASE =>
                  (* Stream is up just restore it *)
                  let st := st <| audio_sender_state_ := AudioState.STARTED |> in
                  let st := alarm_cancel_suspend_timeout st in
                  Done (call AudioSource_ConfirmStreamingRequest st)
              | _ => Done (call AudioSource_CancelStreamingRequest st)
              end
          | AudioState.RELEASING =>
              (* Keep wainting *)
              Done (call AudioSource_CancelStreamingRequest st)
          end
      end
  end.

Definition OnAudioSourceResume (st : LeAudioClientImpl) : Result LeAudioClientImpl :=
  match FindById st (active_group_id_ st) with
  | None => Done st
  | Some (_, g) =>
      (* Check if the device resume is expected *)
      match GetCodecConfigurationByDirection g (leAudioDevices_ st)
              (current_context_type_ st) kLeAudioDirectionSource with
      | None => Done (call AudioSink_CancelStreamingRequest st)
      | Some _ =>
          match audio_receiver_state_ st with
          | AudioState.STARTED => Done (call AudioSink_ConfirmStreamingRequest st)
          | AudioState.IDLE =>
              match audio_sender_state_ st with
              | AudioState.IDLE =>
                  let r := OnAudioResume g st in
                  if r.1
                  then Done (r.2 <| audio_receiver_state_ := AudioState.READY_TO_START |>)
                  else Done (call AudioSink_CancelStreamingRequest r.2)
              | AudioState.READY_TO_START
              | AudioState.STARTED =>
                  let st := st <| audio_receiver_state_ := AudioState.READY_TO_START |> in
                  if AseState.eqb (current_state_ g)
                       AseState.BTA_LE_AUDIO_ASE_STATE_STREAMING
                  then StartReceivingAudio (active_group_id_ st) st
                  else Done st
              | AudioState.RELEASING
              | AudioState.READY_TO_RELEASE =>
                  if pending_configuration_ g
                  then Done (st <| audio_receiver_state_ := audio_sender_state_ st |>)
                  else Done (call AudioSink_CancelStreamingRequest st)
              end
          | AudioState.READY_TO_START => Done st
          | AudioState.READY_TO_RELEASE =>
              match audio_sender_state_ st with
              | AudioState.STARTED
              | AudioState.IDLE
              | AudioState.READY_TO_RELEASE =>
                  (* Stream is up just restore it *)
                  let st := st <| audio_receiver_state_ := AudioState.STARTED |> in
                  let st := alarm_cancel_suspend_timeout st in
                  Done (call AudioSink_ConfirmStreamingRequest st)
              | _ => Done (call AudioSink_CancelStreamingRequest st)
              end
          | AudioState.RELEASING => Done (call AudioSink_CancelStreamingRequest st)
          end
      end
  end.

(** [groupStateMachine_->ConfigureStream(group, current_context_type_)] *)
Definition group_ConfigureStream (group : Z) (st : LeAudioClientImpl)
  : Result (bool * LeAudioClientImpl) :=
  let! g := group_at st group in
  let r := ConfigureStream g (leAudioDevices_ st) (current_context_type_ st) in
  Done (r.1, store_back group r.2
               (call (ConfigureStream_call group
                        (context_value (current_context_type_ st))) st)).

Definition reset_stream_setup_timestamps (st : LeAudioClientImpl)
  : LeAudioClientImpl :=
  st <| stream_setup_end_timestamp_ := 0 |>
     <| stream_setup_start_timestamp_ := 0 |>.

Definition StatusReportCb (group_id : option Z) (status : GroupStreamStatus.t)
    (st : LeAudioClientImpl) : Result LeAudioClientImpl :=
  let group := fst <$> FindById st group_id in
  match status with
  | GroupStreamStatus.STREAMING =>
      if negb (bool_decide (group_id = active_group_id_ st))
      then Abort AssertionFailure
      else
        let! st :=
          if AudioState.eqb (audio_sender_state_ st) AudioState.READY_TO_START
          then let! (_, st) := StartSendingAudio group_id st in Done st
          else Done st in
        let! st :=
          if AudioState.eqb (audio_receiver_state_ st) AudioState.READY_TO_START
          then StartReceivingAudio group_id st
          else Done st in
        Done (st <| stream_setup_end_timestamp_ := time_get_os_boottime_us |>)
  | GroupStreamStatus.SUSPENDED =>
      (** Stop Audio but don't release all the Audio resources *)
      Done (SuspendAudio (reset_stream_setup_timestamps st))
  | GroupStreamStatus.CONFIGURED_BY_USER =>
      (* We are done with reconfiguration. Clean state and if Audio HAL is
         waiting, cancel the request so Audio HAL can Resume again. *)
      HandlePendingAvailableContexts group (CancelStreamingRequest st)
  | GroupStreamStatus.CONFIGURED_AUTONOMOUS =>
      let st := reset_stream_setup_timestamps st in
      match group with
      | None => Abort NullPointerAccess
      | Some id =>
          let! g := group_at st id in
          (* Check if stream was stopped for reconfiguration *)
          if pending_configuration_ g then
            let! (_, st) := group_ConfigureStream id (SuspendedForReconfiguration st) in
            Done st
          else HandlePendingAvailableContexts group (CancelStreamingRequest st)
      end
  | GroupStreamStatus.IDLE =>
      let st := reset_stream_setup_timestamps st in
      let! (configuring, st) :=
        match FindById st group_id with
        | Some (id, g) =>
            if pending_configuration_ g
            then group_ConfigureStream id (SuspendedForReconfiguration st)
            else Done (false, st)
        | None => Done (false, st)
        end in
      if configuring
      then (* If configuration succeed wait for new status. *) Done st
      else HandlePendingAvailableContexts group (CancelStreamingRequest st)
  | GroupStreamStatus.RELEASING
  | GroupStreamStatus.SUSPENDING =>
      let st :=
        if negb (AudioState.eqb (audio_sender_state_ st) AudioState.IDLE)
        then st <| audio_sender_state_ := AudioState.RELEASING |> else st in
      if negb (AudioState.eqb (audio_receiver_state_ st) AudioState.IDLE)
      then Done (st <| audio_receiver_state_ := AudioState.RELEASING |>)
      else Done st
  | GroupStreamStatus.DESTROYED => Done st
  end.

(** Two decoded channels side by side; the loops run over the size of
    [left] and read [right] at the same index. *)
Fixpoint zip_channels (f : Z -> Z -> list Z) (chan_left chan_right : list Z)
  : Result (list Z) :=
  match chan_left, chan_right with
  | [], _ => Done []
  | _ :: _, [] => Abort OutOfRange
  | l :: left', r :: right' =>
      let! rest := zip_channels f left' right' in
      Done (f l r ++ rest)
  end.

(** [LeAudioClientAudioSink::SendData(data, to_write)]: the byte count is
    [sizeof(int16_t)] times the number of samples, held in the [uint16_t]
    [to_write]; the sink is handed the first [to_write] octets of the
    buffer, that is [to_write / 2] of its 16-bit words. *)
Definition written_words (buffer : list Z) : list Z :=
  let to_write := to_uint16 (2 * Z.of_nat (length buffer)) in
  take (Z.to_nat (to_write / 2)) buffer.

(** The samples go out as the 16-bit words that are in memory. *)
Definition SendAudioDataToAF (bt_got_stereo af_is_stereo : bool)
    (chan_left chan_right : option (list Z)) (st : LeAudioClientImpl)
  : Result LeAudioClientImpl :=
  let send (pcm : list Z) :=
    Done (call (AudioSink_SendData (written_words (to_uint16 <$> pcm))) st) in
  match bt_got_stereo, af_is_stereo with
  | false, false =>
      (* mono audio over bluetooth, audio framework expects mono *)
      match (if bool_decide (is_Some chan_left) then chan_left else chan_right) with
      | Some mono => send mono
      | None => Abort NullPointerAccess
      end
  | true, true =>
      (* stero audio over bluetooth, audio framework expects stereo *)
      match chan_left, chan_right with
      | Some chan_left, Some chan_right =>
          let! mixed := zip_channels (fun l r => [r; l]) chan_left chan_right in send mixed
      | _, _ => Abort NullPointerAccess
      end
  | true, false =>
      (* stero audio over bluetooth, audio framework expects mono *)
      match chan_left, chan_right with
      | Some chan_left, Some chan_right =>
          let! mixed := zip_channels (fun l r => [to_int16 (Z.quot (l + r) 2)])
                          chan_left chan_right in
          send mixed
      | _, _ => Abort NullPointerAccess
      end
  | false, true =>
      (* mono audio over bluetooth, audio framework expects stereo *)
      match chan_left, chan_right with
      | Some chan_left, Some chan_right =>
          let! mixed := zip_channels (fun l r => [r; l]) chan_left chan_right in send mixed
      | Some chan_left, None => send (concat ((fun l => [0; l]) <$> chan_left))
      | None, Some chan_right => send (concat ((fun r => [r; 0]) <$> chan_right))
      | None, None => Abort NullPointerAccess
      end
  end.

(** The handles of the left and of the right stream: the last stream of
    each side wins, 0 when there is none. *)
Definition cis_handle_of (mask : Z) (streams : list (Z * Z)) : Z :=
  fold_left (fun hdl s => if negb (Z.land s.2 mask =? 0) then s.1 else hdl)
            streams 0.

(** The size of the decoded PCM buffer; None: the data interval is not one
    of the two the function knows.  The two [uint32_t] members are first
    stored in the [int] variables [dt_us] and [af_hz], and the size is
    computed on [int]. *)
Definition pcm_size_of (data_interval_us sample_rate : Z) : option Z :=
  let dt_us := to_int32 data_interval_us in
  let af_hz := to_int32 sample_rate in
  if dt_us =? 10000 then
    if af_hz =? 44100 then Some 480 else Some (Z.quot af_hz 100)
  else if dt_us =? 7500 then
    if af_hz =? 44100 then Some 360 else Some (Z.quot (to_int32 (af_hz * 3)) 400)
  else None.

Definition cache_channel (pcm_data_decoded : list Z) (timestamp : Z)
    (is_left : bool) (st : LeAudioClientImpl) : LeAudioClientImpl :=
  st <| cached_channel_data_ := pcm_data_decoded |>
     <| cached_channel_timestamp_ := timestamp |>
     <| cached_channel_is_left_ := is_left |>.

(** SendAudioData from the allocation of [pcm_data_decoded] on: decode the
    SDU into a buffer of [pcm_size] samples and hand the result on. *)
Definition decode_and_forward (left_cis_handle right_cis_handle : Z)
    (is_left : bool) (required_for_channel_byte_count pcm_size : Z)
    (data : option (list Z)) (size : Z) (timestamp : Z)
    (st : LeAudioClientImpl) : Result LeAudioClientImpl :=
  if pcm_size <? 0 then Abort OutOfRange   (* std::vector of a negative size *)
  else
  let '(data, size) :=
    if negb (required_for_channel_byte_count =? size)
    then (None, 0)                         (* will do PLC *)
    else (data, size) in
  let st := call (lc3_decode_call is_left data pcm_size) st in
  let '(err, pcm_data_decoded) := lc3_decode is_left data size pcm_size in
  if err <? 0 then Done st
  else
  (* AF == Audio Framework *)
  let af_is_stereo := num_channels (audio_framework_sink_config st) =? 2 in
  if (left_cis_handle =? 0) || (right_cis_handle =? 0) then
    (* mono or just one device connected *)
    SendAudioDataToAF false af_is_stereo (Some pcm_data_decoded) None st
  else
  (* both devices are connected *)
  if (cached_channel_timestamp_ st =? 0)
     && bool_decide (cached_channel_data_ st = [])
  then
    (* First packet received, cache it. We need both channel data to send
       it to AF. *)
    Done (cache_channel pcm_data_decoded timestamp is_left st)
  else
  (* We received either data for the other audio channel, or another packet
     for same channel *)
  if negb (Bool.eqb (cached_channel_is_left_ st) is_left)
     && (timestamp =? cached_channel_timestamp_ st)
  then
    (* It's data for the 2nd channel. Ready to mix data and send out to AF *)
    let! st :=
      if is_left
      then SendAudioDataToAF true af_is_stereo
             (Some (cached_channel_data_ st)) (Some pcm_data_decoded) st
      else SendAudioDataToAF true af_is_stereo
             (Some pcm_data_decoded) (Some (cached_channel_data_ st)) st in
    Done (CleanCachedMicrophoneData st)
  else
    (* 2nd channel is in the future compared to the cached data, or data
       for the same channel was received: send the cached data out and keep
       the new channel data in cache *)
    let! st :=
      if cached_channel_is_left_ st
      then SendAudioDataToAF false af_is_stereo (Some (cached_channel_data_ st)) None st
      else SendAudioDataToAF false af_is_stereo None (Some (cached_channel_data_ st)) st in
    Done (cache_channel pcm_data_decoded timestamp is_left st).

Definition SendAudioData (data : option (list Z)) (size : Z)
    (cis_conn_hdl : Z) (timestamp : Z) (st : LeAudioClientImpl)
  : Result LeAudioClientImpl :=
  (* Get only one channel for MONO microphone *)
  if negb (bool_decide (is_Some (active_group_id_ st)))
     || negb (AudioState.eqb (audio_receiver_state_ st) AudioState.STARTED)
  then Done st
  else
    match FindById st (active_group_id_ st) with
    | None => Done st
    | Some (_, g) =>
        let stream_conf := stream_conf g in
        let left_cis_handle :=
          cis_handle_of kLeAudioLocationAnyLeft (source_streams stream_conf) in
        let right_cis_handle :=
          cis_handle_of kLeAudioLocationAnyRight (source_streams stream_conf) in
        if negb (cis_conn_hdl =? left_cis_handle)
           && negb (cis_conn_hdl =? right_cis_handle)
        then Done (call (LOG_ERROR_unknown_handle cis_conn_hdl) st)
        else
          let is_left := cis_conn_hdl =? left_cis_handle in
          let required_for_channel_byte_count :=
            source_octets_per_codec_frame stream_conf in
          let dt_us := data_interval_us (current_sink_codec_config st) in
          let af_hz := sample_rate (audio_framework_sink_config st) in
          match pcm_size_of dt_us af_hz with
          | None => Done (call (LOG_ERROR_bad_dt_us (to_int32 dt_us)) st)
          | Some pcm_size =>
              decode_and_forward left_cis_handle right_cis_handle is_left
                required_for_channel_byte_count pcm_size data size timestamp st
          end
    end.

End Client.

(** ** A reference environment

    One concrete choice for every collaborator, used to run the client on
    concrete inputs: the context values of the Bluetooth assigned numbers, a
    group whose active contexts are the available contexts of its members, a
    state machine that moves the target state, and a stack that knows an ACL
    handle for every address. *)
Module Reference.

Definition ref_context_value (c : LeAudioContextType.t) : Z :=
  match c with
  | LeAudioContextType.UNSPECIFIED => 0x0001
  | LeAudioContextType.CONVERSATIONAL => 0x0002
  | LeAudioContextType.MEDIA => 0x0004
  | LeAudioContextType.GAME => 0x0008
  | LeAudioContextType.INSTRUCTIONAL => 0x0010
  | LeAudioContextType.NOTIFICATIONS => 0x0100
  | LeAudioContextType.RINGTONE => 0x0200
  | LeAudioContextType.ALERTS => 0x0400
  | LeAudioContextType.EMERGENCYALARM => 0x0800
  | LeAudioContextType.RFU => 0x1000
  end.

Definition ref_kLeAudioDirectionSink : Z := 1.
Definition ref_kLeAudioDirectionSource : Z := 2.

Definition device_cnt (dir : Z) (c : AudioSetConfiguration) : Z :=
  fold_left (fun n ent => if ent_direction ent =? dir then n + ent_device_cnt ent else n)
            (confs c) 0.

Definition ref_get_num_of_devices_in_configuration (c : option AudioSetConfiguration) : Z :=
  match c with
  | Some c => Z.max (device_cnt ref_kLeAudioDirectionSink c) (device_cnt ref_kLeAudioDirectionSource c)
  | None => 0
  end.

Definition uint16_at (value : list Z) (i : nat) : Z :=
  nth i value 0 + 256 * nth (S i) value 0.

Definition ParseContexts (value : list Z) : Z * Z :=
  (uint16_at value 0, uint16_at value 2).

Definition ref_ParseAseCtpNotification (value : list Z) : option ctp_ntf :=
  match value with
  | [_; _; _; code; reason] => Some {| entries := [(code, reason)] |}
  | _ => None
  end.

Definition ref_GetAvailableContexts (d : LeAudioDevice) : Z :=
  Z.lor (avail_contexts_ d).1 (avail_contexts_ d).2.

Definition ref_SetAvailableContexts (d : LeAudioDevice) (snk src : Z) : Z * (Z * Z) :=
  (Z.lor (Z.lxor snk (avail_contexts_ d).1) (Z.lxor src (avail_contexts_ d).2),
   (snk, src)).

(** Every ASE of the direction of the entry becomes active; the entry cannot
    be configured on a device without such an ASE. *)
Definition ref_ConfigureAses (d : LeAudioDevice) (ent : SetConfiguration)
    (context_type : LeAudioContextType.t) (num_of_active_ases : Z)
    (snk_locations src_locations : Z) (reuse_cis_id : bool)
  : bool * (list ase * Z) :=
  let mine (a : ase) := direction a =? ent_direction ent in
  let activate (a : ase) :=
    if mine a
    then mk_ase (val_hdl a) (ccc_hdl a) (direction a) true (ase_state a)
           (cis_conn_hdl a) (audio_channel_allocation a) (channel_count a)
           (sampling_frequency_hz a) (frame_duration_us a)
           (octets_per_codec_frame a) (codec_frames_blocks_per_sdu a)
    else a in
  if existsb mine (ases_ d)
  then (true, (activate <$> ases_ d,
               num_of_active_ases + Z.of_nat (length (List.filter mine (ases_ d)))))
  else (false, (ases_ d, num_of_active_ases)).

Definition members_fold (f : LeAudioDevice -> Z) (g : LeAudioDeviceGroup)
    (devices : gmap Z LeAudioDevice) : Z :=
  fold_left (fun acc a => match devices !! a with
                          | Some d => Z.lor acc (f d)
                          | None => acc
                          end) (leAudioDevices g) 0.

(** The context types named by [update_contexts] are looked at again: such a
    type is active when a member has it available. *)
Definition ref_UpdateActiveContextsMap (g : LeAudioDeviceGroup)
    (devices : gmap Z LeAudioDevice) (update_contexts : Z) : option Z * Z :=
  let available := members_fold ref_GetAvailableContexts g devices in
  let contexts :=
    Z.lor (Z.land (active_contexts_mask_ g) (Z.lxor 0xFFFF update_contexts))
          (Z.land available update_contexts) in
  if contexts =? active_contexts_mask_ g then (None, active_contexts_mask_ g)
  else (Some contexts, contexts).

Definition ref_ReloadAudioLocations (g : LeAudioDeviceGroup)
    (devices : gmap Z LeAudioDevice) : bool * (Z * Z) :=
  let snk := members_fold snk_audio_locations_ g devices in
  let src := members_fold src_audio_locations_ g devices in
  (negb ((snk =? group_snk_audio_locations_ g) && (src =? group_src_audio_locations_ g)),
   (snk, src)).

Definition ref_GetCodecConfigurationByDirection (g : LeAudioDeviceGroup)
    (devices : gmap Z LeAudioDevice) (context_type : LeAudioContextType.t)
    (dir : Z) : option LeAudioCodecConfiguration :=
  if negb (Z.land (active_contexts_mask_ g) (ref_context_value context_type) =? 0)
     && negb (members_fold
                (fun d => if existsb (fun a => direction a =? dir) (ases_ d)
                          then 1 else 0) g devices =? 0)
  then Some {| num_channels := 2; sample_rate := 48000; bits_per_sample := 16;
               data_interval_us := 10000 |}
  else None.

Definition ref_lc3_decode (is_left : bool) (data : option (list Z)) (size pcm_size : Z)
  : Z * list Z :=
  (0, repeat (if is_left then 1 else 2) (Z.to_nat pcm_size)).

#[local] Instance environment : Environment := {|
  context_value := ref_context_value;
  kLeAudioDirectionSink := ref_kLeAudioDirectionSink;
  kLeAudioDirectionSource := ref_kLeAudioDirectionSource;
  kLeAudioLocationAnyLeft := 0x1;
  kLeAudioLocationAnyRight := 0x2;
  get_num_of_devices_in_configuration := ref_get_num_of_devices_in_configuration;
  kCtpResponseCodeInvalidConfigurationParameterValue := 0x0a;
  kCtpResponseInvalidAseCisMapping := 0x0a;
  ParsePac := fun value => Some [value];
  ParseAudioLocations := fun value => uint16_at value 0;
  ParseAvailableAudioContexts := ParseContexts;
  ParseSupportedAudioContexts := ParseContexts;
  ParseAseCtpNotification := ref_ParseAseCtpNotification;
  SetAvailableContexts := ref_SetAvailableContexts;
  GetAvailableContexts := ref_GetAvailableContexts;
  RegisterPACs := fun _ pac_recs => pac_recs;
  ConfigureAses := ref_ConfigureAses;
  UpdateActiveContextsMap := ref_UpdateActiveContextsMap;
  ReloadAudioLocations := ref_ReloadAudioLocations;
  GetCodecConfigurationByDirection := ref_GetCodecConfigurationByDirection;
  GetRemoteDelay := fun _ _ _ => 100;
  BTM_GetHCIConnHandle := fun address => Some (0x40 + address);
  DeviceGroups_GetGroupId := fun address => Some (address / 16);
  GetCodecLocation := HOST;
  lc3_frame_samples := fun dt_us hz => dt_us * hz / 1000000;
  lc3_decode := ref_lc3_decode;
  time_get_os_boottime_us := 1000000;
  osi_property_get_int32 := fun default => default;
|}.

(** The same stack when BTM knows no ACL handle: every link is gone. *)
Definition environment_without_acl : Environment := {|
  context_value := ref_context_value;
  kLeAudioDirectionSink := ref_kLeAudioDirectionSink;
  kLeAudioDirectionSource := ref_kLeAudioDirectionSource;
  kLeAudioLocationAnyLeft := 0x1;
  kLeAudioLocationAnyRight := 0x2;
  get_num_of_devices_in_configuration := ref_get_num_of_devices_in_configuration;
  kCtpResponseCodeInvalidConfigurationParameterValue := 0x0a;
  kCtpResponseInvalidAseCisMapping := 0x0a;
  ParsePac := fun value => Some [value];
  ParseAudioLocations := fun value => uint16_at value 0;
  ParseAvailableAudioContexts := ParseContexts;
  ParseSupportedAudioContexts := ParseContexts;
  ParseAseCtpNotification := ref_ParseAseCtpNotification;
  SetAvailableContexts := ref_SetAvailableContexts;
  GetAvailableContexts := ref_GetAvailableContexts;
  RegisterPACs := fun _ pac_recs => pac_recs;
  ConfigureAses := ref_ConfigureAses;
  UpdateActiveContextsMap := ref_UpdateActiveContextsMap;
  ReloadAudioLocations := ref_ReloadAudioLocations;
  GetCodecConfigurationByDirection := ref_GetCodecConfigurationByDirection;
  GetRemoteDelay := fun _ _ _ => 100;
  BTM_GetHCIConnHandle := fun address => None;
  DeviceGroups_GetGroupId := fun address => Some (address / 16);
  GetCodecLocation := HOST;
  lc3_frame_samples := fun dt_us hz => dt_us * hz / 1000000;
  lc3_decode := ref_lc3_decode;
  time_get_os_boottime_us := 1000000;
  osi_property_get_int32 := fun default => default;
|}.

Definition retarget (target : AseState.t) (g : LeAudioDeviceGroup) : LeAudioDeviceGroup :=
  g <| target_state_ := target |>.

#[local] Instance state_machine : LeAudioGroupStateMachine := {|
  StartStream := fun g devices context_type =>
    (true, (retarget AseState.BTA_LE_AUDIO_ASE_STATE_STREAMING g, devices));
  StopStream := fun g devices =>
    (retarget AseState.BTA_LE_AUDIO_ASE_STATE_IDLE g, devices);
  ConfigureStream := fun g devices context_type =>
    (true, (retarget AseState.BTA_LE_AUDIO_ASE_STATE_CODEC_CONFIGURED g, devices));
  AttachToStream := fun g devices address => (g, devices);
  ProcessGattNotifEvent := fun value hdl address g devices => (g, devices);
  ProcessHciNotifOnCigCreate := fun status conn_handles g devices =>
    (if status =? 0 then g <| cig_created_ := true |> else g, devices);
  ProcessHciNotifOnCigRemove := fun status g devices =>
    (if status =? 0 then g <| cig_created_ := false |> else g, devices);
|}.

End Reference.

(** ** Sample devices, groups and clients *)
Module Sample.

Definition sink_ase (hdl : Z) (is_active : bool) (location : Z) : ase :=
  mk_ase hdl (hdl + 1) Reference.ref_kLeAudioDirectionSink is_active
    (if is_active then AseState.BTA_LE_AUDIO_ASE_STATE_STREAMING
     else AseState.BTA_LE_AUDIO_ASE_STATE_IDLE)
    (0x60 + hdl) (Some location) 1 48000 10000 (Some 100) (Some 1).

Definition source_ase (hdl : Z) (is_active : bool) (location : Z) : ase :=
  mk_ase hdl (hdl + 1) Reference.ref_kLeAudioDirectionSource is_active
    (if is_active then AseState.BTA_LE_AUDIO_ASE_STATE_STREAMING
     else AseState.BTA_LE_AUDIO_ASE_STATE_IDLE)
    (0x60 + hdl) (Some location) 1 16000 10000 (Some 40) (Some 1).

(** An earbud with one sink and one source ASE and the PACS handles 0x30 to
    0x34. *)
Definition earbud (conn_id group_id : option Z) (is_active : bool)
    (location : Z) (available : Z * Z) : LeAudioDevice :=
  {| conn_id_ := conn_id; group_id_ := group_id; encrypted_ := true;
     known_service_handles_ := true; notify_connected_after_read_ := false;
     removing_device_ := false; connecting_actively_ := false;
     first_connection_ := false; csis_member_ := true;
     audio_directions_ := 3; snk_audio_locations_ := location;
     src_audio_locations_ := location; avail_contexts_ := available;
     supp_contexts_ := (0x0fff, 0x0fff);
     snk_pacs_ := [(0x10, [])]; src_pacs_ := [(0x14, [])];
     snk_audio_locations_hdls_ := 0x30; src_audio_locations_hdls_ := 0x31;
     audio_avail_hdls_ := 0x32; audio_supp_cont_hdls_ := 0x33; ctp_hdls_ := 0x34;
     ases_ := [sink_ase 0x20 is_active location; source_ase 0x24 false location] |}.

Definition one_device_conf : AudioSetConfiguration :=
  {| conf_name := []; confs := [mk_SetConfiguration 1 1 1] |}.
Definition two_device_conf : AudioSetConfiguration :=
  {| conf_name := []; confs := [mk_SetConfiguration 1 2 2] |}.

Definition group_of (members : list Z) (cig : bool) (current target : AseState.t)
    (contexts : Z) (c : option AudioSetConfiguration) (sink_streams : list (Z * Z))
  : LeAudioDeviceGroup :=
  {| leAudioDevices := members; cig_created_ := cig;
     current_state_ := current; target_state_ := target;
     pending_configuration_ := false;
     pending_update_available_contexts_ := None;
     active_contexts_mask_ := contexts;
     current_context_type := LeAudioContextType.MEDIA;
     group_audio_directions_ := 3; group_snk_audio_locations_ := 3;
     group_src_audio_locations_ := 3;
     stream_conf :=
       {| conf := c;
          sink := {| streams := sink_streams;
                     num_of_devices := Z.of_nat (length sink_streams);
                     num_of_channels := Z.of_nat (length sink_streams);
                     sample_frequency_hz := 48000; stream_frame_duration_us := 10000;
                     stream_audio_channel_allocation := 3;
                     stream_octets_per_codec_frame := 100;
                     stream_codec_frames_blocks_per_sdu := 1 |};
          source := empty_direction_configuration |} |}.

Definition codec_config (channels rate interval : Z) : LeAudioCodecConfiguration :=
  {| num_channels := channels; sample_rate := rate; bits_per_sample := 16;
     data_interval_us := interval |}.

Definition client_of (devices : list (Z * LeAudioDevice))
    (groups : list (Z * LeAudioDeviceGroup)) (active_group : option Z)
    (receiver sender : AudioState.t) (codec_allocated : bool)
    (timeout : option (Z * Z)) : LeAudioClientImpl :=
  {| leAudioDevices_ := list_to_map devices;
     aseGroups_ := list_to_map groups;
     active_group_id_ := active_group;
     current_context_type_ := LeAudioContextType.MEDIA;
     stream_setup_start_timestamp_ := 0;
     stream_setup_end_timestamp_ := 0;
     audio_receiver_state_ := receiver;
     audio_sender_state_ := sender;
     current_source_codec_config := codec_config 2 48000 10000;
     current_sink_codec_config := codec_config 1 16000 10000;
     audio_framework_source_config := codec_config 2 48000 10000;
     audio_framework_sink_config := codec_config 1 16000 10000;
     lc3_encoder_left_mem := codec_allocated;
     lc3_encoder_right_mem := codec_allocated;
     lc3_decoder_left_mem := false;
     lc3_decoder_right_mem := false;
     suspend_timeout_ := timeout;
     cached_channel_data_ := [];
     cached_channel_timestamp_ := 0;
     cached_channel_is_left_ := false;
     calls := [] |}.

Definition IDLE := AseState.BTA_LE_AUDIO_ASE_STATE_IDLE.
Definition STREAMING := AseState.BTA_LE_AUDIO_ASE_STATE_STREAMING.
Definition ENABLING := AseState.BTA_LE_AUDIO_ASE_STATE_ENABLING.

(** Two connected earbuds 0x10 (left) and 0x11 (right) stream media in group
    1; both have media and conversational available. *)
Definition streaming_pair : LeAudioClientImpl :=
  client_of
    [(0x10, earbud (Some 1) (Some 1) true 1 (6, 6));
     (0x11, earbud (Some 2) (Some 1) true 2 (6, 6))]
    [(1, group_of [0x10; 0x11] true STREAMING STREAMING 6 (Some two_device_conf)
           [(0x80, 1); (0x81, 2)])]
    (Some 1) AudioState.IDLE AudioState.STARTED true None.

(** The pair streams; the right earbud 0x11 holds no GATT connection any
    more while its sink ASE is still marked active. *)
Definition streaming_pair_right_lost : LeAudioClientImpl :=
  client_of
    [(0x10, earbud (Some 1) (Some 1) true 1 (6, 6));
     (0x11, earbud None (Some 1) true 2 (6, 6))]
    [(1, group_of [0x10; 0x11] true STREAMING STREAMING 6 (Some two_device_conf)
           [(0x80, 1); (0x81, 2)])]
    (Some 1) AudioState.IDLE AudioState.STARTED true None.

(** The left earbud 0x10 is a member of group 1 and has lost its link. *)
Definition disconnected_bud : LeAudioClientImpl :=
  client_of
    [(0x10, earbud None (Some 1) false 1 (6, 6))]
    [(1, group_of [0x10] false IDLE IDLE 6 None [])]
    (Some 1) AudioState.IDLE AudioState.IDLE false None.

(** Group 1 is idle and connected while group 2 is on its way to
    STREAMING. *)
Definition other_group_in_transition : LeAudioClientImpl :=
  client_of
    [(0x10, earbud (Some 1) (Some 1) false 1 (6, 6));
     (0x20, earbud (Some 2) (Some 2) true 1 (6, 6))]
    [(1, group_of [0x10] false IDLE IDLE 6 None []);
     (2, group_of [0x20] true ENABLING STREAMING 6 (Some one_device_conf) [(0x80, 1)])]
    (Some 1) AudioState.IDLE AudioState.IDLE false None.

(** Group 1 is idle, its one member is connected, media and conversational
    are active. *)
Definition idle_bud : LeAudioClientImpl :=
  client_of
    [(0x10, earbud (Some 1) (Some 1) false 1 (6, 6))]
    [(1, group_of [0x10] false IDLE IDLE 6 None [])]
    (Some 1) AudioState.IDLE AudioState.IDLE false None.

Definition left_only_group (members : list Z) : LeAudioDeviceGroup :=
  (group_of members false IDLE IDLE 6 None [])
    <| group_snk_audio_locations_ := 1 |> <| group_src_audio_locations_ := 1 |>.

(** The left earbud 0x10 is the one member of group 1; the right earbud 0x11
    is connected, offers the same contexts, and is in no group yet. *)
Definition right_bud_arrives : LeAudioClientImpl :=
  client_of
    [(0x10, earbud (Some 1) (Some 1) false 1 (6, 6));
     (0x11, earbud (Some 2) None false 2 (6, 6))]
    [(1, left_only_group [0x10])]
    None AudioState.IDLE AudioState.IDLE false None.

(** The same once the right earbud is a member, before the locations of the
    group are reloaded. *)
Definition right_bud_added : LeAudioClientImpl :=
  client_of
    [(0x10, earbud (Some 1) (Some 1) false 1 (6, 6));
     (0x11, earbud (Some 2) (Some 1) false 2 (6, 6))]
    [(1, left_only_group [0x10; 0x11])]
    None AudioState.IDLE AudioState.IDLE false None.

(** The state machine has brought group [id] to IDLE. *)
Definition became_idle (id : Z) (st : LeAudioClientImpl) : LeAudioClientImpl :=
  st <| aseGroups_ := alter (fun g => g <| current_state_ := IDLE |>
                                        <| target_state_ := IDLE |>) id (aseGroups_ st) |>
     <| audio_sender_state_ := AudioState.RELEASING |>.

(** The pair is idle again; while it streamed, earbud 0x10 announced that the
    game context has become available, and the change (bit 8) is pending. *)
Definition pair_with_pending_game : LeAudioClientImpl :=
  client_of
    [(0x10, earbud (Some 1) (Some 1) false 1 (14, 14));
     (0x11, earbud (Some 2) (Some 1) false 2 (6, 6))]
    [(1, (group_of [0x10; 0x11] true IDLE IDLE 6 (Some two_device_conf)
            [(0x80, 1); (0x81, 2)])
           <| pending_update_available_contexts_ := Some 8 |>)]
    (Some 1) AudioState.IDLE AudioState.RELEASING true None.

(** The pair streams in a configuration for two devices, and the right
    earbud 0x11 has come back. *)
Definition right_bud_is_back : LeAudioClientImpl :=
  client_of
    [(0x10, earbud (Some 1) (Some 1) true 1 (6, 6));
     (0x11, earbud (Some 2) (Some 1) false 2 (6, 6))]
    [(1, group_of [0x10; 0x11] true STREAMING STREAMING 6 (Some two_device_conf)
           [(0x80, 1)])]
    (Some 1) AudioState.IDLE AudioState.STARTED true None.

(** The left earbud streams alone in a configuration for one device, and the
    right earbud 0x11 has just been paired and connected. *)
Definition right_bud_is_new : LeAudioClientImpl :=
  client_of
    [(0x10, earbud (Some 1) (Some 1) true 1 (6, 6));
     (0x11, earbud (Some 2) (Some 1) false 2 (6, 6))]
    [(1, group_of [0x10; 0x11] true STREAMING STREAMING 6 (Some one_device_conf)
           [(0x80, 1)])]
    (Some 1) AudioState.IDLE AudioState.STARTED true None.

(** As [right_bud_is_back], with a right device that has a source ASE and no
    sink ASE. *)
Definition right_mic_is_back : LeAudioClientImpl :=
  client_of
    [(0x10, earbud (Some 1) (Some 1) true 1 (6, 6));
     (0x11, (earbud (Some 2) (Some 1) false 2 (6, 6))
              <| ases_ := [source_ase 0x24 false 2] |>)]
    [(1, group_of [0x10; 0x11] true STREAMING STREAMING 6 (Some two_device_conf)
           [(0x80, 1)])]
    (Some 1) AudioState.IDLE AudioState.STARTED true None.

(** The framework has suspended the downlink of the streaming pair: the
    sender waits for release, the keep-alive alarm is set for group 1, the
    encoders are allocated. *)
Definition suspended_pair : LeAudioClientImpl :=
  client_of
    [(0x10, earbud (Some 1) (Some 1) true 1 (6, 6));
     (0x11, earbud (Some 2) (Some 1) true 2 (6, 6))]
    [(1, group_of [0x10; 0x11] true STREAMING STREAMING 6 (Some two_device_conf)
           [(0x80, 1); (0x81, 2)])]
    (Some 1) AudioState.IDLE AudioState.READY_TO_RELEASE true (Some (5000, 1)).

(** The same, with a group whose active contexts hold conversational only
    while the current context of the client is media. *)
Definition suspended_pair_without_media : LeAudioClientImpl :=
  client_of
    [(0x10, earbud (Some 1) (Some 1) true 1 (2, 2));
     (0x11, earbud (Some 2) (Some 1) true 2 (2, 2))]
    [(1, group_of [0x10; 0x11] true STREAMING STREAMING 2 (Some two_device_conf)
           [(0x80, 1); (0x81, 2)])]
    (Some 1) AudioState.IDLE AudioState.READY_TO_RELEASE true (Some (5000, 1)).

(** The uplink of a call has been suspended while the downlink goes on. *)
Definition suspended_microphone : LeAudioClientImpl :=
  client_of
    [(0x10, (earbud (Some 1) (Some 1) true 1 (6, 6))
              <| ases_ := [sink_ase 0x20 true 1; source_ase 0x24 true 1] |>)]
    [(1, group_of [0x10] true STREAMING STREAMING 6 (Some one_device_conf) [(0x80, 1)])]
    (Some 1) AudioState.READY_TO_RELEASE AudioState.STARTED true None.

Definition with_source_streams (source_streams : list (Z * Z)) (octets : Z)
    (g : LeAudioDeviceGroup) : LeAudioDeviceGroup :=
  g <| stream_conf :=
         {| conf := conf (stream_conf g); sink := sink (stream_conf g);
            source := {| streams := source_streams;
                         num_of_devices := Z.of_nat (length source_streams);
                         num_of_channels := Z.of_nat (length source_streams);
                         sample_frequency_hz := 16000;
                         stream_frame_duration_us := 10000;
                         stream_audio_channel_allocation := 1;
                         stream_octets_per_codec_frame := octets;
                         stream_codec_frames_blocks_per_sdu := 1 |} |} |>.

(** A call: earbud 0x10 plays and records; its microphone is the source CIS
    0x90 with 40 octets per frame; the framework reads 16 kHz mono. *)
Definition left_bud_in_call : LeAudioDeviceGroup :=
  with_source_streams [(0x90, 1)] 40
    (group_of [0x10] true STREAMING STREAMING 6 (Some one_device_conf) [(0x80, 1)]).

Definition call_on_left_bud : LeAudioClientImpl :=
  client_of
    [(0x10, earbud (Some 1) (Some 1) true 1 (6, 6))]
    [(1, left_bud_in_call)]
    (Some 1) AudioState.STARTED AudioState.STARTED true None.

End Sample.

(** ** The statements of the specification, in its own words *)

(** Section 4.7, the rule that maps (content type, usage) to a context. *)
Definition spec_is_call_adjacent (usage : audio_usage_t) : bool :=
  match usage with
  | AUDIO_USAGE_VOICE_COMMUNICATION
  | AUDIO_USAGE_NOTIFICATION
  | AUDIO_USAGE_NOTIFICATION_TELEPHONY_RINGTONE
  | AUDIO_USAGE_ALARM
  | AUDIO_USAGE_EMERGENCY => true
  | _ => false
  end.

Definition spec_is_speech_or_sonification (content_type : audio_content_type_t) : bool :=
  match content_type with
  | AUDIO_CONTENT_TYPE_SPEECH | AUDIO_CONTENT_TYPE_SONIFICATION => true
  | _ => false
  end.

Definition spec_by_content (content_type : audio_content_type_t)
  : option LeAudioContextType.t :=
  match content_type with
  | AUDIO_CONTENT_TYPE_SPEECH => Some LeAudioContextType.CONVERSATIONAL
  | AUDIO_CONTENT_TYPE_MUSIC
  | AUDIO_CONTENT_TYPE_MOVIE
  | AUDIO_CONTENT_TYPE_SONIFICATION => Some LeAudioContextType.MEDIA
  | AUDIO_CONTENT_TYPE_OTHER _ => None
  end.

Definition spec_by_usage (usage : audio_usage_t) : option LeAudioContextType.t :=
  match usage with
  | AUDIO_USAGE_VOICE_COMMUNICATION => Some LeAudioContextType.CONVERSATIONAL
  | AUDIO_USAGE_GAME => Some LeAudioContextType.GAME
  | AUDIO_USAGE_NOTIFICATION => Some LeAudioContextType.NOTIFICATIONS
  | AUDIO_USAGE_NOTIFICATION_TELEPHONY_RINGTONE => Some LeAudioContextType.RINGTONE
  | AUDIO_USAGE_ALARM => Some LeAudioContextType.ALERTS
  | AUDIO_USAGE_EMERGENCY => Some LeAudioContextType.EMERGENCYALARM
  | AUDIO_USAGE_OTHER _ => None
  end.

Definition spec_classification (current : LeAudioContextType.t)
    (content_type : audio_content_type_t) (usage : audio_usage_t)
  : LeAudioContextType.t :=
  if LeAudioContextType.eqb current LeAudioContextType.CONVERSATIONAL
     && (spec_is_speech_or_sonification content_type || spec_is_call_adjacent usage)
  then LeAudioContextType.CONVERSATIONAL
  else match spec_by_content content_type with
       | Some c => c
       | None => match spec_by_usage usage with
                 | Some c => c
                 | None => LeAudioContextType.MEDIA
                 end
       end.

#[global] Instance LeAudioContextType_eq_dec : EqDecision LeAudioContextType.t.
Proof. solve_decision. Defined.

(** Section 4.7, the priority among candidates: Conversational > Media >
    first-listed. *)
Definition spec_priority (first : LeAudioContextType.t)
    (rest : list LeAudioContextType.t) : LeAudioContextType.t :=
  if bool_decide (LeAudioContextType.CONVERSATIONAL ∈ first :: rest)
  then LeAudioContextType.CONVERSATIONAL
  else if bool_decide (LeAudioContextType.MEDIA ∈ first :: rest)
  then LeAudioContextType.MEDIA
  else first.

(** Section 4.5, decoder PCM buffer sizing. *)
Definition spec_pcm_size (dt_us af_hz : Z) : option Z :=
  if bool_decide (dt_us = 10000)
  then Some (if bool_decide (af_hz = 44100) then 480 else Z.quot af_hz 100)
  else if bool_decide (dt_us = 7500)
  then Some (if bool_decide (af_hz = 44100) then 360 else Z.quot (af_hz * 3) 400)
  else None.

(** The handle of a notification that LeAudioCharValueHandle hands to its
    branch for the Available Audio Contexts characteristic: no earlier branch
    takes it. *)
Definition is_available_contexts_handle (d : LeAudioDevice) (hdl : Z) : bool :=
  negb (existsb (fun a => val_hdl a =? hdl) (ases_ d))
  && negb (has_handle hdl (snk_pacs_ d))
  && negb (has_handle hdl (src_pacs_ d))
  && negb (hdl =? snk_audio_locations_hdls_ d)
  && negb (hdl =? src_audio_locations_hdls_ d)
  && (hdl =? audio_avail_hdls_ d).

(** The 16-bit sample that two octets of the PCM stream hold (little endian,
    S16), and the arithmetic mean of two samples. *)
Definition int16_of_octets (lo hi : Z) : Z := to_int16 (Z.shiftl hi 8 + lo).

(** ** The group registry (section 3)

    The invariant of the registry looks at two things of a group: its
    members and its cig_created_ flag. *)
Definition membership (g : LeAudioDeviceGroup) : list RawAddress * bool :=
  (leAudioDevices g, cig_created_ g).

Definition membership_at (st : LeAudioClientImpl) (id : Z)
  : option (list RawAddress * bool) :=
  membership <$> aseGroups_ st !! id.

(** A registered group without members has its CIG created. *)
Definition membership_ok (m : list RawAddress * bool) : Prop :=
  m.1 = [] -> m.2 = true.

Definition group_invariant (g : LeAudioDeviceGroup) : Prop :=
  leAudioDevices g = [] -> cig_created_ g = true.

Definition registry_invariant (st : LeAudioClientImpl) : Prop :=
  forall (id : Z) (g : LeAudioDeviceGroup),
    aseGroups_ st !! id = Some g -> group_invariant g.

#[global] Instance group_invariant_dec (g : LeAudioDeviceGroup)
  : Decision (group_invariant g).
Proof. unfold group_invariant. apply _. Defined.

#[global] Instance registry_invariant_dec (st : LeAudioClientImpl)
  : Decision (registry_invariant st).
Proof.
  exact (map_Forall_dec (fun _ g => group_invariant g) (aseGroups_ st)).
Defined.

(** The invariant for every group but one: group_add_node registers the
    new group before the device is added to it. *)
Definition invariant_except (new_group : option Z) (st : LeAudioClientImpl) : Prop :=
  forall (id : Z) (m : list RawAddress * bool),
    membership_at st id = Some m -> Some id <> new_group -> membership_ok m.

(** The members that stay when [address] leaves (LeAudioDeviceGroup::RemoveNode). *)
Definition members_without (address : RawAddress) (g : LeAudioDeviceGroup)
  : list RawAddress :=
  List.filter (fun a => negb (a =? address)) (leAudioDevices g).

Section Registry.
Context {E : Environment} {SM : LeAudioGroupStateMachine}.

(** The operations of the client that add or remove a member, remove a
    group, or handle a CIG event. *)
Inductive registry_operation : Type :=
| do_group_add_node (group_id : option Z) (address : RawAddress)
    (update_group_module : bool)
| do_group_remove_node (group : Z) (address : RawAddress)
    (update_group_module : bool)
| do_remove_group_if_possible (group : option Z)
| do_IsoCigEventsCb (event : cig_event).

Definition run (op : registry_operation) (st : LeAudioClientImpl)
  : Result LeAudioClientImpl :=
  match op with
  | do_group_add_node group_id address update_group_module =>
      group_add_node group_id address update_group_module st
  | do_group_remove_node group address update_group_module =>
      group_remove_node group address update_group_module st
  | do_remove_group_if_possible group => remove_group_if_possible group st
  | do_IsoCigEventsCb event => IsoCigEventsCb event st
  end.

(** What the invariant asks of the state machine: handling the completion of
    a CIG creation does not leave a group without members and without
    CIG. *)
Definition cig_create_keeps_invariant : Prop :=
  forall (status : Z) (conn_handles : list Z) (g : LeAudioDeviceGroup)
         (devices : gmap Z LeAudioDevice),
    group_invariant g ->
    group_invariant (ProcessHciNotifOnCigCreate status conn_handles g devices).1.

End Registry.

(** ** The callbacks of the groups module, and devices restored from storage *)

Section GroupCallbacks.
Context {E : Environment}.
Variable kCapServiceUuid : Z.

Definition OnGroupAddedCb (address : RawAddress) (uuid : Z) (group_id : option Z)
    (st : LeAudioClientImpl) : Result LeAudioClientImpl :=
  (* We are interested in the groups which are in the context of CAP *)
  if negb (uuid =? kCapServiceUuid) then Done st
  else
    match FindByAddress st address with
    | None => Done st
    | Some d =>
        if bool_decide (is_Some (group_id_ d)) then Done st
        else group_add_node group_id address false st
    end.

Definition OnGroupMemberAddedCb (address : RawAddress) (group_id : option Z)
    (st : LeAudioClientImpl) : Result LeAudioClientImpl :=
  match FindById st group_id with
  | None => Done st
  | Some _ =>
      match FindByAddress st address with
      | None => Done st
      | Some d =>
          if bool_decide (is_Some (group_id_ d)) then Done st
          else group_add_node group_id address false st
      end
  end.

Definition OnGroupMemberRemovedCb (address : RawAddress) (group_id : option Z)
    (st : LeAudioClientImpl) : Result LeAudioClientImpl :=
  match FindByAddress st address with
  | None => Done st
  | Some d =>
      if negb (bool_decide (is_Some (group_id_ d))) then Done st
      else match FindById st group_id with
           | None => Done st
           | Some (group, _) => group_remove_node group address false st
           end
  end.

(** Restore paired device from storage to recreate groups *)
Definition AddFromStorage (address : RawAddress) (autoconnect : bool)
    (st : LeAudioClientImpl) : Result LeAudioClientImpl :=
  let st :=
    match FindByAddress st address with
    | None => st <| leAudioDevices_ :=
                      <[address := new_LeAudioDevice false]> (leAudioDevices_ st) |>
    | Some _ => st
    end in
  let group_id := DeviceGroups_GetGroupId address in
  let! st := if bool_decide (is_Some group_id)
             then group_add_node group_id address false st
             else Done st in
  if autoconnect then Done (call (BTA_GATTC_Open address false) st)
  else Done st.

End GroupCallbacks.

(** Members and back references agree: the member list of a registered
    group has no duplicates, and every member is a registered device whose
    group_id_ names the group. *)
Definition registry_consistent (st : LeAudioClientImpl) : Prop :=
  forall (id : Z) (g : LeAudioDeviceGroup),
    aseGroups_ st !! id = Some g ->
    NoDup (leAudioDevices g)
    /\ forall a, a ∈ leAudioDevices g ->
         exists d, leAudioDevices_ st !! a = Some d /\ group_id_ d = Some id.

(** The group a registered device refers to. *)
Definition group_of_device (st : LeAudioClientImpl) (address : RawAddress)
  : option (option Z) :=
  group_id_ <$> leAudioDevices_ st !! address.

Section Membership.
Context {E : Environment}.

(** The operations through which a device joins or leaves a group. *)
Inductive membership_operation : Type :=
| do_add_node (group_id : option Z) (address : RawAddress) (update_group_module : bool)
| do_GroupRemoveNode (group_id : option Z) (address : RawAddress)
| do_RemoveDevice (address : RawAddress)
| do_OnGroupAddedCb (kCapServiceUuid : Z) (address : RawAddress) (uuid : Z)
    (group_id : option Z)
| do_OnGroupMemberAddedCb (address : RawAddress) (group_id : option Z)
| do_AddFromStorage (address : RawAddress) (autoconnect : bool).

Definition run_membership (op : membership_operation) (st : LeAudioClientImpl)
  : Result LeAudioClientImpl :=
  match op with
  | do_add_node group_id address update_group_module =>
      group_add_node group_id address update_group_module st
  | do_GroupRemoveNode group_id address => GroupRemoveNode group_id address st
  | do_RemoveDevice address => RemoveDevice address st
  | do_OnGroupAddedCb kCapServiceUuid address uuid group_id =>
      OnGroupAddedCb kCapServiceUuid address uuid group_id st
  | do_OnGroupMemberAddedCb address group_id =>
      OnGroupMemberAddedCb address group_id st
  | do_AddFromStorage address autoconnect => AddFromStorage address autoconnect st
  end.

End Membership.

Definition members_consistent (st : LeAudioClientImpl) (id : Z)
    (m : list RawAddress * bool) : Prop :=
  NoDup m.1 /\ forall a, a ∈ m.1 -> group_of_device st a = Some (Some id).


(** ** The downlink: from the audio framework to the controller *)

(** The PCM input of an LC3 encoder call: a pointer into the octets that the
    framework delivered, read as 16-bit samples from sample [first] on, or the
    mono samples that get_mono_stream stored. *)
Inductive pcm_input : Type :=
| pcm_of_data (data : list Z) (first : Z)
| pcm_of_samples (samples : list Z).

(** What get_mono_stream stores for [n] frames of four octets each. *)
Fixpoint half_mean_frames (n : nat) (data : list Z) : list Z :=
  match n, data with
  | S n', b0 :: b1 :: b2 :: b3 :: rest =>
      (int16_of_octets b0 b1 / 2 + int16_of_octets b2 b3 / 2) / 2
        :: half_mean_frames n' rest
  | _, _ => []
  end.

Section Downlink.
Context {E : Environment}.

(** [lc3_encode(encoder, LC3_PCM_FORMAT_S16, pcm, stride, nbytes, out)]: the
    octets that the left or right encoder writes to [out]. *)
Variable lc3_encode : bool -> pcm_input -> Z -> Z -> list Z.

(** A [std::vector<uint8_t>] of [nbytes] zeros that an encoder call has
    written to: the octets the encoder did not write are still 0. *)
Definition encoded (is_left : bool) (pcm : pcm_input) (stride nbytes : Z) : list Z :=
  resize (Z.to_nat nbytes) 0 (lc3_encode is_left pcm stride nbytes).

(** [IsoManager::GetInstance()->SendIsoData(cis_handle, data, size)] for a
    handle that is not 0; the functions below return the SDUs they send,
    oldest first. *)
Definition send_if (cis_handle : Z) (sdu : list Z) : list (Z * list Z) :=
  if cis_handle =? 0 then [] else [(cis_handle, sdu)].

Definition PrepareAndSendToTwoDevices (data : list Z) (sc : stream_configuration)
    (st : LeAudioClientImpl) : Result (list (Z * list Z)) :=
  let byte_count := to_uint16 (sink_octets_per_codec_frame sc) in
  let dt_us := data_interval_us (current_source_codec_config st) in
  let af_hz := sample_rate (audio_framework_source_config st) in
  let number_of_required_samples_per_channel :=
    to_uint16 (lc3_frame_samples dt_us af_hz) in
  let left_cis_handle := cis_handle_of kLeAudioLocationAnyLeft (sink_streams sc) in
  let right_cis_handle := cis_handle_of kLeAudioLocationAnyRight (sink_streams sc) in
  if Z.of_nat (length data)
     <? 2 (* bytes per sample *) * 2 (* channels *)
        * number_of_required_samples_per_channel
  then Done []
  else
    let mono := (left_cis_handle =? 0) || (right_cis_handle =? 0) in
    let! (chan_left_enc, chan_right_enc) :=
      if negb mono then
        Done (encoded true (pcm_of_data data 0) 2 byte_count,
              encoded false (pcm_of_data data 1) 2 byte_count)
      else
        let! chan_mono := get_mono_stream (lc3_frame_samples dt_us af_hz) data [] 1 in
        Done (if negb (left_cis_handle =? 0)
              then encoded true (pcm_of_samples chan_mono) 1 byte_count
              else replicate (Z.to_nat byte_count) 0,
              if negb (right_cis_handle =? 0)
              then encoded false (pcm_of_samples chan_mono) 1 byte_count
              else replicate (Z.to_nat byte_count) 0) in
    (* Send data to the controller *)
    Done (send_if left_cis_handle chan_left_enc
            ++ send_if right_cis_handle chan_right_enc).

Definition PrepareAndSendToSingleDevice (data : list Z) (sc : stream_configuration)
    (st : LeAudioClientImpl) : Result (list (Z * list Z)) :=
  let num_channels := sink_num_of_channels sc in
  let byte_count := to_uint16 (sink_octets_per_codec_frame sc) in
  match sink_streams sc with
  | [] => Abort OutOfRange            (* sink_streams.front() *)
  | (cis_handle, _) :: _ =>
      let dt_us := data_interval_us (current_source_codec_config st) in
      let af_hz := sample_rate (audio_framework_source_config st) in
      let number_of_required_samples_per_channel :=
        to_uint16 (lc3_frame_samples dt_us af_hz) in
      if Z.of_nat (length data)
         <? 2 (* bytes per sample *) * num_channels
            * number_of_required_samples_per_channel
      then Done []
      else if num_channels * byte_count <? 0
      then Abort OutOfRange           (* std::vector of a negative size *)
      else
        let! chan_encoded :=
          if num_channels =? 1 then
            (* Since we always get two channels from framework, lets make it
               mono here *)
            let! chan_mono :=
              get_mono_stream (lc3_frame_samples dt_us af_hz) data [] 1 in
            Done (encoded true (pcm_of_samples chan_mono) 1 byte_count)
          else if num_channels * byte_count <? byte_count + byte_count
          then Abort OutOfRange       (* the second encoder writes behind the vector *)
          else
            Done (resize (Z.to_nat (num_channels * byte_count)) 0
                    (encoded true (pcm_of_data data 0) 2 byte_count
                       ++ encoded false (pcm_of_data data 1) 2 byte_count)) in
        (* Send data to the controller *)
        Done [(cis_handle, chan_encoded)]
  end.

Definition OnAudioDataReady (data : list Z) (st : LeAudioClientImpl)
  : Result (list (Z * list Z)) :=
  if negb (bool_decide (is_Some (active_group_id_ st)))
     || negb (AudioState.eqb (audio_sender_state_ st) AudioState.STARTED)
  then Done []
  else
    match FindById st (active_group_id_ st) with
    | None => Done []
    | Some (_, g) =>
        let stream_conf := stream_conf g in
        if (2 <? sink_num_of_devices stream_conf)
           || (sink_num_of_devices stream_conf =? 0)
           || bool_decide (sink_streams stream_conf = [])
        then Done []
        else if sink_num_of_devices stream_conf =? 2
        then PrepareAndSendToTwoDevices data stream_conf st
        else PrepareAndSendToSingleDevice data stream_conf st
    end.

End Downlink.


(** ** More sample states *)
Module Example.

(** A call on both earbuds: the microphones are the source CIS 0x90 (left)
    and 0x91 (right) with 40 octets per frame; the framework reads 16 kHz
    mono and nothing is cached. *)
Definition pair_in_call : LeAudioDeviceGroup :=
  Sample.with_source_streams [(0x90, 1); (0x91, 2)] 40
    (Sample.group_of [0x10; 0x11] true Sample.STREAMING Sample.STREAMING 6
       (Some Sample.two_device_conf) [(0x80, 1); (0x81, 2)]).

Definition call_on_pair : LeAudioClientImpl :=
  Sample.client_of
    [(0x10, Sample.earbud (Some 1) (Some 1) true 1 (6, 6));
     (0x11, Sample.earbud (Some 2) (Some 1) true 2 (6, 6))]
    [(1, pair_in_call)]
    (Some 1) AudioState.STARTED AudioState.STARTED true None.

End Example.


(** ** The codec configuration of the audio session *)

#[global] Instance set_current_source_codec_config : Setter current_source_codec_config := ltac:(make_setter eta_LeAudioClientImpl current_source_codec_config).
#[global] Instance set_current_sink_codec_config : Setter current_sink_codec_config := ltac:(make_setter eta_LeAudioClientImpl current_sink_codec_config).

Section CodecConfiguration.
Context {E : Environment}.

(** The two members of LeAudioCodecConfiguration that client.cc uses and its
    header defines: IsInvalid and the comparison [!=]. *)
Variable IsInvalid : LeAudioCodecConfiguration -> bool.
Variable differs : LeAudioCodecConfiguration -> LeAudioCodecConfiguration -> bool.

Definition UpdateConfigAndCheckIfReconfigurationIsNeeded (group_id : option Z)
    (context_type : LeAudioContextType.t) (st : LeAudioClientImpl)
  : bool * LeAudioClientImpl :=
  let reconfiguration_needed := false in
  match FindById st group_id with
  | None => (reconfiguration_needed, st)
  | Some (_, g) =>
      let source_configuration :=
        GetCodecConfigurationByDirection g (leAudioDevices_ st) context_type
          kLeAudioDirectionSink in
      let sink_configuration :=
        GetCodecConfigurationByDirection g (leAudioDevices_ st) context_type
          kLeAudioDirectionSource in
      let '(reconfiguration_needed, st) :=
        match source_configuration with
        | Some c =>
            if differs c (current_source_codec_config st)
            then (true, st <| current_source_codec_config := c |>)
            else (reconfiguration_needed, st)
        | None =>
            if negb (IsInvalid (current_source_codec_config st))
            then (true, st <| current_source_codec_config :=
                                 mk_LeAudioCodecConfiguration 0 0 0 0 |>)
            else (reconfiguration_needed, st)
        end in
      let '(reconfiguration_needed, st) :=
        match sink_configuration with
        | Some c =>
            if differs c (current_sink_codec_config st)
            then (true, st <| current_sink_codec_config := c |>)
            else (reconfiguration_needed, st)
        | None =>
            if negb (IsInvalid (current_sink_codec_config st))
            then (true, st <| current_sink_codec_config :=
                                 mk_LeAudioCodecConfiguration 0 0 0 0 |>)
            else (reconfiguration_needed, st)
        end in
      (reconfiguration_needed, st <| current_context_type_ := context_type |>)
  end.

End CodecConfiguration.

(** IsInvalid and [!=] as a header would define them for a structure of four
    numbers: invalid when a member is 0, different when a member differs. *)
Module CodecExample.

Definition is_invalid (c : LeAudioCodecConfiguration) : bool :=
  (num_channels c =? 0) || (sample_rate c =? 0)
  || (bits_per_sample c =? 0) || (data_interval_us c =? 0).

Definition differs (a b : LeAudioCodecConfiguration) : bool :=
  negb ((num_channels a =? num_channels b) && (sample_rate a =? sample_rate b)
        && (bits_per_sample a =? bits_per_sample b)
        && (data_interval_us a =? data_interval_us b)).

End CodecExample.




(** ** The streams of a direction *)

(** The active ASEs of a direction in the order in which the two loops of
    GetStreamConfigurationByDirection visit them: one active member after
    the other, and the ASEs of a member in their order. *)
Definition ases_of_device (devices : gmap Z LeAudioDevice) (dir : Z)
    (a : RawAddress) : list ase :=
  match devices !! a with
  | Some d => active_ases_by_direction d dir
  | None => []
  end.

Definition visited_ases (g : LeAudioDeviceGroup) (devices : gmap Z LeAudioDevice)
    (dir : Z) : list ase :=
  flat_map (ases_of_device devices dir) (active_devices g devices).

(** The active members that have an active ASE of the direction. *)
Definition devices_of_direction (g : LeAudioDeviceGroup)
    (devices : gmap Z LeAudioDevice) (dir : Z) : list RawAddress :=
  List.filter (fun a => negb (bool_decide (ases_of_device devices dir a = [])))
              (active_devices g devices).

(** What GetStreamConfigurationByDirection has gathered from the ASEs
    [ases] of [n] devices: one stream per ASE in their order, the number of
    devices, the sum of the channel counts, and codec parameters with which
    every ASE agrees unless its own value is 0. *)
Definition gathered_from (ases : list ase) (n : Z) (acc : direction_configuration)
  : Prop :=
  (fun s : Z * Z => (s.1, Some s.2)) <$> streams acc
    = (fun a => (cis_conn_hdl a, audio_channel_allocation a)) <$> ases
  /\ num_of_devices acc = n
  /\ num_of_channels acc = foldr Z.add 0 (channel_count <$> ases)
  /\ Forall (fun a => sampling_frequency_hz a = 0
                      \/ sampling_frequency_hz a = sample_frequency_hz acc) ases
  /\ Forall (fun a => frame_duration_us a = 0
                      \/ frame_duration_us a = stream_frame_duration_us acc) ases
  /\ Forall (fun a => octets_per_codec_frame a = Some 0
                      \/ octets_per_codec_frame a
                         = Some (stream_octets_per_codec_frame acc)) ases
  /\ Forall (fun a => codec_frames_blocks_per_sdu a = Some 0
                      \/ codec_frames_blocks_per_sdu a
                         = Some (stream_codec_frames_blocks_per_sdu acc)) ases.

(** An ASE that carries a channel allocation and the given codec
    parameters. *)
Definition configured_like (freq duration octets blocks : Z) (a : ase) : Prop :=
  is_Some (audio_channel_allocation a)
  /\ sampling_frequency_hz a = freq
  /\ frame_duration_us a = duration
  /\ octets_per_codec_frame a = Some octets
  /\ codec_frames_blocks_per_sdu a = Some blocks.

(** ASEs that carry a channel allocation and the same codec parameters. *)
Definition configured_alike (ases : list ase) : Prop :=
  exists freq duration octets blocks : Z,
    Forall (configured_like freq duration octets blocks) ases.

(** The codec parameters that have been gathered are still 0 or the given
    ones. *)
Definition gathered_partly (freq duration octets blocks : Z)
    (acc : direction_configuration) : Prop :=
  (sample_frequency_hz acc = 0 \/ sample_frequency_hz acc = freq)
  /\ (stream_frame_duration_us acc = 0 \/ stream_frame_duration_us acc = duration)
  /\ (stream_octets_per_codec_frame acc = 0 \/ stream_octets_per_codec_frame acc = octets)
  /\ (stream_codec_frames_blocks_per_sdu acc = 0
      \/ stream_codec_frames_blocks_per_sdu acc = blocks).



(** ** The active group *)

#[global] Instance set_audio_framework_source_config : Setter audio_framework_source_config := ltac:(make_setter eta_LeAudioClientImpl audio_framework_source_config).
#[global] Instance set_audio_framework_sink_config : Setter audio_framework_sink_config := ltac:(make_setter eta_LeAudioClientImpl audio_framework_sink_config).

Inductive GroupStatus : Type := INACTIVE | ACTIVE.

(** The calls of GroupSetActive to the two audio HAL clients and the group
    status callback. *)
Inductive SessionCall : Type :=
| OnGroupStatus (group_id : Z) (status : GroupStatus)
| AudioSource_Acquire
| AudioSource_Release
| AudioSource_Start (codec_configuration : LeAudioCodecConfiguration)
| AudioSource_Stop
| AudioSink_Acquire
| AudioSink_Release
| AudioSink_Start (codec_configuration : LeAudioCodecConfiguration)
| AudioSink_Stop.

(** The client object with its members [audio_source_instance_] and
    [audio_sink_instance_] ([true]: the pointer is not null) and the calls
    above in their order. *)
Record AudioSession : Type := mk_AudioSession {
  client : LeAudioClientImpl;
  audio_source_instance_ : bool;
  audio_sink_instance_ : bool;
  session_calls : list SessionCall;
}.

Definition with_client (st : LeAudioClientImpl) (s : AudioSession) : AudioSession :=
  {| client := st;
     audio_source_instance_ := audio_source_instance_ s;
     audio_sink_instance_ := audio_sink_instance_ s;
     session_calls := session_calls s |}.

Definition session_call (c : SessionCall) (s : AudioSession) : AudioSession :=
  {| client := client s;
     audio_source_instance_ := audio_source_instance_ s;
     audio_sink_instance_ := audio_sink_instance_ s;
     session_calls := session_calls s ++ [c] |}.

Definition with_source_instance (instance : bool) (s : AudioSession) : AudioSession :=
  {| client := client s;
     audio_source_instance_ := instance;
     audio_sink_instance_ := audio_sink_instance_ s;
     session_calls := session_calls s |}.

Definition with_sink_instance (instance : bool) (s : AudioSession) : AudioSession :=
  {| client := client s;
     audio_source_instance_ := audio_source_instance_ s;
     audio_sink_instance_ := instance;
     session_calls := session_calls s |}.

Definition with_data_interval_us (interval : Z) (c : LeAudioCodecConfiguration)
  : LeAudioCodecConfiguration :=
  {| num_channels := num_channels c; sample_rate := sample_rate c;
     bits_per_sample := bits_per_sample c; data_interval_us := interval |}.

Definition ClientAudioIntefraceRelease (s : AudioSession) : AudioSession :=
  let s :=
    if audio_source_instance_ s
    then with_source_instance false
           (session_call AudioSource_Release (session_call AudioSource_Stop s))
    else s in
  if audio_sink_instance_ s
  then with_sink_instance false
         (session_call AudioSink_Release (session_call AudioSink_Stop s))
  else s.

Section ActiveGroup.
Context {E : Environment} {SM : LeAudioGroupStateMachine}.
Variable IsInvalid : LeAudioCodecConfiguration -> bool.
Variable differs : LeAudioCodecConfiguration -> LeAudioCodecConfiguration -> bool.

(** [if (!audio_source_instance_) audio_source_instance_ =
    LeAudioClientAudioSource::Acquire()], and the same for the audio sink;
    [source_acquired] and [sink_acquired] tell whether Acquire returns an
    instance when it is called. *)
Definition acquire_audio_source (source_acquired : bool) (s : AudioSession)
  : AudioSession :=
  if negb (audio_source_instance_ s)
  then with_source_instance source_acquired (session_call AudioSource_Acquire s)
  else s.

Definition acquire_audio_sink (sink_acquired : bool) (s : AudioSession)
  : AudioSession :=
  if negb (audio_sink_instance_ s)
  then with_sink_instance sink_acquired (session_call AudioSink_Acquire s)
  else s.

(** The end of GroupSetActive, behind the check of the codec
    configurations. *)
Definition expose_and_set_active (id : Z) (s : AudioSession) : AudioSession :=
  let st := client s in
  let s :=
    match active_group_id_ st with
    | None =>
        (* Expose audio sessions if there was no previous active group *)
        let st :=
          st <| audio_framework_source_config :=
                  with_data_interval_us
                    (data_interval_us (current_source_codec_config st))
                    (audio_framework_source_config st) |> in
        let s :=
          session_call (AudioSource_Start (audio_framework_source_config st))
            (with_client st s) in
        let st :=
          st <| audio_framework_sink_config :=
                  with_data_interval_us
                    (data_interval_us (current_source_codec_config st))
                    (audio_framework_sink_config st) |> in
        session_call (AudioSink_Start (audio_framework_sink_config st))
          (with_client st s)
    | Some active =>
        (* In case there was an active group. Stop the stream *)
        with_client (GroupStop (Some active) st) s
    end in
  let s := with_client ((client s) <| active_group_id_ := Some id |>) s in
  session_call (OnGroupStatus id ACTIVE) s.

Definition GroupSetActive (source_acquired sink_acquired : bool)
    (group_id : option Z) (s : AudioSession) : AudioSession :=
  match group_id with
  | None =>
      match active_group_id_ (client s) with
      | None => (* Nothing to do *) s
      | Some active =>
          let st := alarm_cancel_suspend_timeout (client s) in
          let st := StopAudio st in
          let s := ClientAudioIntefraceRelease (with_client st s) in
          let st := GroupStop (active_group_id_ (client s)) (client s) in
          let s := session_call (OnGroupStatus active INACTIVE) (with_client st s) in
          with_client ((client s) <| active_group_id_ := group_id |>) s
      end
  | Some id =>
      match FindById (client s) group_id with
      | None => s
      | Some _ =>
          if bool_decide (active_group_id_ (client s) = Some id)
          then session_call (OnGroupStatus id ACTIVE) s
          else
            let s := acquire_audio_source source_acquired s in
            if negb (audio_source_instance_ s) then s
            else
              let s := acquire_audio_sink sink_acquired s in
              if negb (audio_sink_instance_ s)
              then session_call AudioSource_Release s
              else
                (* Configure audio HAL sessions with most frequent context.
                   If reconfiguration is not needed it means, context type
                   is not supported *)
                let s :=
                  with_client
                    (UpdateConfigAndCheckIfReconfigurationIsNeeded IsInvalid differs
                       group_id LeAudioContextType.MEDIA (client s)).2 s in
                if IsInvalid (current_source_codec_config (client s))
                   && IsInvalid (current_sink_codec_config (client s))
                then s
                else expose_and_set_active id s
      end
  end.

End ActiveGroup.

(** ** The uplink decoder *)

(** The SDU that reaches the decoder: the data, or nothing for packet loss
    concealment when the size is not the size of a codec frame. *)
Definition decoder_input (required size : Z) (data : option (list Z))
  : option (list Z) * Z :=
  if negb (required =? size) then (None, 0) else (data, size).

(** The second channel of a pair can be mixed with the cached one: the
    vector that SendAudioDataToAF reads as the right one is not the shorter
    one. *)
Definition second_channel_fits (is_left : bool) (decoded cached : list Z) : Prop :=
  if is_left then (length cached <= length decoded)%nat
  else (length decoded <= length cached)%nat.

(** ** The forced disconnect *)

(** What [DisconnectDevice(leAudioDevice, true)] hands to the stack for the
    device [d] at [address]: nothing without a connection id, the ACL
    disconnect when BTM knows the handle of the link, the clean of the GATT
    queue and the close of the GATT connection when it does not. *)
Definition forced_disconnect_calls {E : Environment} (address : RawAddress)
    (d : LeAudioDevice) : list Call :=
  match conn_id_ d with
  | None => []
  | Some conn_id =>
      match BTM_GetHCIConnHandle address with
      | Some acl_handle => [acl_disconnect_from_handle acl_handle]
      | None => [BtaGattQueue_Clean conn_id; BTA_GATTC_Close conn_id]
      end
  end.

(** ** The operations of the client

    The member functions of LeAudioClientImpl that the model has, each as a
    step from one state of the client to the next, together with the calls
    on a group and on the state machine that the model writes as steps of
    their own (group_UpdateActiveContextsMap, group_ReloadAudioLocations,
    callbacks_OnAudioConf, group_ConfigureStream) and the callback of the
    keep-alive alarm.  A function that returns a value next to the state is
    taken with the state it leaves.  The steps inside the registries of
    devices.cc (Add, AddNode, RemoveNode) are not operations of the client:
    group_add_node and group_remove_node run them. *)
Section Operations.
Context {E : Environment} {SM : LeAudioGroupStateMachine}.

Inductive client_operation : Type :=
(* members and groups *)
| op_group_add_node (group_id : option Z) (address : RawAddress)
    (update_group_module : bool)
| op_group_remove_node (group : Z) (address : RawAddress)
    (update_group_module : bool)
| op_remove_group_if_possible (group : option Z)
| op_GroupRemoveNode (group_id : option Z) (address : RawAddress)
| op_RemoveDevice (address : RawAddress)
| op_Disconnect (address : RawAddress)
| op_DisconnectDevice (leAudioDevice : RawAddress) (acl_force_disconnect : bool)
| op_BackgroundConnectIfGroupConnected (leAudioDevice : RawAddress)
| op_OnGroupAddedCb (kCapServiceUuid : Z) (address : RawAddress) (uuid : Z)
    (group_id : option Z)
| op_OnGroupMemberAddedCb (address : RawAddress) (group_id : option Z)
| op_OnGroupMemberRemovedCb (address : RawAddress) (group_id : option Z)
| op_AddFromStorage (address : RawAddress) (autoconnect : bool)
| op_UpdateContextAndLocations (group : Z) (leAudioDevice : RawAddress)
| op_group_UpdateActiveContextsMap (group : Z) (update_contexts : Z)
| op_group_ReloadAudioLocations (group : Z)
| op_callbacks_OnAudioConf (group : Z) (contexts : Z)
| op_HandlePendingAvailableContexts (group : option Z)
(* GATT *)
| op_LeAudioCharValueHandle (conn_id hdl : Z) (value : list Z)
| op_ControlPointNotificationHandler (ntf : ctp_ntf)
| op_AseInitialStateReadRequest (leAudioDevice : RawAddress)
| op_AttachToStreamingGroupIfNeeded (leAudioDevice : RawAddress)
| op_connectionReady (leAudioDevice : RawAddress)
(* streams *)
| op_InternalGroupStream (group_id : option Z) (context_type : Z)
| op_GroupStream (group_id : option Z) (context_type : Z)
| op_GroupStop (group_id : option Z)
| op_GroupSetActive (IsInvalid : LeAudioCodecConfiguration -> bool)
    (differs : LeAudioCodecConfiguration -> LeAudioCodecConfiguration -> bool)
    (source_instance sink_instance source_acquired sink_acquired : bool)
    (group_id : option Z)
| op_UpdateConfigAndCheckIfReconfigurationIsNeeded
    (IsInvalid : LeAudioCodecConfiguration -> bool)
    (differs : LeAudioCodecConfiguration -> LeAudioCodecConfiguration -> bool)
    (group_id : option Z) (context_type : LeAudioContextType.t)
| op_group_ConfigureStream (group : Z)
| op_StatusReportCb (group_id : option Z) (status : GroupStreamStatus.t)
| op_IsoCigEventsCb (event : cig_event)
| op_OnLeAudioDeviceSetStateTimeout (group_id : Z)
| op_GetStreamConfigurationByDirection (group : Z) (dir : Z)
(* the audio framework *)
| op_CancelStreamingRequest
| op_SuspendedForReconfiguration
| op_StartSendingAudio (group_id : option Z)
| op_StartReceivingAudio (group_id : option Z)
| op_SuspendAudio
| op_StopAudio
| op_OnAudioResume (group : Z)
| op_OnAudioSuspend
| op_suspend_timeout_expired
| op_OnAudioSinkSuspend
| op_OnAudioSourceSuspend
| op_OnAudioSinkResume
| op_OnAudioSourceResume
| op_CleanCachedMicrophoneData
| op_SendAudioDataToAF (bt_got_stereo af_is_stereo : bool)
    (chan_left chan_right : option (list Z))
| op_SendAudioData (data : option (list Z)) (size : Z) (cis_conn_hdl : Z)
    (timestamp : Z)
| op_OnAudioDataReady (lc3_encode : bool -> pcm_input -> Z -> Z -> list Z)
    (data : list Z).

Definition run_client (op : client_operation) (st : LeAudioClientImpl)
  : Result LeAudioClientImpl :=
  match op with
  | op_group_add_node group_id address update_group_module =>
      group_add_node group_id address update_group_module st
  | op_group_remove_node group address update_group_module =>
      group_remove_node group address update_group_module st
  | op_remove_group_if_possible group => remove_group_if_possible group st
  | op_GroupRemoveNode group_id address => GroupRemoveNode group_id address st
  | op_RemoveDevice address => RemoveDevice address st
  | op_Disconnect address => Disconnect address st
  | op_DisconnectDevice leAudioDevice acl_force_disconnect =>
      DisconnectDevice leAudioDevice acl_force_disconnect st
  | op_BackgroundConnectIfGroupConnected leAudioDevice =>
      BackgroundConnectIfGroupConnected leAudioDevice st
  | op_OnGroupAddedCb kCapServiceUuid address uuid group_id =>
      OnGroupAddedCb kCapServiceUuid address uuid group_id st
  | op_OnGroupMemberAddedCb address group_id =>
      OnGroupMemberAddedCb address group_id st
  | op_OnGroupMemberRemovedCb address group_id =>
      OnGroupMemberRemovedCb address group_id st
  | op_AddFromStorage address autoconnect => AddFromStorage address autoconnect st
  | op_UpdateContextAndLocations group leAudioDevice =>
      UpdateContextAndLocations group leAudioDevice st
  | op_group_UpdateActiveContextsMap group update_contexts =>
      let! r := group_UpdateActiveContextsMap group update_contexts st in Done r.2
  | op_group_ReloadAudioLocations group =>
      let! r := group_ReloadAudioLocations group st in Done r.2
  | op_callbacks_OnAudioConf group contexts => callbacks_OnAudioConf group contexts st
  | op_HandlePendingAvailableContexts group =>
      HandlePendingAvailableContexts group st
  | op_LeAudioCharValueHandle conn_id hdl value =>
      LeAudioCharValueHandle conn_id hdl value st
  | op_ControlPointNotificationHandler ntf =>
      Done (ControlPointNotificationHandler ntf st)
  | op_AseInitialStateReadRequest leAudioDevice =>
      AseInitialStateReadRequest leAudioDevice st
  | op_AttachToStreamingGroupIfNeeded leAudioDevice =>
      AttachToStreamingGroupIfNeeded leAudioDevice st
  | op_connectionReady leAudioDevice => connectionReady leAudioDevice st
  | op_InternalGroupStream group_id context_type =>
      Done (InternalGroupStream group_id context_type st).2
  | op_GroupStream group_id context_type =>
      Done (GroupStream group_id context_type st)
  | op_GroupStop group_id => Done (GroupStop group_id st)
  | op_GroupSetActive IsInvalid differs source_instance sink_instance
      source_acquired sink_acquired group_id =>
      Done (client
              (GroupSetActive IsInvalid differs source_acquired sink_acquired
                 group_id
                 {| client := st;
                    audio_source_instance_ := source_instance;
                    audio_sink_instance_ := sink_instance;
                    session_calls := [] |}))
  | op_UpdateConfigAndCheckIfReconfigurationIsNeeded IsInvalid differs group_id
      context_type =>
      Done (UpdateConfigAndCheckIfReconfigurationIsNeeded IsInvalid differs
              group_id context_type st).2
  | op_group_ConfigureStream group =>
      let! r := group_ConfigureStream group st in Done r.2
  | op_StatusReportCb group_id status => StatusReportCb group_id status st
  | op_IsoCigEventsCb event => IsoCigEventsCb event st
  | op_OnLeAudioDeviceSetStateTimeout group_id =>
      OnLeAudioDeviceSetStateTimeout group_id st
  | op_GetStreamConfigurationByDirection group dir =>
      let! r := GetStreamConfigurationByDirection group dir st in Done r.2
  | op_CancelStreamingRequest => Done (CancelStreamingRequest st)
  | op_SuspendedForReconfiguration => Done (SuspendedForReconfiguration st)
  | op_StartSendingAudio group_id =>
      let! r := StartSendingAudio group_id st in Done r.2
  | op_StartReceivingAudio group_id => StartReceivingAudio group_id st
  | op_SuspendAudio => Done (SuspendAudio st)
  | op_StopAudio => Done (StopAudio st)
  | op_OnAudioResume group =>
      let! g := group_at st group in Done (OnAudioResume g st).2
  | op_OnAudioSuspend => Done (OnAudioSuspend st)
  | op_suspend_timeout_expired => Done (suspend_timeout_expired st)
  | op_OnAudioSinkSuspend => Done (OnAudioSinkSuspend st)
  | op_OnAudioSourceSuspend => Done (OnAudioSourceSuspend st)
  | op_OnAudioSinkResume => OnAudioSinkResume st
  | op_OnAudioSourceResume => OnAudioSourceResume st
  | op_CleanCachedMicrophoneData => Done (CleanCachedMicrophoneData st)
  | op_SendAudioDataToAF bt_got_stereo af_is_stereo chan_left chan_right =>
      SendAudioDataToAF bt_got_stereo af_is_stereo chan_left chan_right st
  | op_SendAudioData data size cis_conn_hdl timestamp =>
      SendAudioData data size cis_conn_hdl timestamp st
  | op_OnAudioDataReady lc3_encode data =>
      let! _ := OnAudioDataReady lc3_encode data st in Done st
  end.

(** What the invariant asks of the state machine, whose code is not in
    client.cc: a method that is handed a group with members or with its CIG
    does not hand back one without both.  Nothing is asked of the handling
    of a CIG removal: the client looks at the group when it returns. *)
Definition state_machine_keeps_invariant : Prop :=
  (forall (g : LeAudioDeviceGroup) (devices : gmap Z LeAudioDevice)
          (context_type : Z),
     group_invariant g ->
     group_invariant (StartStream g devices context_type).2.1)
  /\ (forall (g : LeAudioDeviceGroup) (devices : gmap Z LeAudioDevice),
        group_invariant g -> group_invariant (StopStream g devices).1)
  /\ (forall (g : LeAudioDeviceGroup) (devices : gmap Z LeAudioDevice)
             (context_type : LeAudioContextType.t),
        group_invariant g ->
        group_invariant (ConfigureStream g devices context_type).2.1)
  /\ (forall (g : LeAudioDeviceGroup) (devices : gmap Z LeAudioDevice)
             (address : RawAddress),
        group_invariant g ->
        group_invariant (AttachToStream g devices address).1)
  /\ (forall (value : list Z) (hdl : Z) (address : RawAddress)
             (g g' : LeAudioDeviceGroup) (devices : gmap Z LeAudioDevice),
        group_invariant g ->
        (ProcessGattNotifEvent value hdl address (Some g) devices).1 = Some g' ->
        group_invariant g')
  /\ cig_create_keeps_invariant.

End Operations.

(** * Properties *)

(** ** Enumerations and machine integers *)

Lemma AudioState_eqb_eq (a b : AudioState.t) : AudioState.eqb a b = true <-> a = b.
Proof. destruct a, b; cbv; split; congruence. Qed.

Lemma AseState_eqb_eq (a b : AseState.t) : AseState.eqb a b = true <-> a = b.
Proof. destruct a, b; cbv; split; congruence. Qed.

Lemma LeAudioContextType_eqb_eq (a b : LeAudioContextType.t) :
  LeAudioContextType.eqb a b = true <-> a = b.
Proof. destruct a, b; cbv; split; congruence. Qed.

Lemma contains_elem_of (c : LeAudioContextType.t) (l : list LeAudioContextType.t) :
  contains c l = true <-> c ∈ l.
Proof.
  unfold contains. rewrite existsb_exists. split.
  - intros (x & Hin & Heq). apply LeAudioContextType_eqb_eq in Heq. subst x.
    by apply list_elem_of_In.
  - intros Hin. exists c. split; [by apply list_elem_of_In|].
    by apply LeAudioContextType_eqb_eq.
Qed.

Lemma to_int16_id (x : Z) : is_int16 x -> to_int16 x = x.
Proof.
  unfold is_int16, to_int16. intros H.
  rewrite Z.mod_small by lia. lia.
Qed.

Lemma int16_of_octets_range (lo hi : Z) : is_int16 (int16_of_octets lo hi).
Proof.
  unfold is_int16, int16_of_octets, to_int16.
  pose proof (Z.mod_pos_bound (Z.shiftl hi 8 + lo + 32768) 65536). lia.
Qed.

(** ** C5: context classification *)

(** C5.  AudioContentToLeAudioContext is the rule of section 4.7: a current
    CONVERSATIONAL context is kept for Speech or Sonification content and for
    the call, notification, ringtone, alarm and emergency usages; otherwise
    the content type decides (Speech: CONVERSATIONAL; Music, Movie,
    Sonification: MEDIA), then the usage, and MEDIA is the default.
    ChooseContextType takes CONVERSATIONAL if it is a candidate, else MEDIA if
    it is one, else the first candidate. *)
Theorem C5_context_classification :
  (forall current content_type usage,
     AudioContentToLeAudioContext current content_type usage
     = spec_classification current content_type usage)
  /\ (forall first rest,
        ChooseContextType (first :: rest) = Done (spec_priority first rest)).
Proof.
  split.
  - intros current content_type usage.
    unfold AudioContentToLeAudioContext, spec_classification.
    destruct (LeAudioContextType.eqb current LeAudioContextType.CONVERSATIONAL);
      destruct content_type, usage; reflexivity.
  - intros first rest. unfold ChooseContextType, spec_priority.
    destruct (contains LeAudioContextType.CONVERSATIONAL (first :: rest)) eqn:Hc.
    + apply contains_elem_of in Hc. by rewrite bool_decide_eq_true_2.
    + rewrite bool_decide_eq_false_2.
      2:{ intros Hin. apply contains_elem_of in Hin. congruence. }
      destruct (contains LeAudioContextType.MEDIA (first :: rest)) eqn:Hm.
      * apply contains_elem_of in Hm. by rewrite bool_decide_eq_true_2.
      * rewrite bool_decide_eq_false_2; [done|].
        intros Hin. apply contains_elem_of in Hin. congruence.
Qed.

(** ** C9: the downlink mono mix *)

Lemma halved_sample_value (lo hi : Z) :
  halved_sample lo hi = int16_of_octets lo hi / 2.
Proof.
  unfold halved_sample. fold (int16_of_octets lo hi).
  pose proof (int16_of_octets_range lo hi) as Hr. unfold is_int16 in Hr.
  rewrite Z.shiftr_div_pow2 by lia. change (2 ^ 1) with 2.
  apply to_int16_id. unfold is_int16.
  Z.div_mod_to_equations. lia.
Qed.

Lemma mono_data_value (l r : Z) :
  -16384 <= l <= 16383 -> -16384 <= r <= 16383 ->
  to_int16 (mono_data l r) = (l + r) / 2.
Proof.
  intros Hl Hr. unfold mono_data, to_uint16, to_uint32, to_int16.
  rewrite Z.shiftr_div_pow2 by lia. change (2 ^ 1) with 2.
  Z.div_mod_to_equations. lia.
Qed.

(** What get_mono_stream stores for one frame: both samples are halved, and
    the sum of the halves is halved again. *)
Lemma mono_sample_value (b0 b1 b2 b3 : Z) :
  mono_sample b0 b1 b2 b3
  = (int16_of_octets b0 b1 / 2 + int16_of_octets b2 b3 / 2) / 2.
Proof.
  unfold mono_sample. rewrite !halved_sample_value.
  pose proof (int16_of_octets_range b0 b1) as H1.
  pose proof (int16_of_octets_range b2 b3) as H2.
  unfold is_int16 in *.
  apply mono_data_value; Z.div_mod_to_equations; lia.
Qed.

(** The loop of get_mono_stream ends: with a pitch of at least 1 and enough
    octets it stores one sample per frame. *)
Lemma get_mono_stream_loop_total (n : nat) :
  forall (data : list Z) (pitch i : Z) (chan_mono : list Z),
    1 <= pitch -> 0 <= i ->
    ((i + pitch * (Z.of_nat n - 1) + 1) * 4 <= Z.of_nat (length data) \/ n = O) ->
    exists samples,
      get_mono_stream_loop n data pitch (i + pitch * Z.of_nat n) i chan_mono
      = Done (chan_mono ++ samples)
      /\ length samples = n.
Proof.
  induction n as [|n IH]; intros data pitch i chan_mono Hp Hi Hlen.
  - exists []. cbn. replace (i + pitch * Z.of_nat 0) with i by lia.
    rewrite Z.ltb_irrefl. by rewrite app_nil_r.
  - cbn [get_mono_stream_loop].
    destruct Hlen as [Hlen|]; [|done].
    replace (i <? i + pitch * Z.of_nat (S n)) with true
      by (symmetry; apply Z.ltb_lt; nia).
    unfold frame_at. replace (i <? 0) with false by (symmetry; apply Z.ltb_ge; lia).
    destruct (drop (Z.to_nat (i * 4)) data) as [|b0 [|b1 [|b2 [|b3 rest]]]] eqn:Hd.
    1-4: exfalso; apply (f_equal length) in Hd; rewrite length_drop in Hd;
         cbn in Hd; nia.
    cbn [rbind].
    destruct (IH data pitch (i + pitch) (chan_mono ++ [mono_sample b0 b1 b2 b3]))
      as (samples & Hrun & Hlen'); [lia|lia| |].
    { destruct n; [by right|left]. nia. }
    exists (mono_sample b0 b1 b2 b3 :: samples). split; [|cbn; lia].
    replace (i + pitch * Z.of_nat (S n)) with (i + pitch + pitch * Z.of_nat n) by lia.
    rewrite Hrun. by rewrite <- app_assoc.
Qed.

(** C9.  For the frame L = R = 1000 (octets E8 03 E8 03) get_mono_stream
    stores 500: each sample is shifted right by one bit before the addition
    and the sum is shifted once more, so the output is half of the arithmetic
    mean of left and right, which is 1000. *)
Theorem C9_mono_mix_halves_the_mean :
  int16_of_octets 232 3 = 1000
  /\ (1000 + 1000) / 2 = 1000
  /\ get_mono_stream 1 [232; 3; 232; 3] [] 1 = Done [500].
Proof. repeat split; reflexivity. Qed.

(** ** C8: the size of the decoded PCM buffer *)

Lemma to_int32_id (x : Z) : -2147483648 <= x <= 2147483647 -> to_int32 x = x.
Proof. unfold to_int32. intros H. rewrite Z.mod_small by lia. lia. Qed.

Lemma to_int32_uint32 (x : Z) :
  0 <= x < 4294967296 ->
  to_int32 x = if x <? 2147483648 then x else x - 4294967296.
Proof.
  intros Hx. unfold to_int32. destruct (Z.ltb_spec x 2147483648).
  - rewrite Z.mod_small by lia. lia.
  - replace (x + 2147483648) with (x - 2147483648 + 1 * 4294967296) by lia.
    rewrite Z.mod_add by lia. rewrite Z.mod_small by lia. lia.
Qed.

Lemma pcm_size_of_spec (dt_us af_hz : Z) :
  0 <= dt_us < 4294967296 ->
  0 <= af_hz ->
  af_hz * 3 <= 2147483647 ->
  pcm_size_of dt_us af_hz = spec_pcm_size dt_us af_hz.
Proof.
  intros Hdt Hpos Hrange. unfold pcm_size_of, spec_pcm_size. cbv zeta.
  rewrite (to_int32_id af_hz), (to_int32_id (af_hz * 3)) by lia.
  rewrite (to_int32_uint32 dt_us) by done.
  destruct (Z.ltb_spec dt_us 2147483648);
    repeat case_bool_decide; subst;
    repeat match goal with
      | |- context [?a =? ?b] =>
          destruct (Z.eqb_spec a b); try congruence; try lia
      end.
Qed.

Lemma zip_channels_zip_with (f : Z -> Z -> list Z) (chan_left chan_right : list Z) :
  (length chan_left <= length chan_right)%nat ->
  zip_channels f chan_left chan_right = Done (concat (zip_with f chan_left chan_right)).
Proof.
  revert chan_right. induction chan_left as [|l chan_left IH];
    intros [|r chan_right] Hlen; cbn in *; try done; try lia.
  rewrite IH by lia. done.
Qed.

Lemma zip_channels_short (f : Z -> Z -> list Z) (chan_left chan_right : list Z) :
  (length chan_right < length chan_left)%nat ->
  zip_channels f chan_left chan_right = Abort OutOfRange.
Proof.
  revert chan_right. induction chan_left as [|l chan_left IH];
    intros [|r chan_right] Hlen; cbn in *; try done; try lia.
  rewrite IH by lia. done.
Qed.

Section Uplink.
Context {E : Environment}.

Lemma SendAudioDataToAF_calls (bt_got_stereo af_is_stereo : bool)
    (chan_left chan_right : option (list Z)) (st st' : LeAudioClientImpl) :
  SendAudioDataToAF bt_got_stereo af_is_stereo chan_left chan_right st = Done st' ->
  exists pcm, st' = call (AudioSink_SendData pcm) st.
Proof.
  unfold SendAudioDataToAF.
  destruct bt_got_stereo, af_is_stereo, chan_left as [l|], chan_right as [r|];
    cbn; try discriminate;
    try (destruct (zip_channels _ l r); cbn; try discriminate);
    intros [= <-]; by eexists.
Qed.

(** Whatever SendAudioData does after the decoder ran, the call of the
    decoder with the buffer size is the first thing it logs. *)
Lemma decode_and_forward_decodes (left_cis_handle right_cis_handle : Z)
    (is_left : bool) (required pcm_size : Z) (data : option (list Z))
    (size timestamp : Z) (st st' : LeAudioClientImpl) :
  decode_and_forward left_cis_handle right_cis_handle is_left required pcm_size
    data size timestamp st = Done st' ->
  exists d rest, calls st' = calls st ++ lc3_decode_call is_left d pcm_size :: rest.
Proof.
  unfold decode_and_forward.
  destruct (pcm_size <? 0); [done|].
  destruct (if negb (required =? size) then _ else _) as [d size'].
  destruct (lc3_decode is_left d size' pcm_size) as [err pcm].
  set (st1 := call (lc3_decode_call is_left d pcm_size) st).
  assert (Hext : forall st2 pcm', st2 = call (AudioSink_SendData pcm') st1 ->
            calls st2 = calls st ++ lc3_decode_call is_left d pcm_size :: [AudioSink_SendData pcm']).
  { intros st2 pcm' ->. cbn. by rewrite <- app_assoc. }
  destruct (err <? 0); [intros [= <-]; exists d, []; reflexivity|].
  destruct (_ || _).
  { intros (pcm' & ->)%SendAudioDataToAF_calls. eauto. }
  destruct (_ && _); [intros [= <-]; exists d, []; reflexivity|].
  destruct (_ && _).
  - destruct is_left.
    all: match goal with
         | |- context [SendAudioDataToAF ?a ?b ?c ?e ?f] =>
             destruct (SendAudioDataToAF a b c e f) as [st2|] eqn:Hsend; [|done]
         end.
    all: apply SendAudioDataToAF_calls in Hsend as (pcm' & ->).
    all: intros [= <-]; cbn; exists d, [AudioSink_SendData pcm']; by rewrite <- app_assoc.
  - destruct (cached_channel_is_left_ st1).
    all: match goal with
         | |- context [SendAudioDataToAF ?a ?b ?c ?e ?f] =>
             destruct (SendAudioDataToAF a b c e f) as [st2|] eqn:Hsend; [|done]
         end.
    all: apply SendAudioDataToAF_calls in Hsend as (pcm' & ->).
    all: intros [= <-]; cbn; exists d, [AudioSink_SendData pcm']; by rewrite <- app_assoc.
Qed.

(** SendAudioDataToAF hands one buffer to the audio sink unless it reads
    behind the end of the right channel. *)
Lemma SendAudioDataToAF_runs (bt_got_stereo af_is_stereo : bool)
    (chan_left chan_right : option (list Z)) (st : LeAudioClientImpl) :
  (if bt_got_stereo
   then exists l r, chan_left = Some l /\ chan_right = Some r
                    /\ (length l <= length r)%nat
   else (is_Some chan_left /\ chan_right = None)
        \/ (chan_left = None /\ is_Some chan_right)) ->
  exists pcm,
    SendAudioDataToAF bt_got_stereo af_is_stereo chan_left chan_right st
    = Done (call (AudioSink_SendData pcm) st).
Proof.
  unfold SendAudioDataToAF. destruct bt_got_stereo.
  - intros (l & r & -> & -> & Hlen).
    destruct af_is_stereo; rewrite zip_channels_zip_with by done; by eexists.
  - intros [[[l ->] ->]|[-> [r ->]]]; destruct af_is_stereo; cbn; by eexists.
Qed.

(** With a buffer size that is not negative, SendAudioData runs to its end
    from the allocation on, and the decoder is called with the buffer
    size. *)
Lemma decode_and_forward_runs (left_cis_handle right_cis_handle : Z)
    (is_left : bool) (required pcm_size : Z) (data : option (list Z))
    (size timestamp : Z) (st : LeAudioClientImpl) :
  0 <= pcm_size ->
  let input := decoder_input required size data in
  left_cis_handle = 0 \/ right_cis_handle = 0
  \/ second_channel_fits is_left
       (lc3_decode is_left input.1 input.2 pcm_size).2 (cached_channel_data_ st) ->
  exists st' rest,
    decode_and_forward left_cis_handle right_cis_handle is_left required pcm_size
      data size timestamp st = Done st'
    /\ calls st' = calls st ++ lc3_decode_call is_left input.1 pcm_size :: rest.
Proof.
  intros Hsize input Hfits. unfold decode_and_forward.
  rewrite (proj2 (Z.ltb_ge pcm_size 0)) by done.
  fold (decoder_input required size data). fold input.
  destruct input as [d size']. cbn [fst snd] in *.
  destruct (lc3_decode is_left d size' pcm_size) as [err pcm]. cbn [snd] in Hfits.
  set (st1 := call (lc3_decode_call is_left d pcm_size) st).
  assert (Hsent : forall r : Result LeAudioClientImpl,
            (exists pcm', r = Done (call (AudioSink_SendData pcm') st1)) ->
            forall k : LeAudioClientImpl -> LeAudioClientImpl,
              (forall s, calls (k s) = calls s) ->
              exists st' rest,
                (let! s := r in Done (k s)) = Done st'
                /\ calls st' = calls st ++ lc3_decode_call is_left d pcm_size :: rest).
  { intros r [pcm' ->] k Hk. eexists _, [AudioSink_SendData pcm'].
    split; [reflexivity|]. rewrite Hk. cbn. by rewrite <- app_assoc. }
  destruct (err <? 0); [by exists st1, []|].
  destruct ((left_cis_handle =? 0) || (right_cis_handle =? 0)) eqn:Hmono.
  { destruct (SendAudioDataToAF_runs false
                (num_channels (audio_framework_sink_config st1) =? 2)
                (Some pcm) None st1) as [pcm' ->]; [left; by split; [eexists|]|].
    eexists _, [AudioSink_SendData pcm']. split; [reflexivity|].
    cbn. by rewrite <- app_assoc. }
  destruct Hfits as [->|[->|Hfits]];
    [by rewrite Z.eqb_refl in Hmono
    |by rewrite Z.eqb_refl, orb_true_r in Hmono|].
  destruct (_ && _); [by exists (cache_channel pcm timestamp is_left st1), []|].
  destruct (_ && _).
  - destruct is_left; apply Hsent; try done;
      apply SendAudioDataToAF_runs; eexists _, _; by repeat split.
  - destruct (cached_channel_is_left_ st1); apply Hsent; try done;
      apply SendAudioDataToAF_runs.
    + left. split; [by eexists|done].
    + right. split; [done|by eexists].
Qed.

(** C8.  On the uplink, when an SDU of a known source CIS arrives for the
    active group while the receiver is started, the buffer that the decoder
    fills has the size of section 4.5: for 10000 us, 480 samples at 44100 Hz
    and af_hz / 100 otherwise; for 7500 us, 360 samples at 44100 Hz and
    (af_hz * 3) / 400 otherwise.  The SDU is decoded into a buffer of that
    size: SendAudioData runs to its end and calls the decoder with it,
    unless it has to mix the decoded channel with a cached one that does not
    fit.  For any other data interval the SDU is dropped with the error line
    and nothing is decoded.  The data interval is a [uint32_t]; the sample
    rate is not negative and its triple does not overflow an [int]. *)
Theorem C8_uplink_pcm_size (st : LeAudioClientImpl) (data : option (list Z))
    (size cis_conn_hdl timestamp id : Z) (g : LeAudioDeviceGroup) :
  let left_cis_handle :=
    cis_handle_of kLeAudioLocationAnyLeft (source_streams (stream_conf g)) in
  let right_cis_handle :=
    cis_handle_of kLeAudioLocationAnyRight (source_streams (stream_conf g)) in
  let dt_us := data_interval_us (current_sink_codec_config st) in
  let af_hz := sample_rate (audio_framework_sink_config st) in
  let is_left := cis_conn_hdl =? left_cis_handle in
  let required := source_octets_per_codec_frame (stream_conf g) in
  let input := decoder_input required size data in
  active_group_id_ st = Some id ->
  aseGroups_ st !! id = Some g ->
  audio_receiver_state_ st = AudioState.STARTED ->
  cis_conn_hdl = left_cis_handle \/ cis_conn_hdl = right_cis_handle ->
  0 <= dt_us < 4294967296 ->
  0 <= af_hz ->
  af_hz * 3 <= 2147483647 ->
  match spec_pcm_size dt_us af_hz with
  | Some pcm_size =>
      SendAudioData data size cis_conn_hdl timestamp st
      = decode_and_forward left_cis_handle right_cis_handle is_left required
          pcm_size data size timestamp st
      /\ (forall st',
            SendAudioData data size cis_conn_hdl timestamp st = Done st' ->
            exists d rest,
              calls st' = calls st ++ lc3_decode_call is_left d pcm_size :: rest)
      /\ (left_cis_handle = 0 \/ right_cis_handle = 0
          \/ second_channel_fits is_left
               (lc3_decode is_left input.1 input.2 pcm_size).2
               (cached_channel_data_ st) ->
          exists st' rest,
            SendAudioData data size cis_conn_hdl timestamp st = Done st'
            /\ calls st'
               = calls st ++ lc3_decode_call is_left input.1 pcm_size :: rest)
  | None =>
      SendAudioData data size cis_conn_hdl timestamp st
      = Done (call (LOG_ERROR_bad_dt_us (to_int32 dt_us)) st)
      /\ to_int32 dt_us <> 10000 /\ to_int32 dt_us <> 7500
  end.
Proof.
  intros left_cis_handle right_cis_handle dt_us af_hz is_left required input
         Hactive Hgroup Hrecv Hcis Hdt Hpos Hrange.
  assert (Hsend :
    SendAudioData data size cis_conn_hdl timestamp st
    = match pcm_size_of dt_us af_hz with
      | Some pcm_size =>
          decode_and_forward left_cis_handle right_cis_handle is_left required
            pcm_size data size timestamp st
      | None => Done (call (LOG_ERROR_bad_dt_us (to_int32 dt_us)) st)
      end).
  { unfold SendAudioData, FindById. rewrite Hactive, Hgroup, Hrecv. cbn.
    fold left_cis_handle right_cis_handle.
    replace (negb (cis_conn_hdl =? left_cis_handle)
             && negb (cis_conn_hdl =? right_cis_handle)) with false; [done|].
    destruct Hcis as [-> | ->]; rewrite Z.eqb_refl; cbn;
      by rewrite ?andb_false_r. }
  rewrite Hsend, pcm_size_of_spec by done.
  assert (Hsize : forall pcm_size,
            spec_pcm_size dt_us af_hz = Some pcm_size -> 0 <= pcm_size).
  { unfold spec_pcm_size. intros pcm_size.
    repeat case_bool_decide; intros [= <-]; try lia;
      apply Z.quot_pos; lia. }
  destruct (spec_pcm_size dt_us af_hz) as [pcm_size|] eqn:Hspec.
  - split; [done|]. split; [intros st'; apply decode_and_forward_decodes|].
    intros Hfits. apply decode_and_forward_runs; [by apply Hsize|done].
  - split; [done|]. unfold spec_pcm_size in Hspec.
    rewrite (to_int32_uint32 dt_us) by done.
    repeat case_bool_decide; try discriminate.
    destruct (Z.ltb_spec dt_us 2147483648); lia.
Qed.

End Uplink.

Lemma C8_uplink_pcm_size_witness :
  let E := Reference.environment in
  let sdu := Some (repeat 0 40) in
  SendAudioData sdu 40 0x90 7 Sample.call_on_left_bud
  = decode_and_forward 0x90 0 true 40 160 sdu 40 7 Sample.call_on_left_bud
  /\ exists st' rest,
       SendAudioData sdu 40 0x90 7 Sample.call_on_left_bud = Done st'
       /\ calls st' = calls Sample.call_on_left_bud ++ lc3_decode_call true sdu 160 :: rest.
Proof.
  cbn zeta.
  assert (Hknown : 0x90 = cis_handle_of (kLeAudioLocationAnyLeft
                                          (Environment := Reference.environment))
                            (source_streams (stream_conf Sample.left_bud_in_call))
                   \/ 0x90 = cis_handle_of (kLeAudioLocationAnyRight
                                              (Environment := Reference.environment))
                               (source_streams (stream_conf Sample.left_bud_in_call)))
    by (left; reflexivity).
  pose proof (C8_uplink_pcm_size (E := Reference.environment) Sample.call_on_left_bud
                (Some (repeat 0 40)) 40 0x90 7 1 Sample.left_bud_in_call
                eq_refl eq_refl eq_refl Hknown
                (conj (Zle_bool_imp_le 0 10000 eq_refl) eq_refl)
                (Zle_bool_imp_le 0 16000 eq_refl)
                (Zle_bool_imp_le 48000 2147483647 eq_refl)) as C8.
  destruct C8 as (Hsend & _ & Hruns).
  split; [exact Hsend|]. apply Hruns. right. left. reflexivity.
Defined.

(** ** C1: GroupStream *)

Section GroupStream.
Context {E : Environment} {SM : LeAudioGroupStateMachine}.

(** C1.  InternalGroupStream returns false and leaves the client as it is, so
    that StartStream is not called, when no member of the group is connected
    and when some group of the registry is in transition; GroupStream, which
    calls it, leaves the client as it is.  A context type below RFU that the
    active contexts of the group do not hold does not end the request: on a
    connected group with no transition pending, StartStream is called with
    UNSPECIFIED and its result is returned; GroupStream makes the same call
    and leaves what the state machine has made of the group and the devices,
    with the start of the stream setup stamped when StartStream has
    succeeded. *)
Theorem C1_group_stream_rejection (st : LeAudioClientImpl)
    (group_id : option Z) (context_type : Z) :
  (forall id g,
     FindById st group_id = Some (id, g) ->
     IsAnyDeviceConnected g (leAudioDevices_ st) = false ->
     InternalGroupStream group_id context_type st = (false, st)
     /\ GroupStream group_id context_type st = st)
  /\ (IsAnyInTransition (aseGroups_ st) = true ->
      InternalGroupStream group_id context_type st = (false, st)
      /\ GroupStream group_id context_type st = st)
  /\ (forall id g,
        FindById st group_id = Some (id, g) ->
        IsAnyDeviceConnected g (leAudioDevices_ st) = true ->
        IsAnyInTransition (aseGroups_ st) = false ->
        context_type < context_value LeAudioContextType.RFU ->
        Z.land context_type (active_contexts_mask_ g) = 0 ->
        let unspecified := context_value LeAudioContextType.UNSPECIFIED in
        let r := InternalGroupStream group_id context_type st in
        let started := StartStream g (leAudioDevices_ st) unspecified in
        let handed_over :=
          store_back id started.2 (call (StartStream_call id unspecified) st) in
        r.1 = started.1
        /\ calls r.2 = calls st ++ [StartStream_call id unspecified]
        /\ GroupStream group_id context_type st
           = (if started.1
              then handed_over <| stream_setup_start_timestamp_ :=
                                    time_get_os_boottime_us |>
              else handed_over)
        /\ calls (GroupStream group_id context_type st)
           = calls st ++ [StartStream_call id unspecified]
        /\ aseGroups_ (GroupStream group_id context_type st)
           = <[id := started.2.1]> (aseGroups_ st)
        /\ leAudioDevices_ (GroupStream group_id context_type st) = started.2.2).
Proof.
  unfold GroupStream, InternalGroupStream. repeat split.
  1,2: destruct (_ <=? _); [done|]; rewrite H, H0; done.
  1,2: destruct (_ <=? _); [done|];
       destruct (FindById st group_id) as [[id g]|]; [|done];
       rewrite H; by destruct (negb _).
  all: rewrite H, H0, H1; cbn;
       replace (_ <=? _) with false by (symmetry; apply Z.leb_gt; lia);
       rewrite H3; cbn;
       by destruct (StartStream g (leAudioDevices_ st) _) as [[] ?].
Qed.

End GroupStream.

Lemma C1_group_stream_rejection_witness :
  let stream := InternalGroupStream (E := Reference.environment)
                  (SM := Reference.state_machine) (Some 1) in
  let group_stream := GroupStream (E := Reference.environment)
                        (SM := Reference.state_machine) (Some 1) in
  stream 4 Sample.disconnected_bud = (false, Sample.disconnected_bud)
  /\ group_stream 4 Sample.disconnected_bud = Sample.disconnected_bud
  /\ stream 4 Sample.other_group_in_transition = (false, Sample.other_group_in_transition)
  /\ group_stream 4 Sample.other_group_in_transition
     = Sample.other_group_in_transition
  /\ (stream 8 Sample.idle_bud).1 = true
  /\ calls (stream 8 Sample.idle_bud).2 = [StartStream_call 1 1]
  /\ calls (group_stream 8 Sample.idle_bud) = [StartStream_call 1 1].
Proof.
  pose proof (C1_group_stream_rejection (E := Reference.environment)
                (SM := Reference.state_machine)) as C1.
  cbn zeta.
  destruct (C1 Sample.disconnected_bud (Some 1) 4) as [Hdisconnected _].
  destruct (C1 Sample.other_group_in_transition (Some 1) 4) as (_ & Htransition & _).
  destruct (C1 Sample.idle_bud (Some 1) 8) as (_ & _ & Hfallback).
  destruct (Hdisconnected 1 (Sample.group_of [0x10] false Sample.IDLE Sample.IDLE 6
                               None []) eq_refl eq_refl) as [H1 H2].
  destruct (Htransition eq_refl) as [H3 H4].
  destruct (Hfallback 1 (Sample.group_of [0x10] false Sample.IDLE Sample.IDLE 6
                           None []) eq_refl eq_refl eq_refl eq_refl eq_refl)
    as (H5 & H6 & _ & H7 & _).
  split; [exact H1|]. split; [exact H2|]. split; [exact H3|]. split; [exact H4|].
  split; [exact H5|]. split; [exact H6|exact H7].
Defined.

(** ** C10: UpdateContextAndLocations *)

Section ContextAndLocations.
Context {E : Environment}.

(** When the contexts of the group stay as they are and its locations
    change, UpdateContextAndLocations reads the empty optional. *)
Lemma UpdateContextAndLocations_empty_optional (st : LeAudioClientImpl)
    (group : Z) (leAudioDevice : RawAddress) (g : LeAudioDeviceGroup)
    (d : LeAudioDevice) (mask : Z) (locations : Z * Z) :
  aseGroups_ st !! group = Some g ->
  leAudioDevices_ st !! leAudioDevice = Some d ->
  UpdateActiveContextsMap g (leAudioDevices_ st) (GetAvailableContexts d)
  = (None, mask) ->
  ReloadAudioLocations (g <| active_contexts_mask_ := mask |>) (leAudioDevices_ st)
  = (true, locations) ->
  UpdateContextAndLocations group leAudioDevice st = Abort EmptyOptionalAccess.
Proof.
  intros Hg Hd Hupdate Hreload.
  unfold UpdateContextAndLocations, device_at, group_UpdateActiveContextsMap,
    group_at, or_else, group_ReloadAudioLocations, group_at.
  rewrite Hd, Hg. cbn. rewrite Hupdate. cbn.
  rewrite lookup_alter_eq, Hg. cbn in Hreload |- *. rewrite Hreload. done.
Qed.

(** When the contexts of the group change, the callback carries them. *)
Lemma UpdateContextAndLocations_contexts (st : LeAudioClientImpl)
    (group : Z) (leAudioDevice : RawAddress) (g : LeAudioDeviceGroup)
    (d : LeAudioDevice) (contexts mask : Z) :
  aseGroups_ st !! group = Some g ->
  leAudioDevices_ st !! leAudioDevice = Some d ->
  UpdateActiveContextsMap g (leAudioDevices_ st) (GetAvailableContexts d)
  = (Some contexts, mask) ->
  exists st',
    UpdateContextAndLocations group leAudioDevice st = Done st'
    /\ calls st'
       = calls st ++ [OnAudioConf (group_audio_directions_ g) group
                        (group_snk_audio_locations_ g)
                        (group_src_audio_locations_ g) contexts].
Proof.
  intros Hg Hd Hupdate.
  unfold UpdateContextAndLocations, device_at, group_UpdateActiveContextsMap,
    group_at, or_else, callbacks_OnAudioConf, group_at.
  rewrite Hd, Hg. cbn. rewrite Hupdate. cbn.
  rewrite lookup_alter_eq, Hg. cbn. eauto.
Qed.

End ContextAndLocations.

(** C10.  UpdateContextAndLocations reads [new_group_updated_contexts] while
    it is empty.  The right earbud 0x11 joins group 1, which holds the left
    earbud 0x10; both offer the same contexts, so UpdateActiveContextsMap
    returns no value, and the locations of the group change from left to
    left and right, so ReloadAudioLocations returns true: the argument of
    OnAudioConf is taken from the empty optional.  The same happens inside
    group_add_node, which calls the function for the device it adds. *)
Theorem C10_empty_optional_is_read :
  let E := Reference.environment in
  let st := Sample.right_bud_added in
  (exists g d,
     aseGroups_ st !! 1 = Some g /\ leAudioDevices_ st !! 0x11 = Some d
     /\ (UpdateActiveContextsMap g (leAudioDevices_ st) (GetAvailableContexts d)).1 = None
     /\ (ReloadAudioLocations g (leAudioDevices_ st)).1 = true)
  /\ UpdateContextAndLocations 1 0x11 st = Abort EmptyOptionalAccess
  /\ group_add_node (Some 1) 0x11 false Sample.right_bud_arrives
     = Abort EmptyOptionalAccess.
Proof.
  cbn zeta. split; [|split].
  - eexists _, _. repeat split; reflexivity.
  - reflexivity.
  - vm_compute. reflexivity.
Qed.

(** ** C2: available contexts that change during a transition *)

Section AvailableContexts.
Context {E : Environment} {SM : LeAudioGroupStateMachine}.

Lemma CancelStreamingRequest_groups (st : LeAudioClientImpl) :
  aseGroups_ (CancelStreamingRequest st) = aseGroups_ st
  /\ leAudioDevices_ (CancelStreamingRequest st) = leAudioDevices_ st.
Proof.
  unfold CancelStreamingRequest.
  destruct (AudioState.geb (audio_sender_state_ st) _); cbn;
    destruct (AudioState.geb _ _); done.
Qed.

Lemma CancelStreamingRequest_idle (st : LeAudioClientImpl) :
  audio_sender_state_ (CancelStreamingRequest st) = AudioState.IDLE
  /\ audio_receiver_state_ (CancelStreamingRequest st) = AudioState.IDLE.
Proof.
  unfold CancelStreamingRequest.
  destruct (audio_sender_state_ st) eqn:Hs, (audio_receiver_state_ st) eqn:Hr;
    cbn; rewrite ?Hs, ?Hr; cbn; rewrite ?Hs, ?Hr; done.
Qed.

(** What HandlePendingAvailableContexts does with a pending value. *)
Lemma HandlePendingAvailableContexts_pending (st : LeAudioClientImpl) (id : Z)
    (g : LeAudioDeviceGroup) (pending : Z) :
  aseGroups_ st !! id = Some g ->
  pending_update_available_contexts_ g = Some pending ->
  let r := UpdateActiveContextsMap g (leAudioDevices_ st) pending in
  exists st',
    HandlePendingAvailableContexts (Some id) st = Done st'
    /\ aseGroups_ st' !! id
       = Some (g <| active_contexts_mask_ := r.2 |>
                 <| pending_update_available_contexts_ := None |>)
    /\ calls st'
       = calls st
         ++ match r.1 with
            | Some contexts =>
                [OnAudioConf (group_audio_directions_ g) id
                   (group_snk_audio_locations_ g) (group_src_audio_locations_ g)
                   contexts]
            | None => []
            end.
Proof.
  intros Hg Hpending r.
  unfold HandlePendingAvailableContexts, group_at. rewrite Hg. cbn. rewrite Hpending.
  unfold group_UpdateActiveContextsMap, group_at. rewrite Hg. cbn.
  fold r. destruct r as [[contexts|] mask]; cbn.
  - unfold callbacks_OnAudioConf, group_at. cbn. rewrite lookup_alter_eq, Hg. cbn.
    eexists. split; [done|]. cbn. rewrite lookup_alter_eq, lookup_alter_eq, Hg. done.
  - eexists. split; [done|]. cbn. rewrite lookup_alter_eq, lookup_alter_eq, Hg.
    by rewrite app_nil_r.
Qed.

(** C2, as the code has it.  A notification of the Available Audio Contexts
    characteristic that changes the contexts of a device while its group is in
    transition or STREAMING stores the change in the pending slot of the
    group and calls nothing.  When the IDLE status of the group is reported
    and no reconfiguration is pending, the pending value is handed to
    UpdateActiveContextsMap and the slot is emptied; OnAudioConf is called
    once, with the contexts that UpdateActiveContextsMap returns, when it
    returns some, and not at all when it returns none. *)
Theorem C2_deferred_available_contexts :
  (forall st conn_id hdl value address d id g,
     FindByConnId st conn_id = Some address ->
     leAudioDevices_ st !! address = Some d ->
     is_available_contexts_handle d hdl = true ->
     let parsed := ParseAvailableAudioContexts value in
     let updated := (SetAvailableContexts d parsed.1 parsed.2).1 in
     updated <> 0 ->
     group_id_ d = Some id ->
     aseGroups_ st !! id = Some g ->
     IsInTransition g = true
     \/ current_state_ g = AseState.BTA_LE_AUDIO_ASE_STATE_STREAMING ->
     exists st',
       LeAudioCharValueHandle conn_id hdl value st = Done st'
       /\ calls st' = calls st
       /\ aseGroups_ st' !! id
          = Some (g <| pending_update_available_contexts_ := Some updated |>))
  /\ (forall st id g pending,
        aseGroups_ st !! id = Some g ->
        pending_update_available_contexts_ g = Some pending ->
        pending_configuration_ g = false ->
        let r := UpdateActiveContextsMap g (leAudioDevices_ st) pending in
        exists st' g',
          StatusReportCb (Some id) GroupStreamStatus.IDLE st = Done st'
          /\ aseGroups_ st' !! id = Some g'
          /\ pending_update_available_contexts_ g' = None
          /\ active_contexts_mask_ g' = r.2
          /\ calls st'
             = calls (CancelStreamingRequest st)
               ++ match r.1 with
                  | Some contexts =>
                      [OnAudioConf (group_audio_directions_ g) id
                         (group_snk_audio_locations_ g)
                         (group_src_audio_locations_ g) contexts]
                  | None => []
                  end).
Proof.
  split.
  - intros st conn_id hdl value address d id g Hconn Hd Hhdl parsed updated
      Hupdated Hgid Hg Hbusy.
    unfold is_available_contexts_handle in Hhdl.
    repeat (apply andb_prop in Hhdl as [Hhdl ?]).
    repeat match goal with H : negb _ = true |- _ => apply negb_true_iff in H end.
    unfold LeAudioCharValueHandle, device_at. rewrite Hconn, Hd. cbn.
    repeat match goal with H : _ = false |- _ => rewrite H end.
    repeat match goal with H : _ = true |- _ => rewrite H end.
    unfold on_available_audio_contexts. fold parsed. fold updated.
    replace (negb (updated =? 0)) with true
      by (symmetry; apply negb_true_iff, Z.eqb_neq; done).
    unfold FindById. rewrite Hgid. cbn. rewrite Hg.
    replace (IsInTransition g || AseState.eqb (current_state_ g) _) with true.
    2:{ destruct Hbusy as [-> | ->]; [done|]. by rewrite orb_true_r. }
    eexists. split; [done|]. cbn. by rewrite lookup_alter_eq, Hg.
  - intros st id g pending Hg Hpending Hnoconf r.
    unfold StatusReportCb, FindById.
    change (aseGroups_ (reset_stream_setup_timestamps st)) with (aseGroups_ st).
    rewrite Hg, Hnoconf. cbn [rbind fmap option_fmap option_map fst].
    set (st1 := CancelStreamingRequest _).
    assert (Hg1 : aseGroups_ st1 !! id = Some g).
    { unfold st1. by rewrite (proj1 (CancelStreamingRequest_groups _)). }
    destruct (HandlePendingAvailableContexts_pending st1 id g pending Hg1 Hpending)
      as (st' & Hrun & Hgroup & Hcalls).
    assert (Hdevs : leAudioDevices_ st1 = leAudioDevices_ st).
    { unfold st1. by rewrite (proj2 (CancelStreamingRequest_groups _)). }
    rewrite Hdevs in Hgroup, Hcalls. fold r in Hgroup, Hcalls.
    exists st', (g <| active_contexts_mask_ := r.2 |>
                   <| pending_update_available_contexts_ := None |>).
    repeat split; [done|done|].
    rewrite Hcalls. f_equal. unfold st1, CancelStreamingRequest. cbn.
    destruct (AudioState.geb (audio_sender_state_ st) _); cbn;
      destruct (AudioState.geb _ _); done.
Qed.

End AvailableContexts.

Lemma C2_deferred_available_contexts_witness :
  let E := Reference.environment in
  let SM := Reference.state_machine in
  (exists st',
     LeAudioCharValueHandle 1 0x32 [14; 0; 14; 0] Sample.streaming_pair = Done st'
     /\ calls st' = []
     /\ pending_update_available_contexts_ <$> aseGroups_ st' !! 1 = Some (Some 8))
  /\ (exists st' g',
        StatusReportCb (Some 1) GroupStreamStatus.IDLE Sample.pair_with_pending_game
        = Done st'
        /\ aseGroups_ st' !! 1 = Some g'
        /\ pending_update_available_contexts_ g' = None
        /\ active_contexts_mask_ g' = 14
        /\ calls st' = [AudioSource_CancelStreamingRequest; OnAudioConf 3 1 3 3 14]).
Proof.
  cbn zeta.
  pose proof (C2_deferred_available_contexts (E := Reference.environment)
                (SM := Reference.state_machine)) as [Hstash Happly].
  split.
  - edestruct (Hstash Sample.streaming_pair 1 0x32 [14; 0; 14; 0] 0x10)
      as (st' & Hrun & Hcalls & Hgroup);
      [reflexivity|reflexivity|reflexivity|discriminate|reflexivity|reflexivity
      |right; reflexivity|].
    exists st'. split; [exact Hrun|]. split; [exact Hcalls|].
    rewrite Hgroup. reflexivity.
  - edestruct (Happly Sample.pair_with_pending_game 1) as (st' & g' & H);
      [reflexivity|reflexivity|reflexivity|].
    exists st', g'. exact H.
Defined.

(** C2 as the specification has it fails: the pending value is applied while
    OnAudioConf is not called.  Earbud 0x10 of the streaming pair withdraws
    the conversational context, which earbud 0x11 still offers; the change is
    stored; when the group has become idle and reports IDLE, the contexts of
    the group are what they were, UpdateActiveContextsMap returns no value,
    the slot is emptied and no OnAudioConf is among the calls. *)
Lemma C2_counterexample :
  let E := Reference.environment in
  let SM := Reference.state_machine in
  runs_to (LeAudioCharValueHandle 1 0x32 [4; 0; 4; 0] Sample.streaming_pair)
    (fun st1 =>
       calls st1 = []
       /\ pending_update_available_contexts_ <$> aseGroups_ st1 !! 1 = Some (Some 2)
       /\ runs_to (StatusReportCb (Some 1) GroupStreamStatus.IDLE
                     (Sample.became_idle 1 st1))
            (fun st2 =>
               pending_update_available_contexts_ <$> aseGroups_ st2 !! 1 = Some None
               /\ List.filter Call_is_OnAudioConf (calls st2) = [])).
Proof. vm_compute. repeat split. Qed.

(** ** C6: a device that connects while its group streams *)

Section Attach.
Context {E : Environment} {SM : LeAudioGroupStateMachine}.

(** Configuring the ASEs of the device touches the device registry only. *)
Lemma configure_entries_frame (ents : list SetConfiguration) :
  forall (leAudioDevice : RawAddress) (context_type : LeAudioContextType.t)
         (n_sink n_source l_sink l_source : Z) (st st' : LeAudioClientImpl)
         (configured : bool),
    configure_entries ents leAudioDevice context_type n_sink n_source
      l_sink l_source st = Done (configured, st') ->
    st' = st <| leAudioDevices_ := leAudioDevices_ st' |>.
Proof.
  induction ents as [|ent ents IH]; intros a c n1 n2 l1 l2 st st' b; cbn.
  - intros [= <- <-]. by destruct st.
  - unfold device_at. destruct (leAudioDevices_ st !! a) as [d|]; [|done]. cbn.
    destruct (negb _).
    + intros [= <- <-]. by destruct st.
    + intros Hrun. apply IH in Hrun. rewrite Hrun. by destruct st.
Qed.

(** C6, as the code has it.  For a device of the active group that becomes
    ready while a direction of the audio session is not IDLE: when the
    configuration in use counts fewer devices than the group has connected,
    the group is marked as pending configuration and StopStream is called,
    and nothing else; otherwise the stream is not stopped, the entries of the
    configuration are applied to the ASEs of the device by ConfigureAses, and
    AttachToStream is called if every entry could be applied and is not
    called if one could not.  StopStream is called exactly when the count of
    the configuration is strictly less than the number of connected
    devices. *)
Theorem C6_attach_or_reconfigure (st : LeAudioClientImpl)
    (leAudioDevice : RawAddress) (d : LeAudioDevice) (id : Z)
    (g : LeAudioDeviceGroup) :
  leAudioDevices_ st !! leAudioDevice = Some d ->
  group_id_ d = Some id ->
  active_group_id_ st = Some id ->
  aseGroups_ st !! id = Some g ->
  audio_sender_state_ st <> AudioState.IDLE
  \/ audio_receiver_state_ st <> AudioState.IDLE ->
  let num_in_conf := get_num_of_devices_in_configuration (conf (stream_conf g)) in
  let num_connected := NumOfConnected g (leAudioDevices_ st) in
  (num_in_conf < num_connected ->
   let pending := g <| pending_configuration_ := true |> in
   exists st',
     AttachToStreamingGroupIfNeeded leAudioDevice st = Done st'
     /\ st' = store_back id (StopStream pending (leAudioDevices_ st))
                (call (StopStream_call id)
                   (update_group id (fun g => g <| pending_configuration_ := true |>) st))
     /\ calls st' = calls st ++ [StopStream_call id])
  /\ (num_connected <= num_in_conf ->
      forall c configured st1,
        conf (stream_conf g) = Some c ->
        configure_entries (confs c) leAudioDevice (current_context_type g)
          (num_of_active_ases (sink_streams (stream_conf g)))
          (num_of_active_ases (source_streams (stream_conf g)))
          (group_audio_locations (sink_streams (stream_conf g)))
          (group_audio_locations (source_streams (stream_conf g))) st
        = Done (configured, st1) ->
        exists st',
          AttachToStreamingGroupIfNeeded leAudioDevice st = Done st'
          /\ calls st'
             = calls st
               ++ (if configured then [AttachToStream_call id leAudioDevice] else [])
          /\ (configured = false -> st' = st1))
  /\ (forall st',
        AttachToStreamingGroupIfNeeded leAudioDevice st = Done st' ->
        exists new,
          calls st' = calls st ++ new
          /\ (StopStream_call id ∈ new <-> num_in_conf < num_connected)
          /\ (AttachToStream_call id leAudioDevice ∈ new -> num_connected <= num_in_conf)).
Proof.
  intros Hd Hgid Hactive Hg Hbusy num_in_conf num_connected.
  assert (Hidle :
    AudioState.eqb (audio_sender_state_ st) AudioState.IDLE
    && AudioState.eqb (audio_receiver_state_ st) AudioState.IDLE = false).
  { apply andb_false_iff.
    destruct Hbusy as [H|H]; [left|right];
      apply not_true_is_false; by rewrite AudioState_eqb_eq. }
  assert (Hhead :
    AttachToStreamingGroupIfNeeded leAudioDevice st
    = if num_in_conf <? num_connected
      then Done (store_back id
                   (StopStream (g <| pending_configuration_ := true |>) (leAudioDevices_ st))
                   (call (StopStream_call id)
                      (update_group id (fun g => g <| pending_configuration_ := true |>) st)))
      else match conf (stream_conf g) with
           | None => Abort NullPointerAccess
           | Some c =>
               let! (configured, st1) :=
                 configure_entries (confs c) leAudioDevice (current_context_type g)
                   (num_of_active_ases (sink_streams (stream_conf g)))
                   (num_of_active_ases (source_streams (stream_conf g)))
                   (group_audio_locations (sink_streams (stream_conf g)))
                   (group_audio_locations (source_streams (stream_conf g))) st in
               if configured then
                 let! g := group_at st1 id in
                 Done (store_back id (AttachToStream g (leAudioDevices_ st1) leAudioDevice)
                         (call (AttachToStream_call id leAudioDevice) st1))
               else Done st1
           end).
  { unfold AttachToStreamingGroupIfNeeded, device_at, FindById.
    rewrite Hd. cbn [rbind]. rewrite Hgid, Hactive.
    rewrite bool_decide_eq_true_2 by done. cbn [negb]. rewrite Hidle, Hg.
    fold num_in_conf. fold num_connected.
    destruct (num_in_conf <? num_connected); [|done].
    unfold group_at, update_group. cbn. by rewrite lookup_alter_eq, Hg. }
  assert (Hattach : forall c configured st1,
    conf (stream_conf g) = Some c ->
    configure_entries (confs c) leAudioDevice (current_context_type g)
      (num_of_active_ases (sink_streams (stream_conf g)))
      (num_of_active_ases (source_streams (stream_conf g)))
      (group_audio_locations (sink_streams (stream_conf g)))
      (group_audio_locations (source_streams (stream_conf g))) st
    = Done (configured, st1) ->
    num_connected <= num_in_conf ->
    exists st',
      AttachToStreamingGroupIfNeeded leAudioDevice st = Done st'
      /\ calls st'
         = calls st ++ (if configured then [AttachToStream_call id leAudioDevice] else [])
      /\ (configured = false -> st' = st1)).
  { intros c configured st1 Hc Hrun Hle. rewrite Hhead.
    replace (num_in_conf <? num_connected) with false
      by (symmetry; apply Z.ltb_ge; lia).
    rewrite Hc, Hrun. cbn [rbind].
    pose proof (configure_entries_frame _ _ _ _ _ _ _ _ _ _ Hrun) as Hframe.
    assert (Hcalls : calls st1 = calls st) by (by rewrite Hframe).
    assert (Hg1 : aseGroups_ st1 !! id = Some g) by (by rewrite Hframe).
    destruct configured.
    - unfold group_at. rewrite Hg1. cbn [rbind]. eexists. split; [done|].
      split; [|done]. cbn. by rewrite Hcalls.
    - exists st1. split; [done|]. split; [|done]. by rewrite Hcalls, app_nil_r. }
  split; [|split].
  - intros Hlt pending. rewrite Hhead.
    replace (num_in_conf <? num_connected) with true by (symmetry; apply Z.ltb_lt; lia).
    eexists. split; [done|]. split; [done|]. done.
  - intros Hle c configured st1 Hc Hrun. by eapply Hattach.
  - intros st' Hrun. destruct (Z.ltb_spec num_in_conf num_connected) as [Hlt|Hge].
    + rewrite Hhead in Hrun.
      replace (num_in_conf <? num_connected) with true in Hrun
        by (symmetry; apply Z.ltb_lt; lia).
      injection Hrun as <-. exists [StopStream_call id]. split; [done|].
      split; [split; [done|intros _; apply list_elem_of_here]|].
      intros Hin. apply list_elem_of_singleton in Hin. discriminate.
    + pose proof Hrun as Hrun'. rewrite Hhead in Hrun'.
      replace (num_in_conf <? num_connected) with false in Hrun'
        by (symmetry; apply Z.ltb_ge; lia).
      destruct (conf (stream_conf g)) as [c|] eqn:Hc; [|done].
      destruct (configure_entries _ _ _ _ _ _ _ _) as [[configured st1]|] eqn:Hconf;
        [|done].
      destruct (Hattach c configured st1 eq_refl Hconf Hge) as (st2 & Hrun2 & Hcalls & _).
      rewrite Hrun in Hrun2. injection Hrun2 as <-.
      eexists. split; [exact Hcalls|]. split; [|done].
      split; [|lia]. intros Hin. exfalso.
      destruct configured.
      * apply list_elem_of_singleton in Hin. discriminate.
      * by apply not_elem_of_nil in Hin.
Qed.

End Attach.

Lemma C6_attach_or_reconfigure_witness :
  let E := Reference.environment in
  let SM := Reference.state_machine in
  (exists st',
     AttachToStreamingGroupIfNeeded 0x11 Sample.right_bud_is_new = Done st'
     /\ calls st' = [StopStream_call 1])
  /\ (exists st',
        AttachToStreamingGroupIfNeeded 0x11 Sample.right_bud_is_back = Done st'
        /\ calls st' = [AttachToStream_call 1 0x11]).
Proof.
  cbn zeta. split.
  - edestruct (C6_attach_or_reconfigure (E := Reference.environment)
                 (SM := Reference.state_machine) Sample.right_bud_is_new 0x11)
      as [Hstop _];
      [reflexivity|reflexivity|reflexivity|reflexivity|left; discriminate|].
    destruct Hstop as (st' & Hrun & _ & Hcalls); [reflexivity|].
    exists st'. split; [exact Hrun|exact Hcalls].
  - edestruct (C6_attach_or_reconfigure (E := Reference.environment)
                 (SM := Reference.state_machine) Sample.right_bud_is_back 0x11)
      as (_ & Hattach & _);
      [reflexivity|reflexivity|reflexivity|reflexivity|left; discriminate|].
    edestruct (Hattach ltac:(discriminate) Sample.two_device_conf true)
      as (st' & Hrun & Hcalls & _); [reflexivity|vm_compute; reflexivity|].
    exists st'. split; [exact Hrun|exact Hcalls].
Defined.

(** C6 as the specification has it fails: with a configuration for two
    devices and two devices connected the counts are equal, and for a device
    on which ConfigureAses cannot apply the sink entry (it has no sink ASE)
    the function returns after the attempt: AttachToStream is not called. *)
Lemma C6_counterexample :
  let E := Reference.environment in
  let SM := Reference.state_machine in
  let st := Sample.right_mic_is_back in
  (fun g => (get_num_of_devices_in_configuration (conf (stream_conf g)),
             NumOfConnected g (leAudioDevices_ st))) <$> aseGroups_ st !! 1
  = Some (2, 2)
  /\ group_id_ <$> leAudioDevices_ st !! 0x11 = Some (active_group_id_ st)
  /\ audio_sender_state_ st = AudioState.STARTED
  /\ runs_to (AttachToStreamingGroupIfNeeded 0x11 st)
       (fun st' => List.filter Call_is_AttachToStream (calls st') = []
                   /\ calls st' = []).
Proof. vm_compute. repeat split. Qed.

(** ** C7: resume within the keep-alive window *)

Section Resume.
Context {E : Environment} {SM : LeAudioGroupStateMachine}.

(** The expired keep-alive alarm asks the state machine to stop the stream
    and leaves the codec instances of the client alone. *)
Lemma GroupStop_codec (group_id : option Z) (st : LeAudioClientImpl) :
  let st' := GroupStop group_id st in
  lc3_encoder_left_mem st' = lc3_encoder_left_mem st
  /\ lc3_encoder_right_mem st' = lc3_encoder_right_mem st
  /\ lc3_decoder_left_mem st' = lc3_decoder_left_mem st
  /\ lc3_decoder_right_mem st' = lc3_decoder_right_mem st.
Proof.
  unfold GroupStop. destruct (FindById st group_id) as [[id g]|]; [|done].
  destruct (IsEmpty g); [done|]. by destruct (AseState.eqb _ _).
Qed.


End Resume.



(** ** C3: the transition deadline *)

Lemma behind_app (a : RawAddress) (l1 l2 : list RawAddress) :
  a ∉ l1 -> behind a (l1 ++ a :: l2) = l2.
Proof.
  induction l1 as [|x l1 IH]; intros Hnotin; cbn.
  - by rewrite Z.eqb_refl.
  - apply not_elem_of_cons in Hnotin as [Hne Hnotin].
    destruct (Z.eqb_spec x a); [congruence|]. by apply IH.
Qed.

Lemma find_split {A : Type} (f : A -> bool) (l : list A) (x : A) :
  List.find f l = Some x ->
  exists l1 l2, l = l1 ++ x :: l2 /\ f x = true /\ Forall (fun y => f y = false) l1.
Proof.
  induction l as [|y l IH]; cbn; [done|].
  destruct (f y) eqn:Hy.
  - intros [= ->]. by exists [], l.
  - intros (l1 & l2 & -> & Hx & Hl1)%IH. exists (y :: l1), l2. by repeat constructor.
Qed.

Section Deadline.
Context {E : Environment}.

(** What a forced disconnect of one registered device does to the client. *)
Lemma DisconnectDevice_forced (a : RawAddress) (st : LeAudioClientImpl)
    (d : LeAudioDevice) :
  leAudioDevices_ st !! a = Some d ->
  exists st',
    DisconnectDevice a true st = Done st'
    /\ aseGroups_ st' = aseGroups_ st
    /\ audio_sender_state_ st' = audio_sender_state_ st
    /\ audio_receiver_state_ st' = audio_receiver_state_ st
    /\ calls st' = calls st ++ forced_disconnect_calls a d
    /\ (forall x, x <> a -> leAudioDevices_ st' !! x = leAudioDevices_ st !! x)
    /\ (forall x, is_Some (leAudioDevices_ st' !! x) <-> is_Some (leAudioDevices_ st !! x))
    /\ (forall x, is_active (leAudioDevices_ st') x = is_active (leAudioDevices_ st) x).
Proof.
  intros Hd. unfold DisconnectDevice, device_at, forced_disconnect_calls.
  rewrite Hd. cbn [rbind].
  destruct (conn_id_ d) as [c|] eqn:Hc.
  - destruct (BTM_GetHCIConnHandle a) as [h|] eqn:Hh.
    + eexists. repeat split; try done.
    + eexists. repeat split; try done.
      * cbn. by rewrite <- app_assoc.
      * intros x Hx. cbn. by rewrite lookup_alter_ne.
      * intros Hx. cbn in Hx. destruct (decide (a = x)) as [<-|Hne].
        -- by rewrite Hd.
        -- by rewrite lookup_alter_ne in Hx.
      * intros Hx. cbn. destruct (decide (a = x)) as [<-|Hne].
        -- rewrite lookup_alter_eq, Hd. done.
        -- by rewrite lookup_alter_ne.
      * intros x. unfold is_active. cbn. destruct (decide (a = x)) as [<-|Hne].
        -- by rewrite lookup_alter_eq, Hd.
        -- by rewrite lookup_alter_ne.
  - exists st. repeat split; try done. by rewrite app_nil_r.
Qed.

(** The loop visits the device it starts with and every active member behind
    it, and ends within the bound; what it hands to the stack is what the
    forced disconnect of a visited device hands over, and nothing else. *)
Lemma disconnect_active_devices_visits (group : Z) (g : LeAudioDeviceGroup) :
  NoDup (leAudioDevices g) ->
  forall (fuel : nat) (visited : list RawAddress) (a : RawAddress)
         (post : list RawAddress) (st : LeAudioClientImpl),
    leAudioDevices g = visited ++ a :: post ->
    (length post < fuel)%nat ->
    aseGroups_ st !! group = Some g ->
    is_Some (leAudioDevices_ st !! a) ->
    exists st' new,
      disconnect_active_devices fuel group a st = Done st'
      /\ aseGroups_ st' = aseGroups_ st
      /\ audio_sender_state_ st' = audio_sender_state_ st
      /\ audio_receiver_state_ st' = audio_receiver_state_ st
      /\ calls st' = calls st ++ new
      /\ (forall y d,
            y ∈ a :: post ->
            leAudioDevices_ st !! y = Some d ->
            y = a \/ HaveActiveAse d = true ->
            forall x, x ∈ forced_disconnect_calls y d -> x ∈ new)
      /\ (forall x,
            x ∈ new ->
            exists y d,
              y ∈ a :: post
              /\ leAudioDevices_ st !! y = Some d
              /\ (y = a \/ HaveActiveAse d = true)
              /\ x ∈ forced_disconnect_calls y d).
Proof.
  intros Hnodup. induction fuel as [|fuel IH];
    intros visited a post st Hmembers Hfuel Hg [d Hd]; [lia|].
  cbn [disconnect_active_devices].
  destruct (DisconnectDevice_forced a st d Hd)
    as (st1 & Hrun & Hgroups & Hsender & Hreceiver & Hcalls & Hother & Hreg & Hact).
  rewrite Hrun. cbn [rbind]. unfold group_at. rewrite Hgroups, Hg. cbn [rbind].
  assert (Ha_notin : a ∉ visited).
  { rewrite Hmembers in Hnodup. apply NoDup_app in Hnodup as (_ & Hdisj & _).
    intros Hin. apply (Hdisj a Hin). apply list_elem_of_here. }
  assert (Ha_notin_post : a ∉ post).
  { rewrite Hmembers in Hnodup. apply NoDup_app in Hnodup as (_ & _ & Hn).
    by apply NoDup_cons in Hn as [Hn _]. }
  unfold GetNextActiveDevice. rewrite Hmembers, behind_app by done.
  destruct (List.find (is_active (leAudioDevices_ st1)) post) as [next|] eqn:Hfind.
  - apply find_split in Hfind as (p1 & p2 & -> & Hnext & Hp1).
    assert (Hnext_reg : is_Some (leAudioDevices_ st1 !! next)).
    { unfold is_active in Hnext. by destruct (leAudioDevices_ st1 !! next). }
    destruct (IH (visited ++ a :: p1) next p2 st1) as
      (st' & new & Hloop & Hgroups' & Hsender' & Hreceiver' & Hcalls'
       & Hvisit & Honly).
    { by rewrite Hmembers, <- app_assoc. }
    { rewrite length_app in Hfuel. cbn in Hfuel. lia. }
    { by rewrite Hgroups. }
    { done. }
    exists st', (forced_disconnect_calls a d ++ new). rewrite Hloop.
    split; [done|]. split; [congruence|]. split; [congruence|]. split; [congruence|].
    split; [by rewrite Hcalls', Hcalls, app_assoc|]. split.
    + intros y dy Hy Hdy Hwhy x Hx.
      apply elem_of_cons in Hy as [-> | Hy].
      * apply elem_of_app. left. rewrite Hd in Hdy. by injection Hdy as <-.
      * assert (Hne : y <> a) by (by intros ->).
        destruct Hwhy as [-> | Hactive]; [done|].
        apply elem_of_app. right.
        apply elem_of_app in Hy as [Hy | Hy].
        -- exfalso. rewrite Forall_forall in Hp1. specialize (Hp1 y Hy).
           rewrite Hact in Hp1. unfold is_active in Hp1. rewrite Hdy in Hp1.
           congruence.
        -- apply (Hvisit y dy); [done| |by right|done]. by rewrite Hother.
    + intros x Hx. apply elem_of_app in Hx as [Hx | Hx].
      * exists a, d. split; [apply list_elem_of_here|]. split; [done|].
        split; [by left|done].
      * destruct (Honly x Hx) as (y & dy & Hy & Hdy & Hwhy & Hxy).
        assert (Hy_post : y ∈ p1 ++ next :: p2) by (apply elem_of_app; by right).
        assert (Hne : y <> a) by (by intros ->).
        rewrite Hother in Hdy by done.
        exists y, dy. split; [by apply list_elem_of_further|]. split; [done|].
        split; [|done]. right. destruct Hwhy as [-> | Hactive]; [|done].
        rewrite Hact in Hnext. unfold is_active in Hnext. by rewrite Hdy in Hnext.
  - exists st1, (forced_disconnect_calls a d). split; [done|]. split; [done|].
    split; [done|]. split; [done|]. split; [done|]. split.
    + intros y dy Hy Hdy Hwhy x Hx.
      apply elem_of_cons in Hy as [-> | Hy].
      * rewrite Hd in Hdy. by injection Hdy as <-.
      * exfalso. destruct Hwhy as [-> | Hactive]; [done|].
        pose proof (find_none _ _ Hfind y) as Hnone.
        rewrite Hact in Hnone. unfold is_active in Hnone. rewrite Hdy in Hnone.
        rewrite Hactive in Hnone. apply list_elem_of_In in Hy.
        specialize (Hnone Hy). congruence.
    + intros x Hx. exists a, d. split; [apply list_elem_of_here|]. split; [done|].
      split; [by left|done].
Qed.

End Deadline.

Ltac cancel_entries :=
  split; [by rewrite <- ?app_assoc, ?app_nil_r|];
  split; [intros H; first [done | repeat constructor]|];
  split; [intros H; first [done | repeat constructor]|];
  repeat (apply Forall_cons; split; [first [by left | by right]|]);
  apply Forall_nil_2.

Lemma CancelStreamingRequest_calls (st : LeAudioClientImpl) :
  exists cancels,
    calls (CancelStreamingRequest st) = calls st ++ cancels
    /\ (audio_sender_state_ st <> AudioState.IDLE ->
        AudioSource_CancelStreamingRequest ∈ cancels)
    /\ (audio_receiver_state_ st <> AudioState.IDLE ->
        AudioSink_CancelStreamingRequest ∈ cancels)
    /\ Forall (fun x => x = AudioSource_CancelStreamingRequest
                        \/ x = AudioSink_CancelStreamingRequest) cancels.
Proof.
  unfold CancelStreamingRequest.
  destruct (audio_sender_state_ st) eqn:Hs, (audio_receiver_state_ st) eqn:Hr; cbn;
    rewrite ?Hs, ?Hr; cbn; rewrite ?Hs, ?Hr; cbn;
    first
      [ exists []; cancel_entries
      | exists [AudioSource_CancelStreamingRequest]; cancel_entries
      | exists [AudioSink_CancelStreamingRequest]; cancel_entries
      | exists [AudioSource_CancelStreamingRequest; AudioSink_CancelStreamingRequest];
        cancel_entries ].
Qed.

Section DeadlineTheorem.
Context {E : Environment}.

(** C3, as the code has it.  When the transition deadline of a registered
    group expires, the handler sets the target state of the group to IDLE,
    cancels the pending streaming request of the sender and of the receiver
    (both audio states are IDLE afterwards), and runs the forced disconnect
    for the active members of the group.  For an active member that holds a
    GATT connection and whose ACL handle BTM knows, acl_disconnect_from_handle
    is called.  For an active member that holds a GATT connection and whose
    ACL handle BTM does not know, the GATT queue is cleaned and the GATT
    connection is closed instead.  Nothing else is handed to the stack: every
    call of the handler is one of the two cancels, or the ACL disconnect of
    a member that holds a GATT connection and whose handle is known, or the
    clean or the close of the GATT connection of a member whose handle is
    not known; for a member without connection id there is no call, and a
    member for which there is one is active unless no member of the group
    is.  The member list is free of duplicates (section 3). *)
Theorem C3_transition_timeout (st : LeAudioClientImpl) (group_id : Z)
    (g : LeAudioDeviceGroup) :
  aseGroups_ st !! group_id = Some g ->
  NoDup (leAudioDevices g) ->
  exists st' new,
    OnLeAudioDeviceSetStateTimeout group_id st = Done st'
    /\ aseGroups_ st' !! group_id
       = Some (g <| target_state_ := AseState.BTA_LE_AUDIO_ASE_STATE_IDLE |>)
    /\ audio_sender_state_ st' = AudioState.IDLE
    /\ audio_receiver_state_ st' = AudioState.IDLE
    /\ calls st' = calls st ++ new
    /\ (audio_sender_state_ st <> AudioState.IDLE ->
        AudioSource_CancelStreamingRequest ∈ new)
    /\ (audio_receiver_state_ st <> AudioState.IDLE ->
        AudioSink_CancelStreamingRequest ∈ new)
    /\ (forall a d c h,
          a ∈ leAudioDevices g ->
          leAudioDevices_ st !! a = Some d ->
          HaveActiveAse d = true ->
          conn_id_ d = Some c ->
          BTM_GetHCIConnHandle a = Some h ->
          acl_disconnect_from_handle h ∈ new)
    /\ (forall a d c,
          a ∈ leAudioDevices g ->
          leAudioDevices_ st !! a = Some d ->
          HaveActiveAse d = true ->
          conn_id_ d = Some c ->
          BTM_GetHCIConnHandle a = None ->
          BtaGattQueue_Clean c ∈ new /\ BTA_GATTC_Close c ∈ new)
    /\ (forall x,
          x ∈ new ->
          x = AudioSource_CancelStreamingRequest
          \/ x = AudioSink_CancelStreamingRequest
          \/ exists a d c,
               a ∈ leAudioDevices g
               /\ leAudioDevices_ st !! a = Some d
               /\ conn_id_ d = Some c
               /\ (HaveActiveAse d = true
                   \/ forall y, y ∈ leAudioDevices g ->
                                is_active (leAudioDevices_ st) y = false)
               /\ match BTM_GetHCIConnHandle a with
                  | Some h => x = acl_disconnect_from_handle h
                  | None => x = BtaGattQueue_Clean c \/ x = BTA_GATTC_Close c
                  end).
Proof.
  intros Hg Hnodup. unfold OnLeAudioDeviceSetStateTimeout. rewrite Hg.
  set (g1 := g <| target_state_ := AseState.BTA_LE_AUDIO_ASE_STATE_IDLE |>).
  set (st0 := update_group group_id _ st).
  set (st1 := CancelStreamingRequest st0).
  assert (Hg1 : aseGroups_ st1 !! group_id = Some g1).
  { unfold st1. rewrite (proj1 (CancelStreamingRequest_groups st0)).
    unfold st0, update_group. cbn. by rewrite lookup_alter_eq, Hg. }
  assert (Hdevs : leAudioDevices_ st1 = leAudioDevices_ st).
  { unfold st1. by rewrite (proj2 (CancelStreamingRequest_groups st0)). }
  destruct (CancelStreamingRequest_idle st0) as [Hs1 Hr1]. fold st1 in Hs1, Hr1.
  destruct (CancelStreamingRequest_calls st0)
    as (cancels & Hcancel & Hsrc & Hsnk & Honly_cancels).
  fold st1 in Hcancel. change (calls st0) with (calls st) in Hcancel.
  change (audio_sender_state_ st0) with (audio_sender_state_ st) in Hsrc.
  change (audio_receiver_state_ st0) with (audio_receiver_state_ st) in Hsnk.
  unfold group_at. rewrite Hg1. cbn [rbind].
  change (leAudioDevices g1) with (leAudioDevices g).
  set (first := match GetFirstActiveDevice g1 (leAudioDevices_ st1) with
                | Some a => Some a
                | None => GetFirstDevice g1 (leAudioDevices_ st1)
                end).
  set (run := match first with
              | Some a =>
                  disconnect_active_devices (S (length (leAudioDevices g)))
                    group_id a st1
              | None => Done st1
              end).
  assert (Hloop : exists st' new,
    run = Done st'
    /\ aseGroups_ st' = aseGroups_ st1
    /\ audio_sender_state_ st' = audio_sender_state_ st1
    /\ audio_receiver_state_ st' = audio_receiver_state_ st1
    /\ calls st' = calls st1 ++ new
    /\ (forall y d,
          y ∈ leAudioDevices g ->
          leAudioDevices_ st !! y = Some d ->
          HaveActiveAse d = true ->
          forall x, x ∈ forced_disconnect_calls y d -> x ∈ new)
    /\ (forall x,
          x ∈ new ->
          exists y d,
            y ∈ leAudioDevices g
            /\ leAudioDevices_ st !! y = Some d
            /\ (HaveActiveAse d = true
                \/ forall z, z ∈ leAudioDevices g ->
                             is_active (leAudioDevices_ st) z = false)
            /\ x ∈ forced_disconnect_calls y d)).
  { assert (Hfrom : forall visited a post,
      leAudioDevices g = visited ++ a :: post ->
      is_Some (leAudioDevices_ st1 !! a) ->
      (forall y d, y ∈ visited -> leAudioDevices_ st !! y = Some d ->
                   HaveActiveAse d = false) ->
      is_active (leAudioDevices_ st) a = true
      \/ (forall z, z ∈ leAudioDevices g ->
                    is_active (leAudioDevices_ st) z = false) ->
      exists st' new,
        disconnect_active_devices (S (length (leAudioDevices g))) group_id a st1
        = Done st'
        /\ aseGroups_ st' = aseGroups_ st1
        /\ audio_sender_state_ st' = audio_sender_state_ st1
        /\ audio_receiver_state_ st' = audio_receiver_state_ st1
        /\ calls st' = calls st1 ++ new
        /\ (forall y d,
              y ∈ leAudioDevices g ->
              leAudioDevices_ st !! y = Some d ->
              HaveActiveAse d = true ->
              forall x, x ∈ forced_disconnect_calls y d -> x ∈ new)
        /\ (forall x,
              x ∈ new ->
              exists y d,
                y ∈ leAudioDevices g
                /\ leAudioDevices_ st !! y = Some d
                /\ (HaveActiveAse d = true
                    \/ forall z, z ∈ leAudioDevices g ->
                                 is_active (leAudioDevices_ st) z = false)
                /\ x ∈ forced_disconnect_calls y d)).
    { intros visited a post Hmembers Hreg Hinactive Hfirst.
      destruct (disconnect_active_devices_visits group_id g1 Hnodup
                  (S (length (leAudioDevices g))) visited a post st1)
        as (st' & new & Hrun & Hgroups & Hsender & Hreceiver & Hcalls
            & Hvisit & Honly);
        [done| |done|done|].
      { rewrite Hmembers, length_app. cbn. lia. }
      exists st', new. split; [done|]. split; [done|]. split; [done|].
      split; [done|]. split; [done|]. split.
      - intros y d Hy Hd Hactive x Hx.
        rewrite Hmembers in Hy. apply elem_of_app in Hy as [Hy | Hy].
        + specialize (Hinactive y d Hy Hd). congruence.
        + apply (Hvisit y d); [done|by rewrite Hdevs|by right|done].
      - intros x Hx. destruct (Honly x Hx) as (y & d & Hy & Hd & Hwhy & Hxy).
        rewrite Hdevs in Hd. exists y, d.
        split; [rewrite Hmembers; apply elem_of_app; by right|].
        split; [done|]. split; [|done].
        destruct Hwhy as [-> | Hactive]; [|by left].
        destruct Hfirst as [Ha | Hnone]; [|by right].
        left. unfold is_active in Ha. by rewrite Hd in Ha. }
    unfold run, first, GetFirstActiveDevice, GetFirstDevice.
    change (leAudioDevices g1) with (leAudioDevices g).
    destruct (List.find (is_active (leAudioDevices_ st1)) (leAudioDevices g))
      as [a|] eqn:Hfirst.
    - apply find_split in Hfirst as (p1 & post & Hmembers & Ha & Hp1).
      apply (Hfrom p1 a post Hmembers).
      + unfold is_active in Ha. by destruct (leAudioDevices_ st1 !! a).
      + intros y d Hy Hd. rewrite Forall_forall in Hp1. specialize (Hp1 y Hy).
        unfold is_active in Hp1. by rewrite Hdevs, Hd in Hp1.
      + left. by rewrite <- Hdevs.
    - assert (Hnone : forall y, y ∈ leAudioDevices g ->
                        is_active (leAudioDevices_ st) y = false).
      { intros y Hy. apply list_elem_of_In in Hy.
        rewrite <- Hdevs. exact (find_none _ _ Hfirst y Hy). }
      assert (Hnone' : forall y d, y ∈ leAudioDevices g ->
                         leAudioDevices_ st !! y = Some d ->
                         HaveActiveAse d = false).
      { intros y d Hy Hd. specialize (Hnone y Hy).
        unfold is_active in Hnone. by rewrite Hd in Hnone. }
      destruct (List.find (is_registered (leAudioDevices_ st1)) (leAudioDevices g))
        as [a|] eqn:Hany.
      + apply find_split in Hany as (p1 & post & Hmembers & Ha & _).
        apply (Hfrom p1 a post Hmembers).
        * unfold is_registered in Ha. by apply bool_decide_eq_true in Ha.
        * intros y d Hy. apply Hnone'. rewrite Hmembers. apply elem_of_app. by left.
        * by right.
      + exists st1, []. split; [done|]. split; [done|]. split; [done|].
        split; [done|]. split; [by rewrite app_nil_r|]. split.
        * intros y d Hy Hd Hactive. specialize (Hnone' y d Hy Hd). congruence.
        * intros x Hx. by apply elem_of_nil in Hx. }
  destruct Hloop as (st' & new & Hrun & Hgroups & Hsender & Hreceiver & Hcalls
                     & Hvisit & Honly).
  exists st', (cancels ++ new). split; [exact Hrun|].
  split; [by rewrite Hgroups|]. split; [congruence|]. split; [congruence|].
  split; [by rewrite Hcalls, Hcancel, app_assoc|].
  split; [intros H; apply elem_of_app; left; by apply Hsrc|].
  split; [intros H; apply elem_of_app; left; by apply Hsnk|].
  split; [|split].
  - intros a d c h Ha Hd Hactive Hc Hh. apply elem_of_app. right.
    apply (Hvisit a d Ha Hd Hactive). unfold forced_disconnect_calls.
    rewrite Hc, Hh. apply list_elem_of_here.
  - intros a d c Ha Hd Hactive Hc Hh.
    split; apply elem_of_app; right; apply (Hvisit a d Ha Hd Hactive);
      unfold forced_disconnect_calls; rewrite Hc, Hh.
    + apply list_elem_of_here.
    + apply list_elem_of_further, list_elem_of_here.
  - intros x Hx. apply elem_of_app in Hx as [Hx | Hx].
    + rewrite Forall_forall in Honly_cancels.
      destruct (Honly_cancels _ Hx) as [? | ?]; [by left|by right; left].
    + right. right. destruct (Honly _ Hx) as (y & d & Hy & Hd & Hwhy & Hxy).
      unfold forced_disconnect_calls in Hxy.
      destruct (conn_id_ d) as [c|] eqn:Hc; [|by apply elem_of_nil in Hxy].
      exists y, d, c. split; [done|]. split; [done|]. split; [done|].
      split; [done|].
      destruct (BTM_GetHCIConnHandle y) as [h|].
      * by apply list_elem_of_singleton in Hxy.
      * apply elem_of_cons in Hxy as [? | Hxy]; [by left|].
        right. by apply list_elem_of_singleton in Hxy.
Qed.

End DeadlineTheorem.

Lemma C3_transition_timeout_witness :
  exists st' new,
    OnLeAudioDeviceSetStateTimeout (E := Reference.environment) 1
      Sample.streaming_pair = Done st'
    /\ calls st' = calls Sample.streaming_pair ++ new
    /\ AudioSource_CancelStreamingRequest ∈ new
    /\ acl_disconnect_from_handle 0x50 ∈ new
    /\ acl_disconnect_from_handle 0x51 ∈ new.
Proof.
  destruct (C3_transition_timeout (E := Reference.environment)
              Sample.streaming_pair 1
              (Sample.group_of [0x10; 0x11] true
                 AseState.BTA_LE_AUDIO_ASE_STATE_STREAMING
                 AseState.BTA_LE_AUDIO_ASE_STATE_STREAMING 6
                 (Some Sample.two_device_conf) [(0x80, 1); (0x81, 2)]))
    as (st' & new & Hrun & _ & _ & _ & Hcalls & Hsource & _ & Hacl & _).
  - reflexivity.
  - apply (bool_decide_unpack _). vm_compute. reflexivity.
  - exists st', new. split; [exact Hrun|]. split; [exact Hcalls|].
    split; [apply Hsource; discriminate|]. split.
    + apply (Hacl 0x10 (Sample.earbud (Some 1) (Some 1) true 1 (6, 6)) 1 0x50);
        [apply list_elem_of_here|reflexivity|reflexivity|reflexivity|reflexivity].
    + apply (Hacl 0x11 (Sample.earbud (Some 2) (Some 1) true 2 (6, 6)) 2 0x51);
        [apply list_elem_of_further, list_elem_of_here
        |reflexivity|reflexivity|reflexivity|reflexivity].
Defined.

(** C3 as the specification has it fails: the ACL of an active member is not
    always disconnected.  The right earbud 0x11 of the streaming pair is an
    active member without GATT connection: the handler returns from its
    forced disconnect at once, and only the ACL of the left earbud (handle
    0x50) is disconnected.  And when BTM knows no ACL handle for the two
    connected, active earbuds, the handler cleans and closes their GATT
    connections 1 and 2 and disconnects no ACL. *)
Lemma C3_counterexample :
  (let E := Reference.environment in
   let st := Sample.streaming_pair_right_lost in
   aseGroups_ st !! 1
   = Some (Sample.group_of [0x10; 0x11] true Sample.STREAMING Sample.STREAMING 6
             (Some Sample.two_device_conf) [(0x80, 1); (0x81, 2)])
   /\ is_active (leAudioDevices_ st) 0x11 = true
   /\ BTM_GetHCIConnHandle 0x11 = Some 0x51
   /\ runs_to (OnLeAudioDeviceSetStateTimeout 1 st)
        (fun st' =>
           calls st' = [AudioSource_CancelStreamingRequest;
                        acl_disconnect_from_handle 0x50]
           /\ acl_disconnect_from_handle 0x51 ∉ calls st'))
  /\ (let E := Reference.environment_without_acl in
      let st := Sample.streaming_pair in
      is_active (leAudioDevices_ st) 0x10 = true
      /\ is_active (leAudioDevices_ st) 0x11 = true
      /\ conn_id_ <$> leAudioDevices_ st !! 0x10 = Some (Some 1)
      /\ conn_id_ <$> leAudioDevices_ st !! 0x11 = Some (Some 2)
      /\ runs_to (OnLeAudioDeviceSetStateTimeout 1 st)
           (fun st' =>
              calls st' = [AudioSource_CancelStreamingRequest;
                           BtaGattQueue_Clean 1; BTA_GATTC_Close 1;
                           BtaGattQueue_Clean 2; BTA_GATTC_Close 2]
              /\ conn_id_ <$> leAudioDevices_ st' !! 0x10 = Some None
              /\ conn_id_ <$> leAudioDevices_ st' !! 0x11 = Some None)).
Proof.
  vm_compute. repeat split.
  intros Hin. apply elem_of_cons in Hin as [? | Hin]; [done|].
  by apply list_elem_of_singleton in Hin.
Qed.

(** ** C4: the group registry *)

Lemma rbind_Done {A B : Type} (r : Result A) (k : A -> Result B) (y : B) :
  rbind r k = Done y -> exists x, r = Done x /\ k x = Done y.
Proof. destruct r; cbn; [eauto|discriminate]. Qed.

Lemma group_at_Done (st : LeAudioClientImpl) (id : Z) (g : LeAudioDeviceGroup) :
  group_at st id = Done g <-> aseGroups_ st !! id = Some g.
Proof.
  unfold group_at. destruct (aseGroups_ st !! id); split; congruence.
Qed.

Lemma registry_invariant_except (st : LeAudioClientImpl) :
  registry_invariant st <-> invariant_except None st.
Proof.
  unfold registry_invariant, invariant_except, membership_at. split.
  - intros H id m Hm _. destruct (aseGroups_ st !! id) as [g|] eqn:Hg; [|done].
    injection Hm as <-. exact (H id g Hg).
  - intros H id g Hg. apply (H id (membership g)); [by rewrite Hg|done].
Qed.

(** The registry of a state that was built with setters. *)
Tactic Notation "registry_of" :=
  cbn [setter set_aseGroups_ set_leAudioDevices_ aseGroups_].
Tactic Notation "registry_of" "in" hyp(H) :=
  cbn [setter set_aseGroups_ set_leAudioDevices_ aseGroups_] in H.

(** Steps that leave the members and the flag of every group alone. *)
Lemma membership_at_update_group (id : Z)
    (f : LeAudioDeviceGroup -> LeAudioDeviceGroup) (st : LeAudioClientImpl) (i : Z) :
  (forall g, membership (f g) = membership g) ->
  membership_at (update_group id f st) i = membership_at st i.
Proof.
  intros Hf. unfold membership_at.
  change (aseGroups_ (update_group id f st)) with (alter f id (aseGroups_ st)).
  destruct (decide (id = i)) as [->|Hne].
  - rewrite lookup_alter_eq. destruct (aseGroups_ st !! i); cbn; [by rewrite Hf|done].
  - by rewrite lookup_alter_ne.
Qed.

Lemma fold_left_groups {A : Type} (f : LeAudioClientImpl -> A -> LeAudioClientImpl)
    (l : list A) :
  (forall st x, aseGroups_ (f st x) = aseGroups_ st) ->
  forall st, aseGroups_ (fold_left f l st) = aseGroups_ st.
Proof.
  intros Hf. induction l as [|x l IH]; intros st; cbn; [done|].
  by rewrite IH, Hf.
Qed.

Section RegistrySteps.
Context {E : Environment}.

Lemma group_UpdateActiveContextsMap_membership (group contexts : Z)
    (st st' : LeAudioClientImpl) (updated : option Z) :
  group_UpdateActiveContextsMap group contexts st = Done (updated, st') ->
  forall i, membership_at st' i = membership_at st i.
Proof.
  unfold group_UpdateActiveContextsMap. intros H.
  apply rbind_Done in H as (g & _ & [= _ <-]). intros i.
  by apply membership_at_update_group.
Qed.

Lemma group_ReloadAudioLocations_membership (group : Z)
    (st st' : LeAudioClientImpl) (changed : bool) :
  group_ReloadAudioLocations group st = Done (changed, st') ->
  forall i, membership_at st' i = membership_at st i.
Proof.
  unfold group_ReloadAudioLocations. intros H.
  apply rbind_Done in H as (g & _ & [= _ <-]). intros i.
  by apply membership_at_update_group.
Qed.

Lemma callbacks_OnAudioConf_membership (group contexts : Z)
    (st st' : LeAudioClientImpl) :
  callbacks_OnAudioConf group contexts st = Done st' ->
  forall i, membership_at st' i = membership_at st i.
Proof.
  unfold callbacks_OnAudioConf. intros H.
  by apply rbind_Done in H as (g & _ & [= <-]).
Qed.

Lemma or_else_reload_membership (a : bool) (group : Z)
    (st st' : LeAudioClientImpl) (cond : bool) :
  or_else a (group_ReloadAudioLocations group) st = Done (cond, st') ->
  forall i, membership_at st' i = membership_at st i.
Proof.
  unfold or_else. destruct a; [by intros [= _ <-]|].
  apply group_ReloadAudioLocations_membership.
Qed.

(** The refresh of contexts and locations that follows a change of
    members. *)
Lemma refresh_membership (group contexts : Z) (st st' : LeAudioClientImpl) :
  (let! (updated_contexts, st) :=
     group_UpdateActiveContextsMap group contexts st in
   let! (cond, st) :=
     or_else (bool_decide (is_Some updated_contexts))
             (group_ReloadAudioLocations group) st in
   if cond then
     let! g := group_at st group in
     callbacks_OnAudioConf group (active_contexts_mask_ g) st
   else Done st) = Done st' ->
  forall i, membership_at st' i = membership_at st i.
Proof.
  intros H i.
  apply rbind_Done in H as ([updated s1] & H1 & H).
  apply rbind_Done in H as ([cond s2] & H2 & H).
  rewrite <- (group_UpdateActiveContextsMap_membership _ _ _ _ _ H1 i),
          <- (or_else_reload_membership _ _ _ _ _ H2 i).
  destruct cond; [|by injection H as <-].
  apply rbind_Done in H as (g & _ & H).
  apply (callbacks_OnAudioConf_membership _ _ _ _ H).
Qed.

Lemma UpdateContextAndLocations_membership (group : Z) (address : RawAddress)
    (st st' : LeAudioClientImpl) :
  UpdateContextAndLocations group address st = Done st' ->
  forall i, membership_at st' i = membership_at st i.
Proof.
  unfold UpdateContextAndLocations. intros H i.
  apply rbind_Done in H as (d & _ & H).
  apply rbind_Done in H as ([updated s1] & H1 & H).
  apply rbind_Done in H as ([cond s2] & H2 & H).
  rewrite <- (group_UpdateActiveContextsMap_membership _ _ _ _ _ H1 i),
          <- (or_else_reload_membership _ _ _ _ _ H2 i).
  destruct cond; [|by injection H as <-].
  destruct updated as [contexts|]; [|discriminate].
  apply (callbacks_OnAudioConf_membership _ _ _ _ H).
Qed.

End RegistrySteps.

Lemma AseInitialStateReadRequest_groups (address : RawAddress)
    (st st' : LeAudioClientImpl) :
  AseInitialStateReadRequest address st = Done st' ->
  aseGroups_ st' = aseGroups_ st.
Proof.
  unfold AseInitialStateReadRequest. intros H.
  apply rbind_Done in H as (d & _ & [= <-]).
  by apply fold_left_groups.
Qed.

Lemma membership_at_RemoveNode (id : Z) (address : RawAddress)
    (st : LeAudioClientImpl) (i : Z) :
  membership_at (RemoveNode id address st) i
  = if decide (i = id)
    then (fun g => (members_without address g, cig_created_ g)) <$> aseGroups_ st !! id
    else membership_at st i.
Proof.
  unfold membership_at, RemoveNode.
  change (aseGroups_ (update_group id ?f (update_device ?a ?h st)))
    with (alter f id (aseGroups_ st)).
  destruct (decide (i = id)) as [->|Hne].
  - rewrite lookup_alter_eq. by destruct (aseGroups_ st !! id).
  - by rewrite lookup_alter_ne.
Qed.

Lemma membership_at_AddNode (id : Z) (address : RawAddress)
    (st : LeAudioClientImpl) (i : Z) :
  membership_at (AddNode id address st) i
  = if decide (i = id)
    then (fun g => (leAudioDevices g ++ [address], cig_created_ g))
           <$> aseGroups_ st !! id
    else membership_at st i.
Proof.
  unfold membership_at, AddNode.
  change (aseGroups_ (update_group id ?f (update_device ?a ?h st)))
    with (alter f id (aseGroups_ st)).
  destruct (decide (i = id)) as [->|Hne].
  - rewrite lookup_alter_eq. by destruct (aseGroups_ st !! id).
  - by rewrite lookup_alter_ne.
Qed.

Lemma IsEmpty_true (g : LeAudioDeviceGroup) :
  IsEmpty g = true <-> leAudioDevices g = [].
Proof. unfold IsEmpty. by destruct (leAudioDevices g). Qed.

Lemma remove_group_if_possible_registered (id : Z) (g : LeAudioDeviceGroup)
    (st : LeAudioClientImpl) :
  aseGroups_ st !! id = Some g ->
  remove_group_if_possible (Some id) st
  = Done (if IsEmpty g && negb (cig_created_ g)
          then st <| aseGroups_ := delete id (aseGroups_ st) |>
          else st).
Proof.
  intros Hg. unfold remove_group_if_possible, group_at. rewrite Hg. cbn [rbind].
  by destruct (IsEmpty g && negb (cig_created_ g)).
Qed.

(** A group that remove_group_if_possible leaves in the registry is as it
    was, and the group it was called for has members or its CIG. *)
Lemma remove_group_if_possible_survivors (group : option Z)
    (st st' : LeAudioClientImpl) :
  remove_group_if_possible group st = Done st' ->
  forall i m, membership_at st' i = Some m ->
    membership_at st i = Some m /\ (Some i = group -> membership_ok m).
Proof.
  destruct group as [id|]; [|by intros [= <-] i m Hm].
  unfold remove_group_if_possible at 1. intros H.
  apply rbind_Done in H as (g & Hg%group_at_Done & H).
  destruct (IsEmpty g && negb (cig_created_ g)) eqn:Hcond;
    injection H as <-; intros i m Hm.
  - unfold membership_at in Hm |- *.
    registry_of in Hm.
    destruct (decide (id = i)) as [->|Hne].
    + by rewrite lookup_delete_eq in Hm.
    + rewrite lookup_delete_ne in Hm by done. split; [done|congruence].
  - split; [done|]. intros [= ->]. unfold membership_at in Hm.
    rewrite Hg in Hm. injection Hm as <-. intros Hempty. cbn in Hempty |- *.
    apply IsEmpty_true in Hempty. rewrite Hempty in Hcond.
    by destruct (cig_created_ g).
Qed.

Section RegistryOperations.
Context {E : Environment}.

(** group_remove_node: the other groups are as they were; the group stays
    with the members that are left, unless none is left and no CIG is
    created, when the group leaves the registry. *)
Lemma group_remove_node_membership (group : Z) (address : RawAddress)
    (update_group_module : bool) (st st' : LeAudioClientImpl) :
  group_remove_node group address update_group_module st = Done st' ->
  exists g,
    aseGroups_ st !! group = Some g
    /\ (forall i, i <> group -> membership_at st' i = membership_at st i)
    /\ membership_at st' group
       = match members_without address g, cig_created_ g with
         | [], false => None
         | rest, cig => Some (rest, cig)
         end.
Proof.
  unfold group_remove_node. intros H.
  apply rbind_Done in H as (g & Hg%group_at_Done & H).
  apply rbind_Done in H as (d & _ & H). cbv zeta in H.
  match type of H with
  | context [call (OnGroupNodeStatus address group REMOVED) ?s] =>
      set (s3 := call (OnGroupNodeStatus address group REMOVED) s) in H;
      assert (Hs3 : forall i, membership_at s3 i
                              = membership_at (RemoveNode group address st) i)
        by (intros i; subst s3; destruct update_group_module;
            [destruct (bool_decide _)|]; reflexivity)
  end.
  clearbody s3. exists g. split; [done|].
  apply rbind_Done in H as (g3 & Hg3%group_at_Done & H).
  assert (Hm3 : membership_at s3 group
                = Some (members_without address g, cig_created_ g)).
  { rewrite Hs3, membership_at_RemoveNode, Hg.
    destruct (decide (group = group)) as [_|Hne]; [done|by destruct Hne]. }
  assert (Hother : forall i, i <> group -> membership_at s3 i = membership_at st i).
  { intros i Hi. rewrite Hs3, membership_at_RemoveNode.
    destruct (decide (i = group)); [congruence|done]. }
  assert (Hshape : membership g3 = (members_without address g, cig_created_ g)).
  { unfold membership_at in Hm3. rewrite Hg3 in Hm3. cbn in Hm3.
    congruence. }
  unfold membership in Hshape. injection Hshape as Hmembers Hcig.
  destruct (IsEmpty g3) eqn:Hempty.
  - rewrite (remove_group_if_possible_registered group g3 s3 Hg3) in H.
    rewrite Hempty in H. apply IsEmpty_true in Hempty.
    rewrite <- Hmembers, <- Hcig, Hempty.
    destruct (cig_created_ g3); cbn in H; injection H as <-.
    + split; [done|]. by rewrite Hm3, <- Hmembers, Hempty, <- Hcig.
    + unfold membership_at. registry_of. split.
      * intros i Hi. rewrite lookup_delete_ne by done. by apply Hother.
      * by rewrite lookup_delete_eq.
  - pose proof (refresh_membership _ _ _ _ H) as Hrefresh. split.
    + intros i Hi. rewrite Hrefresh. by apply Hother.
    + rewrite Hrefresh, Hm3. rewrite <- Hmembers.
      unfold IsEmpty in Hempty. by destruct (leAudioDevices g3).
Qed.

End RegistryOperations.

Lemma invariant_except_groups (x : option Z) (st st' : LeAudioClientImpl) :
  (forall i, membership_at st' i = membership_at st i) ->
  invariant_except x st -> invariant_except x st'.
Proof. intros Hsame Hinv i m Hm. rewrite Hsame in Hm. by apply Hinv. Qed.

Lemma invariant_except_weaken (x : option Z) (st : LeAudioClientImpl) :
  invariant_except None st -> invariant_except x st.
Proof. intros Hinv i m Hm _. by apply (Hinv i m). Qed.

(** A group that was just registered has no member yet; every other group
    is as it was. *)
Lemma aseGroups_Add_invariant (id : Z) (st st' : LeAudioClientImpl) (new_group : Z) :
  aseGroups_Add id st = (Some new_group, st') ->
  invariant_except None st ->
  invariant_except (Some new_group) st'.
Proof.
  unfold aseGroups_Add. destruct (aseGroups_ st !! id) eqn:Hid; [discriminate|].
  intros [= <- <-] Hinv i m Hm Hi. apply (Hinv i m); [|done].
  unfold membership_at in Hm |- *. registry_of in Hm. rewrite lookup_insert_ne in Hm; [done|congruence].
Qed.

Section RegistryInvariant.
Context {E : Environment}.

Lemma group_remove_node_invariant (x : option Z) (group : Z)
    (address : RawAddress) (update_group_module : bool)
    (st st' : LeAudioClientImpl) :
  group_remove_node group address update_group_module st = Done st' ->
  invariant_except x st -> invariant_except x st'.
Proof.
  intros H Hinv.
  destruct (group_remove_node_membership _ _ _ _ _ H) as (g & Hg & Hother & Hgroup).
  intros i m Hm Hx. destruct (decide (i = group)) as [->|Hne].
  - rewrite Hgroup in Hm.
    destruct (members_without address g) eqn:Hrest, (cig_created_ g) eqn:Hcig;
      try discriminate; injection Hm as <-; intros Hempty; cbn in *; congruence.
  - rewrite Hother in Hm by done. by apply (Hinv i m).
Qed.

Lemma group_add_node_tail_invariant (address : RawAddress)
    (update_group_module : bool) (old_group : option Z) (new_group : Z)
    (st st' : LeAudioClientImpl) :
  group_add_node_tail address update_group_module old_group new_group st = Done st' ->
  invariant_except (Some new_group) st ->
  registry_invariant st'.
Proof.
  unfold group_add_node_tail. intros H Hinv.
  apply rbind_Done in H as (s1 & H1 & H).
  assert (Hinv1 : invariant_except (Some new_group) s1).
  { destruct old_group as [og|].
    - by apply (group_remove_node_invariant _ _ _ _ _ _ H1).
    - by injection H1 as <-. }
  apply rbind_Done in H as (gn & Hgn%group_at_Done & H).
  apply rbind_Done in H as (d0 & _ & H). cbv zeta in H.
  set (s2 := call (OnGroupNodeStatus address new_group ADDED)
               (AddNode new_group address s1)) in H.
  assert (Hinv2 : invariant_except None s2).
  { intros i m Hm _.
    change (membership_at s2 i)
      with (membership_at (AddNode new_group address s1) i) in Hm.
    rewrite membership_at_AddNode in Hm.
    destruct (decide (i = new_group)) as [->|Hne].
    - rewrite Hgn in Hm. injection Hm as <-. intros Hempty. cbn in Hempty.
      by destruct (leAudioDevices gn).
    - apply (Hinv1 i m Hm). congruence. }
  clearbody s2.
  apply rbind_Done in H as (d & _ & H).
  apply rbind_Done in H as (s3 & H3 & H).
  assert (Hs3 : aseGroups_ s3 = aseGroups_ s2).
  { destruct (bool_decide (is_Some (conn_id_ d))).
    - by apply AseInitialStateReadRequest_groups in H3.
    - by injection H3 as <-. }
  apply rbind_Done in H as (s4 & H4 & H).
  assert (Hs4 : forall i, membership_at s4 i = membership_at s3 i).
  { destruct (FindById s3 old_group) as [[og g]|].
    - apply (refresh_membership _ _ _ _ H4).
    - by injection H4 as <-. }
  pose proof (UpdateContextAndLocations_membership _ _ _ _ H) as Hs5.
  apply registry_invariant_except. intros i m Hm _.
  rewrite Hs5, Hs4 in Hm. unfold membership_at in Hm. rewrite Hs3 in Hm.
  by apply (Hinv2 i m).
Qed.

Lemma group_add_node_invariant (group_id : option Z) (address : RawAddress)
    (update_group_module : bool) (st st' : LeAudioClientImpl) :
  group_add_node group_id address update_group_module st = Done st' ->
  registry_invariant st -> registry_invariant st'.
Proof.
  unfold group_add_node. intros H Hinv. cbv zeta in H.
  assert (Htail : forall (old_group : option Z) (s1 : LeAudioClientImpl),
    aseGroups_ s1 = aseGroups_ st ->
    match group_id with
    | None =>
        match DeviceGroups_GetGroupId address with
        | None => Done (call (DeviceGroups_AddDevice address None) s1)
        | Some id =>
            match aseGroups_Add id s1 with
            | (None, st) => Done st
            | (Some new_group, st) =>
                group_add_node_tail address update_group_module old_group
                  new_group st
            end
        end
    | Some group_id =>
        if negb (bool_decide (DeviceGroups_GetGroupId address = Some group_id))
        then Abort AssertionFailure
        else
          match aseGroups_ s1 !! group_id with
          | None =>
              match aseGroups_Add group_id s1 with
              | (None, st) => Abort NullPointerAccess
              | (Some new_group, st) =>
                  group_add_node_tail address update_group_module old_group
                    new_group st
              end
          | Some g =>
              if IsDeviceInTheGroup g address then Done s1
              else group_add_node_tail address update_group_module old_group
                     group_id s1
          end
    end = Done st' -> registry_invariant st').
  { intros old_group s1 Hs1 Hrun.
    assert (Hinv1 : invariant_except None s1).
    { apply registry_invariant_except in Hinv. intros i m Hm.
      unfold membership_at in Hm. rewrite Hs1 in Hm. by apply (Hinv i m). }
    destruct group_id as [gid|].
    - destruct (negb _); [discriminate|].
      destruct (aseGroups_ s1 !! gid) as [g|] eqn:Hgid.
      + destruct (IsDeviceInTheGroup g address).
        * injection Hrun as <-. by apply registry_invariant_except.
        * apply (group_add_node_tail_invariant _ _ _ _ _ _ Hrun).
          by apply invariant_except_weaken.
      + destruct (aseGroups_Add gid s1) as [[new_group|] s2] eqn:Hadd;
          [|discriminate].
        apply (group_add_node_tail_invariant _ _ _ _ _ _ Hrun).
        by apply (aseGroups_Add_invariant _ _ _ _ Hadd).
    - destruct (DeviceGroups_GetGroupId address) as [id|].
      + destruct (aseGroups_Add id s1) as [[new_group|] s2] eqn:Hadd.
        * apply (group_add_node_tail_invariant _ _ _ _ _ _ Hrun).
          by apply (aseGroups_Add_invariant _ _ _ _ Hadd).
        * injection Hrun as <-. unfold aseGroups_Add in Hadd.
          destruct (aseGroups_ s1 !! id); [|discriminate].
          injection Hadd as <-. by apply registry_invariant_except.
      + injection Hrun as <-. by apply registry_invariant_except. }
  destruct (FindByAddress st address) as [d|] eqn:Hknown.
  - apply rbind_Done in H as ([old_group s1] & Hpre & H).
    apply (Htail old_group s1); [|exact H].
    destruct (group_id_ d) as [og|].
    + apply rbind_Done in Hpre as (g & _ & [= _ <-]). done.
    + by injection Hpre as _ <-.
  - destruct group_id as [gid|]; [|by injection H as <-].
    apply rbind_Done in H as ([old_group s1] & Hpre & H).
    apply (Htail old_group s1); [|exact H]. by injection Hpre as _ <-.
Qed.

End RegistryInvariant.

Lemma membership_at_store_back (id : Z)
    (r : LeAudioDeviceGroup * gmap Z LeAudioDevice) (st : LeAudioClientImpl) (i : Z) :
  membership_at (store_back id r st) i
  = if decide (i = id) then Some (membership r.1) else membership_at st i.
Proof.
  unfold membership_at, store_back. registry_of.
  destruct (decide (i = id)) as [->|Hne].
  - by rewrite lookup_insert_eq.
  - by rewrite lookup_insert_ne.
Qed.

Section RegistryEvents.
Context {E : Environment} {SM : LeAudioGroupStateMachine}.

(** The last member leaves: group_remove_node runs to its end. *)
Lemma group_remove_node_last (id : Z) (g : LeAudioDeviceGroup)
    (address : RawAddress) (update_group_module : bool) (st : LeAudioClientImpl) :
  aseGroups_ st !! id = Some g ->
  is_Some (leAudioDevices_ st !! address) ->
  members_without address g = [] ->
  exists st', group_remove_node id address update_group_module st = Done st'.
Proof.
  intros Hg [d Hd] Hrest. unfold group_remove_node, group_at at 1, device_at.
  rewrite Hg, Hd. cbn [rbind]. cbv zeta.
  match goal with
  | |- context [group_at ?s id] =>
      set (s3 := s);
      assert (Hs3 : membership_at s3 id
                    = membership_at (RemoveNode id address st) id)
        by (subst s3; destruct update_group_module;
            [destruct (bool_decide _)|]; reflexivity)
  end.
  clearbody s3. rewrite membership_at_RemoveNode, Hg in Hs3.
  destruct (decide (id = id)) as [_|Hne]; [|by destruct Hne].
  unfold membership_at in Hs3. unfold group_at.
  destruct (aseGroups_ s3 !! id) as [g3|] eqn:Hg3; [|discriminate].
  cbn in Hs3. injection Hs3 as Hmembers _. cbn [rbind].
  rewrite Hrest in Hmembers. apply IsEmpty_true in Hmembers as Hempty.
  rewrite Hempty, (remove_group_if_possible_registered id g3 s3 Hg3).
  by eexists.
Qed.

Lemma IsoCigEventsCb_invariant (event : cig_event) (st st' : LeAudioClientImpl) :
  cig_create_keeps_invariant ->
  IsoCigEventsCb event st = Done st' ->
  registry_invariant st -> registry_invariant st'.
Proof.
  intros Hsm H Hinv. apply registry_invariant_except.
  destruct event as [status id conn_handles|status id|other];
    unfold IsoCigEventsCb, FindById in H; cbv zeta in H.
  - change (aseGroups_ (call ?c st)) with (aseGroups_ st) in H.
    destruct (aseGroups_ st !! id) as [g|] eqn:Hg; injection H as <-.
    + intros i m Hm _. rewrite membership_at_store_back in Hm.
      destruct (decide (i = id)) as [->|Hne].
      * injection Hm as <-. apply (Hsm status conn_handles g). by apply (Hinv id).
      * apply registry_invariant_except in Hinv. by apply (Hinv i m).
    + by apply registry_invariant_except in Hinv.
  - change (aseGroups_ (call ?c st)) with (aseGroups_ st) in H.
    destruct (aseGroups_ st !! id) as [g|] eqn:Hg.
    + intros i m Hm _.
      destruct (remove_group_if_possible_survivors _ _ _ H i m Hm) as [Hwas Hok].
      rewrite membership_at_store_back in Hwas.
      destruct (decide (i = id)) as [->|Hne]; [by apply Hok|].
      apply registry_invariant_except in Hinv. by apply (Hinv i m).
    + injection H as <-. by apply registry_invariant_except in Hinv.
  - injection H as <-. by apply registry_invariant_except in Hinv.
Qed.

End RegistryEvents.

Lemma reference_cig_create_keeps_invariant :
  cig_create_keeps_invariant (SM := Reference.state_machine).
Proof.
  intros status conn_handles g devices Hg. cbn.
  destruct (status =? 0); [by intros _|exact Hg].
Qed.

(** * Further properties of the client *)

(** ** Cancelling the streaming request *)

Lemma CancelStreamingRequest_again (st : LeAudioClientImpl) :
  CancelStreamingRequest (CancelStreamingRequest st) = CancelStreamingRequest st.
Proof.
  destruct (CancelStreamingRequest_idle st) as [Hs Hr].
  unfold CancelStreamingRequest at 1. cbv zeta. rewrite Hs.
  change (AudioState.geb AudioState.IDLE AudioState.READY_TO_START) with false.
  cbv iota. by rewrite Hr.
Qed.

(** X1.  CancelStreamingRequest leaves both audio states IDLE, tells the
    audio source and the audio sink once each, and only for a direction that
    was not IDLE, touches neither registry, and changes nothing when it is
    called a second time. *)
Theorem X1_cancel_streaming_request (st : LeAudioClientImpl) :
  let st' := CancelStreamingRequest st in
  audio_sender_state_ st' = AudioState.IDLE
  /\ audio_receiver_state_ st' = AudioState.IDLE
  /\ calls st'
     = calls st
       ++ (if AudioState.eqb (audio_sender_state_ st) AudioState.IDLE then []
           else [AudioSource_CancelStreamingRequest])
       ++ (if AudioState.eqb (audio_receiver_state_ st) AudioState.IDLE then []
           else [AudioSink_CancelStreamingRequest])
  /\ aseGroups_ st' = aseGroups_ st
  /\ leAudioDevices_ st' = leAudioDevices_ st
  /\ CancelStreamingRequest st' = st'.
Proof.
  cbn zeta.
  destruct (CancelStreamingRequest_idle st) as [Hs Hr].
  destruct (CancelStreamingRequest_groups st) as [Hg Hd].
  repeat split; [done|done| |done|done|apply CancelStreamingRequest_again].
  unfold CancelStreamingRequest.
  destruct (audio_sender_state_ st) eqn:Es, (audio_receiver_state_ st) eqn:Er;
    cbn; rewrite ?Es, ?Er; cbn; rewrite ?Es, ?Er; cbn;
    by rewrite <- ?app_assoc, ?app_nil_r.
Qed.

(** ** Control point notifications *)

Section ControlPoint.
Context {E : Environment}.

Lemma ControlPointNotificationHandler_cancelled (l : list (Z * Z))
    (st : LeAudioClientImpl) :
  fold_left
    (fun st entry =>
       if (entry.1 =? kCtpResponseCodeInvalidConfigurationParameterValue)
          && (entry.2 =? kCtpResponseInvalidAseCisMapping)
       then CancelStreamingRequest st
       else st)
    l (CancelStreamingRequest st)
  = CancelStreamingRequest st.
Proof.
  induction l as [|entry l IH]; cbn [fold_left]; [done|].
  destruct (_ && _); [|done]. by rewrite CancelStreamingRequest_again.
Qed.

(** X2.  A control point notification cancels the streaming request when one
    of its entries carries the response code Invalid Configuration Parameter
    Value with the reason Invalid ASE CIS Mapping, however many such entries
    there are, and leaves the client as it is otherwise. *)
Theorem X2_control_point_notification (ntf : ctp_ntf) (st : LeAudioClientImpl) :
  ControlPointNotificationHandler ntf st
  = if existsb
         (fun entry =>
            (entry.1 =? kCtpResponseCodeInvalidConfigurationParameterValue)
            && (entry.2 =? kCtpResponseInvalidAseCisMapping))
         (entries ntf)
    then CancelStreamingRequest st
    else st.
Proof.
  unfold ControlPointNotificationHandler.
  induction (entries ntf) as [|entry l IH] in st |- *; cbn [fold_left existsb]; [done|].
  destruct (_ && _); cbn [orb].
  - apply ControlPointNotificationHandler_cancelled.
  - apply IH.
Qed.

End ControlPoint.

(** ** Suspend and resume requests of the audio framework *)

Section SuspendResume.
Context {E : Environment} {SM : LeAudioGroupStateMachine}.

(** X3.  A suspend request followed by a resume request of the same
    direction brings a started direction back: with an active group that
    offers a codec configuration for the current context, a sender in
    STARTED and a receiver in STARTED, IDLE or READY_TO_RELEASE,
    OnAudioSinkSuspend and then OnAudioSinkResume confirm the streaming
    request and leave the client as it was, with no keep-alive alarm
    pending.  If the receiver is in READY_TO_START or RELEASING the resume
    is answered with a cancel and the sender stays READY_TO_RELEASE.  The
    same holds for the source direction with the roles exchanged. *)
Theorem X3_suspend_then_resume (st : LeAudioClientImpl) (id : Z)
    (g : LeAudioDeviceGroup) :
  active_group_id_ st = Some id ->
  aseGroups_ st !! id = Some g ->
  (is_Some (GetCodecConfigurationByDirection g (leAudioDevices_ st)
              (current_context_type_ st) kLeAudioDirectionSink) ->
   audio_sender_state_ st = AudioState.STARTED ->
   OnAudioSinkResume (OnAudioSinkSuspend st)
   = match audio_receiver_state_ st with
     | AudioState.STARTED | AudioState.IDLE | AudioState.READY_TO_RELEASE =>
         Done (call AudioSource_ConfirmStreamingRequest
                 (st <| suspend_timeout_ := None |>))
     | _ =>
         Done (call AudioSource_CancelStreamingRequest
                 (st <| audio_sender_state_ := AudioState.READY_TO_RELEASE |>))
     end)
  /\ (is_Some (GetCodecConfigurationByDirection g (leAudioDevices_ st)
                 (current_context_type_ st) kLeAudioDirectionSource) ->
      audio_receiver_state_ st = AudioState.STARTED ->
      OnAudioSourceResume (OnAudioSourceSuspend st)
      = match audio_sender_state_ st with
        | AudioState.STARTED | AudioState.IDLE | AudioState.READY_TO_RELEASE =>
            Done (call AudioSink_ConfirmStreamingRequest
                    (st <| suspend_timeout_ := None |>))
        | _ =>
            Done (call AudioSink_CancelStreamingRequest
                    (st <| audio_receiver_state_ := AudioState.READY_TO_RELEASE |>))
        end).
Proof.
  intros Hactive Hg. split; intros [c Hc] Hstate.
  - destruct st. cbn in Hactive, Hg, Hc, Hstate. subst.
    unfold OnAudioSinkResume, OnAudioSinkSuspend, OnAudioSuspend, FindById,
      alarm_cancel_suspend_timeout.
    destruct audio_receiver_state_0; cbn; rewrite Hg, Hc; reflexivity.
  - destruct st. cbn in Hactive, Hg, Hc, Hstate. subst.
    unfold OnAudioSourceResume, OnAudioSourceSuspend, OnAudioSuspend, FindById,
      alarm_cancel_suspend_timeout.
    destruct audio_sender_state_0; cbn; rewrite Hg, Hc; reflexivity.
Qed.

End SuspendResume.

Lemma X3_suspend_then_resume_witness :
  let E := Reference.environment in
  let SM := Reference.state_machine in
  OnAudioSinkResume (OnAudioSinkSuspend Sample.streaming_pair)
  = Done (call AudioSource_ConfirmStreamingRequest
            (Sample.streaming_pair <| suspend_timeout_ := None |>)).
Proof.
  cbn zeta.
  destruct (X3_suspend_then_resume (E := Reference.environment)
              (SM := Reference.state_machine) Sample.streaming_pair 1
              (Sample.group_of [0x10; 0x11] true
                 AseState.BTA_LE_AUDIO_ASE_STATE_STREAMING
                 AseState.BTA_LE_AUDIO_ASE_STATE_STREAMING 6
                 (Some Sample.two_device_conf) [(0x80, 1); (0x81, 2)]))
    as [Hsink _]; [reflexivity|reflexivity|].
  apply Hsink; [by eexists|reflexivity].
Defined.

Section SuspendAlarm.
Context {E : Environment}.

(** X4.  What a suspend request does to the keep-alive alarm.  With an
    active group, OnAudioSinkSuspend arms the alarm for that group exactly
    when the sender is not RELEASING, the receiver is IDLE or
    READY_TO_RELEASE, and the two are not both IDLE; in every other case the
    alarm is as it was.  The period of the alarm is the [int32_t] that
    osi_property_get_int32 returns for the default 5000, converted to
    [uint64_t]: a negative property value arms a period of 2^64 minus its
    magnitude.  The sender goes to READY_TO_RELEASE unless it is
    IDLE or RELEASING; the receiver state, the registries and the calls are
    not touched.  Without an active group no alarm is armed. *)
Theorem X4_sink_suspend_alarm (st : LeAudioClientImpl) :
  let st' := OnAudioSinkSuspend st in
  let quiet s := AudioState.eqb s AudioState.IDLE
                 || AudioState.eqb s AudioState.READY_TO_RELEASE in
  suspend_timeout_ st'
  = match active_group_id_ st with
    | Some id =>
        if negb (AudioState.eqb (audio_sender_state_ st) AudioState.RELEASING)
           && quiet (audio_receiver_state_ st)
           && negb (AudioState.eqb (audio_sender_state_ st) AudioState.IDLE
                    && AudioState.eqb (audio_receiver_state_ st) AudioState.IDLE)
        then Some (to_uint64
                     (to_int32 (osi_property_get_int32
                                  (to_int32 kAudioSuspentKeepIsoAliveTimeoutMs))),
                   id)
        else suspend_timeout_ st
    | None => suspend_timeout_ st
    end
  /\ audio_sender_state_ st'
     = (if AudioState.eqb (audio_sender_state_ st) AudioState.IDLE
           || AudioState.eqb (audio_sender_state_ st) AudioState.RELEASING
        then audio_sender_state_ st else AudioState.READY_TO_RELEASE)
  /\ audio_receiver_state_ st' = audio_receiver_state_ st
  /\ aseGroups_ st' = aseGroups_ st
  /\ leAudioDevices_ st' = leAudioDevices_ st
  /\ calls st' = calls st.
Proof.
  cbn zeta. unfold OnAudioSinkSuspend, OnAudioSuspend.
  destruct st as [? ? active ? ? ? receiver sender ? ? ? ? ? ? ? ? ? ? ? ? ?].
  cbn. destruct sender, receiver, active; cbn; repeat split.
Qed.

End SuspendAlarm.

(** ** Members and back references *)

Lemma registry_consistent_members (st : LeAudioClientImpl) :
  registry_consistent st
  <-> forall id m, membership_at st id = Some m -> members_consistent st id m.
Proof.
  unfold registry_consistent, members_consistent, membership_at, group_of_device.
  split.
  - intros H id m Hm. destruct (aseGroups_ st !! id) as [g|] eqn:Hg; [|done].
    injection Hm as <-. destruct (H id g Hg) as [Hnodup Hback].
    split; [done|]. intros a Ha. destruct (Hback a Ha) as (d & -> & <-). done.
  - intros H id g Hg. destruct (H id (membership g)) as [Hnodup Hback].
    { by rewrite Hg. }
    split; [done|]. intros a Ha. specialize (Hback a Ha). cbn in Hback.
    destruct (leAudioDevices_ st !! a) as [d|]; [|done].
    exists d. split; [done|]. cbn in Hback. congruence.
Qed.

(** A state with the same groups' members and the same devices is as
    consistent. *)
Lemma registry_consistent_frame (st st' : LeAudioClientImpl) :
  (forall i, membership_at st' i = membership_at st i) ->
  (forall a, group_of_device st' a = group_of_device st a) ->
  registry_consistent st -> registry_consistent st'.
Proof.
  intros Hm Hd H. apply registry_consistent_members. intros id m Hid.
  rewrite Hm in Hid.
  destruct (proj1 (registry_consistent_members st) H id m Hid) as [Hnodup Hback].
  split; [done|].
  intros a Ha. rewrite Hd. by apply Hback.
Qed.

Lemma fold_left_devices {A : Type} (f : LeAudioClientImpl -> A -> LeAudioClientImpl)
    (l : list A) :
  (forall st x, leAudioDevices_ (f st x) = leAudioDevices_ st) ->
  forall st, leAudioDevices_ (fold_left f l st) = leAudioDevices_ st.
Proof.
  intros Hf. induction l as [|x l IH]; intros st; cbn; [done|].
  by rewrite IH, Hf.
Qed.

Lemma AseInitialStateReadRequest_devices (address : RawAddress)
    (st st' : LeAudioClientImpl) :
  AseInitialStateReadRequest address st = Done st' ->
  leAudioDevices_ st' = leAudioDevices_ st.
Proof.
  unfold AseInitialStateReadRequest. intros H.
  apply rbind_Done in H as (d & _ & [= <-]).
  by apply fold_left_devices.
Qed.

Section DeviceFrames.
Context {E : Environment}.

Lemma group_UpdateActiveContextsMap_devices (group contexts : Z)
    (st st' : LeAudioClientImpl) (updated : option Z) :
  group_UpdateActiveContextsMap group contexts st = Done (updated, st') ->
  leAudioDevices_ st' = leAudioDevices_ st.
Proof.
  unfold group_UpdateActiveContextsMap. intros H.
  by apply rbind_Done in H as (g & _ & [= _ <-]).
Qed.

Lemma or_else_reload_devices (a : bool) (group : Z)
    (st st' : LeAudioClientImpl) (cond : bool) :
  or_else a (group_ReloadAudioLocations group) st = Done (cond, st') ->
  leAudioDevices_ st' = leAudioDevices_ st.
Proof.
  unfold or_else, group_ReloadAudioLocations. destruct a; [by intros [= _ <-]|].
  intros H. by apply rbind_Done in H as (g & _ & [= _ <-]).
Qed.

Lemma callbacks_OnAudioConf_devices (group contexts : Z)
    (st st' : LeAudioClientImpl) :
  callbacks_OnAudioConf group contexts st = Done st' ->
  leAudioDevices_ st' = leAudioDevices_ st.
Proof.
  unfold callbacks_OnAudioConf. intros H.
  by apply rbind_Done in H as (g & _ & [= <-]).
Qed.

Lemma refresh_devices (group contexts : Z) (st st' : LeAudioClientImpl) :
  (let! (updated_contexts, st) :=
     group_UpdateActiveContextsMap group contexts st in
   let! (cond, st) :=
     or_else (bool_decide (is_Some updated_contexts))
             (group_ReloadAudioLocations group) st in
   if cond then
     let! g := group_at st group in
     callbacks_OnAudioConf group (active_contexts_mask_ g) st
   else Done st) = Done st' ->
  leAudioDevices_ st' = leAudioDevices_ st.
Proof.
  intros H.
  apply rbind_Done in H as ([updated s1] & H1 & H).
  apply rbind_Done in H as ([cond s2] & H2 & H).
  rewrite <- (group_UpdateActiveContextsMap_devices _ _ _ _ _ H1),
          <- (or_else_reload_devices _ _ _ _ _ H2).
  destruct cond; [|by injection H as <-].
  apply rbind_Done in H as (g & _ & H).
  apply (callbacks_OnAudioConf_devices _ _ _ _ H).
Qed.

Lemma UpdateContextAndLocations_devices (group : Z) (address : RawAddress)
    (st st' : LeAudioClientImpl) :
  UpdateContextAndLocations group address st = Done st' ->
  leAudioDevices_ st' = leAudioDevices_ st.
Proof.
  unfold UpdateContextAndLocations. intros H.
  apply rbind_Done in H as (d & _ & H).
  apply rbind_Done in H as ([updated s1] & H1 & H).
  apply rbind_Done in H as ([cond s2] & H2 & H).
  rewrite <- (group_UpdateActiveContextsMap_devices _ _ _ _ _ H1),
          <- (or_else_reload_devices _ _ _ _ _ H2).
  destruct cond; [|by injection H as <-].
  destruct updated as [contexts|]; [|discriminate].
  apply (callbacks_OnAudioConf_devices _ _ _ _ H).
Qed.

(** group_remove_node clears the back reference of the device and touches
    no other device. *)
Lemma group_remove_node_devices (group : Z) (address : RawAddress)
    (update_group_module : bool) (st st' : LeAudioClientImpl) :
  group_remove_node group address update_group_module st = Done st' ->
  is_Some (leAudioDevices_ st !! address)
  /\ leAudioDevices_ st'
     = alter (fun d => d <| group_id_ := None |>) address (leAudioDevices_ st).
Proof.
  unfold group_remove_node. intros H.
  apply rbind_Done in H as (g & _ & H).
  apply rbind_Done in H as (d & Hd & H). cbv zeta in H.
  split. { unfold device_at in Hd. by destruct (leAudioDevices_ st !! address). }
  match type of H with
  | context [call (OnGroupNodeStatus address group REMOVED) ?s] =>
      set (s3 := call (OnGroupNodeStatus address group REMOVED) s) in H;
      assert (Hs3 : leAudioDevices_ s3
                    = alter (fun d => d <| group_id_ := None |>) address
                        (leAudioDevices_ st))
        by (subst s3; destruct update_group_module;
            [destruct (bool_decide _)|]; reflexivity)
  end.
  clearbody s3. rewrite <- Hs3.
  apply rbind_Done in H as (g3 & Hg3%group_at_Done & H).
  destruct (IsEmpty g3).
  - rewrite (remove_group_if_possible_registered group g3 s3 Hg3) in H.
    injection H as <-. by destruct (_ && _).
  - apply (refresh_devices _ _ _ _ H).
Qed.

End DeviceFrames.

Lemma group_of_device_alter (f : LeAudioDevice -> LeAudioDevice)
    (address a : RawAddress) (st st' : LeAudioClientImpl) :
  leAudioDevices_ st' = alter f address (leAudioDevices_ st) ->
  group_of_device st' a
  = if decide (a = address)
    then group_id_ ∘ f <$> leAudioDevices_ st !! address
    else group_of_device st a.
Proof.
  intros Hd. unfold group_of_device. rewrite Hd.
  destruct (decide (a = address)) as [->|Hne].
  - rewrite lookup_alter_eq. by destruct (leAudioDevices_ st !! address).
  - by rewrite lookup_alter_ne.
Qed.

Lemma members_without_elem (address a : RawAddress) (g : LeAudioDeviceGroup) :
  a ∈ members_without address g <-> a ∈ leAudioDevices g /\ a <> address.
Proof.
  unfold members_without. rewrite !list_elem_of_In, filter_In.
  rewrite negb_true_iff, Z.eqb_neq. done.
Qed.

Section Consistency.
Context {E : Environment}.

(** A device that leaves the group it refers to is afterwards in no group,
    and the registry stays consistent. *)
Lemma group_remove_node_consistent (group : Z) (address : RawAddress)
    (update_group_module : bool) (st st' : LeAudioClientImpl) :
  group_remove_node group address update_group_module st = Done st' ->
  registry_consistent st ->
  (forall other, group_of_device st address = Some (Some other) -> other = group) ->
  registry_consistent st'
  /\ group_of_device st' address = Some None
  /\ (forall i m, membership_at st' i = Some m -> address ∉ m.1)
  /\ (forall a, a <> address -> group_of_device st' a = group_of_device st a).
Proof.
  intros H Hcons Hown.
  destruct (group_remove_node_membership _ _ _ _ _ H) as (g & Hg & Hother & Hgroup).
  destruct (group_remove_node_devices _ _ _ _ _ H) as ([d Hd] & Hdevices).
  pose proof (proj1 (registry_consistent_members st) Hcons) as Hm.
  assert (Hback : forall a, group_of_device st' a
                            = if decide (a = address) then Some None
                              else group_of_device st a).
  { intros a. rewrite (group_of_device_alter _ address a st st' Hdevices).
    destruct (decide (a = address)); [|done]. by rewrite Hd. }
  assert (Hleft : forall i m, membership_at st' i = Some m ->
            (i = group /\ m.1 = members_without address g)
            \/ (i <> group /\ membership_at st i = Some m)).
  { intros i m Hi. destruct (decide (i = group)) as [->|Hne].
    - left. split; [done|]. rewrite Hgroup in Hi.
      destruct (members_without address g), (cig_created_ g);
        try discriminate; by injection Hi as <-.
    - right. split; [done|]. by rewrite <- Hother. }
  assert (Hnone : forall i m, membership_at st' i = Some m -> address ∉ m.1).
  { intros i m Hi Hin. destruct (Hleft i m Hi) as [[-> Hrest]|[Hne Hwas]].
    - rewrite Hrest in Hin. apply members_without_elem in Hin. by destruct Hin.
    - destruct (Hm i m Hwas) as [_ Hrefs]. apply Hne, Hown. by apply Hrefs. }
  split; [|split; [|split]].
  - apply registry_consistent_members. intros i m Hi.
    pose proof (Hnone i m Hi) as Hnotin.
    destruct (Hleft i m Hi) as [[-> Hrest]|[Hne Hwas]].
    + assert (Hgm : membership_at st group = Some (membership g))
        by (unfold membership_at; by rewrite Hg).
      destruct (Hm group (membership g) Hgm) as [Hnodup Hrefs]. split.
      * rewrite Hrest. unfold members_without.
        apply NoDup_ListNoDup, List.NoDup_filter. by apply NoDup_ListNoDup.
      * intros a Ha. rewrite Hback.
        destruct (decide (a = address)) as [->|_]; [done|].
        apply Hrefs. rewrite Hrest in Ha. by apply members_without_elem in Ha as [? _].
    + destruct (Hm i m Hwas) as [Hnodup Hrefs]. split; [done|].
      intros a Ha. rewrite Hback.
      destruct (decide (a = address)) as [->|_]; [done|]. by apply Hrefs.
  - rewrite Hback. by destruct (decide (address = address)).
  - exact Hnone.
  - intros a Ha. rewrite Hback. by destruct (decide (a = address)).
Qed.

(** The second half of group_add_node: the device ends up in the new group,
    and in no other. *)
Lemma group_add_node_tail_consistent (address : RawAddress)
    (update_group_module : bool) (old_group : option Z) (new_group : Z)
    (st st' : LeAudioClientImpl) :
  group_add_node_tail address update_group_module old_group new_group st = Done st' ->
  registry_consistent st ->
  group_of_device st address = Some old_group ->
  registry_consistent st'
  /\ group_of_device st' address = Some (Some new_group)
  /\ exists m, membership_at st' new_group = Some m /\ address ∈ m.1.
Proof.
  unfold group_add_node_tail. intros H Hcons Hold.
  apply rbind_Done in H as (s1 & H1 & H).
  assert (Hs1 : registry_consistent s1
                /\ group_of_device s1 address = Some None
                /\ forall i m, membership_at s1 i = Some m -> address ∉ m.1).
  { destruct old_group as [og|].
    - destruct (group_remove_node_consistent _ _ _ _ _ H1 Hcons)
        as (? & ? & ? & _); [|done]. intros other. rewrite Hold. congruence.
    - injection H1 as <-. split; [done|]. split; [done|]. intros i m Hi Hin.
      destruct (proj1 (registry_consistent_members st) Hcons i m Hi) as [_ Hrefs].
      specialize (Hrefs address Hin). congruence. }
  destruct Hs1 as (Hcons1 & Hold1 & Hnone1).
  pose proof (proj1 (registry_consistent_members s1) Hcons1) as Hm1.
  apply rbind_Done in H as (gn & Hgn%group_at_Done & H).
  apply rbind_Done in H as (d0 & Hd0 & H). cbv zeta in H.
  set (s2 := call (OnGroupNodeStatus address new_group ADDED)
               (AddNode new_group address s1)) in H.
  assert (Hmem2 : forall i, membership_at s2 i
            = if decide (i = new_group)
              then Some (leAudioDevices gn ++ [address], cig_created_ gn)
              else membership_at s1 i).
  { intros i.
    change (membership_at s2 i)
      with (membership_at (AddNode new_group address s1) i).
    rewrite membership_at_AddNode, Hgn. done. }
  assert (Hback2 : forall a, group_of_device s2 a
            = if decide (a = address) then Some (Some new_group)
              else group_of_device s1 a).
  { intros a.
    rewrite (group_of_device_alter (fun d => d <| group_id_ := Some new_group |>)
               address a s1 s2 eq_refl).
    destruct (decide (a = address)); [|done].
    unfold device_at in Hd0. by destruct (leAudioDevices_ s1 !! address). }
  assert (Hcons2 : registry_consistent s2).
  { apply registry_consistent_members. intros i m Hi. rewrite Hmem2 in Hi.
    assert (Hgn1 : membership_at s1 new_group = Some (membership gn))
      by (unfold membership_at; by rewrite Hgn).
    destruct (decide (i = new_group)) as [->|Hne].
    - injection Hi as <-. destruct (Hm1 new_group _ Hgn1) as [Hnodup Hrefs].
      pose proof (Hnone1 new_group _ Hgn1) as Hnotin. cbn in Hnodup, Hrefs, Hnotin.
      split; cbn.
      + apply NoDup_app. split; [done|]. split; [|apply NoDup_singleton].
        intros x Hx ->%list_elem_of_singleton. done.
      + intros a Ha. rewrite Hback2.
        destruct (decide (a = address)) as [->|Hna]; [done|].
        apply Hrefs. apply elem_of_app in Ha as [Ha|Ha%list_elem_of_singleton]; done.
    - destruct (Hm1 i m Hi) as [Hnodup Hrefs]. split; [done|].
      intros a Ha. rewrite Hback2.
      destruct (decide (a = address)) as [->|Hna]; [|by apply Hrefs].
      by destruct (Hnone1 i m Hi). }
  assert (Hin2 : exists m, membership_at s2 new_group = Some m /\ address ∈ m.1).
  { eexists. rewrite Hmem2. destruct (decide (new_group = new_group)); [|done].
    split; [done|]. cbn. apply elem_of_app. right. apply list_elem_of_here. }
  assert (Hown2 : group_of_device s2 address = Some (Some new_group)).
  { rewrite Hback2. by destruct (decide (address = address)). }
  clearbody s2.
  apply rbind_Done in H as (d & _ & H).
  apply rbind_Done in H as (s3 & H3 & H).
  assert (Hg3 : aseGroups_ s3 = aseGroups_ s2
                /\ leAudioDevices_ s3 = leAudioDevices_ s2).
  { destruct (bool_decide (is_Some (conn_id_ d))).
    - split; [by apply AseInitialStateReadRequest_groups in H3
             |by apply AseInitialStateReadRequest_devices in H3].
    - by injection H3 as <-. }
  destruct Hg3 as [Hg3 Hd3].
  apply rbind_Done in H as (s4 & H4 & H).
  assert (Hs4 : (forall i, membership_at s4 i = membership_at s3 i)
                /\ leAudioDevices_ s4 = leAudioDevices_ s3).
  { destruct (FindById s3 old_group) as [[og g]|].
    - split; [apply (refresh_membership _ _ _ _ H4)|apply (refresh_devices _ _ _ _ H4)].
    - by injection H4 as <-. }
  destruct Hs4 as [Hm4 Hd4].
  pose proof (UpdateContextAndLocations_membership _ _ _ _ H) as Hm5.
  pose proof (UpdateContextAndLocations_devices _ _ _ _ H) as Hd5.
  assert (Hm : forall i, membership_at st' i = membership_at s2 i).
  { intros i. rewrite Hm5, Hm4. unfold membership_at. by rewrite Hg3. }
  assert (Hd : forall a, group_of_device st' a = group_of_device s2 a).
  { intros a. unfold group_of_device. by rewrite Hd5, Hd4, Hd3. }
  split; [by apply (registry_consistent_frame s2)|].
  split; [by rewrite Hd|]. destruct Hin2 as (m & Hm2 & Hin).
  exists m. by rewrite Hm.
Qed.

End Consistency.

Lemma registry_consistent_new_device (address : RawAddress) (d0 : LeAudioDevice)
    (st : LeAudioClientImpl) :
  leAudioDevices_ st !! address = None ->
  registry_consistent st ->
  registry_consistent
    (st <| leAudioDevices_ := <[address := d0]> (leAudioDevices_ st) |>).
Proof.
  intros Hnew H id g Hg. destruct (H id g Hg) as [Hnodup Hrefs].
  split; [done|]. intros a Ha. destruct (Hrefs a Ha) as (d & Hd & Hid).
  exists d. split; [|done].
  cbn [setter set_leAudioDevices_ leAudioDevices_].
  rewrite lookup_insert_ne; [done|]. intros ->. congruence.
Qed.

Lemma aseGroups_Add_consistent (id : Z) (st st' : LeAudioClientImpl)
    (new_group : Z) :
  aseGroups_Add id st = (Some new_group, st') ->
  registry_consistent st ->
  registry_consistent st'
  /\ forall a, group_of_device st' a = group_of_device st a.
Proof.
  unfold aseGroups_Add. destruct (aseGroups_ st !! id) eqn:Hid; [discriminate|].
  intros [= <- <-] H. split; [|done]. intros i g Hg. registry_of in Hg.
  destruct (decide (id = i)) as [->|Hne].
  - rewrite lookup_insert_eq in Hg. injection Hg as <-. cbn.
    split; [apply NoDup_nil_2|]. intros a Ha. by apply not_elem_of_nil in Ha.
  - rewrite lookup_insert_ne in Hg by done. apply (H i g Hg).
Qed.

Lemma IsDeviceInTheGroup_elem (g : LeAudioDeviceGroup) (a : RawAddress) :
  IsDeviceInTheGroup g a = true <-> a ∈ leAudioDevices g.
Proof.
  unfold IsDeviceInTheGroup. rewrite existsb_exists, list_elem_of_In. split.
  - by intros (x & Hx & ->%Z.eqb_eq).
  - intros Ha. exists a. by rewrite Z.eqb_refl.
Qed.

Lemma group_of_device_update_device (address a : RawAddress)
    (f : LeAudioDevice -> LeAudioDevice) (st : LeAudioClientImpl) :
  (forall d, group_id_ (f d) = group_id_ d) ->
  group_of_device (update_device address f st) a = group_of_device st a.
Proof.
  intros Hf.
  rewrite (group_of_device_alter f address a st (update_device address f st) eq_refl).
  destruct (decide (a = address)) as [->|]; [|done].
  unfold group_of_device. destruct (leAudioDevices_ st !! address); cbn; [|done].
  by rewrite Hf.
Qed.

Section ConsistencyOperations.
Context {E : Environment}.

Lemma group_add_node_consistent (group_id : option Z) (address : RawAddress)
    (update_group_module : bool) (st st' : LeAudioClientImpl) :
  group_add_node group_id address update_group_module st = Done st' ->
  registry_consistent st ->
  registry_consistent st'
  /\ forall gid, group_id = Some gid ->
       group_of_device st' address = Some (Some gid)
       /\ exists m, membership_at st' gid = Some m /\ address ∈ m.1.
Proof.
  unfold group_add_node. intros H Hcons. cbv zeta in H.
  assert (Htail : forall (old_group : option Z) (s1 : LeAudioClientImpl),
    registry_consistent s1 ->
    group_of_device s1 address = Some old_group ->
    match group_id with
    | None =>
        match DeviceGroups_GetGroupId address with
        | None => Done (call (DeviceGroups_AddDevice address None) s1)
        | Some id =>
            match aseGroups_Add id s1 with
            | (None, st) => Done st
            | (Some new_group, st) =>
                group_add_node_tail address update_group_module old_group
                  new_group st
            end
        end
    | Some group_id =>
        if negb (bool_decide (DeviceGroups_GetGroupId address = Some group_id))
        then Abort AssertionFailure
        else
          match aseGroups_ s1 !! group_id with
          | None =>
              match aseGroups_Add group_id s1 with
              | (None, st) => Abort NullPointerAccess
              | (Some new_group, st) =>
                  group_add_node_tail address update_group_module old_group
                    new_group st
              end
          | Some g =>
              if IsDeviceInTheGroup g address then Done s1
              else group_add_node_tail address update_group_module old_group
                     group_id s1
          end
    end = Done st' ->
    registry_consistent st'
    /\ forall gid, group_id = Some gid ->
         group_of_device st' address = Some (Some gid)
         /\ exists m, membership_at st' gid = Some m /\ address ∈ m.1).
  { intros old_group s1 Hcons1 Hold Hrun.
    destruct group_id as [gid|].
    - destruct (negb _); [discriminate|].
      destruct (aseGroups_ s1 !! gid) as [g|] eqn:Hgid.
      + destruct (IsDeviceInTheGroup g address) eqn:Hin.
        * injection Hrun as <-. split; [done|]. intros ? [= <-].
          apply IsDeviceInTheGroup_elem in Hin.
          destruct (Hcons1 gid g Hgid) as [_ Hrefs].
          destruct (Hrefs address Hin) as (d & Hd & Hid). split.
          -- unfold group_of_device. by rewrite Hd, <- Hid.
          -- exists (membership g). unfold membership_at. by rewrite Hgid.
        * destruct (group_add_node_tail_consistent _ _ _ _ _ _ Hrun Hcons1 Hold)
            as (? & ? & ?). split; [done|]. by intros ? [= <-].
      + destruct (aseGroups_Add gid s1) as [[new_group|] s2] eqn:Hadd;
          [|discriminate].
        destruct (aseGroups_Add_consistent _ _ _ _ Hadd Hcons1) as [Hcons2 Hsame].
        assert (new_group = gid) as ->.
        { unfold aseGroups_Add in Hadd. rewrite Hgid in Hadd. by injection Hadd. }
        destruct (group_add_node_tail_consistent _ _ _ _ _ _ Hrun Hcons2)
          as (? & ? & ?); [by rewrite Hsame|].
        split; [done|]. by intros ? [= <-].
    - split; [|done].
      destruct (DeviceGroups_GetGroupId address) as [id|].
      + destruct (aseGroups_Add id s1) as [[new_group|] s2] eqn:Hadd.
        * destruct (aseGroups_Add_consistent _ _ _ _ Hadd Hcons1) as [Hcons2 Hsame].
          destruct (group_add_node_tail_consistent _ _ _ _ _ _ Hrun Hcons2)
            as (? & _); [by rewrite Hsame|done].
        * injection Hrun as <-. unfold aseGroups_Add in Hadd.
          destruct (aseGroups_ s1 !! id); [|discriminate]. by injection Hadd as <-.
      + by injection Hrun as <-. }
  unfold FindByAddress in H.
  destruct (leAudioDevices_ st !! address) as [d|] eqn:Hknown.
  - apply rbind_Done in H as ([old_group s1] & Hpre & H).
    assert (s1 = st /\ old_group = group_id_ d) as [-> ->].
    { destruct (group_id_ d) as [og|].
      - by apply rbind_Done in Hpre as (g & _ & [= <- <-]).
      - by injection Hpre as <- <-. }
    apply (Htail (group_id_ d) st Hcons); [|exact H].
    unfold group_of_device. by rewrite Hknown.
  - destruct group_id as [gid|]; [|by injection H as <-].
    apply rbind_Done in H as ([old_group s1] & Hpre & H).
    injection Hpre as <- <-.
    apply (Htail None _
             (registry_consistent_new_device address (new_LeAudioDevice true) st
                Hknown Hcons)); [|exact H].
    unfold group_of_device. cbn [setter set_leAudioDevices_ leAudioDevices_].
    by rewrite lookup_insert_eq.
Qed.

Lemma GroupRemoveNode_consistent (group_id : option Z) (address : RawAddress)
    (st st' : LeAudioClientImpl) :
  GroupRemoveNode group_id address st = Done st' ->
  registry_consistent st ->
  registry_consistent st'
  /\ (forall gid, group_id = Some gid ->
        group_of_device st address = Some (Some gid) ->
        is_Some (aseGroups_ st !! gid) ->
        group_of_device st' address = Some None
        /\ forall i m, membership_at st' i = Some m -> address ∉ m.1).
Proof.
  unfold GroupRemoveNode, FindByAddress, FindById. intros H Hcons.
  destruct (leAudioDevices_ st !! address) as [d|] eqn:Hd.
  2: { injection H as <-. split; [done|]. unfold group_of_device.
       intros gid _. by rewrite Hd. }
  destruct (bool_decide (group_id_ d = group_id)) eqn:Hsame; cbn [negb] in H.
  2: { injection H as <-. split; [done|]. intros gid -> Hown.
       unfold group_of_device in Hown. rewrite Hd in Hown.
       apply bool_decide_eq_false in Hsame. cbn in Hown. congruence. }
  apply bool_decide_eq_true in Hsame.
  destruct group_id as [gid|]; [|injection H as <-; by split].
  destruct (aseGroups_ st !! gid) as [g|] eqn:Hg.
  2: { injection H as <-. split; [done|]. intros ? [= <-] _ [? ?]. congruence. }
  destruct (group_remove_node_consistent _ _ _ _ _ H Hcons)
    as (Hcons' & Hnone & Hnowhere & _).
  { intros other. unfold group_of_device. rewrite Hd. cbn. congruence. }
  split; [done|]. by intros ? [= <-] _ _.
Qed.

Lemma DisconnectDevice_groups (address : RawAddress) (force : bool)
    (st st' : LeAudioClientImpl) :
  DisconnectDevice address force st = Done st' ->
  aseGroups_ st' = aseGroups_ st
  /\ forall a, group_of_device st' a = group_of_device st a.
Proof.
  unfold DisconnectDevice. intros H.
  apply rbind_Done in H as (d & _ & H).
  destruct (conn_id_ d); [|by injection H as <-].
  destruct (if force then _ else _); injection H as <-; [done|].
  split; [done|]. intros a. by rewrite group_of_device_update_device.
Qed.

Lemma Disconnect_groups (address : RawAddress) (st st' : LeAudioClientImpl) :
  Disconnect address st = Done st' ->
  aseGroups_ st' = aseGroups_ st
  /\ forall a, group_of_device st' a = group_of_device st a.
Proof.
  unfold Disconnect, FindByAddress. intros H.
  destruct (leAudioDevices_ st !! address) as [d|]; [|by injection H as <-].
  cbv zeta in H.
  match type of H with
  | context [call (BTA_GATTC_CancelOpen address false) ?s] =>
      set (s2 := call (BTA_GATTC_CancelOpen address false) s) in H;
      assert (Hs2 : aseGroups_ s2 = aseGroups_ st
                    /\ forall a, group_of_device s2 a = group_of_device st a)
  end.
  { subst s2. destruct (connecting_actively_ d); [|done]. split; [done|].
    intros a.
    change (group_of_device (call ?c ?s) a) with (group_of_device s a).
    by rewrite group_of_device_update_device. }
  clearbody s2. destruct Hs2 as [Hg2 Hd2].
  destruct (bool_decide (is_Some (conn_id_ d))).
  - destruct (DisconnectDevice_groups _ _ _ _ H) as [Hg Hd].
    split; [congruence|]. intros a. by rewrite Hd.
  - unfold BackgroundConnectIfGroupConnected in H.
    apply rbind_Done in H as (d' & _ & H).
    destruct (FindById s2 (group_id_ d')) as [[? g]|]; [|by injection H as <-].
    destruct (negb _); by injection H as <-.
Qed.

Lemma RemoveDevice_consistent (address : RawAddress) (st st' : LeAudioClientImpl) :
  RemoveDevice address st = Done st' ->
  registry_consistent st -> registry_consistent st'.
Proof.
  unfold RemoveDevice, FindByAddress. intros H Hcons.
  destruct (leAudioDevices_ st !! address) as [d|] eqn:Hd; [|by injection H as <-].
  destruct (bool_decide (is_Some (conn_id_ d))).
  - apply rbind_Done in H as (s1 & H1 & [= <-]).
    destruct (Disconnect_groups _ _ _ H1) as [Hg1 Hd1].
    apply (registry_consistent_frame st); [| |done].
    + intros i. unfold membership_at.
      change (aseGroups_ (update_device ?a ?f s1)) with (aseGroups_ s1).
      by rewrite Hg1.
    + intros a. by rewrite group_of_device_update_device.
  - apply rbind_Done in H as (s1 & H1 & [= <-]).
    assert (Hs1 : registry_consistent s1
                  /\ forall i m, membership_at s1 i = Some m -> address ∉ m.1).
    { destruct (group_id_ d) as [id|] eqn:Hid.
      - destruct (group_remove_node_consistent _ _ _ _ _ H1 Hcons)
          as (? & _ & ? & _); [|done].
        intros other. unfold group_of_device. rewrite Hd. cbn. congruence.
      - injection H1 as <-. split; [done|]. intros i m Hi Hin.
        destruct (proj1 (registry_consistent_members st) Hcons i m Hi) as [_ Hrefs].
        specialize (Hrefs address Hin). unfold group_of_device in Hrefs.
        rewrite Hd in Hrefs. cbn in Hrefs. congruence. }
    destruct Hs1 as [Hcons1 Hnowhere]. intros i g Hg.
    change (aseGroups_ s1 !! i = Some g) in Hg.
    destruct (Hcons1 i g Hg) as [Hnodup Hrefs]. split; [done|].
    intros a Ha. destruct (Hrefs a Ha) as (da & Hda & Hida). exists da.
    split; [|done]. cbn [setter set_leAudioDevices_ leAudioDevices_].
    rewrite lookup_delete_ne; [done|]. intros <-.
    apply (Hnowhere i (membership g)); [|done].
    unfold membership_at. by rewrite Hg.
Qed.

End ConsistencyOperations.

(** A check of the consistency that can be evaluated. *)
Lemma registry_consistent_check (st : LeAudioClientImpl) :
  map_Forall
    (fun id g =>
       NoDup (leAudioDevices g)
       /\ Forall (fun a => group_of_device st a = Some (Some id)) (leAudioDevices g))
    (aseGroups_ st) ->
  registry_consistent st.
Proof.
  intros H id g Hg. destruct (H id g Hg) as [Hnodup Hrefs]. split; [done|].
  intros a Ha. rewrite Forall_forall in Hrefs. specialize (Hrefs a Ha).
  unfold group_of_device in Hrefs.
  destruct (leAudioDevices_ st !! a) as [d|]; [|done].
  exists d. split; [done|]. cbn in Hrefs. congruence.
Qed.

Lemma registry_consistent_one_group (st : LeAudioClientImpl) :
  registry_consistent st ->
  forall i j gi gj a,
    aseGroups_ st !! i = Some gi -> aseGroups_ st !! j = Some gj ->
    a ∈ leAudioDevices gi -> a ∈ leAudioDevices gj -> i = j.
Proof.
  intros H i j gi gj a Hi Hj Hai Haj.
  destruct (H i gi Hi) as [_ Hri]. destruct (H j gj Hj) as [_ Hrj].
  destruct (Hri a Hai) as (d & Hd & Hdi). destruct (Hrj a Haj) as (d' & Hd' & Hdj).
  congruence.
Qed.

Section ConsistencyTheorems.
Context {E : Environment}.

(** X5.  Members and back references stay in agreement.  If every member
    list is free of duplicates and every member is a registered device whose
    group_id_ names the group, the same holds after group_add_node,
    GroupRemoveNode, RemoveDevice, OnGroupAddedCb, OnGroupMemberAddedCb and
    AddFromStorage have run to their end; in particular no device is then a
    member of two groups. *)
Theorem X5_members_and_back_references (op : membership_operation)
    (st st' : LeAudioClientImpl) :
  registry_consistent st ->
  run_membership op st = Done st' ->
  registry_consistent st'
  /\ forall i j gi gj a,
       aseGroups_ st' !! i = Some gi -> aseGroups_ st' !! j = Some gj ->
       a ∈ leAudioDevices gi -> a ∈ leAudioDevices gj -> i = j.
Proof.
  intros Hcons H.
  assert (registry_consistent st') as Hcons';
    [|split; [done|by apply registry_consistent_one_group]].
  destruct op as [group_id address upd|group_id address|address
                 |cap address uuid group_id|address group_id|address autoconnect];
    cbn [run_membership] in H.
  - by destruct (group_add_node_consistent _ _ _ _ _ H Hcons).
  - by destruct (GroupRemoveNode_consistent _ _ _ _ H Hcons).
  - by apply (RemoveDevice_consistent _ _ _ H).
  - unfold OnGroupAddedCb in H. destruct (negb _); [by injection H as <-|].
    destruct (FindByAddress st address) as [d|]; [|by injection H as <-].
    destruct (bool_decide _); [by injection H as <-|].
    by destruct (group_add_node_consistent _ _ _ _ _ H Hcons).
  - unfold OnGroupMemberAddedCb in H.
    destruct (FindById st group_id); [|by injection H as <-].
    destruct (FindByAddress st address) as [d|]; [|by injection H as <-].
    destruct (bool_decide _); [by injection H as <-|].
    by destruct (group_add_node_consistent _ _ _ _ _ H Hcons).
  - unfold AddFromStorage, FindByAddress in H. cbv zeta in H.
    apply rbind_Done in H as (s2 & H2 & H).
    assert (registry_consistent s2) as Hcons2.
    { destruct (leAudioDevices_ st !! address) as [d|] eqn:Hd.
      - destruct (bool_decide _); [|by injection H2 as <-].
        by destruct (group_add_node_consistent _ _ _ _ _ H2 Hcons).
      - pose proof (registry_consistent_new_device address
                      (new_LeAudioDevice false) st Hd Hcons) as Hcons1.
        destruct (bool_decide _); [|by injection H2 as <-].
        by destruct (group_add_node_consistent _ _ _ _ _ H2 Hcons1). }
    destruct autoconnect; by injection H as <-.
Qed.

(** X6.  A group_add_node for a given group that runs to its end leaves the
    device a member of that group: the group is registered and lists the
    device, the device refers to the group, and no other group lists it. *)
Theorem X6_group_add_node_joins (gid : Z) (address : RawAddress)
    (update_group_module : bool) (st st' : LeAudioClientImpl) :
  registry_consistent st ->
  group_add_node (Some gid) address update_group_module st = Done st' ->
  exists g' d',
    aseGroups_ st' !! gid = Some g'
    /\ address ∈ leAudioDevices g'
    /\ leAudioDevices_ st' !! address = Some d'
    /\ group_id_ d' = Some gid
    /\ forall i gi, aseGroups_ st' !! i = Some gi ->
         address ∈ leAudioDevices gi -> i = gid.
Proof.
  intros Hcons H.
  destruct (group_add_node_consistent _ _ _ _ _ H Hcons) as [Hcons' Hjoin].
  destruct (Hjoin gid eq_refl) as (Hown & m & Hm & Hin).
  unfold membership_at in Hm.
  destruct (aseGroups_ st' !! gid) as [g'|] eqn:Hg'; [|done].
  injection Hm as <-. unfold group_of_device in Hown.
  destruct (leAudioDevices_ st' !! address) as [d'|] eqn:Hd'; [|done].
  exists g', d'. repeat split; [done|cbn in Hown; congruence|].
  intros i gi Hi Hai.
  by apply (registry_consistent_one_group st' Hcons' i gid gi g' address).
Qed.

(** group_remove_node runs to its end for a registered group and a
    registered device. *)
Lemma group_remove_node_total (group : Z) (address : RawAddress)
    (update_group_module : bool) (st : LeAudioClientImpl) :
  is_Some (aseGroups_ st !! group) ->
  is_Some (leAudioDevices_ st !! address) ->
  exists st', group_remove_node group address update_group_module st = Done st'.
Proof.
  intros [g Hg] [d Hd]. unfold group_remove_node, group_at at 1, device_at.
  rewrite Hg, Hd. cbn [rbind]. cbv zeta.
  match goal with
  | |- context [group_at ?s group] =>
      set (s3 := s);
      assert (Hs3 : is_Some (aseGroups_ s3 !! group))
  end.
  { assert (aseGroups_ s3 = aseGroups_ (RemoveNode group address st)) as ->
      by (subst s3; destruct update_group_module;
          [destruct (bool_decide _)|]; reflexivity).
    unfold RemoveNode.
    change (aseGroups_ (update_group group ?f (update_device ?a ?h st)))
      with (alter f group (aseGroups_ st)).
    rewrite lookup_alter_eq, Hg. by eexists. }
  clearbody s3. destruct Hs3 as [g3 Hg3]. unfold group_at at 1.
  rewrite Hg3. cbn [rbind].
  destruct (IsEmpty g3).
  { rewrite (remove_group_if_possible_registered group g3 s3 Hg3). by eexists. }
  unfold group_UpdateActiveContextsMap, group_at at 1. rewrite Hg3. cbn [rbind].
  set (s4 := update_group group _ s3).
  assert (Hg4 : is_Some (aseGroups_ s4 !! group)).
  { subst s4. unfold update_group. registry_of.
    rewrite lookup_alter_eq, Hg3. by eexists. }
  clearbody s4. destruct Hg4 as [g4 Hg4].
  unfold or_else. destruct (bool_decide _).
  - cbn [rbind]. unfold group_at, callbacks_OnAudioConf, group_at.
    rewrite Hg4. cbn [rbind]. by eexists.
  - unfold group_ReloadAudioLocations, group_at at 1. rewrite Hg4. cbn [rbind].
    destruct (ReloadAudioLocations g4 (leAudioDevices_ s4)).1; [|by eexists].
    set (s5 := update_group group _ s4).
    assert (Hg5 : is_Some (aseGroups_ s5 !! group)).
    { subst s5. unfold update_group. registry_of.
      rewrite lookup_alter_eq, Hg4. by eexists. }
    destruct Hg5 as [g5 Hg5]. unfold group_at, callbacks_OnAudioConf, group_at.
    rewrite Hg5. cbn [rbind]. by eexists.
Qed.

(** X7.  GroupRemoveNode always runs to its end.  For a device that refers
    to the given registered group, the device afterwards refers to no group
    and no group lists it; for any other device, and for an unknown one, the
    client is left as it is. *)
Theorem X7_group_remove_node_leaves (gid : Z) (address : RawAddress)
    (st : LeAudioClientImpl) :
  registry_consistent st ->
  exists st',
    GroupRemoveNode (Some gid) address st = Done st'
    /\ (group_of_device st address = Some (Some gid) ->
        is_Some (aseGroups_ st !! gid) ->
        group_of_device st' address = Some None
        /\ forall i gi, aseGroups_ st' !! i = Some gi -> address ∉ leAudioDevices gi)
    /\ (group_of_device st address <> Some (Some gid) -> st' = st).
Proof.
  intros Hcons.
  assert (Hrun : exists st', GroupRemoveNode (Some gid) address st = Done st').
  { unfold GroupRemoveNode, FindByAddress, FindById.
    destruct (leAudioDevices_ st !! address) as [d|] eqn:Hd; [|by eexists].
    destruct (negb _); [by eexists|].
    destruct (aseGroups_ st !! gid) as [g|] eqn:Hg; [|by eexists].
    apply group_remove_node_total; by eexists. }
  destruct Hrun as [st' Hrun]. exists st'. split; [done|]. split.
  - intros Hown Hreg.
    destruct (GroupRemoveNode_consistent _ _ _ _ Hrun Hcons) as [_ Hleft].
    destruct (Hleft gid eq_refl Hown Hreg) as [Hnone Hnowhere].
    split; [done|]. intros i gi Hi. apply (Hnowhere i (membership gi)).
    unfold membership_at. by rewrite Hi.
  - intros Hother. unfold GroupRemoveNode, FindByAddress in Hrun.
    unfold group_of_device in Hother.
    destruct (leAudioDevices_ st !! address) as [d|]; [|by injection Hrun as <-].
    destruct (bool_decide (group_id_ d = Some gid)) eqn:Hsame; cbn [negb] in Hrun.
    + apply bool_decide_eq_true in Hsame. cbn in Hother. congruence.
    + by injection Hrun as <-.
Qed.

End ConsistencyTheorems.

Lemma X5_members_and_back_references_witness :
  let E := Reference.environment in
  is_Done (run_membership (do_add_node (Some 2) 0x20 false) Sample.disconnected_bud)
  = true
  /\ forall st',
       run_membership (do_add_node (Some 2) 0x20 false) Sample.disconnected_bud
       = Done st' ->
       registry_consistent st'.
Proof.
  cbn zeta. split; [vm_compute; reflexivity|]. intros st' Hrun.
  apply (X5_members_and_back_references (E := Reference.environment)
           (do_add_node (Some 2) 0x20 false) Sample.disconnected_bud st');
    [|exact Hrun].
  apply registry_consistent_check, (bool_decide_unpack _). vm_compute. reflexivity.
Defined.

Lemma X6_group_add_node_joins_witness :
  let E := Reference.environment in
  is_Done (group_add_node (Some 2) 0x20 false Sample.disconnected_bud) = true
  /\ forall st',
       group_add_node (Some 2) 0x20 false Sample.disconnected_bud = Done st' ->
       exists g' d',
         aseGroups_ st' !! 2 = Some g' /\ 0x20 ∈ leAudioDevices g'
         /\ leAudioDevices_ st' !! 0x20 = Some d' /\ group_id_ d' = Some 2.
Proof.
  cbn zeta. split; [vm_compute; reflexivity|]. intros st' Hrun.
  destruct (X6_group_add_node_joins (E := Reference.environment) 2 0x20 false
              Sample.disconnected_bud st')
    as (g' & d' & ? & ? & ? & ? & _); [|exact Hrun|by exists g', d'].
  apply registry_consistent_check, (bool_decide_unpack _). vm_compute. reflexivity.
Defined.

Lemma X7_group_remove_node_leaves_witness :
  let E := Reference.environment in
  exists st',
    GroupRemoveNode (Some 1) 0x10 Sample.streaming_pair = Done st'
    /\ group_of_device st' 0x10 = Some None
    /\ forall i gi, aseGroups_ st' !! i = Some gi -> 0x10 ∉ leAudioDevices gi.
Proof.
  cbn zeta.
  destruct (X7_group_remove_node_leaves (E := Reference.environment) 1 0x10
              Sample.streaming_pair) as (st' & Hrun & Hleft & _).
  - apply registry_consistent_check, (bool_decide_unpack _). vm_compute. reflexivity.
  - exists st'. split; [exact Hrun|]. apply Hleft; [reflexivity|by eexists].
Defined.

(** ** The downlink *)

Lemma half_mean_frames_length (n : nat) (data : list Z) :
  (4 * n <= length data)%nat -> length (half_mean_frames n data) = n.
Proof.
  revert data. induction n as [|n IH]; intros data Hlen; [done|].
  destruct data as [|b0 [|b1 [|b2 [|b3 rest]]]]; cbn in Hlen; try lia.
  cbn. rewrite IH; [done|lia].
Qed.

(** The loop with pitch 1 over enough octets stores the half means of the
    frames, in order. *)
Lemma get_mono_stream_loop_frames (n : nat) :
  forall (data : list Z) (i : Z) (chan_mono : list Z),
    0 <= i ->
    4 * (i + Z.of_nat n) <= Z.of_nat (length data) ->
    get_mono_stream_loop n data 1 (i + Z.of_nat n) i chan_mono
    = Done (chan_mono ++ half_mean_frames n (drop (Z.to_nat (i * 4)) data)).
Proof.
  induction n as [|n IH]; intros data i chan_mono Hi Hlen.
  - replace (i + Z.of_nat 0) with i by lia.
    cbn [get_mono_stream_loop half_mean_frames]. rewrite Z.ltb_irrefl.
    by rewrite app_nil_r.
  - cbn [get_mono_stream_loop].
    replace (i <? i + Z.of_nat (S n)) with true by (symmetry; apply Z.ltb_lt; lia).
    unfold frame_at. replace (i <? 0) with false by (symmetry; apply Z.ltb_ge; lia).
    destruct (drop (Z.to_nat (i * 4)) data) as [|b0 [|b1 [|b2 [|b3 rest]]]] eqn:Hd.
    1-4: exfalso; apply (f_equal length) in Hd; rewrite length_drop in Hd;
         cbn in Hd; lia.
    cbn [rbind half_mean_frames].
    replace (i + Z.of_nat (S n)) with (i + 1 + Z.of_nat n) by lia.
    rewrite IH by lia. rewrite <- app_assoc. cbn [app]. rewrite mono_sample_value.
    do 3 f_equal.
    replace (Z.to_nat ((i + 1) * 4)) with (Z.to_nat (i * 4) + 4)%nat by lia.
    rewrite <- drop_drop, Hd. done.
Qed.

(** With too few octets the loop reads behind the data. *)
Lemma get_mono_stream_loop_short (fuel : nat) :
  forall (data : list Z) (bound i : Z) (chan_mono : list Z),
    0 <= i -> i < bound ->
    Z.of_nat fuel = bound - i ->
    Z.of_nat (length data) < 4 * bound ->
    get_mono_stream_loop fuel data 1 bound i chan_mono = Abort OutOfRange.
Proof.
  induction fuel as [|fuel IH]; intros data bound i chan_mono Hi Hbound Hfuel Hlen.
  - lia.
  - cbn [get_mono_stream_loop].
    replace (i <? bound) with true by (symmetry; apply Z.ltb_lt; lia).
    unfold frame_at. replace (i <? 0) with false by (symmetry; apply Z.ltb_ge; lia).
    destruct (drop (Z.to_nat (i * 4)) data) as [|b0 [|b1 [|b2 [|b3 rest]]]] eqn:Hd;
      [done..|].
    cbn [rbind]. apply IH; [lia| |lia|done].
    apply (f_equal length) in Hd. rewrite length_drop in Hd. cbn in Hd. lia.
Qed.

(** get_mono_stream with the default pitch: the result for data that holds
    four octets per frame, and for data that does not. *)
Lemma get_mono_stream_frames (frame_samples : Z) (data chan_mono : list Z) :
  let num_of_frames_per_ch := to_uint16 frame_samples in
  (4 * num_of_frames_per_ch <= Z.of_nat (length data) ->
   get_mono_stream frame_samples data chan_mono 1
   = Done (chan_mono ++ half_mean_frames (Z.to_nat num_of_frames_per_ch) data)
   /\ Z.of_nat (length (half_mean_frames (Z.to_nat num_of_frames_per_ch) data))
      = num_of_frames_per_ch)
  /\ (Z.of_nat (length data) < 4 * num_of_frames_per_ch ->
      get_mono_stream frame_samples data chan_mono 1 = Abort OutOfRange).
Proof.
  cbn zeta. unfold get_mono_stream.
  assert (Hn : 0 <= to_uint16 frame_samples)
    by (unfold to_uint16; apply Z.mod_pos_bound; lia).
  replace (1 * to_uint16 frame_samples) with (to_uint16 frame_samples) by lia.
  split; intros Hlen.
  - split; [|rewrite half_mean_frames_length; lia].
    pose proof (get_mono_stream_loop_frames (Z.to_nat (to_uint16 frame_samples))
                  data 0 chan_mono) as H.
    rewrite Z2Nat.id in H by done. cbn [Z.add Z.mul Z.to_nat drop] in H.
    apply H; lia.
  - apply get_mono_stream_loop_short; lia.
Qed.

(** X8.  get_mono_stream with the default pitch reads four octets per frame
    for [num_of_frames_per_ch] frames.  If the data holds that many octets,
    it appends one sample per frame, and the sample of a frame with the
    left sample L and the right sample R is floor((floor(L/2) +
    floor(R/2)) / 2).  If the data holds fewer octets, it reads behind the
    end of the data. *)
Theorem X8_get_mono_stream (frame_samples : Z) (data chan_mono : list Z) :
  let num_of_frames_per_ch := to_uint16 frame_samples in
  (4 * num_of_frames_per_ch <= Z.of_nat (length data) ->
   get_mono_stream frame_samples data chan_mono 1
   = Done (chan_mono ++ half_mean_frames (Z.to_nat num_of_frames_per_ch) data)
   /\ Z.of_nat (length (half_mean_frames (Z.to_nat num_of_frames_per_ch) data))
      = num_of_frames_per_ch)
  /\ (Z.of_nat (length data) < 4 * num_of_frames_per_ch ->
      get_mono_stream frame_samples data chan_mono 1 = Abort OutOfRange).
Proof. apply get_mono_stream_frames. Qed.

Lemma X8_get_mono_stream_witness :
  get_mono_stream 2 [232; 3; 232; 3; 0; 128; 0; 128] [7] 1
  = Done [7; 500; -16384]
  /\ get_mono_stream 2 [232; 3; 232; 3; 0; 128; 0] [7] 1 = Abort OutOfRange.
Proof.
  destruct (X8_get_mono_stream 2 [232; 3; 232; 3; 0; 128; 0; 128] [7]) as [Hfull _].
  destruct (X8_get_mono_stream 2 [232; 3; 232; 3; 0; 128; 0] [7]) as [_ Hshort].
  split.
  - destruct Hfull as [Hrun _]; [vm_compute; discriminate|exact Hrun].
  - apply Hshort. reflexivity.
Defined.

Lemma to_uint16_nonneg (x : Z) : 0 <= to_uint16 x.
Proof. unfold to_uint16. apply Z.mod_pos_bound. lia. Qed.

Section DownlinkProperties.
Context {E : Environment}.
Variable lc3_encode : bool -> pcm_input -> Z -> Z -> list Z.

Lemma encoded_length (is_left : bool) (pcm : pcm_input) (stride nbytes : Z) :
  length (encoded lc3_encode is_left pcm stride nbytes) = Z.to_nat nbytes.
Proof. unfold encoded. apply length_resize. Qed.

(** What PrepareAndSendToTwoDevices sends. *)
Lemma PrepareAndSendToTwoDevices_sends (data : list Z) (sc : stream_configuration)
    (st : LeAudioClientImpl) :
  let number_of_required_samples_per_channel :=
    to_uint16 (lc3_frame_samples (data_interval_us (current_source_codec_config st))
                 (sample_rate (audio_framework_source_config st))) in
  let left_cis_handle := cis_handle_of kLeAudioLocationAnyLeft (sink_streams sc) in
  let right_cis_handle := cis_handle_of kLeAudioLocationAnyRight (sink_streams sc) in
  exists sdus,
    PrepareAndSendToTwoDevices lc3_encode data sc st = Done sdus
    /\ (Z.of_nat (length data) < 4 * number_of_required_samples_per_channel ->
        sdus = [])
    /\ (4 * number_of_required_samples_per_channel <= Z.of_nat (length data) ->
        sdus.*1 = List.filter (fun h => negb (h =? 0))
                    [left_cis_handle; right_cis_handle])
    /\ Forall (fun sdu =>
                 length sdu.2 = Z.to_nat (to_uint16 (sink_octets_per_codec_frame sc)))
              sdus.
Proof.
  cbn zeta. unfold PrepareAndSendToTwoDevices.
  set (n := to_uint16 _). set (hl := cis_handle_of kLeAudioLocationAnyLeft _).
  set (hr := cis_handle_of kLeAudioLocationAnyRight _).
  set (bc := to_uint16 (sink_octets_per_codec_frame sc)).
  destruct (Z.ltb_spec (Z.of_nat (length data)) (2 * 2 * n)) as [Hshort|Hlong].
  { exists []. split; [done|]. split; [done|]. split; [lia|constructor]. }
  assert (Hsamples : forall frame_samples, to_uint16 frame_samples = n ->
            exists chan_mono,
              get_mono_stream frame_samples data [] 1 = Done chan_mono).
  { intros fs Hfs. destruct (get_mono_stream_frames fs data []) as [Hfull _].
    rewrite Hfs in Hfull. destruct Hfull as [-> _]; [lia|by eexists]. }
  destruct (Hsamples _ eq_refl) as [chan_mono ->]. cbn [rbind].
  destruct (hl =? 0) eqn:Hl, (hr =? 0) eqn:Hr; cbn [negb orb andb rbind];
    unfold send_if; rewrite ?Hl, ?Hr; cbn [app];
    eexists; (split; [reflexivity|]); (split; [lia|]);
    (split; [intros _; cbn; by rewrite ?Hl, ?Hr|]);
    repeat constructor; cbn; by rewrite ?encoded_length.
Qed.

(** X9.  PrepareAndSendToTwoDevices never reads behind the data and always
    runs to its end.  With fewer than four octets per required frame it
    sends nothing.  Otherwise it sends one SDU to the left CIS handle if
    that is not 0, and then one to the right CIS handle if that is not 0,
    and each SDU has sink_octets_per_codec_frame octets. *)
Theorem X9_send_to_two_devices (data : list Z) (sc : stream_configuration)
    (st : LeAudioClientImpl) :
  let number_of_required_samples_per_channel :=
    to_uint16 (lc3_frame_samples (data_interval_us (current_source_codec_config st))
                 (sample_rate (audio_framework_source_config st))) in
  let left_cis_handle := cis_handle_of kLeAudioLocationAnyLeft (sink_streams sc) in
  let right_cis_handle := cis_handle_of kLeAudioLocationAnyRight (sink_streams sc) in
  exists sdus,
    PrepareAndSendToTwoDevices lc3_encode data sc st = Done sdus
    /\ (Z.of_nat (length data) < 4 * number_of_required_samples_per_channel ->
        sdus = [])
    /\ (4 * number_of_required_samples_per_channel <= Z.of_nat (length data) ->
        sdus.*1 = List.filter (fun h => negb (h =? 0))
                    [left_cis_handle; right_cis_handle])
    /\ Forall (fun sdu =>
                 length sdu.2 = Z.to_nat (to_uint16 (sink_octets_per_codec_frame sc)))
              sdus.
Proof. apply PrepareAndSendToTwoDevices_sends. Qed.

(** X10.  PrepareAndSendToSingleDevice for a stream with one channel.  The
    size check lets the data pass when it holds two octets per required
    frame, and get_mono_stream reads four.  So: with fewer than two octets
    per frame nothing is sent; with at least four octets per frame one SDU
    of sink_octets_per_codec_frame octets is sent to the first CIS handle;
    in between the function reads behind the end of the data. *)
Theorem X10_send_to_single_device_mono (data : list Z) (sc : stream_configuration)
    (st : LeAudioClientImpl) (cis_handle location : Z) (others : list (Z * Z)) :
  sink_streams sc = (cis_handle, location) :: others ->
  sink_num_of_channels sc = 1 ->
  let number_of_required_samples_per_channel :=
    to_uint16 (lc3_frame_samples (data_interval_us (current_source_codec_config st))
                 (sample_rate (audio_framework_source_config st))) in
  let size := Z.of_nat (length data) in
  (size < 2 * number_of_required_samples_per_channel ->
   PrepareAndSendToSingleDevice lc3_encode data sc st = Done [])
  /\ (2 * number_of_required_samples_per_channel <= size
      < 4 * number_of_required_samples_per_channel ->
      PrepareAndSendToSingleDevice lc3_encode data sc st = Abort OutOfRange)
  /\ (4 * number_of_required_samples_per_channel <= size ->
      exists sdu,
        PrepareAndSendToSingleDevice lc3_encode data sc st = Done [(cis_handle, sdu)]
        /\ length sdu = Z.to_nat (to_uint16 (sink_octets_per_codec_frame sc))).
Proof.
  intros Hstreams Hchannels. cbn zeta. unfold PrepareAndSendToSingleDevice.
  rewrite Hstreams, Hchannels. set (n := to_uint16 _).
  set (bc := to_uint16 (sink_octets_per_codec_frame sc)).
  assert (Hbc : 0 <= bc) by apply to_uint16_nonneg.
  assert (Hn : 0 <= n) by apply to_uint16_nonneg.
  replace (1 * bc <? 0) with false by (symmetry; apply Z.ltb_ge; lia).
  cbn [Z.eqb Pos.eqb].
  destruct (get_mono_stream_frames
              (lc3_frame_samples (data_interval_us (current_source_codec_config st))
                 (sample_rate (audio_framework_source_config st))) data [])
    as [Hfull Hshort]. fold n in Hfull, Hshort.
  split; [|split].
  - intros Hsize.
    by replace (Z.of_nat (length data) <? 2 * 1 * n) with true
      by (symmetry; apply Z.ltb_lt; lia).
  - intros Hsize.
    replace (Z.of_nat (length data) <? 2 * 1 * n) with false
      by (symmetry; apply Z.ltb_ge; lia).
    rewrite Hshort by lia. done.
  - intros Hsize.
    replace (Z.of_nat (length data) <? 2 * 1 * n) with false
      by (symmetry; apply Z.ltb_ge; lia).
    destruct Hfull as [-> _]; [lia|]. cbn [rbind].
    eexists. split; [reflexivity|]. apply encoded_length.
Qed.

(** X11.  OnAudioDataReady sends to the controller only while the sender is
    STARTED and the active group is registered with a number of sink
    devices that is at most 2 and not 0, and with at least one sink stream.  With two sink devices it always runs to
    its end, whatever the data. *)
Theorem X11_audio_data_ready (data : list Z) (st : LeAudioClientImpl) :
  (forall sdus,
     OnAudioDataReady lc3_encode data st = Done sdus -> sdus <> [] ->
     audio_sender_state_ st = AudioState.STARTED
     /\ exists id g,
          active_group_id_ st = Some id /\ aseGroups_ st !! id = Some g
          /\ sink_num_of_devices (stream_conf g) <= 2
          /\ sink_num_of_devices (stream_conf g) <> 0
          /\ sink_streams (stream_conf g) <> [])
  /\ (forall id g,
        active_group_id_ st = Some id -> aseGroups_ st !! id = Some g ->
        sink_num_of_devices (stream_conf g) = 2 ->
        exists sdus, OnAudioDataReady lc3_encode data st = Done sdus).
Proof.
  unfold OnAudioDataReady, FindById. split.
  - intros sdus H Hsent.
    destruct (active_group_id_ st) as [id|]; [|by injection H as <-].
    cbn [bool_decide negb orb] in H.
    rewrite bool_decide_eq_true_2 in H by (by eexists). cbn [negb orb] in H.
    destruct (audio_sender_state_ st) eqn:Hs; cbn in H;
      try (by injection H as <-).
    destruct (aseGroups_ st !! id) as [g|] eqn:Hg; [|by injection H as <-].
    destruct (Z.ltb_spec 2 (sink_num_of_devices (stream_conf g)));
      [by injection H as <-|].
    destruct (Z.eqb_spec (sink_num_of_devices (stream_conf g)) 0);
      [by injection H as <-|].
    cbn [orb] in H. case_bool_decide as Hstreams; [by injection H as <-|].
    split; [done|]. by exists id, g.
  - intros id g Hactive Hg Hdevices. rewrite Hactive, Hg.
    rewrite bool_decide_eq_true_2 by (by eexists). cbn [negb orb].
    destruct (negb (AudioState.eqb _ _)); [by eexists|].
    rewrite Hdevices. cbn [Z.ltb Z.eqb Z.compare Pos.compare Pos.compare_cont Pos.eqb orb].
    case_bool_decide; [by eexists|].
    destruct (PrepareAndSendToTwoDevices_sends data (stream_conf g) st) as (sdus & -> & _).
    by eexists.
Qed.

End DownlinkProperties.

Lemma X10_send_to_single_device_mono_witness :
  let E := Reference.environment in
  let silent : bool -> pcm_input -> Z -> Z -> list Z := fun _ _ _ _ => [] in
  let sc := stream_conf (Sample.group_of [0x10] true Sample.STREAMING
                           Sample.STREAMING 6 (Some Sample.one_device_conf)
                           [(0x80, 1)]) in
  PrepareAndSendToSingleDevice silent (replicate 1000 0) sc Sample.streaming_pair
  = Abort OutOfRange
  /\ PrepareAndSendToSingleDevice silent (replicate 1920 0) sc Sample.streaming_pair
     = Done [(0x80, replicate 100 0)].
Proof.
  cbn zeta. split.
  - refine (proj1 (proj2 (X10_send_to_single_device_mono
                            (E := Reference.environment) (fun _ _ _ _ => [])
                            (replicate 1000 0) _ Sample.streaming_pair
                            0x80 1 [] _ _)) _).
    + reflexivity.
    + reflexivity.
    + vm_compute. split; [discriminate|reflexivity].
  - destruct (proj2 (proj2 (X10_send_to_single_device_mono
                              (E := Reference.environment) (fun _ _ _ _ => [])
                              (replicate 1920 0)
                              (stream_conf (Sample.group_of [0x10] true
                                 Sample.STREAMING Sample.STREAMING 6
                                 (Some Sample.one_device_conf) [(0x80, 1)]))
                              Sample.streaming_pair 0x80 1 []
                              eq_refl eq_refl))) as (sdu & Hrun & _).
    + vm_compute. discriminate.
    + rewrite Hrun. vm_compute in Hrun. by injection Hrun as <-.
Defined.

(** ** The uplink: from the controller to the audio framework *)

Lemma stereo_frames_swap (a b : list Z) :
  to_uint16 <$> concat (zip_with (fun l r => [r; l]) a b)
  = concat (zip_with (fun l r => [to_uint16 l; to_uint16 r]) b a).
Proof.
  revert b. induction a as [|x a IH]; intros [|y b]; cbn; try done.
  by rewrite IH.
Qed.

Lemma mono_frames_swap (a b : list Z) :
  to_uint16 <$> concat (zip_with (fun l r => [to_int16 (Z.quot (l + r) 2)]) a b)
  = zip_with (fun l r => to_uint16 (to_int16 (Z.quot (l + r) 2))) b a.
Proof.
  revert b. induction a as [|x a IH]; intros [|y b]; cbn; try done.
  rewrite IH. by rewrite (Z.add_comm x y).
Qed.

Lemma truncated_mean_int16 (l r : Z) :
  is_int16 l -> is_int16 r ->
  to_int16 (Z.quot (l + r) 2) = Z.quot (l + r) 2
  /\ Z.min l r <= Z.quot (l + r) 2 <= Z.max l r.
Proof.
  unfold is_int16. intros Hl Hr.
  assert (Hq : Z.min l r <= Z.quot (l + r) 2 <= Z.max l r).
  { pose proof (Z.quot_rem' (l + r) 2) as Hqr.
    destruct (Z_le_gt_dec 0 (l + r)).
    - pose proof (Z.rem_bound_pos (l + r) 2 ltac:(lia) ltac:(lia)). lia.
    - pose proof (Z.rem_bound_pos_neg (l + r) 2 ltac:(lia) ltac:(lia)). lia. }
  split; [|done]. apply to_int16_id. unfold is_int16. lia.
Qed.

Lemma written_words_all (buffer : list Z) :
  Z.of_nat (length buffer) < 32768 -> written_words buffer = buffer.
Proof.
  intros Hlen. unfold written_words, to_uint16. cbv zeta.
  rewrite Z.mod_small by lia.
  replace (2 * Z.of_nat (length buffer) / 2) with (Z.of_nat (length buffer))
    by (rewrite Z.mul_comm, Z.div_mul; lia).
  rewrite Nat2Z.id. apply firstn_all.
Qed.

Section UplinkFrames.
Context {E : Environment}.

(** X12.  SendAudioDataToAF with both channels decoded.  If the right
    vector is at least as long as the left one, one buffer goes to the audio
    sink: for a stereo framework it interleaves the two vectors, the sample
    of [right] first; for a mono framework it holds one sample per pair, the
    mean of the two rounded towards zero, which for 16-bit samples lies
    between them and does not wrap.  The byte count of the buffer is held in
    a [uint16_t]: the sink gets the whole buffer when it has fewer than
    32768 words, and otherwise only as many octets as the count is worth
    modulo 65536.  If the right vector is shorter, the function reads behind
    its end. *)
Theorem X12_stereo_to_framework (af_is_stereo : bool)
    (chan_left chan_right : list Z) (st : LeAudioClientImpl) :
  let buffer :=
    if af_is_stereo
    then concat (zip_with (fun l r => [to_uint16 r; to_uint16 l])
                   chan_left chan_right)
    else zip_with (fun l r => to_uint16 (to_int16 (Z.quot (l + r) 2)))
           chan_left chan_right in
  ((length chan_left <= length chan_right)%nat ->
   SendAudioDataToAF true af_is_stereo (Some chan_left) (Some chan_right) st
   = Done (call (AudioSink_SendData
                   (take (Z.to_nat (to_uint16 (2 * Z.of_nat (length buffer)) / 2))
                      buffer)) st)
   /\ length buffer
      = (if af_is_stereo then 2 * length chan_left else length chan_left)%nat
   /\ (Z.of_nat (length buffer) < 32768 ->
       SendAudioDataToAF true af_is_stereo (Some chan_left) (Some chan_right) st
       = Done (call (AudioSink_SendData buffer) st)))
  /\ (forall l r, is_int16 l -> is_int16 r ->
        to_int16 (Z.quot (l + r) 2) = Z.quot (l + r) 2
        /\ Z.min l r <= Z.quot (l + r) 2 <= Z.max l r)
  /\ ((length chan_right < length chan_left)%nat ->
      SendAudioDataToAF true af_is_stereo (Some chan_left) (Some chan_right) st
      = Abort OutOfRange).
Proof.
  intros buffer.
  assert (Hsend : (length chan_left <= length chan_right)%nat ->
            SendAudioDataToAF true af_is_stereo (Some chan_left) (Some chan_right) st
            = Done (call (AudioSink_SendData (written_words buffer)) st)).
  { intros Hlen. unfold SendAudioDataToAF. subst buffer.
    destruct af_is_stereo; rewrite zip_channels_zip_with by done; cbn [rbind];
      do 4 f_equal; clear Hlen; revert chan_right;
      induction chan_left as [|l chan_left IH]; intros [|r chan_right]; cbn;
      try done; by rewrite IH. }
  split; [|split; [apply truncated_mean_int16|]].
  - intros Hlen. split; [by apply Hsend|].
    assert (Hbuffer : length buffer
                      = (if af_is_stereo then 2 * length chan_left
                         else length chan_left)%nat).
    { subst buffer. clear Hsend. revert chan_right Hlen.
      induction chan_left as [|l chan_left IH]; intros [|r chan_right] Hlen;
        cbn in *; try lia; destruct af_is_stereo; try done.
      - specialize (IH chan_right ltac:(lia)). cbn in *. lia.
      - specialize (IH chan_right ltac:(lia)). cbn in *. lia. }
    split; [done|]. intros Hsmall. rewrite Hsend by done.
    by rewrite written_words_all by lia.
  - intros Hlen. unfold SendAudioDataToAF.
    destruct af_is_stereo; by rewrite zip_channels_short.
Qed.

End UplinkFrames.

Lemma X12_stereo_to_framework_witness :
  SendAudioDataToAF true false (Some [32767; -3]) (Some [32767; -4])
    Sample.call_on_left_bud
  = Done (call (AudioSink_SendData [32767; 65533]) Sample.call_on_left_bud)
  /\ SendAudioDataToAF true true (Some [1; 2]) (Some [3])
       Sample.call_on_left_bud
     = Abort OutOfRange.
Proof.
  destruct (X12_stereo_to_framework false [32767; -3] [32767; -4]
              Sample.call_on_left_bud) as [Hsend _].
  destruct (X12_stereo_to_framework true [1; 2] [3]
              Sample.call_on_left_bud) as (_ & _ & Hshort).
  split; [|apply Hshort; cbn; lia].
  destruct Hsend as (_ & _ & Hwhole); [cbn; lia|]. apply Hwhole. cbn. lia.
Defined.

Section UplinkPairing.
Context {E : Environment}.

(** An SDU of a known source CIS of the active group, with the receiver
    started and a known data interval, is decoded and handed on. *)
Lemma SendAudioData_known (st : LeAudioClientImpl) (data : option (list Z))
    (size cis_conn_hdl timestamp id pcm_size : Z) (g : LeAudioDeviceGroup) :
  let left_cis_handle :=
    cis_handle_of kLeAudioLocationAnyLeft (source_streams (stream_conf g)) in
  let right_cis_handle :=
    cis_handle_of kLeAudioLocationAnyRight (source_streams (stream_conf g)) in
  active_group_id_ st = Some id ->
  aseGroups_ st !! id = Some g ->
  audio_receiver_state_ st = AudioState.STARTED ->
  cis_conn_hdl = left_cis_handle \/ cis_conn_hdl = right_cis_handle ->
  pcm_size_of (data_interval_us (current_sink_codec_config st))
    (sample_rate (audio_framework_sink_config st)) = Some pcm_size ->
  SendAudioData data size cis_conn_hdl timestamp st
  = decode_and_forward left_cis_handle right_cis_handle
      (cis_conn_hdl =? left_cis_handle)
      (source_octets_per_codec_frame (stream_conf g)) pcm_size
      data size timestamp st.
Proof.
  intros hl hr Hactive Hg Hrecv Hcis Hsize.
  unfold SendAudioData, FindById. rewrite Hactive, Hg, Hrecv. cbn.
  fold hl hr. rewrite Hsize.
  replace (negb (cis_conn_hdl =? hl) && negb (cis_conn_hdl =? hr)) with false;
    [done|].
  destruct Hcis as [-> | ->]; rewrite Z.eqb_refl; cbn; by rewrite ?andb_false_r.
Qed.

(** X13.  Two microphones.  The active group has a left and a right source
    CIS, the receiver is started and nothing is cached.  When the SDU of one
    side and then the SDU of the other side arrive with the same timestamp,
    both are decoded, one buffer goes to the audio sink and the cache is
    empty again.  Whichever side comes first, a stereo framework gets the
    sample of the left CIS before the sample of the right CIS in every
    frame, and a mono framework gets the mean of the two rounded towards
    zero.  The sink gets the whole buffer when it has fewer than 32768
    words, and otherwise as many octets as its byte count is worth in a
    [uint16_t]. *)
Theorem X13_two_microphones (st : LeAudioClientImpl) (id size timestamp pcm_size : Z)
    (g : LeAudioDeviceGroup) (data_left data_right : option (list Z))
    (err_left err_right : Z) (pcm_left pcm_right : list Z) :
  let left_cis_handle :=
    cis_handle_of kLeAudioLocationAnyLeft (source_streams (stream_conf g)) in
  let right_cis_handle :=
    cis_handle_of kLeAudioLocationAnyRight (source_streams (stream_conf g)) in
  let buffer :=
    if num_channels (audio_framework_sink_config st) =? 2
    then concat (zip_with (fun l r => [to_uint16 l; to_uint16 r]) pcm_left pcm_right)
    else zip_with (fun l r => to_uint16 (to_int16 (Z.quot (l + r) 2)))
           pcm_left pcm_right in
  let frames := written_words buffer in
  active_group_id_ st = Some id ->
  aseGroups_ st !! id = Some g ->
  audio_receiver_state_ st = AudioState.STARTED ->
  left_cis_handle <> 0 -> right_cis_handle <> 0 ->
  left_cis_handle <> right_cis_handle ->
  pcm_size_of (data_interval_us (current_sink_codec_config st))
    (sample_rate (audio_framework_sink_config st)) = Some pcm_size ->
  0 <= pcm_size ->
  source_octets_per_codec_frame (stream_conf g) = size ->
  cached_channel_timestamp_ st = 0 -> cached_channel_data_ st = [] ->
  lc3_decode true data_left size pcm_size = (err_left, pcm_left) ->
  lc3_decode false data_right size pcm_size = (err_right, pcm_right) ->
  0 <= err_left -> 0 <= err_right ->
  length pcm_left = length pcm_right ->
  timestamp <> 0 ->
  exists st_lr st_rl,
    (let! st1 := SendAudioData data_left size left_cis_handle timestamp st in
     SendAudioData data_right size right_cis_handle timestamp st1) = Done st_lr
    /\ (let! st1 := SendAudioData data_right size right_cis_handle timestamp st in
        SendAudioData data_left size left_cis_handle timestamp st1) = Done st_rl
    /\ calls st_lr
       = calls st ++ [lc3_decode_call true data_left pcm_size;
                      lc3_decode_call false data_right pcm_size;
                      AudioSink_SendData frames]
    /\ calls st_rl
       = calls st ++ [lc3_decode_call false data_right pcm_size;
                      lc3_decode_call true data_left pcm_size;
                      AudioSink_SendData frames]
    /\ cached_channel_data_ st_lr = [] /\ cached_channel_timestamp_ st_lr = 0
    /\ cached_channel_data_ st_rl = [] /\ cached_channel_timestamp_ st_rl = 0
    /\ (Z.of_nat (length buffer) < 32768 -> frames = buffer).
Proof.
  intros hl hr buffer frames Hactive Hg Hrecv Hl Hr Hne Hsize Hpcm Hreq Hts Hdata
         Hdl Hdr Hel Her Hlen Hstamp.
  assert (Hrl : (hr =? hl) = false) by (apply Z.eqb_neq; congruence).
  assert (Hl0 : (hl =? 0) = false) by (by apply Z.eqb_neq).
  assert (Hr0 : (hr =? 0) = false) by (by apply Z.eqb_neq).
  assert (Hpos : (pcm_size <? 0) = false) by (apply Z.ltb_ge; lia).
  assert (Helb : (err_left <? 0) = false) by (apply Z.ltb_ge; lia).
  assert (Herb : (err_right <? 0) = false) by (apply Z.ltb_ge; lia).
  assert (Hstampb : (timestamp =? 0) = false) by (by apply Z.eqb_neq).
  (* the first SDU is cached *)
  assert (Hfirst : forall (is_left : bool) data err pcm,
    lc3_decode is_left data size pcm_size = (err, pcm) -> (err <? 0) = false ->
    decode_and_forward hl hr is_left size pcm_size data size timestamp st
    = Done (cache_channel pcm timestamp is_left
              (call (lc3_decode_call is_left data pcm_size) st))).
  { intros is_left data err pcm Hd He. unfold decode_and_forward.
    rewrite Hpos, Z.eqb_refl. cbn [negb]. rewrite Hd, He, Hl0, Hr0. cbn [orb].
    change (cached_channel_timestamp_ (call ?c st)) with (cached_channel_timestamp_ st).
    change (cached_channel_data_ (call ?c st)) with (cached_channel_data_ st).
    rewrite Hts, Hdata. cbn [Z.eqb andb].
    by rewrite bool_decide_eq_true_2. }
  (* the second SDU finds the first one *)
  assert (Hsecond : forall (is_left : bool) data err pcm data0 pcm0,
    lc3_decode is_left data size pcm_size = (err, pcm) -> (err <? 0) = false ->
    let st1 := cache_channel pcm0 timestamp (negb is_left)
                 (call (lc3_decode_call (negb is_left) data0 pcm_size) st) in
    decode_and_forward hl hr is_left size pcm_size data size timestamp st1
    = let! st2 :=
        (if is_left
         then SendAudioDataToAF true
                (num_channels (audio_framework_sink_config st) =? 2)
                (Some pcm0) (Some pcm)
                (call (lc3_decode_call is_left data pcm_size) st1)
         else SendAudioDataToAF true
                (num_channels (audio_framework_sink_config st) =? 2)
                (Some pcm) (Some pcm0)
                (call (lc3_decode_call is_left data pcm_size) st1)) in
      Done (CleanCachedMicrophoneData st2)).
  { intros is_left data err pcm data0 pcm0 Hd He st1. unfold decode_and_forward.
    rewrite Hpos, Z.eqb_refl. cbn [negb]. rewrite Hd, He, Hl0, Hr0. cbn [orb].
    change (cached_channel_timestamp_ (call ?c st1)) with timestamp.
    change (cached_channel_data_ (call ?c st1)) with pcm0.
    change (cached_channel_is_left_ (call ?c st1)) with (negb is_left).
    change (audio_framework_sink_config (call ?c st1))
      with (audio_framework_sink_config st).
    rewrite Hstampb, Z.eqb_refl. cbn [andb].
    by destruct is_left. }
  assert (Hknown : forall st1 data h,
    active_group_id_ st1 = active_group_id_ st ->
    aseGroups_ st1 = aseGroups_ st ->
    audio_receiver_state_ st1 = audio_receiver_state_ st ->
    current_sink_codec_config st1 = current_sink_codec_config st ->
    audio_framework_sink_config st1 = audio_framework_sink_config st ->
    h = hl \/ h = hr ->
    SendAudioData data size h timestamp st1
    = decode_and_forward hl hr (h =? hl) size pcm_size data size timestamp st1).
  { intros st1 data h H1 H2 H3 H4 H5 Hh.
    rewrite (SendAudioData_known st1 data size h timestamp id pcm_size g);
      [by rewrite Hreq|congruence|congruence|congruence|done|congruence]. }
  rewrite (Hknown st data_left hl), (Hknown st data_right hr);
    try done; [|by right|by left].
  rewrite Z.eqb_refl, Hrl.
  rewrite (Hfirst true data_left err_left pcm_left Hdl Helb),
          (Hfirst false data_right err_right pcm_right Hdr Herb).
  cbn [rbind].
  rewrite (Hknown _ data_right hr), (Hknown _ data_left hl);
    try done; [|by left|by right].
  rewrite Z.eqb_refl, Hrl.
  pose proof (Hsecond false data_right err_right pcm_right data_left pcm_left
                Hdr Herb) as Hright.
  pose proof (Hsecond true data_left err_left pcm_left data_right pcm_right
                Hdl Helb) as Hleft.
  cbn [negb] in Hright, Hleft. cbv zeta in Hright, Hleft.
  rewrite Hright, Hleft.
  unfold SendAudioDataToAF.
  rewrite !zip_channels_zip_with by lia.
  subst frames buffer.
  destruct (num_channels (audio_framework_sink_config st) =? 2);
    cbn [rbind]; rewrite ?stereo_frames_swap, ?mono_frames_swap;
    eexists _, _; (split; [reflexivity|]); (split; [reflexivity|]);
    cbn [calls call CleanCachedMicrophoneData cache_channel setter set_calls
         set_cached_channel_data_ set_cached_channel_timestamp_
         set_cached_channel_is_left_ cached_channel_data_
         cached_channel_timestamp_];
    rewrite <- !app_assoc; repeat split; try done; apply written_words_all.
Qed.

End UplinkPairing.

Lemma X13_two_microphones_witness :
  let E := Reference.environment in
  exists st_lr st_rl,
    (let! st1 := SendAudioData (Some (repeat 0 40)) 40 0x90 7 Example.call_on_pair in
     SendAudioData (Some (repeat 0 40)) 40 0x91 7 st1) = Done st_lr
    /\ (let! st1 := SendAudioData (Some (repeat 0 40)) 40 0x91 7 Example.call_on_pair in
        SendAudioData (Some (repeat 0 40)) 40 0x90 7 st1) = Done st_rl
    /\ calls st_lr
       = [lc3_decode_call true (Some (repeat 0 40)) 160;
          lc3_decode_call false (Some (repeat 0 40)) 160;
          AudioSink_SendData (repeat 1 160)]
    /\ calls st_rl
       = [lc3_decode_call false (Some (repeat 0 40)) 160;
          lc3_decode_call true (Some (repeat 0 40)) 160;
          AudioSink_SendData (repeat 1 160)].
Proof.
  cbn zeta.
  destruct (X13_two_microphones (E := Reference.environment) Example.call_on_pair
              1 40 7 160 Example.pair_in_call
              (Some (repeat 0 40)) (Some (repeat 0 40)) 0 0
              (repeat 1 160) (repeat 2 160))
    as (st_lr & st_rl & Hlr & Hrl & Hcalls_lr & Hcalls_rl & _);
    try reflexivity; try (vm_compute; discriminate).
  exists st_lr, st_rl. split; [exact Hlr|]. split; [exact Hrl|].
  split; [exact Hcalls_lr|exact Hcalls_rl].
Defined.

(** ** The codec configuration of the audio session *)

(** The fields of a session record that was built with setters. *)
Ltac session_fields :=
  cbv beta iota zeta
      delta [setter set_current_source_codec_config set_current_sink_codec_config
             set_current_context_type_ current_source_codec_config
             current_sink_codec_config aseGroups_ leAudioDevices_
             audio_sender_state_ audio_receiver_state_ calls negb fst snd].

Section CodecConfigurationProperties.
Context {E : Environment}.
Variable IsInvalid : LeAudioCodecConfiguration -> bool.
Variable differs : LeAudioCodecConfiguration -> LeAudioCodecConfiguration -> bool.

(** X14.  UpdateConfigAndCheckIfReconfigurationIsNeeded asks for a
    reconfiguration once.  Given that a configuration does not differ from
    itself and that the all-zero configuration is invalid, a second call for
    the same group and context type reports that no reconfiguration is
    needed and changes nothing.  A call that reports no need leaves both
    codec configurations as they were; no call touches the registries, the
    audio states or the outgoing calls. *)
Theorem X14_reconfiguration_is_asked_once (group_id : option Z)
    (context_type : LeAudioContextType.t) (st : LeAudioClientImpl) :
  (forall c, differs c c = false) ->
  IsInvalid (mk_LeAudioCodecConfiguration 0 0 0 0) = true ->
  let r := UpdateConfigAndCheckIfReconfigurationIsNeeded IsInvalid differs
             group_id context_type st in
  UpdateConfigAndCheckIfReconfigurationIsNeeded IsInvalid differs
    group_id context_type r.2 = (false, r.2)
  /\ (r.1 = false ->
      current_source_codec_config r.2 = current_source_codec_config st
      /\ current_sink_codec_config r.2 = current_sink_codec_config st)
  /\ aseGroups_ r.2 = aseGroups_ st
  /\ leAudioDevices_ r.2 = leAudioDevices_ st
  /\ audio_sender_state_ r.2 = audio_sender_state_ st
  /\ audio_receiver_state_ r.2 = audio_receiver_state_ st
  /\ calls r.2 = calls st.
Proof.
  intros Hrefl Hzero. cbn zeta.
  unfold UpdateConfigAndCheckIfReconfigurationIsNeeded, FindById.
  destruct st as [devices groups ? ? ? ? ? ? source sink ? ? ? ? ? ? ? ? ? ? ?].
  session_fields.
  destruct group_id as [id|]; [|done].
  destruct (groups !! id) as [g|] eqn:Hg; [|session_fields; by rewrite Hg].
  destruct (GetCodecConfigurationByDirection g devices context_type
              kLeAudioDirectionSink) as [c1|] eqn:H1;
    [destruct (differs c1 source) eqn:D1|destruct (IsInvalid source) eqn:D1];
    session_fields;
    (destruct (GetCodecConfigurationByDirection g devices context_type
                 kLeAudioDirectionSource) as [c2|] eqn:H2;
     [destruct (differs c2 sink) eqn:D2|destruct (IsInvalid sink) eqn:D2]);
    session_fields; rewrite ?Hg; session_fields;
    rewrite ?H1, ?H2; session_fields;
    rewrite ?Hrefl, ?Hzero, ?D1; session_fields;
    rewrite ?Hrefl, ?Hzero, ?D2; session_fields;
    repeat split; congruence.
Qed.

End CodecConfigurationProperties.

Lemma X14_reconfiguration_is_asked_once_witness :
  let E := Reference.environment in
  let update :=
    UpdateConfigAndCheckIfReconfigurationIsNeeded CodecExample.is_invalid
      CodecExample.differs (Some 1) LeAudioContextType.CONVERSATIONAL in
  (update Sample.streaming_pair).1 = true
  /\ update (update Sample.streaming_pair).2 = (false, (update Sample.streaming_pair).2).
Proof.
  cbn zeta. split; [vm_compute; reflexivity|].
  refine (proj1 (X14_reconfiguration_is_asked_once (E := Reference.environment)
                   CodecExample.is_invalid CodecExample.differs (Some 1)
                   LeAudioContextType.CONVERSATIONAL Sample.streaming_pair _ _)).
  - intros c. unfold CodecExample.differs. by rewrite !Z.eqb_refl.
  - reflexivity.
Defined.

(** ** Audio locations *)

Lemma land_lor_same (x d : Z) : Z.land (Z.lor x d) d = d.
Proof.
  apply Z.bits_inj'. intros n Hn. rewrite Z.land_spec, Z.lor_spec.
  by destruct (Z.testbit x n), (Z.testbit d n).
Qed.

Section AudioLocations.
Context {E : Environment}.

(** X15.  A notification of the sink or source audio locations is handled
    once.  When the branch of LeAudioCharValueHandle for the characteristic
    has run to its end, the device holds the announced locations, and the
    same value handled again changes nothing and makes no call.  The two
    direction bits are not 0. *)
Theorem X15_audio_locations_once (sink_side : bool) (leAudioDevice : RawAddress)
    (d : LeAudioDevice) (value : list Z) (st st' : LeAudioClientImpl) :
  kLeAudioDirectionSink <> 0 ->
  kLeAudioDirectionSource <> 0 ->
  leAudioDevices_ st !! leAudioDevice = Some d ->
  on_audio_locations sink_side leAudioDevice d value st = Done st' ->
  exists d',
    leAudioDevices_ st' !! leAudioDevice = Some d'
    /\ (if sink_side then snk_audio_locations_ d' else src_audio_locations_ d')
       = ParseAudioLocations value
    /\ on_audio_locations sink_side leAudioDevice d' value st' = Done st'.
Proof.
  intros Hsink Hsource Hd H. unfold on_audio_locations in H. cbv zeta in H.
  set (dir := if sink_side then kLeAudioDirectionSink else kLeAudioDirectionSource) in *.
  assert (Hdir : dir <> 0) by (subst dir; by destruct sink_side).
  destruct (negb (Z.land (audio_directions_ d) dir =? 0)
            && (Z.lxor (if sink_side then snk_audio_locations_ d
                        else src_audio_locations_ d)
                       (ParseAudioLocations value) =? 0)) eqn:Hsame.
  - injection H as <-. exists d. split; [done|].
    pose proof Hsame as Hstored.
    apply andb_true_iff in Hstored as [_ Hx%Z.eqb_eq%Z.lxor_eq]. split; [done|].
    unfold on_audio_locations. cbv zeta. fold dir. by rewrite Hsame.
  - set (f := fun d : LeAudioDevice =>
                let d := d <| audio_directions_ := Z.lor (audio_directions_ d) dir |> in
                if sink_side
                then d <| snk_audio_locations_ := ParseAudioLocations value |>
                else d <| src_audio_locations_ := ParseAudioLocations value |>) in H.
    assert (Hdevices : leAudioDevices_ st' = alter f leAudioDevice (leAudioDevices_ st)).
    { match type of H with
      | match FindById ?s _ with _ => _ end = _ =>
          set (s1 := s) in H;
          assert (Hs1 : leAudioDevices_ s1
                        = alter f leAudioDevice (leAudioDevices_ st))
            by (subst s1; by destruct sink_side)
      end.
      clearbody s1. rewrite <- Hs1.
      destruct (FindById s1 (group_id_ d)) as [[group g]|]; [|by injection H as <-].
      apply rbind_Done in H as ([reloaded s2] & H2 & H).
      unfold group_ReloadAudioLocations in H2.
      apply rbind_Done in H2 as (g2 & _ & [= _ <-]).
      destruct reloaded; [|by injection H as <-].
      apply rbind_Done in H as (g3 & _ & H).
      by rewrite (callbacks_OnAudioConf_devices _ _ _ _ H). }
    exists (f d). split; [by rewrite Hdevices, lookup_alter_eq, Hd|].
    split; [subst f; by destruct sink_side|].
    unfold on_audio_locations. cbv zeta. fold dir.
    replace (negb (Z.land (audio_directions_ (f d)) dir =? 0)
             && (Z.lxor (if sink_side then snk_audio_locations_ (f d)
                         else src_audio_locations_ (f d))
                        (ParseAudioLocations value) =? 0)) with true; [done|].
    symmetry. apply andb_true_iff. split.
    + apply negb_true_iff, Z.eqb_neq.
      replace (audio_directions_ (f d)) with (Z.lor (audio_directions_ d) dir)
        by (subst f; by destruct sink_side).
      by rewrite land_lor_same.
    + apply Z.eqb_eq.
      replace (if sink_side then snk_audio_locations_ (f d)
               else src_audio_locations_ (f d)) with (ParseAudioLocations value)
        by (subst f; by destruct sink_side).
      apply Z.lxor_nilpotent.
Qed.

End AudioLocations.

Lemma X15_audio_locations_once_witness :
  let E := Reference.environment in
  let d := Sample.earbud (Some 1) (Some 1) false 1 (6, 6) in
  exists st' d',
    on_audio_locations true 0x10 d [2; 0] Sample.right_bud_arrives = Done st'
    /\ leAudioDevices_ st' !! 0x10 = Some d'
    /\ snk_audio_locations_ d' = 2
    /\ on_audio_locations true 0x10 d' [2; 0] st' = Done st'.
Proof.
  cbn zeta.
  destruct (on_audio_locations true 0x10
              (Sample.earbud (Some 1) (Some 1) false 1 (6, 6)) [2; 0]
              Sample.right_bud_arrives) as [st'|f] eqn:Hrun;
    [|vm_compute in Hrun; discriminate].
  destruct (X15_audio_locations_once (E := Reference.environment) true 0x10
              (Sample.earbud (Some 1) (Some 1) false 1 (6, 6)) [2; 0]
              Sample.right_bud_arrives st')
    as (d' & Hd' & Hstored & Hagain);
    [discriminate|discriminate|reflexivity|exact Hrun|].
  exists st', d'. split; [reflexivity|]. split; [exact Hd'|].
  split; [exact Hstored|exact Hagain].
Defined.

(** ** The streams of a direction *)

Lemma agree_Done {A : Type} (f : A -> Z) (ases : list A) (a : A) (gathered v : Z) :
  Forall (fun a => f a = 0 \/ f a = gathered) ases ->
  agree gathered (f a) = Done v ->
  Forall (fun a => f a = 0 \/ f a = v) (ases ++ [a]).
Proof.
  intros Hall H. unfold agree in H.
  destruct (gathered =? 0) eqn:Hzero.
  - apply Z.eqb_eq in Hzero as ->. injection H as <-.
    apply Forall_app. split; [|constructor; [by right|constructor]].
    eapply Forall_impl; [exact Hall|]. intros x [Hx|Hx]; by left.
  - destruct (gathered =? f a) eqn:Hsame; [|done].
    apply Z.eqb_eq in Hsame. injection H as <-.
    apply Forall_app. split; [done|]. constructor; [by right|constructor].
Qed.

Lemma agree_optional_Done {A : Type} (f : A -> option Z) (ases : list A) (a : A)
    (gathered v : Z) :
  Forall (fun a => f a = Some 0 \/ f a = Some gathered) ases ->
  agree_optional gathered (f a) = Done v ->
  Forall (fun a => f a = Some 0 \/ f a = Some v) (ases ++ [a]).
Proof.
  intros Hall H. unfold agree_optional in H.
  destruct (gathered =? 0) eqn:Hzero.
  - apply Z.eqb_eq in Hzero as ->. destruct (f a) as [w|] eqn:Hw; [|done].
    injection H as <-.
    apply Forall_app. split; [|constructor; [by right|constructor]].
    eapply Forall_impl; [exact Hall|]. intros x [Hx|Hx]; by left.
  - case_bool_decide as Hsame; [|done]. injection H as <-.
    apply Forall_app. split; [done|]. constructor; [by right|constructor].
Qed.

Lemma foldr_add_snoc {A : Type} (f : A -> Z) (l : list A) (x : A) :
  foldr Z.add 0 (f <$> l ++ [x]) = foldr Z.add 0 (f <$> l) + f x.
Proof. induction l as [|y l IH]; cbn in *; lia. Qed.

Lemma add_ase_gathered (ases : list ase) (n : Z) (acc acc' : direction_configuration)
    (a : ase) :
  gathered_from ases n acc ->
  add_ase acc a = Done acc' ->
  gathered_from (ases ++ [a]) n acc'.
Proof.
  intros (Hstreams & Hn & Hchannels & Hfreq & Hduration & Hoctets & Hblocks) H.
  unfold add_ase in H.
  destruct (audio_channel_allocation a) as [allocation|] eqn:Hallocation; [|done].
  apply rbind_Done in H as (freq & H1 & H).
  apply rbind_Done in H as (duration & H2 & H).
  apply rbind_Done in H as (octets & H3 & H).
  apply rbind_Done in H as (blocks & H4 & H).
  injection H as <-. unfold gathered_from.
  cbn [streams num_of_devices num_of_channels sample_frequency_hz
       stream_frame_duration_us stream_octets_per_codec_frame
       stream_codec_frames_blocks_per_sdu].
  split; [by rewrite !fmap_app, Hstreams; cbn; rewrite Hallocation|].
  split; [done|].
  split; [by rewrite foldr_add_snoc, Hchannels|].
  split; [by apply agree_Done with (gathered := sample_frequency_hz acc)|].
  split; [by apply agree_Done with (gathered := stream_frame_duration_us acc)|].
  split; [by apply agree_optional_Done
            with (gathered := stream_octets_per_codec_frame acc)|].
  by apply agree_optional_Done
       with (gathered := stream_codec_frames_blocks_per_sdu acc).
Qed.

Lemma fold_left_Abort {A B : Type} (f : A -> B -> Result A) (l : list B)
    (fault : Fault) :
  fold_left (fun acc b => let! acc := acc in f acc b) l (Abort fault) = Abort fault.
Proof. by induction l. Qed.

Lemma add_ases_gathered (visited : list ase) (n : Z) (ases : list ase) :
  forall (acc acc' : direction_configuration),
    gathered_from visited n acc ->
    fold_left (fun acc a => let! acc := acc in add_ase acc a) ases (Done acc)
      = Done acc' ->
    gathered_from (visited ++ ases) n acc'.
Proof.
  revert visited.
  induction ases as [|a ases IH]; intros visited acc acc' Hacc H.
  - injection H as <-. by rewrite app_nil_r.
  - cbn [fold_left] in H.
    destruct (add_ase acc a) as [acc1|fault] eqn:Hadd.
    + change (let! acc := Done acc in add_ase acc a) with (add_ase acc a) in H.
      rewrite Hadd in H.
      replace (visited ++ a :: ases) with ((visited ++ [a]) ++ ases)
        by (by rewrite <- app_assoc).
      apply (IH _ acc1); [|done]. by apply add_ase_gathered with (acc := acc).
    + change (let! acc := Done acc in add_ase acc a) with (add_ase acc a) in H.
      rewrite Hadd, fold_left_Abort in H. done.
Qed.

Lemma add_devices_Abort {E : Environment} (dir : Z) (devices : gmap Z LeAudioDevice)
    (l : list RawAddress) (fault : Fault) :
  fold_left (add_device dir devices) l (Abort fault) = Abort fault.
Proof. by induction l. Qed.

Lemma add_devices_gathered {E : Environment} (dir : Z) (devices : gmap Z LeAudioDevice)
    (l : list RawAddress) :
  forall (visited : list ase) (n : Z) (acc acc' : direction_configuration),
    gathered_from visited n acc ->
    fold_left (add_device dir devices) l (Done acc) = Done acc' ->
    gathered_from
      (visited ++ flat_map (ases_of_device devices dir) l)
      (n + Z.of_nat (length (List.filter
                               (fun a => negb (bool_decide
                                                 (ases_of_device devices dir a = [])))
                               l)))
      acc'.
Proof.
  induction l as [|a l IH]; intros visited n acc acc' Hacc H.
  - injection H as <-. cbn. by rewrite app_nil_r, Z.add_0_r.
  - cbn [fold_left flat_map List.filter] in *.
    unfold add_device at 2 in H. cbn [rbind] in H.
    destruct (devices !! a) as [d|] eqn:Hd; [|by rewrite add_devices_Abort in H].
    assert (Hof : ases_of_device devices dir a = active_ases_by_direction d dir)
      by (unfold ases_of_device; by rewrite Hd).
    rewrite Hof.
    match type of H with
    | context [fold_left _ (active_ases_by_direction d dir) (Done ?acc1)] =>
        set (counted := acc1) in H
    end.
    assert (Hcounted : gathered_from visited
                         (n + if bool_decide (active_ases_by_direction d dir = [])
                              then 0 else 1) counted).
    { destruct Hacc as (? & ? & ? & ? & ? & ? & ?).
      subst counted. case_bool_decide as Hnone.
      - rewrite Hnone. rewrite Z.add_0_r. by repeat split.
      - destruct (active_ases_by_direction d dir); [done|].
        repeat split; try done. cbn. lia. }
    destruct (fold_left (fun acc a => let! acc := acc in add_ase acc a)
                (active_ases_by_direction d dir) (Done counted))
      as [acc1|fault] eqn:Hases; [|by rewrite add_devices_Abort in H].
    apply (add_ases_gathered _ _ _ _ _ Hcounted) in Hases.
    specialize (IH _ _ _ _ Hases H). rewrite <- app_assoc in IH.
    replace (n + Z.of_nat (length
                 (if negb (bool_decide (active_ases_by_direction d dir = []))
                  then a :: List.filter _ l else List.filter _ l)))
      with (n + (if bool_decide (active_ases_by_direction d dir = []) then 0 else 1)
            + Z.of_nat (length (List.filter
                 (fun a => negb (bool_decide (ases_of_device devices dir a = []))) l)));
      [done|].
    case_bool_decide; cbn [negb length]; lia.
Qed.

Lemma agree_alike (gathered v : Z) :
  gathered = 0 \/ gathered = v ->
  exists w, agree gathered v = Done w /\ (w = 0 \/ w = v).
Proof.
  intros [->| ->]; unfold agree; [by exists v; split; [|right]|].
  destruct (v =? 0) eqn:Hzero; [by exists v; split; [|right]|].
  rewrite Z.eqb_refl. exists v. by split; [|right].
Qed.

Lemma agree_optional_alike (gathered v : Z) :
  gathered = 0 \/ gathered = v ->
  exists w, agree_optional gathered (Some v) = Done w /\ (w = 0 \/ w = v).
Proof.
  intros [->| ->]; unfold agree_optional; [by exists v; split; [|right]|].
  destruct (v =? 0) eqn:Hzero; [by exists v; split; [|right]|].
  rewrite bool_decide_eq_true_2 by done. exists v. by split; [|right].
Qed.

Section StreamsOfAlikeAses.
Variables freq duration octets blocks : Z.

Lemma add_ases_alike (ases : list ase) :
  Forall (configured_like freq duration octets blocks) ases ->
  forall acc : direction_configuration,
    gathered_partly freq duration octets blocks acc ->
    exists acc',
      fold_left (fun acc a => let! acc := acc in add_ase acc a) ases (Done acc)
        = Done acc'
      /\ gathered_partly freq duration octets blocks acc'.
Proof.
  induction 1 as [|a ases Ha _ IH]; intros acc Hacc; [by exists acc|].
  cbn [fold_left rbind].
  destruct Ha as ([allocation Hallocation] & <- & <- & Hoctets & Hblocks).
  destruct Hacc as (H1 & H2 & H3 & H4).
  apply agree_alike in H1 as (w1 & E1 & H1).
  apply agree_alike in H2 as (w2 & E2 & H2).
  apply agree_optional_alike in H3 as (w3 & E3 & H3).
  apply agree_optional_alike in H4 as (w4 & E4 & H4).
  unfold add_ase. rewrite Hallocation, E1, Hoctets, Hblocks. cbn [rbind].
  rewrite E2. cbn [rbind]. rewrite E3. cbn [rbind]. rewrite E4. cbn [rbind].
  apply IH. by repeat split.
Qed.

Lemma add_devices_alike (dir : Z) (devices : gmap Z LeAudioDevice)
    (l : list RawAddress) :
  Forall (configured_like freq duration octets blocks) (flat_map (ases_of_device devices dir) l) ->
  Forall (fun a => is_Some (devices !! a)) l ->
  forall acc : direction_configuration,
    gathered_partly freq duration octets blocks acc ->
    exists acc',
      fold_left (add_device dir devices) l (Done acc) = Done acc'
      /\ gathered_partly freq duration octets blocks acc'.
Proof.
  induction l as [|a l IH]; intros Hases Hregistered acc Hacc; [by exists acc|].
  cbn [fold_left flat_map] in *. apply Forall_app in Hases as [Ha Hases].
  apply Forall_cons in Hregistered as [[d Hd] Hregistered].
  unfold add_device at 2. cbn [rbind]. unfold ases_of_device in Ha.
  rewrite Hd in *.
  match goal with
  | |- context [fold_left _ (active_ases_by_direction d dir) (Done ?acc1)] =>
      assert (Hcounted : gathered_partly freq duration octets blocks acc1)
        by (by destruct (active_ases_by_direction d dir))
  end.
  destruct (add_ases_alike _ Ha _ Hcounted) as (acc1 & -> & Hacc1).
  by apply IH.
Qed.

End StreamsOfAlikeAses.

Lemma active_devices_registered (g : LeAudioDeviceGroup)
    (devices : gmap Z LeAudioDevice) :
  Forall (fun a => is_Some (devices !! a)) (active_devices g devices).
Proof.
  apply List.Forall_forall. intros a [_ Ha]%filter_In.
  unfold is_active in Ha. by destruct (devices !! a).
Qed.

Section StreamConfiguration.
Context {E : Environment}.

Lemma stream_configuration_gathered (sink_side : bool) (group : Z)
    (g : LeAudioDeviceGroup) (st st' : LeAudioClientImpl) (found : bool) :
  kLeAudioDirectionSink <> kLeAudioDirectionSource ->
  aseGroups_ st !! group = Some g ->
  let dir := if sink_side then kLeAudioDirectionSink else kLeAudioDirectionSource in
  let ases := visited_ases g (leAudioDevices_ st) dir in
  GetStreamConfigurationByDirection group dir st = Done (found, st') ->
  if found then
    exists sc : stream_configuration,
      st' = update_group group (fun g => g <| stream_conf := sc |>) st
      /\ ases <> []
      /\ conf sc = conf (stream_conf g)
      /\ is_Some (conf sc)
      /\ (if sink_side then source sc = source (stream_conf g)
          else sink sc = sink (stream_conf g))
      /\ gathered_from ases
           (Z.of_nat (length (devices_of_direction g (leAudioDevices_ st) dir)))
           (if sink_side then sink sc else source sc)
  else ases = [] /\ st' = st.
Proof.
  intros Hdirections Hg dir ases H.
  unfold GetStreamConfigurationByDirection, group_at in H. rewrite Hg in H.
  cbn [rbind] in H. apply rbind_Done in H as (gathered & Hfold & H).
  assert (Hgathered :
            gathered_from ases
              (Z.of_nat (length (devices_of_direction g (leAudioDevices_ st) dir)))
              gathered).
  { apply (add_devices_gathered dir (leAudioDevices_ st) _ [] 0
             empty_direction_configuration) in Hfold; [exact Hfold|].
    repeat split; constructor. }
  assert (Hnone : streams gathered = [] <-> ases = []).
  { destruct Hgathered as (Hstreams & _). split; intros Hnil.
    - rewrite Hnil in Hstreams. symmetry in Hstreams.
      by apply fmap_nil_inv in Hstreams.
    - rewrite Hnil in Hstreams. by apply fmap_nil_inv in Hstreams. }
  destruct (streams gathered) as [|s rest] eqn:Hstreams.
  - injection H as <- <-. split; [by apply Hnone|done].
  - match type of H with
    | match conf ?sc with _ => _ end = _ => set (sc' := sc) in H
    end.
    destruct (conf sc') as [c|] eqn:Hconf; [|done]. injection H as <- <-.
    exists sc'. split; [done|]. split; [intros Hnil; by apply Hnone in Hnil|].
    subst sc' dir. destruct sink_side.
    + destruct (kLeAudioDirectionSink =? kLeAudioDirectionSource) eqn:Hsame;
        [by apply Z.eqb_eq in Hsame|].
      rewrite Z.eqb_refl in *. by rewrite Hconf.
    + rewrite Z.eqb_refl in *. by rewrite Hconf.
Qed.

(** X16.  What GetStreamConfigurationByDirection returns for the sink or the
    source direction.  It returns null, and changes nothing, exactly when no
    active member has an active ASE of the direction.  Otherwise only the
    stream configuration of the group changes and of it only the members of
    that direction: there is one stream per active ASE, in the order of the
    members and of their ASEs, with the CIS handle and the channel
    allocation of the ASE; the number of devices counts the active members
    that have such an ASE; the number of channels is the sum of the channel
    counts; and each codec parameter agrees with every ASE whose own value
    is not 0. *)
Theorem X16_stream_configuration (sink_side : bool) (group : Z)
    (g : LeAudioDeviceGroup) (st st' : LeAudioClientImpl) (found : bool) :
  kLeAudioDirectionSink <> kLeAudioDirectionSource ->
  aseGroups_ st !! group = Some g ->
  let dir := if sink_side then kLeAudioDirectionSink else kLeAudioDirectionSource in
  let ases := visited_ases g (leAudioDevices_ st) dir in
  GetStreamConfigurationByDirection group dir st = Done (found, st') ->
  if found then
    exists sc : stream_configuration,
      st' = update_group group (fun g => g <| stream_conf := sc |>) st
      /\ ases <> []
      /\ conf sc = conf (stream_conf g)
      /\ is_Some (conf sc)
      /\ (if sink_side then source sc = source (stream_conf g)
          else sink sc = sink (stream_conf g))
      /\ gathered_from ases
           (Z.of_nat (length (devices_of_direction g (leAudioDevices_ st) dir)))
           (if sink_side then sink sc else source sc)
  else ases = [] /\ st' = st.
Proof. apply stream_configuration_gathered. Qed.

Lemma stream_configuration_runs (group : Z) (dir : Z)
    (g : LeAudioDeviceGroup) (st : LeAudioClientImpl) :
  aseGroups_ st !! group = Some g ->
  configured_alike (visited_ases g (leAudioDevices_ st) dir) ->
  (conf (stream_conf g) <> None ->
   exists found st',
     GetStreamConfigurationByDirection group dir st = Done (found, st'))
  /\ (conf (stream_conf g) = None ->
      GetStreamConfigurationByDirection group dir st
      = if bool_decide (visited_ases g (leAudioDevices_ st) dir = [])
        then Done (false, st) else Abort NullPointerAccess).
Proof.
  intros Hg (freq & duration & octets & blocks & Halike).
  destruct (add_devices_alike freq duration octets blocks dir (leAudioDevices_ st)
              (active_devices g (leAudioDevices_ st)) Halike
              (active_devices_registered _ _) empty_direction_configuration)
    as (gathered & Hfold & _); [by repeat split; left|].
  pose proof Hfold as Hgathered.
  apply (add_devices_gathered dir (leAudioDevices_ st) _ [] 0
           empty_direction_configuration) in Hgathered;
    [|repeat split; constructor].
  destruct Hgathered as (Hstreams & _). cbn [app] in Hstreams.
  fold (visited_ases g (leAudioDevices_ st) dir) in Hstreams.
  unfold GetStreamConfigurationByDirection, group_at. rewrite Hg. cbn [rbind].
  rewrite Hfold. cbn [rbind].
  destruct (streams gathered) as [|s rest] eqn:Hs.
  - symmetry in Hstreams. apply fmap_nil_inv in Hstreams. rewrite Hstreams.
    split; [by exists false, st|done].
  - assert (Hsome : visited_ases g (leAudioDevices_ st) dir <> [])
      by (intros Hnil; by rewrite Hnil in Hstreams).
    rewrite bool_decide_eq_false_2 by done.
    split; intros Hconf.
    + destruct (conf (stream_conf g)) as [c|] eqn:Hc; [|done].
      exists true. destruct (dir =? kLeAudioDirectionSource);
        [|destruct (dir =? kLeAudioDirectionSink)]; cbn [conf]; rewrite ?Hc; eauto.
    + destruct (dir =? kLeAudioDirectionSource);
        [|destruct (dir =? kLeAudioDirectionSink)]; cbn [conf]; by rewrite Hconf.
Qed.

(** X17.  GetStreamConfigurationByDirection runs to its end when the active
    ASEs of the direction all carry a channel allocation and the same codec
    parameters and, if there is such an ASE, the group has a
    configuration. It reads through a null configuration when there is such
    an ASE and the group has none. *)
Theorem X17_stream_configuration_runs (group : Z) (dir : Z)
    (g : LeAudioDeviceGroup) (st : LeAudioClientImpl) :
  aseGroups_ st !! group = Some g ->
  configured_alike (visited_ases g (leAudioDevices_ st) dir) ->
  (conf (stream_conf g) <> None ->
   exists found st',
     GetStreamConfigurationByDirection group dir st = Done (found, st'))
  /\ (conf (stream_conf g) = None ->
      GetStreamConfigurationByDirection group dir st
      = if bool_decide (visited_ases g (leAudioDevices_ st) dir = [])
        then Done (false, st) else Abort NullPointerAccess).
Proof. apply stream_configuration_runs. Qed.

End StreamConfiguration.

Lemma X16_stream_configuration_witness :
  let E := Reference.environment in
  exists (st' : LeAudioClientImpl) (sc : stream_configuration),
    GetStreamConfigurationByDirection 1 kLeAudioDirectionSink Sample.streaming_pair
      = Done (true, st')
    /\ st' = update_group 1 (fun g => g <| stream_conf := sc |>) Sample.streaming_pair
    /\ (fun s : Z * Z => (s.1, Some s.2)) <$> streams (sink sc)
       = [(0x80, Some 1); (0x80, Some 2)]
    /\ num_of_devices (sink sc) = 2
    /\ source sc = empty_direction_configuration.
Proof.
  cbn zeta.
  destruct (GetStreamConfigurationByDirection (E := Reference.environment) 1
              kLeAudioDirectionSink Sample.streaming_pair)
    as [[found st']|fault] eqn:Hrun; [|vm_compute in Hrun; discriminate].
  destruct found; [|vm_compute in Hrun; discriminate].
  destruct (X16_stream_configuration (E := Reference.environment) true 1
              (Sample.group_of [0x10; 0x11] true Sample.STREAMING Sample.STREAMING 6
                 (Some Sample.two_device_conf) [(0x80, 1); (0x81, 2)])
              Sample.streaming_pair st' true)
    as (sc & Hst' & _ & _ & _ & Hsource & Hstreams & Hdevices & _);
    [discriminate|reflexivity|exact Hrun|].
  exists st', sc. split; [reflexivity|]. split; [exact Hst'|].
  split; [exact Hstreams|]. split; [exact Hdevices|exact Hsource].
Defined.

Lemma X17_stream_configuration_runs_witness :
  let E := Reference.environment in
  exists (found : bool) (st' : LeAudioClientImpl),
    GetStreamConfigurationByDirection 1 kLeAudioDirectionSink Sample.streaming_pair
      = Done (found, st').
Proof.
  cbn zeta.
  refine (proj1 (X17_stream_configuration_runs (E := Reference.environment) 1
                   kLeAudioDirectionSink
                   (Sample.group_of [0x10; 0x11] true Sample.STREAMING
                      Sample.STREAMING 6 (Some Sample.two_device_conf)
                      [(0x80, 1); (0x81, 2)])
                   Sample.streaming_pair _ _) _);
    [reflexivity| |discriminate].
  exists 48000, 10000, 100, 1.
  assert (Hvisited :
            visited_ases
              (Sample.group_of [0x10; 0x11] true Sample.STREAMING Sample.STREAMING 6
                 (Some Sample.two_device_conf) [(0x80, 1); (0x81, 2)])
              (leAudioDevices_ Sample.streaming_pair)
              (kLeAudioDirectionSink (Environment := Reference.environment))
            = [Sample.sink_ase 0x20 true 1; Sample.sink_ase 0x20 true 2])
    by (vm_compute; reflexivity).
  rewrite Hvisited.
  repeat constructor; by eexists.
Defined.

(** ** A resume before the stream is up *)

Section EarlySuspend.
Context {E : Environment} {SM : LeAudioGroupStateMachine}.

(** X18.  A suspend request that arrives while the sender still waits for
    the stream (READY_TO_START), followed by a resume request.  The active
    group is registered and offers a codec configuration for the current
    context in the direction of the two requests.  With a
    receiver in IDLE, STARTED or READY_TO_RELEASE, OnAudioSinkSuspend and
    then OnAudioSinkResume set the sender to STARTED and confirm the
    streaming request, and the STREAMING status of the group that follows
    only stamps the end of the stream setup.  StartSendingAudio is not run
    on this path: the encoder memory and the stream configuration of the
    group are as before the two requests.  The same holds for the source
    direction with the roles exchanged. *)
Theorem X18_resume_before_stream_is_up (st : LeAudioClientImpl) (id : Z)
    (g : LeAudioDeviceGroup) :
  active_group_id_ st = Some id ->
  aseGroups_ st !! id = Some g ->
  let steady s := AudioState.eqb s AudioState.IDLE
                  || AudioState.eqb s AudioState.STARTED
                  || AudioState.eqb s AudioState.READY_TO_RELEASE in
  (is_Some (GetCodecConfigurationByDirection g (leAudioDevices_ st)
              (current_context_type_ st) kLeAudioDirectionSink) ->
   audio_sender_state_ st = AudioState.READY_TO_START ->
   steady (audio_receiver_state_ st) = true ->
   let confirmed :=
     call AudioSource_ConfirmStreamingRequest
       (st <| audio_sender_state_ := AudioState.STARTED |>
           <| suspend_timeout_ := None |>) in
   OnAudioSinkResume (OnAudioSinkSuspend st) = Done confirmed
   /\ StatusReportCb (Some id) GroupStreamStatus.STREAMING confirmed
      = Done (confirmed <| stream_setup_end_timestamp_ := time_get_os_boottime_us |>)
   /\ lc3_encoder_left_mem confirmed = lc3_encoder_left_mem st
   /\ aseGroups_ confirmed = aseGroups_ st)
  /\ (is_Some (GetCodecConfigurationByDirection g (leAudioDevices_ st)
                 (current_context_type_ st) kLeAudioDirectionSource) ->
      audio_receiver_state_ st = AudioState.READY_TO_START ->
      steady (audio_sender_state_ st) = true ->
      let confirmed :=
        call AudioSink_ConfirmStreamingRequest
          (st <| audio_receiver_state_ := AudioState.STARTED |>
              <| suspend_timeout_ := None |>) in
      OnAudioSourceResume (OnAudioSourceSuspend st) = Done confirmed
      /\ StatusReportCb (Some id) GroupStreamStatus.STREAMING confirmed
         = Done (confirmed <| stream_setup_end_timestamp_ := time_get_os_boottime_us |>)
      /\ lc3_decoder_left_mem confirmed = lc3_decoder_left_mem st
      /\ aseGroups_ confirmed = aseGroups_ st).
Proof.
  intros Hactive Hg. cbn zeta. split; intros [c Hc] Hstate Hother.
  - destruct st as [? ? active ? ? ? receiver sender ? ? ? ? ? ? ? ? ? ? ? ? ?].
    cbn in Hactive, Hg, Hc, Hstate, Hother. subst.
    unfold OnAudioSinkResume, OnAudioSinkSuspend, OnAudioSuspend, StatusReportCb,
      FindById, alarm_cancel_suspend_timeout.
    destruct receiver; try discriminate Hother;
      cbn; rewrite Hg, Hc; cbn;
      rewrite bool_decide_eq_true_2 by done; repeat split.
  - destruct st as [? ? active ? ? ? receiver sender ? ? ? ? ? ? ? ? ? ? ? ? ?].
    cbn in Hactive, Hg, Hc, Hstate, Hother. subst.
    unfold OnAudioSourceResume, OnAudioSourceSuspend, OnAudioSuspend, StatusReportCb,
      FindById, alarm_cancel_suspend_timeout.
    destruct sender; try discriminate Hother;
      cbn; rewrite Hg, Hc; cbn;
      rewrite bool_decide_eq_true_2 by done; repeat split.
Qed.

End EarlySuspend.

Lemma X18_resume_before_stream_is_up_witness :
  let E := Reference.environment in
  let SM := Reference.state_machine in
  let g := Sample.group_of [0x10; 0x11] true Sample.ENABLING Sample.STREAMING 6
             (Some Sample.two_device_conf) [] in
  let st := Sample.client_of
              [(0x10, Sample.earbud (Some 1) (Some 1) true 1 (6, 6));
               (0x11, Sample.earbud (Some 2) (Some 1) true 2 (6, 6))]
              [(1, g)] (Some 1) AudioState.IDLE AudioState.READY_TO_START false
              None in
  let confirmed :=
    call AudioSource_ConfirmStreamingRequest
      (st <| audio_sender_state_ := AudioState.STARTED |>
          <| suspend_timeout_ := None |>) in
  OnAudioSinkResume (OnAudioSinkSuspend st) = Done confirmed
  /\ StatusReportCb (Some 1) GroupStreamStatus.STREAMING confirmed
     = Done (confirmed <| stream_setup_end_timestamp_ := time_get_os_boottime_us |>)
  /\ lc3_encoder_left_mem confirmed = false.
Proof.
  cbn zeta.
  destruct (X18_resume_before_stream_is_up (E := Reference.environment)
              (SM := Reference.state_machine)
              (Sample.client_of
                 [(0x10, Sample.earbud (Some 1) (Some 1) true 1 (6, 6));
                  (0x11, Sample.earbud (Some 2) (Some 1) true 2 (6, 6))]
                 [(1, Sample.group_of [0x10; 0x11] true Sample.ENABLING
                        Sample.STREAMING 6 (Some Sample.two_device_conf) [])]
                 (Some 1) AudioState.IDLE AudioState.READY_TO_START false None)
              1
              (Sample.group_of [0x10; 0x11] true Sample.ENABLING Sample.STREAMING 6
                 (Some Sample.two_device_conf) []))
    as [Hsink _]; [reflexivity|reflexivity|].
  destruct Hsink as (Hresume & Hstatus & Hencoder & _);
    [by eexists|reflexivity|reflexivity|].
  split; [exact Hresume|]. split; [exact Hstatus|exact Hencoder].
Defined.

(** ** The stream comes up *)

Section StreamComesUp.
Context {E : Environment} {SM : LeAudioGroupStateMachine}.

(** X19.  The STREAMING status of the active group starts a sender that
    waits for it.  The sink and the source direction are two values, the
    active group is registered, one of its members is active, and the
    pointer to its configuration is not null.  With a sender in
    READY_TO_START, a receiver in another state and sink ASEs that are
    configured alike, StatusReportCb runs to its end.  If no active member has an active sink ASE it only stamps the
    end of the stream setup: the sender stays READY_TO_START and the audio
    source gets neither a confirmation nor a cancel.  Otherwise the sender
    is STARTED, the group holds the sink streams gathered from the ASEs, the
    remote delay of the group goes to the audio source followed by one
    confirmation of the streaming request (after the update of the active
    configuration when the codec is on the ADSP), and with the codec on the
    host both encoders are allocated.  The receiver state and the devices
    are not touched. *)
Theorem X19_streaming_starts_sender (st : LeAudioClientImpl) (id : Z)
    (g : LeAudioDeviceGroup) :
  kLeAudioDirectionSink <> kLeAudioDirectionSource ->
  active_group_id_ st = Some id ->
  aseGroups_ st !! id = Some g ->
  is_Some (GetFirstActiveDevice g (leAudioDevices_ st)) ->
  is_Some (conf (stream_conf g)) ->
  audio_sender_state_ st = AudioState.READY_TO_START ->
  audio_receiver_state_ st <> AudioState.READY_TO_START ->
  let ases := visited_ases g (leAudioDevices_ st) kLeAudioDirectionSink in
  configured_alike ases ->
  exists st',
    StatusReportCb (Some id) GroupStreamStatus.STREAMING st = Done st'
    /\ audio_receiver_state_ st' = audio_receiver_state_ st
    /\ leAudioDevices_ st' = leAudioDevices_ st
    /\ stream_setup_end_timestamp_ st' = time_get_os_boottime_us
    /\ if bool_decide (ases = [])
       then st' = st <| stream_setup_end_timestamp_ := time_get_os_boottime_us |>
       else
         exists sc : stream_configuration,
           let delay := GetRemoteDelay (g <| stream_conf := sc |>) (leAudioDevices_ st)
                          kLeAudioDirectionSink in
           audio_sender_state_ st' = AudioState.STARTED
           /\ aseGroups_ st' = <[id := g <| stream_conf := sc |>]> (aseGroups_ st)
           /\ source sc = source (stream_conf g)
           /\ gathered_from ases
                (Z.of_nat (length (devices_of_direction g (leAudioDevices_ st)
                                     kLeAudioDirectionSink)))
                (sink sc)
           /\ calls st'
              = calls st
                ++ match GetCodecLocation with
                   | ADSP => [UpdateActiveSourceAudioConfig_call delay]
                   | _ => []
                   end
                ++ [AudioSource_UpdateRemoteDelay delay;
                    AudioSource_ConfirmStreamingRequest]
           /\ (GetCodecLocation = HOST ->
               lc3_encoder_left_mem st' = true /\ lc3_encoder_right_mem st' = true).
Proof.
  intros Hdirections Hactive Hg [first Hfirst] Hconf Hsender Hreceiver ases Halike.
  destruct (stream_configuration_runs id kLeAudioDirectionSink g st Hg Halike)
    as [Hruns _].
  destruct Hruns as (found & st1 & Hrun);
    [by intros Hnone; rewrite Hnone in Hconf; destruct Hconf|].
  pose proof (stream_configuration_gathered true id g st st1 found Hdirections Hg Hrun)
    as Hfound.
  cbv zeta in Hfound. fold ases in Hfound.
  unfold StatusReportCb, StartSendingAudio, FindById.
  rewrite Hactive, bool_decide_eq_true_2 by done. cbn [negb].
  rewrite Hsender. cbn [AudioState.eqb]. rewrite Hg, Hfirst. cbn [rbind].
  rewrite Hrun. cbn [rbind].
  destruct found.
  - destruct Hfound as (sc & -> & Hsome & _ & _ & Hsource & Hgathered).
    cbn [negb]. unfold group_at, update_group.
    cbn [setter set_aseGroups_ aseGroups_]. rewrite lookup_alter_eq, Hg.
    cbn [fmap option_fmap option_map rbind].
    rewrite bool_decide_eq_false_2 by done.
    destruct st as [devices groups active ? ? ? receiver sender ? ? ? ? ? ? ? ? ? ? ? ? log].
    cbn in Hactive, Hg, Hsender, Hreceiver, Hsome, Hsource |- *. subst.
    assert (Hgroups : alter (fun g => g <| stream_conf := sc |>) id groups
                      = <[id := g <| stream_conf := sc |>]> groups).
    { apply map_eq. intros k. destruct (decide (k = id)) as [->|Hk].
      - by rewrite lookup_alter_eq, lookup_insert_eq, Hg.
      - by rewrite lookup_alter_ne, lookup_insert_ne. }
    destruct GetCodecLocation eqn:Hlocation, receiver; try done; cbn.
    all: eexists; split; [reflexivity|]; cbn.
    all: split; [done|]; split; [done|]; split; [done|]; exists sc; cbn.
    all: split; [done|]; split; [exact Hgroups|]; split; [exact Hsource|].
    all: split; [exact Hgathered|]; split; [by rewrite <- ?app_assoc|].
    all: intros Hhost; by try split.
  - destruct Hfound as [Hnone ->]. cbn [negb rbind].
    rewrite bool_decide_eq_true_2 by done.
    destruct st as [devices groups active ? ? ? receiver sender ? ? ? ? ? ? ? ? ? ? ? ? log].
    cbn in Hactive, Hg, Hsender, Hreceiver |- *. subst.
    destruct receiver; try done; cbn.
    all: eexists; split; [reflexivity|]; by repeat split.
Qed.

End StreamComesUp.

Lemma X19_streaming_starts_sender_witness :
  let E := Reference.environment in
  let SM := Reference.state_machine in
  let g := Sample.group_of [0x10; 0x11] true Sample.STREAMING Sample.STREAMING 6
             (Some Sample.two_device_conf) [] in
  let st := Sample.client_of
              [(0x10, Sample.earbud (Some 1) (Some 1) true 1 (6, 6));
               (0x11, Sample.earbud (Some 2) (Some 1) true 2 (6, 6))]
              [(1, g)] (Some 1) AudioState.IDLE AudioState.READY_TO_START false
              None in
  exists st',
    StatusReportCb (Some 1) GroupStreamStatus.STREAMING st = Done st'
    /\ audio_sender_state_ st' = AudioState.STARTED
    /\ calls st' = [AudioSource_UpdateRemoteDelay 100;
                    AudioSource_ConfirmStreamingRequest]
    /\ lc3_encoder_left_mem st' = true.
Proof.
  cbn zeta.
  assert (Hvisited :
            visited_ases
              (Sample.group_of [0x10; 0x11] true Sample.STREAMING Sample.STREAMING 6
                 (Some Sample.two_device_conf) [])
              (leAudioDevices_
                 (Sample.client_of
                    [(0x10, Sample.earbud (Some 1) (Some 1) true 1 (6, 6));
                     (0x11, Sample.earbud (Some 2) (Some 1) true 2 (6, 6))]
                    [(1, Sample.group_of [0x10; 0x11] true Sample.STREAMING
                           Sample.STREAMING 6 (Some Sample.two_device_conf) [])]
                    (Some 1) AudioState.IDLE AudioState.READY_TO_START false None))
              (kLeAudioDirectionSink (Environment := Reference.environment))
            = [Sample.sink_ase 0x20 true 1; Sample.sink_ase 0x20 true 2])
    by (vm_compute; reflexivity).
  destruct (X19_streaming_starts_sender (E := Reference.environment)
              (SM := Reference.state_machine)
              (Sample.client_of
                 [(0x10, Sample.earbud (Some 1) (Some 1) true 1 (6, 6));
                  (0x11, Sample.earbud (Some 2) (Some 1) true 2 (6, 6))]
                 [(1, Sample.group_of [0x10; 0x11] true Sample.STREAMING
                        Sample.STREAMING 6 (Some Sample.two_device_conf) [])]
                 (Some 1) AudioState.IDLE AudioState.READY_TO_START false None)
              1
              (Sample.group_of [0x10; 0x11] true Sample.STREAMING Sample.STREAMING 6
                 (Some Sample.two_device_conf) []))
    as (st' & Hrun & _ & _ & _ & Hstarted);
    [discriminate|reflexivity|reflexivity|by eexists|by eexists|reflexivity
    |discriminate| |].
  - rewrite Hvisited. exists 48000, 10000, 100, 1. repeat constructor; by eexists.
  - rewrite Hvisited in Hstarted.
    destruct Hstarted as (sc & Hsender & _ & _ & _ & Hcalls & Hhost).
    exists st'. split; [exact Hrun|]. split; [exact Hsender|].
    split; [exact Hcalls|]. by apply Hhost.
Defined.

(** ** The removal of a member by the groups module *)

Section MemberRemoved.
Context {E : Environment}.

(** X20.  OnGroupMemberRemovedCb takes the device out of the group it is
    given without comparing it with the group the device refers to.  From a
    consistent registry the callback runs to its end.  If the device is
    unknown, refers to no group or refers to the given group, the registry
    stays consistent, and a device that referred to the given registered
    group refers to none afterwards.  If the device is a member of another
    group and the given group is registered, the device refers to no group
    afterwards while its own group still lists it: the registry is no longer
    consistent. *)
Theorem X20_member_removed_callback (address : RawAddress) (gid : Z)
    (st : LeAudioClientImpl) :
  registry_consistent st ->
  exists st',
    OnGroupMemberRemovedCb address (Some gid) st = Done st'
    /\ ((forall other, group_of_device st address = Some (Some other) -> other = gid) ->
        registry_consistent st'
        /\ (group_of_device st address = Some (Some gid) ->
            is_Some (aseGroups_ st !! gid) ->
            group_of_device st' address = Some None))
    /\ (forall (other : Z) (g : LeAudioDeviceGroup),
          other <> gid ->
          is_Some (aseGroups_ st !! gid) ->
          aseGroups_ st !! other = Some g ->
          address ∈ leAudioDevices g ->
          group_of_device st' address = Some None
          /\ (exists g', aseGroups_ st' !! other = Some g'
                         /\ leAudioDevices g' = leAudioDevices g)
          /\ ~ registry_consistent st').
Proof.
  intros Hcons.
  unfold OnGroupMemberRemovedCb, FindByAddress, FindById, group_of_device.
  destruct (leAudioDevices_ st !! address) as [d|] eqn:Hd.
  2: { exists st. split; [done|].
       split; [intros _; split; [done|intros Hx; cbn in Hx; congruence]|].
       intros other g _ _ Hg Ha. destruct (Hcons other g Hg) as [_ Hrefs].
       destruct (Hrefs address Ha) as (d & Hd' & _). congruence. }
  destruct (group_id_ d) as [own|] eqn:Hown; cbn [negb].
  2: { rewrite bool_decide_eq_false_2 by (by intros [? ?]). cbn [negb].
       exists st. split; [done|].
       split; [intros _; split; [done|intros Hx; cbn in Hx; congruence]|].
       intros other g _ _ Hg Ha. destruct (Hcons other g Hg) as [_ Hrefs].
       destruct (Hrefs address Ha) as (d' & Hd' & Hgroup). congruence. }
  rewrite bool_decide_eq_true_2 by (by eexists). cbn [negb].
  destruct (aseGroups_ st !! gid) as [g0|] eqn:Hg0.
  2: { exists st. split; [done|].
       split; [intros _; split; [done|by intros _ [? ?]]|].
       by intros other g _ [? ?]. }
  destruct (group_remove_node_total gid address false st) as [st' Hrun];
    [rewrite Hg0; by eexists|rewrite Hd; by eexists|].
  exists st'. split; [done|].
  destruct (group_remove_node_devices _ _ _ _ _ Hrun) as [_ Hdevices].
  assert (Hnone : group_id_ <$> leAudioDevices_ st' !! address = Some None)
    by (by rewrite Hdevices, lookup_alter_eq, Hd).
  split.
  - intros Hsame.
    destruct (group_remove_node_consistent _ _ _ _ _ Hrun Hcons) as (Hcons' & _).
    { intros other Hx. apply Hsame. unfold group_of_device in Hx.
      by rewrite Hd in Hx. }
    by split.
  - intros other g Hother _ Hg Ha. split; [done|].
    destruct (group_remove_node_membership _ _ _ _ _ Hrun) as (_ & _ & Hothers & _).
    specialize (Hothers other Hother). unfold membership_at in Hothers.
    rewrite Hg in Hothers.
    destruct (aseGroups_ st' !! other) as [g'|] eqn:Hg'; [|done].
    assert (Hmembers : leAudioDevices g' = leAudioDevices g)
      by (unfold membership in Hothers; cbn in Hothers; congruence).
    split; [by exists g'|].
    intros Hcons'. destruct (Hcons' other g' Hg') as [_ Hrefs].
    rewrite Hmembers in Hrefs. destruct (Hrefs address Ha) as (d' & Hd' & Hgroup).
    rewrite Hd' in Hnone. cbn in Hnone. congruence.
Qed.

End MemberRemoved.

Lemma X20_member_removed_callback_witness :
  let E := Reference.environment in
  exists st',
    OnGroupMemberRemovedCb 0x10 (Some 2) Sample.other_group_in_transition = Done st'
    /\ group_of_device st' 0x10 = Some None
    /\ (exists g', aseGroups_ st' !! 1 = Some g' /\ leAudioDevices g' = [0x10]).
Proof.
  cbn zeta.
  destruct (X20_member_removed_callback (E := Reference.environment) 0x10 2
              Sample.other_group_in_transition) as (st' & Hrun & _ & Hbreaks).
  - apply registry_consistent_check, (bool_decide_unpack _). vm_compute. reflexivity.
  - exists st'. split; [exact Hrun|].
    destruct (Hbreaks 1 (Sample.group_of [0x10] false Sample.IDLE Sample.IDLE 6 None []))
      as (Hnone & Hlisted & _);
      [discriminate|by eexists|reflexivity|by apply list_elem_of_singleton|].
    split; [exact Hnone|exact Hlisted].
Defined.

(** ** The removal of a device *)

Section RemoveDeviceTwice.
Context {E : Environment}.

Lemma RemoveDevice_disconnected (address : RawAddress) (d : LeAudioDevice)
    (st : LeAudioClientImpl) :
  registry_consistent st ->
  leAudioDevices_ st !! address = Some d ->
  conn_id_ d = None ->
  (forall id, group_id_ d = Some id -> is_Some (aseGroups_ st !! id)) ->
  exists st',
    RemoveDevice address st = Done st'
    /\ leAudioDevices_ st' !! address = None
    /\ registry_consistent st'
    /\ forall i gi, aseGroups_ st' !! i = Some gi -> address ∉ leAudioDevices gi.
Proof.
  intros Hcons Hd Hconn Hregistered.
  assert (Hrun : exists st', RemoveDevice address st = Done st'
                             /\ leAudioDevices_ st' !! address = None).
  { unfold RemoveDevice, FindByAddress. rewrite Hd, Hconn.
    rewrite bool_decide_eq_false_2 by (by intros [? ?]).
    destruct (group_id_ d) as [id|] eqn:Hid.
    - destruct (group_remove_node_total id address true st) as [s1 ->];
        [by apply Hregistered|by eexists|].
      cbn [rbind]. eexists. split; [reflexivity|].
      cbn [setter set_leAudioDevices_ leAudioDevices_]. apply lookup_delete_eq.
    - cbn [rbind]. eexists. split; [reflexivity|].
      cbn [setter set_leAudioDevices_ leAudioDevices_]. apply lookup_delete_eq. }
  destruct Hrun as (st' & Hrun & Hgone). exists st'.
  pose proof (RemoveDevice_consistent _ _ _ Hrun Hcons) as Hcons'.
  split; [done|]. split; [done|]. split; [done|].
  intros i gi Hgi Ha. destruct (Hcons' i gi Hgi) as [_ Hrefs].
  destruct (Hrefs address Ha) as (d' & Hd' & _). congruence.
Qed.

Lemma RemoveDevice_connected (address : RawAddress) (d : LeAudioDevice)
    (conn_id : Z) (st : LeAudioClientImpl) :
  leAudioDevices_ st !! address = Some d ->
  conn_id_ d = Some conn_id ->
  exists st' d',
    RemoveDevice address st = Done st'
    /\ leAudioDevices_ st' !! address = Some d'
    /\ conn_id_ d' = None
    /\ removing_device_ d' = true
    /\ group_id_ d' = group_id_ d
    /\ aseGroups_ st' = aseGroups_ st
    /\ calls st'
       = calls st
         ++ (if connecting_actively_ d then [BTA_GATTC_CancelOpen address true] else [])
         ++ [BTA_GATTC_CancelOpen address false; BtaGattQueue_Clean conn_id;
             BTA_GATTC_Close conn_id].
Proof.
  intros Hd Hconn.
  unfold RemoveDevice, Disconnect, DisconnectDevice, FindByAddress, device_at.
  rewrite Hd, Hconn. rewrite bool_decide_eq_true_2 by (by eexists).
  destruct st as [devices ? ? ? ? ? ? ? ? ? ? ? ? ? ? ? ? ? ? ? log].
  cbn in Hd. destruct (connecting_actively_ d) eqn:Hactively; cbn.
  - rewrite lookup_alter_eq, Hd. cbn. rewrite Hconn. cbn.
    eexists _, _. split; [reflexivity|]. cbn.
    rewrite !lookup_alter_eq, Hd. cbn.
    split; [reflexivity|]. repeat split; by rewrite <- ?app_assoc.
  - rewrite Hd. cbn. rewrite Hconn. cbn.
    eexists _, _. split; [reflexivity|]. cbn.
    rewrite !lookup_alter_eq, Hd. cbn.
    split; [reflexivity|]. repeat split; by rewrite <- ?app_assoc.
Qed.

(** X21.  RemoveDevice on a registered device, from a consistent registry in
    which the group the device refers to is registered.  A device without a
    connection is taken out of its group and out of the device registry: no
    group lists it and the registry stays consistent.  A device with a
    connection is only disconnected and marked as being removed: it stays
    registered with its group reference, the groups are unchanged, and the
    calls are the cancellation of the pending connects, the cleaning of the
    GATT queue and the closing of the connection; a second RemoveDevice then
    takes it out of its group and of the registry.  With a group reference
    to a group that is not registered, RemoveDevice on a device without a
    connection reads through a null group. *)
Theorem X21_remove_device (address : RawAddress) (d : LeAudioDevice)
    (st : LeAudioClientImpl) :
  registry_consistent st ->
  leAudioDevices_ st !! address = Some d ->
  let gone (s : LeAudioClientImpl) :=
    leAudioDevices_ s !! address = None
    /\ registry_consistent s
    /\ forall i gi, aseGroups_ s !! i = Some gi -> address ∉ leAudioDevices gi in
  ((forall id, group_id_ d = Some id -> is_Some (aseGroups_ st !! id)) ->
   exists st1,
     RemoveDevice address st = Done st1
     /\ match conn_id_ d with
        | None => gone st1
        | Some conn_id =>
            (exists d1,
               leAudioDevices_ st1 !! address = Some d1
               /\ conn_id_ d1 = None
               /\ removing_device_ d1 = true
               /\ group_id_ d1 = group_id_ d)
            /\ aseGroups_ st1 = aseGroups_ st
            /\ calls st1
               = calls st
                 ++ (if connecting_actively_ d
                     then [BTA_GATTC_CancelOpen address true] else [])
                 ++ [BTA_GATTC_CancelOpen address false; BtaGattQueue_Clean conn_id;
                     BTA_GATTC_Close conn_id]
            /\ exists st2, RemoveDevice address st1 = Done st2 /\ gone st2
        end)
  /\ (forall id,
        conn_id_ d = None -> group_id_ d = Some id -> aseGroups_ st !! id = None ->
        RemoveDevice address st = Abort NullPointerAccess).
Proof.
  intros Hcons Hd gone. split.
  - intros Hregistered. destruct (conn_id_ d) as [conn_id|] eqn:Hconn.
    + destruct (RemoveDevice_connected address d conn_id st Hd Hconn)
        as (st1 & d1 & Hrun & Hd1 & Hconn1 & Hremoving & Hgroup & Hgroups & Hcalls).
      exists st1. split; [done|]. split; [by exists d1|].
      split; [done|]. split; [done|].
      destruct (RemoveDevice_disconnected address d1 st1) as (st2 & Hrun2 & Hgone2);
        [by apply (RemoveDevice_consistent _ _ _ Hrun)|done|done| |by exists st2].
      intros id Hid. rewrite Hgroups. apply Hregistered. congruence.
    + destruct (RemoveDevice_disconnected address d st Hcons Hd Hconn Hregistered)
        as (st1 & Hrun & Hgone).
      by exists st1.
  - intros id Hconn Hid Hnone. unfold RemoveDevice, FindByAddress.
    rewrite Hd, Hconn, Hid. rewrite bool_decide_eq_false_2 by (by intros [? ?]).
    unfold group_remove_node, group_at. by rewrite Hnone.
Qed.

End RemoveDeviceTwice.

Lemma X21_remove_device_witness :
  let E := Reference.environment in
  exists st1 st2,
    RemoveDevice 0x10 Sample.streaming_pair = Done st1
    /\ aseGroups_ st1 = aseGroups_ Sample.streaming_pair
    /\ calls st1 = [BTA_GATTC_CancelOpen 0x10 false; BtaGattQueue_Clean 1;
                    BTA_GATTC_Close 1]
    /\ RemoveDevice 0x10 st1 = Done st2
    /\ leAudioDevices_ st2 !! 0x10 = None
    /\ forall i gi, aseGroups_ st2 !! i = Some gi -> 0x10 ∉ leAudioDevices gi.
Proof.
  cbn zeta.
  destruct (X21_remove_device (E := Reference.environment) 0x10
              (Sample.earbud (Some 1) (Some 1) true 1 (6, 6)) Sample.streaming_pair)
    as [Hremoves _].
  - apply registry_consistent_check, (bool_decide_unpack _). vm_compute. reflexivity.
  - reflexivity.
  - destruct Hremoves as (st1 & Hrun & _ & Hgroups & Hcalls & st2 & Hrun2 & Hgone & _ & Hnowhere).
    + intros id [= <-]. by eexists.
    + exists st1, st2. split; [exact Hrun|]. split; [exact Hgroups|].
      split; [exact Hcalls|]. split; [exact Hrun2|]. split; [exact Hgone|exact Hnowhere].
Defined.

(** ** The active group *)

Section ActiveGroupProperties.
Context {E : Environment} {SM : LeAudioGroupStateMachine}.
Variable IsInvalid : LeAudioCodecConfiguration -> bool.
Variable differs : LeAudioCodecConfiguration -> LeAudioCodecConfiguration -> bool.

(** UpdateConfigAndCheckIfReconfigurationIsNeeded writes to the two current
    codec configurations and the current context type only. *)
Lemma UpdateConfig_session (group_id : option Z) (context_type : LeAudioContextType.t)
    (st : LeAudioClientImpl) :
  exists source sink context,
    (UpdateConfigAndCheckIfReconfigurationIsNeeded IsInvalid differs group_id
       context_type st).2
    = st <| current_source_codec_config := source |>
         <| current_sink_codec_config := sink |>
         <| current_context_type_ := context |>.
Proof.
  unfold UpdateConfigAndCheckIfReconfigurationIsNeeded.
  destruct st as [devices groups ? context ? ? ? ? source sink ? ? ? ? ? ? ? ? ? ? ?].
  destruct (FindById _ group_id) as [[id g]|]; [|by exists source, sink, context].
  cbn [leAudioDevices_ current_source_codec_config].
  destruct (GetCodecConfigurationByDirection g devices context_type
              kLeAudioDirectionSink) as [c1|];
    [destruct (differs c1 source)|destruct (IsInvalid source)]; cbn;
    (destruct (GetCodecConfigurationByDirection g devices context_type
                 kLeAudioDirectionSource) as [c2|];
     [destruct (differs c2 sink)|destruct (IsInvalid sink)]);
    cbv [setter set_current_context_type_ set_current_sink_codec_config
         set_current_source_codec_config negb snd fst]; cbn;
    eexists _, _, _; cbn; reflexivity.
Qed.


(** The fields of a client and of a session that were built with setters. *)
Ltac client_fields :=
  cbv beta iota zeta
      delta [setter set_current_context_type_ set_current_sink_codec_config
             set_current_source_codec_config set_audio_framework_source_config
             set_audio_framework_sink_config set_active_group_id_
             set_suspend_timeout_ set_audio_receiver_state_ set_audio_sender_state_
             set_lc3_encoder_left_mem set_lc3_encoder_right_mem
             set_lc3_decoder_left_mem set_lc3_decoder_right_mem
             set_aseGroups_ set_leAudioDevices_ set_calls call store_back
             leAudioDevices_ aseGroups_ active_group_id_ current_context_type_
             stream_setup_start_timestamp_ stream_setup_end_timestamp_
             audio_receiver_state_ audio_sender_state_
             current_source_codec_config current_sink_codec_config
             audio_framework_source_config audio_framework_sink_config
             lc3_encoder_left_mem lc3_encoder_right_mem lc3_decoder_left_mem
             lc3_decoder_right_mem suspend_timeout_ cached_channel_data_
             cached_channel_timestamp_ cached_channel_is_left_ calls
             client audio_source_instance_ audio_sink_instance_ session_calls
             with_client session_call with_source_instance with_sink_instance
             negb fst snd].

Tactic Notation "client_fields" "in" hyp(H) :=
  cbv beta iota zeta
      delta [setter set_current_context_type_ set_current_sink_codec_config
             set_current_source_codec_config set_audio_framework_source_config
             set_audio_framework_sink_config set_active_group_id_
             set_suspend_timeout_ set_audio_receiver_state_ set_audio_sender_state_
             set_lc3_encoder_left_mem set_lc3_encoder_right_mem
             set_lc3_decoder_left_mem set_lc3_decoder_right_mem
             set_aseGroups_ set_leAudioDevices_ set_calls call store_back
             leAudioDevices_ aseGroups_ active_group_id_ current_context_type_
             stream_setup_start_timestamp_ stream_setup_end_timestamp_
             audio_receiver_state_ audio_sender_state_
             current_source_codec_config current_sink_codec_config
             audio_framework_source_config audio_framework_sink_config
             lc3_encoder_left_mem lc3_encoder_right_mem lc3_decoder_left_mem
             lc3_decoder_right_mem suspend_timeout_ cached_channel_data_
             cached_channel_timestamp_ cached_channel_is_left_ calls
             client audio_source_instance_ audio_sink_instance_ session_calls
             with_client session_call with_source_instance with_sink_instance
             negb fst snd] in H.

Ltac session_of s st :=
  destruct s as [st source_instance sink_instance log];
  cbn [client audio_source_instance_ audio_sink_instance_ session_calls] in *.

(** The audio HAL clients that an activation acquires. *)
Lemma GroupSetActive_first (gid : Z) (s : AudioSession) :
  is_Some (aseGroups_ (client s) !! gid) ->
  active_group_id_ (client s) = None ->
  let u := (UpdateConfigAndCheckIfReconfigurationIsNeeded IsInvalid differs
              (Some gid) LeAudioContextType.MEDIA (client s)).2 in
  let acquired :=
    (if audio_source_instance_ s then [] else [AudioSource_Acquire])
    ++ (if audio_sink_instance_ s then [] else [AudioSink_Acquire]) in
  let interval := data_interval_us (current_source_codec_config u) in
  let source_config :=
    with_data_interval_us interval (audio_framework_source_config u) in
  let sink_config :=
    with_data_interval_us interval (audio_framework_sink_config u) in
  GroupSetActive IsInvalid differs true true (Some gid) s
  = if IsInvalid (current_source_codec_config u)
       && IsInvalid (current_sink_codec_config u)
    then mk_AudioSession u true true (session_calls s ++ acquired)
    else mk_AudioSession
           (u <| audio_framework_source_config := source_config |>
              <| audio_framework_sink_config := sink_config |>
              <| active_group_id_ := Some gid |>)
           true true
           (session_calls s ++ acquired
            ++ [AudioSource_Start source_config; AudioSink_Start sink_config;
                OnGroupStatus gid ACTIVE]).
Proof.
  intros [g Hg] Hactive. session_of s st. cbv zeta.
  destruct (UpdateConfig_session (Some gid) LeAudioContextType.MEDIA st)
    as (source & sink & context & Hu).
  unfold GroupSetActive, FindById, acquire_audio_source, acquire_audio_sink.
  cbn [client]. rewrite Hg, Hactive. rewrite bool_decide_eq_false_2 by done.
  destruct source_instance, sink_instance;
    cbn [negb session_call with_source_instance with_sink_instance with_client
         client audio_source_instance_ audio_sink_instance_ session_calls];
    rewrite !Hu; clear Hu;
    destruct st as [devices groups active ? ? ? ? ? ? ? ? ? ? ? ? ? ? ? ? ? ?];
    cbn in Hactive; subst active; unfold expose_and_set_active; client_fields;
    destruct (IsInvalid source && IsInvalid sink);
    rewrite ?app_nil_r, <- ?app_assoc; reflexivity.
Qed.

(** X22.  The first activation of a group.  With a registered group, no
    active group and both audio HAL clients acquired, GroupSetActive holds
    both instances afterwards, having acquired those it did not hold, and
    leaves the registries and the calls of the client as they were.  If the
    current source and sink codec configurations are both invalid after the
    update for the media context, no group is active and nothing else is
    called.  Otherwise the group is active, both framework configurations
    carry the data interval of the current source codec configuration, the
    audio source and then the audio sink are started with them and the
    ACTIVE status is reported; a further activation of the same group only
    reports the ACTIVE status again. *)
Theorem X22_first_activation (gid : Z) (s : AudioSession) :
  is_Some (aseGroups_ (client s) !! gid) ->
  active_group_id_ (client s) = None ->
  let s' := GroupSetActive IsInvalid differs true true (Some gid) s in
  let st' := client s' in
  let acquired :=
    (if audio_source_instance_ s then [] else [AudioSource_Acquire])
    ++ (if audio_sink_instance_ s then [] else [AudioSink_Acquire]) in
  audio_source_instance_ s' = true
  /\ audio_sink_instance_ s' = true
  /\ aseGroups_ st' = aseGroups_ (client s)
  /\ leAudioDevices_ st' = leAudioDevices_ (client s)
  /\ calls st' = calls (client s)
  /\ if IsInvalid (current_source_codec_config st')
        && IsInvalid (current_sink_codec_config st')
     then active_group_id_ st' = None
          /\ session_calls s' = session_calls s ++ acquired
     else active_group_id_ st' = Some gid
          /\ data_interval_us (audio_framework_source_config st')
             = data_interval_us (current_source_codec_config st')
          /\ data_interval_us (audio_framework_sink_config st')
             = data_interval_us (current_source_codec_config st')
          /\ session_calls s'
             = session_calls s ++ acquired
               ++ [AudioSource_Start (audio_framework_source_config st');
                   AudioSink_Start (audio_framework_sink_config st');
                   OnGroupStatus gid ACTIVE]
          /\ forall a b,
               GroupSetActive IsInvalid differs a b (Some gid) s'
               = session_call (OnGroupStatus gid ACTIVE) s'.
Proof.
  intros Hg Hactive s'.
  pose proof (GroupSetActive_first gid s Hg Hactive) as Hs'. cbv zeta in Hs'.
  fold s' in Hs'. clearbody s'. destruct Hg as [g Hg].
  destruct (UpdateConfig_session (Some gid) LeAudioContextType.MEDIA (client s))
    as (source & sink & context & Hu).
  rewrite !Hu in Hs'. clear Hu. session_of s st.
  destruct st as [devices groups active ? ? ? ? ? ? ? ? ? ? ? ? ? ? ? ? ? ?].
  cbn in Hg, Hactive. subst active. client_fields in Hs'.
  destruct (IsInvalid source && IsInvalid sink) eqn:Hinvalid; subst s';
    client_fields; rewrite Hinvalid; repeat split.
  intros a b. unfold GroupSetActive, FindById. client_fields. rewrite Hg.
  by rewrite bool_decide_eq_true_2.
Qed.

Lemma GroupSetActive_unknown (a b : bool) (active : Z) (s : AudioSession) :
  active_group_id_ (client s) = Some active ->
  GroupSetActive IsInvalid differs a b None s
  = mk_AudioSession
      ((GroupStop (Some active)
          (StopAudio (alarm_cancel_suspend_timeout (client s))))
         <| active_group_id_ := None |>)
      false false
      (session_calls s
       ++ (if audio_source_instance_ s
           then [AudioSource_Stop; AudioSource_Release] else [])
       ++ (if audio_sink_instance_ s
           then [AudioSink_Stop; AudioSink_Release] else [])
       ++ [OnGroupStatus active INACTIVE]).
Proof.
  intros Hactive. session_of s st.
  unfold GroupSetActive, ClientAudioIntefraceRelease. cbn [client].
  rewrite Hactive.
  assert (Hstill : active_group_id_ (StopAudio (alarm_cancel_suspend_timeout st))
                   = Some active).
  { unfold StopAudio, SuspendAudio, alarm_cancel_suspend_timeout.
    destruct st as [? ? ? ? ? ? ? ? ? ? ? ? encoder ? decoder ? ? ? ? ? ?].
    cbn in Hactive. subst. by destruct encoder, decoder. }
  destruct source_instance, sink_instance;
    cbn [negb session_call with_source_instance with_sink_instance with_client
         client audio_source_instance_ audio_sink_instance_ session_calls];
    rewrite Hstill;
    unfold with_client, session_call, with_source_instance, with_sink_instance;
    cbn [client audio_source_instance_ audio_sink_instance_ session_calls];
    rewrite ?app_nil_r, <- ?app_assoc; reflexivity.
Qed.

(** X23.  The deactivation of the active group.  GroupSetActive with the
    unknown group cancels the keep-alive alarm, sets both audio states to
    IDLE, frees the left encoder and decoder (and the right ones if the
    left ones were allocated), stops and releases the audio HAL clients it
    holds, stops the stream of the group if the group is registered, has
    members and is not idle, reports INACTIVE for it and leaves no group
    active.  A second deactivation does nothing. *)
Theorem X23_deactivation (a b : bool) (active : Z) (s : AudioSession) :
  active_group_id_ (client s) = Some active ->
  let s' := GroupSetActive IsInvalid differs a b None s in
  let st' := client s' in
  active_group_id_ st' = None
  /\ audio_sender_state_ st' = AudioState.IDLE
  /\ audio_receiver_state_ st' = AudioState.IDLE
  /\ suspend_timeout_ st' = None
  /\ lc3_encoder_left_mem st' = false
  /\ lc3_decoder_left_mem st' = false
  /\ lc3_encoder_right_mem st'
     = negb (lc3_encoder_left_mem (client s)) && lc3_encoder_right_mem (client s)
  /\ lc3_decoder_right_mem st'
     = negb (lc3_decoder_left_mem (client s)) && lc3_decoder_right_mem (client s)
  /\ audio_source_instance_ s' = false
  /\ audio_sink_instance_ s' = false
  /\ session_calls s'
     = session_calls s
       ++ (if audio_source_instance_ s
           then [AudioSource_Stop; AudioSource_Release] else [])
       ++ (if audio_sink_instance_ s
           then [AudioSink_Stop; AudioSink_Release] else [])
       ++ [OnGroupStatus active INACTIVE]
  /\ calls st'
     = calls (client s)
       ++ match aseGroups_ (client s) !! active with
          | Some g =>
              if IsEmpty g
                 || AseState.eqb (current_state_ g)
                      AseState.BTA_LE_AUDIO_ASE_STATE_IDLE
              then [] else [StopStream_call active]
          | None => []
          end
  /\ GroupSetActive IsInvalid differs a b None s' = s'.
Proof.
  intros Hactive s'.
  pose proof (GroupSetActive_unknown a b active s Hactive) as Hs'.
  fold s' in Hs'. clearbody s'. session_of s st. subst s'.
  unfold GroupSetActive, GroupStop, StopAudio, SuspendAudio,
    alarm_cancel_suspend_timeout, FindById.
  destruct st as [devices groups ? ? ? ? ? ? ? ? ? ? encoder_left encoder_right
                  decoder_left decoder_right ? ? ? ? ?].
  cbn in Hactive. subst.
  destruct encoder_left, decoder_left; client_fields;
    (destruct (groups !! active) as [g|];
     [destruct (IsEmpty g);
      [|destruct (AseState.eqb (current_state_ g)
                    AseState.BTA_LE_AUDIO_ASE_STATE_IDLE)]|]);
    client_fields; rewrite ?app_nil_r, ?andb_false_r; repeat split.
Qed.

(** X24.  An activation in which the audio sink cannot be acquired.  With a
    registered group, no active group and no instance held, GroupSetActive
    acquires the audio source, fails to acquire the audio sink, releases the
    audio source and returns: the client is unchanged and no group is
    active, but the member audio_source_instance_ still holds the released
    instance.  The next activation therefore acquires the audio sink only,
    and starts the audio source without acquiring it again. *)
Theorem X24_sink_acquisition_fails (a : bool) (gid : Z) (s : AudioSession) :
  is_Some (aseGroups_ (client s) !! gid) ->
  active_group_id_ (client s) = None ->
  audio_source_instance_ s = false ->
  audio_sink_instance_ s = false ->
  let s1 := GroupSetActive IsInvalid differs true false (Some gid) s in
  let s2 := GroupSetActive IsInvalid differs a true (Some gid) s1 in
  client s1 = client s
  /\ audio_source_instance_ s1 = true
  /\ audio_sink_instance_ s1 = false
  /\ session_calls s1
     = session_calls s
       ++ [AudioSource_Acquire; AudioSink_Acquire; AudioSource_Release]
  /\ session_calls s2
     = session_calls s1 ++ [AudioSink_Acquire]
       ++ (if IsInvalid (current_source_codec_config (client s2))
              && IsInvalid (current_sink_codec_config (client s2))
           then []
           else [AudioSource_Start (audio_framework_source_config (client s2));
                 AudioSink_Start (audio_framework_sink_config (client s2));
                 OnGroupStatus gid ACTIVE]).
Proof.
  intros Hg Hactive Hsource Hsink s1.
  assert (Hs1 : s1 = mk_AudioSession (client s) true false
                       (session_calls s
                        ++ [AudioSource_Acquire; AudioSink_Acquire;
                            AudioSource_Release])).
  { subst s1. destruct Hg as [g Hg]. session_of s st. subst.
    unfold GroupSetActive, FindById, acquire_audio_source, acquire_audio_sink.
    cbn [client]. rewrite Hg, Hactive.
    rewrite bool_decide_eq_false_2 by done. client_fields.
    by rewrite <- ?app_assoc. }
  clearbody s1. subst s1. intros s2.
  split; [done|]. split; [done|]. split; [done|]. split; [done|].
  pose proof (GroupSetActive_first gid
                (mk_AudioSession (client s) true false
                   (session_calls s
                    ++ [AudioSource_Acquire; AudioSink_Acquire; AudioSource_Release]))
                Hg Hactive) as Hfirst.
  cbv zeta in Hfirst.
  cbn [client audio_source_instance_ audio_sink_instance_ session_calls] in Hfirst.
  assert (Hs2 : s2 = GroupSetActive IsInvalid differs true true (Some gid)
                       (mk_AudioSession (client s) true false
                          (session_calls s
                           ++ [AudioSource_Acquire; AudioSink_Acquire;
                               AudioSource_Release]))).
  { subst s2. unfold GroupSetActive, acquire_audio_source.
    by cbn [audio_source_instance_ audio_sink_instance_ negb]. }
  clearbody s2. rewrite Hfirst in Hs2. clear Hfirst.
  destruct (UpdateConfig_session (Some gid) LeAudioContextType.MEDIA (client s))
    as (source & sink & context & Hu).
  rewrite !Hu in Hs2. clear Hu. session_of s st.
  destruct st as [devices groups active ? ? ? ? ? ? ? ? ? ? ? ? ? ? ? ? ? ?].
  client_fields in Hs2.
  destruct (IsInvalid source && IsInvalid sink) eqn:Hinvalid; subst s2;
    client_fields; rewrite Hinvalid; by rewrite <- ?app_assoc.
Qed.

End ActiveGroupProperties.

Lemma X22_first_activation_witness :
  let E := Reference.environment in
  let SM := Reference.state_machine in
  let s := mk_AudioSession Sample.right_bud_added false false [] in
  let s' := GroupSetActive CodecExample.is_invalid CodecExample.differs true true
              (Some 1) s in
  audio_source_instance_ s' = true
  /\ audio_sink_instance_ s' = true
  /\ aseGroups_ (client s') = aseGroups_ Sample.right_bud_added.
Proof.
  cbn zeta.
  destruct (X22_first_activation (E := Reference.environment)
              (SM := Reference.state_machine) CodecExample.is_invalid
              CodecExample.differs 1
              (mk_AudioSession Sample.right_bud_added false false []))
    as (Hsource & Hsink & Hgroups & _); [by eexists|reflexivity|].
  split; [exact Hsource|]. split; [exact Hsink|exact Hgroups].
Defined.

Lemma X23_deactivation_witness :
  let E := Reference.environment in
  let SM := Reference.state_machine in
  let s := mk_AudioSession Sample.streaming_pair true true [] in
  let s' := GroupSetActive CodecExample.is_invalid CodecExample.differs true true
              None s in
  active_group_id_ (client s') = None
  /\ session_calls s'
     = [AudioSource_Stop; AudioSource_Release; AudioSink_Stop; AudioSink_Release;
        OnGroupStatus 1 INACTIVE]
  /\ calls (client s') = [StopStream_call 1].
Proof.
  cbn zeta.
  destruct (X23_deactivation (E := Reference.environment)
              (SM := Reference.state_machine) CodecExample.is_invalid
              CodecExample.differs true true 1
              (mk_AudioSession Sample.streaming_pair true true []))
    as (Hactive & _ & _ & _ & _ & _ & _ & _ & _ & _ & Hsession & Hcalls & _);
    [reflexivity|].
  split; [exact Hactive|]. split; [exact Hsession|exact Hcalls].
Defined.

Lemma X24_sink_acquisition_fails_witness :
  let E := Reference.environment in
  let SM := Reference.state_machine in
  let s := mk_AudioSession Sample.right_bud_added false false [] in
  let s1 := GroupSetActive CodecExample.is_invalid CodecExample.differs true false
              (Some 1) s in
  client s1 = Sample.right_bud_added
  /\ audio_source_instance_ s1 = true
  /\ session_calls s1 = [AudioSource_Acquire; AudioSink_Acquire; AudioSource_Release].
Proof.
  cbn zeta.
  destruct (X24_sink_acquisition_fails (E := Reference.environment)
              (SM := Reference.state_machine) CodecExample.is_invalid
              CodecExample.differs true 1
              (mk_AudioSession Sample.right_bud_added false false []))
    as (Hclient & Hsource & _ & Hsession & _);
    [by eexists|reflexivity|reflexivity|reflexivity|].
  split; [exact Hclient|]. split; [exact Hsource|exact Hsession].
Defined.

(** ** C4: the invariant of the group registry under every operation *)

Lemma registry_invariant_groups (st st' : LeAudioClientImpl) :
  aseGroups_ st' = aseGroups_ st ->
  registry_invariant st -> registry_invariant st'.
Proof. unfold registry_invariant. by intros ->. Qed.

Lemma registry_invariant_membership (st st' : LeAudioClientImpl) :
  (forall i, membership_at st' i = membership_at st i) ->
  registry_invariant st -> registry_invariant st'.
Proof.
  intros Hsame Hinv. apply registry_invariant_except.
  apply (invariant_except_groups None st st' Hsame).
  by apply registry_invariant_except.
Qed.

Lemma registry_invariant_insert (id : Z) (g : LeAudioDeviceGroup)
    (st st' : LeAudioClientImpl) :
  aseGroups_ st' = <[id := g]> (aseGroups_ st) ->
  group_invariant g ->
  registry_invariant st -> registry_invariant st'.
Proof.
  intros Hgroups Hg Hinv i gi. rewrite Hgroups.
  destruct (decide (i = id)) as [->|Hne].
  - rewrite lookup_insert_eq. by intros [= <-].
  - rewrite lookup_insert_ne by done. apply Hinv.
Qed.

Lemma registry_invariant_store_back (id : Z)
    (r : LeAudioDeviceGroup * gmap Z LeAudioDevice) (st : LeAudioClientImpl) :
  group_invariant r.1 ->
  registry_invariant st -> registry_invariant (store_back id r st).
Proof. intros Hr Hinv. by apply (registry_invariant_insert id r.1 st). Qed.

Lemma registry_invariant_update_group (id : Z)
    (f : LeAudioDeviceGroup -> LeAudioDeviceGroup) (st : LeAudioClientImpl) :
  (forall g, membership (f g) = membership g) ->
  registry_invariant st -> registry_invariant (update_group id f st).
Proof.
  intros Hf. apply registry_invariant_membership. intros i.
  by apply membership_at_update_group.
Qed.

Lemma registry_invariant_at (st : LeAudioClientImpl) (id : Z)
    (g : LeAudioDeviceGroup) :
  registry_invariant st -> aseGroups_ st !! id = Some g -> group_invariant g.
Proof. intros Hinv. apply Hinv. Qed.

Lemma FindById_Some (st : LeAudioClientImpl) (group_id : option Z) (id : Z)
    (g : LeAudioDeviceGroup) :
  FindById st group_id = Some (id, g) ->
  group_id = Some id /\ aseGroups_ st !! id = Some g.
Proof.
  unfold FindById. destruct group_id as [i|]; [|done].
  destruct (aseGroups_ st !! i) eqn:Hg; [|done]. by intros [= -> ->].
Qed.

(** The case analysis of a run that ends: binds, branches and results. *)
Ltac run_step H :=
  match type of H with
  | Done _ = Done _ => injection H as H
  | Abort _ = Done _ => discriminate H
  | (_, _) = (_, _) => injection H as ? H
  | rbind _ _ = Done _ =>
      let x := fresh "r" in
      let Hx := fresh "Hrun" in
      apply rbind_Done in H as (x & Hx & H)
  | (match ?c with _ => _ end) = Done _ =>
      let Hc := fresh "Hcase" in destruct c eqn:Hc
  end.

Ltac run_cases H := repeat (run_step H; cbn beta iota zeta in H).

Section EveryOperation.
Context {E : Environment} {SM : LeAudioGroupStateMachine}.

(** *** Operations that leave the registry of groups alone *)

Lemma CancelStreamingRequest_invariant (st : LeAudioClientImpl) :
  registry_invariant st -> registry_invariant (CancelStreamingRequest st).
Proof.
  apply registry_invariant_groups. apply CancelStreamingRequest_groups.
Qed.

Lemma SuspendedForReconfiguration_invariant (st : LeAudioClientImpl) :
  registry_invariant st -> registry_invariant (SuspendedForReconfiguration st).
Proof.
  unfold SuspendedForReconfiguration.
  destruct (AudioState.gtb (audio_sender_state_ st) AudioState.IDLE);
    by destruct (AudioState.gtb _ AudioState.IDLE).
Qed.

Lemma ControlPointNotificationHandler_invariant (ntf : ctp_ntf)
    (st : LeAudioClientImpl) :
  registry_invariant st ->
  registry_invariant (ControlPointNotificationHandler ntf st).
Proof.
  apply registry_invariant_groups.
  unfold ControlPointNotificationHandler. apply fold_left_groups.
  intros s x. destruct (_ && _); [|done].
  apply CancelStreamingRequest_groups.
Qed.

Lemma DisconnectDevice_invariant (a : RawAddress) (force : bool)
    (st st' : LeAudioClientImpl) :
  DisconnectDevice a force st = Done st' ->
  registry_invariant st -> registry_invariant st'.
Proof.
  intros H. apply registry_invariant_groups.
  apply (DisconnectDevice_groups _ _ _ _ H).
Qed.

Lemma Disconnect_invariant (a : RawAddress) (st st' : LeAudioClientImpl) :
  Disconnect a st = Done st' ->
  registry_invariant st -> registry_invariant st'.
Proof.
  intros H. apply registry_invariant_groups.
  apply (Disconnect_groups _ _ _ H).
Qed.

Lemma BackgroundConnectIfGroupConnected_invariant (a : RawAddress)
    (st st' : LeAudioClientImpl) :
  BackgroundConnectIfGroupConnected a st = Done st' ->
  registry_invariant st -> registry_invariant st'.
Proof.
  unfold BackgroundConnectIfGroupConnected. intros H Hinv.
  run_cases H; by subst.
Qed.

Lemma AseInitialStateReadRequest_invariant (a : RawAddress)
    (st st' : LeAudioClientImpl) :
  AseInitialStateReadRequest a st = Done st' ->
  registry_invariant st -> registry_invariant st'.
Proof.
  intros H. apply registry_invariant_groups.
  apply (AseInitialStateReadRequest_groups _ _ _ H).
Qed.

Lemma disconnect_active_devices_invariant (fuel : nat) (group : Z) :
  forall (a : RawAddress) (st st' : LeAudioClientImpl),
    disconnect_active_devices fuel group a st = Done st' ->
    registry_invariant st -> registry_invariant st'.
Proof.
  induction fuel as [|fuel IH]; intros a st st' H Hinv; [done|].
  cbn [disconnect_active_devices] in H. run_cases H.
  - apply (IH _ _ _ H). by apply (DisconnectDevice_invariant _ _ _ _ Hrun).
  - subst. by apply (DisconnectDevice_invariant _ _ _ _ Hrun).
Qed.

Lemma OnLeAudioDeviceSetStateTimeout_invariant (group_id : Z)
    (st st' : LeAudioClientImpl) :
  OnLeAudioDeviceSetStateTimeout group_id st = Done st' ->
  registry_invariant st -> registry_invariant st'.
Proof.
  unfold OnLeAudioDeviceSetStateTimeout. intros H Hinv.
  destruct (aseGroups_ st !! group_id) as [g|]; [|by injection H as <-].
  cbv zeta in H.
  match type of H with
  | context [CancelStreamingRequest ?s] =>
      assert (Hs : registry_invariant (CancelStreamingRequest s))
  end.
  { apply CancelStreamingRequest_invariant.
    by apply registry_invariant_update_group. }
  run_cases H; subst; try done.
  all: by apply (disconnect_active_devices_invariant _ _ _ _ _ H).
Qed.

(** *** The refresh of contexts and locations *)

Lemma group_UpdateActiveContextsMap_invariant (group contexts : Z)
    (st : LeAudioClientImpl) (r : option Z * LeAudioClientImpl) :
  group_UpdateActiveContextsMap group contexts st = Done r ->
  registry_invariant st -> registry_invariant r.2.
Proof.
  destruct r as [updated st']. intros H. apply registry_invariant_membership.
  apply (group_UpdateActiveContextsMap_membership _ _ _ _ _ H).
Qed.

Lemma group_ReloadAudioLocations_invariant (group : Z)
    (st : LeAudioClientImpl) (r : bool * LeAudioClientImpl) :
  group_ReloadAudioLocations group st = Done r ->
  registry_invariant st -> registry_invariant r.2.
Proof.
  destruct r as [changed st']. intros H. apply registry_invariant_membership.
  apply (group_ReloadAudioLocations_membership _ _ _ _ H).
Qed.

Lemma callbacks_OnAudioConf_invariant (group contexts : Z)
    (st st' : LeAudioClientImpl) :
  callbacks_OnAudioConf group contexts st = Done st' ->
  registry_invariant st -> registry_invariant st'.
Proof.
  intros H. apply registry_invariant_membership.
  apply (callbacks_OnAudioConf_membership _ _ _ _ H).
Qed.

Lemma UpdateContextAndLocations_invariant (group : Z) (a : RawAddress)
    (st st' : LeAudioClientImpl) :
  UpdateContextAndLocations group a st = Done st' ->
  registry_invariant st -> registry_invariant st'.
Proof.
  intros H. apply registry_invariant_membership.
  apply (UpdateContextAndLocations_membership _ _ _ _ H).
Qed.

Lemma HandlePendingAvailableContexts_invariant (group : option Z)
    (st st' : LeAudioClientImpl) :
  HandlePendingAvailableContexts group st = Done st' ->
  registry_invariant st -> registry_invariant st'.
Proof.
  unfold HandlePendingAvailableContexts. intros H Hinv.
  run_cases H; subst; try done.
  apply registry_invariant_update_group; [done|].
  apply (group_UpdateActiveContextsMap_invariant _ _ _ _ Hrun0) in Hinv.
  destruct o as [contexts|]; [|by injection Hrun1 as <-].
  by apply (callbacks_OnAudioConf_invariant _ _ _ _ Hrun1).
Qed.

(** *** Members and groups *)

Lemma remove_group_if_possible_invariant (group : option Z)
    (st st' : LeAudioClientImpl) :
  remove_group_if_possible group st = Done st' ->
  registry_invariant st -> registry_invariant st'.
Proof.
  intros H Hinv. apply registry_invariant_except. intros i m Hm _.
  destruct (remove_group_if_possible_survivors _ _ _ H i m Hm) as [Hwas _].
  apply registry_invariant_except in Hinv. by apply (Hinv i m).
Qed.

Lemma group_remove_node_registry (group : Z) (a : RawAddress)
    (update_group_module : bool) (st st' : LeAudioClientImpl) :
  group_remove_node group a update_group_module st = Done st' ->
  registry_invariant st -> registry_invariant st'.
Proof.
  intros H Hinv. apply registry_invariant_except.
  apply (group_remove_node_invariant _ _ _ _ _ _ H).
  by apply registry_invariant_except.
Qed.

Lemma GroupRemoveNode_invariant (group_id : option Z) (a : RawAddress)
    (st st' : LeAudioClientImpl) :
  GroupRemoveNode group_id a st = Done st' ->
  registry_invariant st -> registry_invariant st'.
Proof.
  unfold GroupRemoveNode. intros H Hinv.
  destruct (FindByAddress st a) as [d|]; [|by injection H as <-].
  destruct (negb _); [by injection H as <-|].
  destruct (FindById st group_id) as [[group g]|]; [|by injection H as <-].
  by apply (group_remove_node_registry _ _ _ _ _ H).
Qed.

Lemma RemoveDevice_invariant (a : RawAddress) (st st' : LeAudioClientImpl) :
  RemoveDevice a st = Done st' ->
  registry_invariant st -> registry_invariant st'.
Proof.
  unfold RemoveDevice. intros H Hinv.
  destruct (FindByAddress st a) as [d|]; [|by injection H as <-].
  destruct (bool_decide _).
  - apply rbind_Done in H as (s1 & H1 & [= <-]).
    by apply (Disconnect_invariant _ _ _ H1).
  - apply rbind_Done in H as (s1 & H1 & [= <-]).
    destruct (group_id_ d) as [id|]; [|by injection H1 as <-].
    by apply (group_remove_node_registry _ _ _ _ _ H1).
Qed.

Lemma OnGroupAddedCb_invariant (kCapServiceUuid : Z) (a : RawAddress)
    (uuid : Z) (group_id : option Z) (st st' : LeAudioClientImpl) :
  OnGroupAddedCb kCapServiceUuid a uuid group_id st = Done st' ->
  registry_invariant st -> registry_invariant st'.
Proof.
  unfold OnGroupAddedCb. intros H Hinv.
  destruct (negb _); [by injection H as <-|].
  destruct (FindByAddress st a) as [d|]; [|by injection H as <-].
  destruct (bool_decide _); [by injection H as <-|].
  by apply (group_add_node_invariant _ _ _ _ _ H).
Qed.

Lemma OnGroupMemberAddedCb_invariant (a : RawAddress) (group_id : option Z)
    (st st' : LeAudioClientImpl) :
  OnGroupMemberAddedCb a group_id st = Done st' ->
  registry_invariant st -> registry_invariant st'.
Proof.
  unfold OnGroupMemberAddedCb. intros H Hinv.
  destruct (FindById st group_id) as [[group g]|]; [|by injection H as <-].
  destruct (FindByAddress st a) as [d|]; [|by injection H as <-].
  destruct (bool_decide _); [by injection H as <-|].
  by apply (group_add_node_invariant _ _ _ _ _ H).
Qed.

Lemma OnGroupMemberRemovedCb_invariant (a : RawAddress) (group_id : option Z)
    (st st' : LeAudioClientImpl) :
  OnGroupMemberRemovedCb a group_id st = Done st' ->
  registry_invariant st -> registry_invariant st'.
Proof.
  unfold OnGroupMemberRemovedCb. intros H Hinv.
  destruct (FindByAddress st a) as [d|]; [|by injection H as <-].
  destruct (negb _); [by injection H as <-|].
  destruct (FindById st group_id) as [[group g]|]; [|by injection H as <-].
  by apply (group_remove_node_registry _ _ _ _ _ H).
Qed.

Lemma AddFromStorage_invariant (a : RawAddress) (autoconnect : bool)
    (st st' : LeAudioClientImpl) :
  AddFromStorage a autoconnect st = Done st' ->
  registry_invariant st -> registry_invariant st'.
Proof.
  unfold AddFromStorage. intros H Hinv. cbv zeta in H.
  apply rbind_Done in H as (s1 & H1 & H).
  assert (Hs1 : registry_invariant s1).
  { destruct (bool_decide _).
    - apply (group_add_node_invariant _ _ _ _ _ H1).
      by destruct (FindByAddress st a).
    - injection H1 as <-. by destruct (FindByAddress st a). }
  destruct autoconnect; by injection H as <-.
Qed.

(** *** Operations that hand a group to the state machine *)

Hypothesis state_machine_ok : state_machine_keeps_invariant.

Lemma InternalGroupStream_invariant (group_id : option Z) (context_type : Z)
    (st : LeAudioClientImpl) :
  registry_invariant st ->
  registry_invariant (InternalGroupStream group_id context_type st).2.
Proof.
  intros Hinv. unfold InternalGroupStream.
  destruct (_ <=? _); [done|].
  destruct (FindById st group_id) as [[group g]|] eqn:Hfind; [|done].
  apply FindById_Some in Hfind as [_ Hg].
  destruct (negb _); [done|]. destruct (IsAnyInTransition _); [done|].
  cbv zeta.
  match goal with
  | |- context [store_back group ?r ?s] =>
      assert (Hstored : registry_invariant (store_back group r s))
  end.
  { apply registry_invariant_store_back; [|done].
    apply state_machine_ok. by apply (Hinv group). }
  by destruct (StartStream g (leAudioDevices_ st) _).1.
Qed.

Lemma GroupStream_invariant (group_id : option Z) (context_type : Z)
    (st : LeAudioClientImpl) :
  registry_invariant st ->
  registry_invariant (GroupStream group_id context_type st).
Proof. apply InternalGroupStream_invariant. Qed.

Lemma GroupStop_invariant (group_id : option Z) (st : LeAudioClientImpl) :
  registry_invariant st -> registry_invariant (GroupStop group_id st).
Proof.
  intros Hinv. unfold GroupStop.
  destruct (FindById st group_id) as [[group g]|] eqn:Hfind; [|done].
  apply FindById_Some in Hfind as [_ Hg].
  destruct (IsEmpty g); [done|]. destruct (AseState.eqb _ _); [done|].
  apply registry_invariant_store_back; [|done].
  apply state_machine_ok. by apply (Hinv group).
Qed.

Lemma group_ConfigureStream_invariant (group : Z) (st : LeAudioClientImpl)
    (r : bool * LeAudioClientImpl) :
  group_ConfigureStream group st = Done r ->
  registry_invariant st -> registry_invariant r.2.
Proof.
  unfold group_ConfigureStream. intros H Hinv.
  apply rbind_Done in H as (g & Hg%group_at_Done & [= <-]).
  apply registry_invariant_store_back; [|done].
  apply state_machine_ok. by apply (Hinv group).
Qed.

Lemma IsoCigEventsCb_registry (event : cig_event) (st st' : LeAudioClientImpl) :
  IsoCigEventsCb event st = Done st' ->
  registry_invariant st -> registry_invariant st'.
Proof.
  intros H. apply (IsoCigEventsCb_invariant event st st'); [|done].
  apply state_machine_ok.
Qed.

(** *** The GATT handler *)

Lemma on_pac_invariant (sink_side : bool) (a : RawAddress) (d : LeAudioDevice)
    (hdl : Z) (value : list Z) (st st' : LeAudioClientImpl) :
  on_pac sink_side a d hdl value st = Done st' ->
  registry_invariant st -> registry_invariant st'.
Proof.
  unfold on_pac. intros H Hinv.
  destruct (ParsePac value) as [pac_recs|]; [|by injection H as <-].
  cbv zeta in H.
  destruct (FindById _ (group_id_ d)) as [[group g]|]; [|by injection H as <-].
  apply rbind_Done in H as (d' & _ & H).
  apply rbind_Done in H as ([updated s1] & H1 & [= <-]).
  by apply (group_UpdateActiveContextsMap_invariant _ _ _ _ H1).
Qed.

Lemma on_audio_locations_invariant (sink_side : bool) (a : RawAddress)
    (d : LeAudioDevice) (value : list Z) (st st' : LeAudioClientImpl) :
  on_audio_locations sink_side a d value st = Done st' ->
  registry_invariant st -> registry_invariant st'.
Proof.
  unfold on_audio_locations. intros H Hinv. cbv zeta in H.
  destruct (_ && _); [by injection H as <-|].
  destruct (FindById _ (group_id_ d)) as [[group g]|];
    [|injection H as <-; by destruct sink_side].
  apply rbind_Done in H as ([reloaded s1] & H1 & H).
  assert (Hs1 : registry_invariant s1).
  { apply (group_ReloadAudioLocations_invariant _ _ _ H1). by destruct sink_side. }
  destruct reloaded; [|by injection H as <-].
  apply rbind_Done in H as (g' & _ & H).
  by apply (callbacks_OnAudioConf_invariant _ _ _ _ H).
Qed.

Lemma on_available_audio_contexts_invariant (a : RawAddress)
    (d : LeAudioDevice) (value : list Z) (st st' : LeAudioClientImpl) :
  on_available_audio_contexts a d value st = Done st' ->
  registry_invariant st -> registry_invariant st'.
Proof.
  unfold on_available_audio_contexts. intros H Hinv. cbv zeta in H.
  destruct (negb _); [|by injection H as <-].
  destruct (FindById _ (group_id_ d)) as [[group g]|]; [|by injection H as <-].
  destruct (_ || _).
  - injection H as <-. by apply registry_invariant_update_group.
  - apply rbind_Done in H as ([updated s1] & H1 & H).
    assert (Hs1 : registry_invariant s1)
      by (by apply (group_UpdateActiveContextsMap_invariant _ _ _ _ H1)).
    destruct (bool_decide _); [|by injection H as <-].
    apply rbind_Done in H as (g' & _ & H).
    by apply (callbacks_OnAudioConf_invariant _ _ _ _ H).
Qed.

Lemma LeAudioCharValueHandle_invariant (conn_id hdl : Z) (value : list Z)
    (st st' : LeAudioClientImpl) :
  LeAudioCharValueHandle conn_id hdl value st = Done st' ->
  registry_invariant st -> registry_invariant st'.
Proof.
  unfold LeAudioCharValueHandle. intros H Hinv.
  destruct (FindByConnId st conn_id) as [a|]; [|by injection H as <-].
  apply rbind_Done in H as (d & _ & H).
  destruct (existsb _ (ases_ d)).
  { cbv zeta in H.
    destruct (FindById st (group_id_ d)) as [[id g]|] eqn:Hfind;
      [|by injection H as <-].
    apply FindById_Some in Hfind as [_ Hg]. cbn [fmap option_fmap option_map snd] in H.
    destruct (ProcessGattNotifEvent value hdl a (Some g) _).1 as [g'|] eqn:Hr;
      injection H as <-; [|done].
    eapply registry_invariant_insert; [reflexivity| |exact Hinv].
    destruct state_machine_ok as (_ & _ & _ & _ & Hgatt & _).
    apply (Hgatt _ _ _ g g' _ (Hinv id g Hg) Hr). }
  destruct (has_handle hdl (snk_pacs_ d));
    [by apply (on_pac_invariant _ _ _ _ _ _ _ H)|].
  destruct (has_handle hdl (src_pacs_ d));
    [by apply (on_pac_invariant _ _ _ _ _ _ _ H)|].
  destruct (hdl =? snk_audio_locations_hdls_ d);
    [by apply (on_audio_locations_invariant _ _ _ _ _ _ H)|].
  destruct (hdl =? src_audio_locations_hdls_ d);
    [by apply (on_audio_locations_invariant _ _ _ _ _ _ H)|].
  destruct (hdl =? audio_avail_hdls_ d);
    [by apply (on_available_audio_contexts_invariant _ _ _ _ _ H)|].
  destruct (hdl =? audio_supp_cont_hdls_ d); [by injection H as <-|].
  destruct (hdl =? ctp_hdls_ d); [|by injection H as <-].
  destruct (ParseAseCtpNotification value) as [ntf|]; injection H as <-; [|done].
  by apply ControlPointNotificationHandler_invariant.
Qed.

(** *** A device joins the stream *)

Lemma configure_entries_groups (ents : list SetConfiguration) (a : RawAddress)
    (context_type : LeAudioContextType.t) :
  forall (n1 n2 l1 l2 : Z) (st : LeAudioClientImpl)
         (r : bool * LeAudioClientImpl),
    configure_entries ents a context_type n1 n2 l1 l2 st = Done r ->
    aseGroups_ r.2 = aseGroups_ st.
Proof.
  induction ents as [|ent ents IH]; intros n1 n2 l1 l2 st r H;
    cbn [configure_entries] in H.
  - by injection H as <-.
  - apply rbind_Done in H as (d & _ & H). cbv zeta in H.
    destruct (negb _); [by injection H as <-|].
    by rewrite (IH _ _ _ _ _ _ H).
Qed.

Lemma AttachToStreamingGroupIfNeeded_invariant (a : RawAddress)
    (st st' : LeAudioClientImpl) :
  AttachToStreamingGroupIfNeeded a st = Done st' ->
  registry_invariant st -> registry_invariant st'.
Proof.
  unfold AttachToStreamingGroupIfNeeded. intros H Hinv.
  apply rbind_Done in H as (d & _ & H).
  destruct (negb _); [by injection H as <-|]. cbv zeta in H.
  destruct (_ && _); [by injection H as <-|].
  destruct (FindById st (active_group_id_ st)) as [[group g]|]; [|done].
  destruct (_ <? _).
  - apply rbind_Done in H as (g' & Hg'%group_at_Done & [= <-]).
    assert (Hupd : registry_invariant
                     (update_group group
                        (fun g => g <| pending_configuration_ := true |>) st))
      by (by apply registry_invariant_update_group).
    apply registry_invariant_store_back; [|done].
    apply state_machine_ok. by apply (Hupd group).
  - destruct (conf (stream_conf g)) as [c|]; [|done].
    apply rbind_Done in H as ([configured s1] & H1 & H).
    apply configure_entries_groups in H1. cbn in H1.
    assert (Hs1 : registry_invariant s1)
      by (by apply (registry_invariant_groups st)).
    destruct configured; [|by injection H as <-].
    apply rbind_Done in H as (g' & Hg'%group_at_Done & [= <-]).
    apply registry_invariant_store_back; [|done].
    apply state_machine_ok. by apply (Hs1 group).
Qed.

Lemma connectionReady_invariant (a : RawAddress) (st st' : LeAudioClientImpl) :
  connectionReady a st = Done st' ->
  registry_invariant st -> registry_invariant st'.
Proof.
  unfold connectionReady. intros H Hinv. cbv zeta in H.
  apply rbind_Done in H as (d & _ & H).
  apply rbind_Done in H as (s1 & H1 & H).
  assert (Hs1 : registry_invariant s1).
  { destruct (group_id_ d) as [group|]; [|by injection H1 as <-].
    apply rbind_Done in H1 as (s0 & H0 & H1).
    apply (AttachToStreamingGroupIfNeeded_invariant _ _ _ H1).
    by apply (UpdateContextAndLocations_invariant _ _ _ _ H0). }
  apply rbind_Done in H as (d' & _ & H).
  destruct (first_connection_ d'); by injection H as <-.
Qed.

(** *** The audio framework *)

Lemma GetStreamConfigurationByDirection_invariant (group dir : Z)
    (st : LeAudioClientImpl) (r : bool * LeAudioClientImpl) :
  GetStreamConfigurationByDirection group dir st = Done r ->
  registry_invariant st -> registry_invariant r.2.
Proof.
  unfold GetStreamConfigurationByDirection. intros H Hinv.
  apply rbind_Done in H as (g & _ & H).
  apply rbind_Done in H as (gathered & _ & H).
  destruct (streams gathered); [by injection H as <-|]. cbv zeta in H.
  match type of H with
  | (match ?c with _ => _ end) = _ => destruct c; [|done]
  end.
  injection H as <-. by apply registry_invariant_update_group.
Qed.

Lemma StartSendingAudio_invariant (group_id : option Z)
    (st : LeAudioClientImpl) (r : bool * LeAudioClientImpl) :
  StartSendingAudio group_id st = Done r ->
  registry_invariant st -> registry_invariant r.2.
Proof.
  unfold StartSendingAudio. intros H Hinv.
  destruct (FindById st group_id) as [[group g]|]; [|done].
  destruct (GetFirstActiveDevice g _); [|done].
  apply rbind_Done in H as ([found s1] & H1 & H).
  assert (Hs1 : registry_invariant s1)
    by (by apply (GetStreamConfigurationByDirection_invariant _ _ _ _ H1)).
  destruct found; cbn [negb] in H; [|by injection H as <-].
  apply rbind_Done in H as (g' & _ & [= <-]).
  by destruct GetCodecLocation.
Qed.

Lemma StartReceivingAudio_invariant (group_id : option Z)
    (st st' : LeAudioClientImpl) :
  StartReceivingAudio group_id st = Done st' ->
  registry_invariant st -> registry_invariant st'.
Proof.
  unfold StartReceivingAudio. intros H Hinv.
  destruct (FindById st group_id) as [[group g]|]; [|done].
  apply rbind_Done in H as ([found s1] & H1 & H).
  assert (Hs1 : registry_invariant s1)
    by (by apply (GetStreamConfigurationByDirection_invariant _ _ _ _ H1)).
  destruct found; cbn [negb] in H; [|by injection H as <-].
  apply rbind_Done in H as (g' & _ & [= <-]).
  by destruct GetCodecLocation.
Qed.

Lemma SuspendAudio_invariant (st : LeAudioClientImpl) :
  registry_invariant st -> registry_invariant (SuspendAudio st).
Proof.
  intros Hinv. unfold SuspendAudio. cbv zeta.
  repeat match goal with
         | |- context [if ?c then _ else _] => destruct c
         end; done.
Qed.

Lemma OnAudioSuspend_invariant (st : LeAudioClientImpl) :
  registry_invariant st -> registry_invariant (OnAudioSuspend st).
Proof. intros Hinv. unfold OnAudioSuspend. by destruct (active_group_id_ st). Qed.

Lemma suspend_timeout_expired_invariant (st : LeAudioClientImpl) :
  registry_invariant st -> registry_invariant (suspend_timeout_expired st).
Proof.
  intros Hinv. unfold suspend_timeout_expired.
  destruct (suspend_timeout_ st) as [[timeout id]|]; [|done].
  by apply GroupStop_invariant.
Qed.

Lemma OnAudioSinkSuspend_invariant (st : LeAudioClientImpl) :
  registry_invariant st -> registry_invariant (OnAudioSinkSuspend st).
Proof.
  intros Hinv. unfold OnAudioSinkSuspend. cbv zeta.
  destruct (audio_sender_state_ st);
    repeat match goal with
           | |- context [if ?c then _ else _] => destruct c
           end;
    try done; by apply OnAudioSuspend_invariant.
Qed.

Lemma OnAudioSourceSuspend_invariant (st : LeAudioClientImpl) :
  registry_invariant st -> registry_invariant (OnAudioSourceSuspend st).
Proof.
  intros Hinv. unfold OnAudioSourceSuspend. cbv zeta.
  destruct (audio_receiver_state_ st);
    repeat match goal with
           | |- context [if ?c then _ else _] => destruct c
           end;
    try done; by apply OnAudioSuspend_invariant.
Qed.

Lemma OnAudioResume_invariant (g : LeAudioDeviceGroup) (st : LeAudioClientImpl) :
  registry_invariant st -> registry_invariant (OnAudioResume g st).2.
Proof.
  intros Hinv. unfold OnAudioResume. destruct (AseState.eqb _ _); [done|].
  by apply InternalGroupStream_invariant.
Qed.

Lemma OnAudioSinkResume_invariant (st st' : LeAudioClientImpl) :
  OnAudioSinkResume st = Done st' ->
  registry_invariant st -> registry_invariant st'.
Proof.
  unfold OnAudioSinkResume. intros H Hinv.
  destruct (FindById st (active_group_id_ st)) as [[id g]|];
    [|by injection H as <-].
  destruct (GetCodecConfigurationByDirection _ _ _ _); [|by injection H as <-].
  pose proof (OnAudioResume_invariant g st Hinv) as Hresume.
  destruct (audio_sender_state_ st), (audio_receiver_state_ st);
    cbv zeta in H;
    repeat match type of H with
           | context [if ?c then _ else _] => destruct c
           end;
    try (by injection H as <-).
  all: apply rbind_Done in H as ([started s1] & H1 & [= <-]);
    by apply (StartSendingAudio_invariant _ _ _ H1).
Qed.

Lemma OnAudioSourceResume_invariant (st st' : LeAudioClientImpl) :
  OnAudioSourceResume st = Done st' ->
  registry_invariant st -> registry_invariant st'.
Proof.
  unfold OnAudioSourceResume. intros H Hinv.
  destruct (FindById st (active_group_id_ st)) as [[id g]|];
    [|by injection H as <-].
  destruct (GetCodecConfigurationByDirection _ _ _ _); [|by injection H as <-].
  pose proof (OnAudioResume_invariant g st Hinv) as Hresume.
  destruct (audio_receiver_state_ st), (audio_sender_state_ st);
    cbv zeta in H;
    repeat match type of H with
           | context [if ?c then _ else _] => destruct c
           end;
    try (by injection H as <-).
  all: by apply (StartReceivingAudio_invariant _ _ _ H).
Qed.

Lemma StatusReportCb_invariant (group_id : option Z)
    (status : GroupStreamStatus.t) (st st' : LeAudioClientImpl) :
  StatusReportCb group_id status st = Done st' ->
  registry_invariant st -> registry_invariant st'.
Proof.
  unfold StatusReportCb. intros H Hinv. cbv zeta in H.
  destruct status.
  - (* IDLE *)
    apply rbind_Done in H as ([configuring s1] & H1 & H).
    assert (Hs1 : registry_invariant s1).
    { destruct (FindById _ group_id) as [[id g]|]; [|by injection H1 as _ <-].
      destruct (pending_configuration_ g); [|by injection H1 as _ <-].
      apply (group_ConfigureStream_invariant _ _ _ H1).
      by apply SuspendedForReconfiguration_invariant. }
    destruct configuring; [by injection H as <-|].
    apply (HandlePendingAvailableContexts_invariant _ _ _ H).
    by apply CancelStreamingRequest_invariant.
  - (* STREAMING *)
    destruct (negb _); [done|].
    apply rbind_Done in H as (s1 & H1 & H).
    assert (Hs1 : registry_invariant s1).
    { match type of H1 with
      | (if ?c then _ else _) = _ => destruct c; [|by injection H1 as <-]
      end.
      apply rbind_Done in H1 as ([started s0] & H0 & [= <-]).
      by apply (StartSendingAudio_invariant _ _ _ H0). }
    apply rbind_Done in H as (s2 & H2 & [= <-]).
    match type of H2 with
    | (if ?c then _ else _) = _ => destruct c; [|by injection H2 as <-]
    end.
    by apply (StartReceivingAudio_invariant _ _ _ H2).
  - (* RELEASING *)
    repeat match type of H with
           | context [if ?c then _ else _] => destruct c
           end; by injection H as <-.
  - (* SUSPENDING *)
    repeat match type of H with
           | context [if ?c then _ else _] => destruct c
           end; by injection H as <-.
  - (* SUSPENDED *)
    injection H as <-. by apply SuspendAudio_invariant.
  - (* CONFIGURED_AUTONOMOUS *)
    destruct (fst <$> FindById _ group_id) as [id|]; [|done].
    apply rbind_Done in H as (g & _ & H).
    destruct (pending_configuration_ g).
    + apply rbind_Done in H as ([configuring s1] & H1 & [= <-]).
      apply (group_ConfigureStream_invariant _ _ _ H1).
      by apply SuspendedForReconfiguration_invariant.
    + apply (HandlePendingAvailableContexts_invariant _ _ _ H).
      by apply CancelStreamingRequest_invariant.
  - (* CONFIGURED_BY_USER *)
    apply (HandlePendingAvailableContexts_invariant _ _ _ H).
    by apply CancelStreamingRequest_invariant.
  - (* DESTROYED *)
    by injection H as <-.
Qed.

(** *** The uplink and the downlink *)

Lemma SendAudioDataToAF_invariant (bt_got_stereo af_is_stereo : bool)
    (chan_left chan_right : option (list Z)) (st st' : LeAudioClientImpl) :
  SendAudioDataToAF bt_got_stereo af_is_stereo chan_left chan_right st = Done st' ->
  registry_invariant st -> registry_invariant st'.
Proof.
  unfold SendAudioDataToAF. intros H Hinv. cbv zeta in H.
  destruct bt_got_stereo, af_is_stereo, chan_left, chan_right;
    cbn [bool_decide decide_rel is_Some] in H;
    repeat match type of H with
           | context [bool_decide ?P] => destruct (bool_decide P)
           end;
    try discriminate H;
    try (by injection H as <-);
    by apply rbind_Done in H as (mixed & _ & [= <-]).
Qed.

Lemma decode_and_forward_invariant (left_cis_handle right_cis_handle : Z)
    (is_left : bool) (required pcm_size : Z) (data : option (list Z))
    (size timestamp : Z) (st st' : LeAudioClientImpl) :
  decode_and_forward left_cis_handle right_cis_handle is_left required pcm_size
    data size timestamp st = Done st' ->
  registry_invariant st -> registry_invariant st'.
Proof.
  unfold decode_and_forward. intros H Hinv.
  destruct (pcm_size <? 0); [done|].
  destruct (negb (required =? size)); cbv zeta in H.
  all: match type of H with
       | context [lc3_decode ?a ?b ?c ?d] =>
           destruct (lc3_decode a b c d) as [err decoded]
       end.
  all: destruct (err <? 0); [by injection H as <-|].
  all: destruct (_ || _);
         [by apply (SendAudioDataToAF_invariant _ _ _ _ _ _ H)|].
  all: destruct (_ && _); [by injection H as <-|].
  all: destruct (_ && _);
         apply rbind_Done in H as (s1 & H1 & [= <-]).
  all: assert (Hs1 : registry_invariant s1);
         [|done].
  all: repeat match type of H1 with
              | context [if ?c then _ else _] => destruct c
              end;
         by apply (SendAudioDataToAF_invariant _ _ _ _ _ _ H1).
Qed.

Lemma SendAudioData_invariant (data : option (list Z))
    (size cis_conn_hdl timestamp : Z) (st st' : LeAudioClientImpl) :
  SendAudioData data size cis_conn_hdl timestamp st = Done st' ->
  registry_invariant st -> registry_invariant st'.
Proof.
  unfold SendAudioData. intros H Hinv.
  destruct (_ || _); [by injection H as <-|].
  destruct (FindById st (active_group_id_ st)) as [[id g]|];
    [|by injection H as <-].
  cbv zeta in H. destruct (_ && _); [by injection H as <-|].
  destruct (pcm_size_of _ _) as [pcm_size|]; [|by injection H as <-].
  by apply (decode_and_forward_invariant _ _ _ _ _ _ _ _ _ _ H).
Qed.

(** *** The active group *)

Lemma UpdateConfigAndCheckIfReconfigurationIsNeeded_invariant
    (IsInvalid : LeAudioCodecConfiguration -> bool)
    (differs : LeAudioCodecConfiguration -> LeAudioCodecConfiguration -> bool)
    (group_id : option Z) (context_type : LeAudioContextType.t)
    (st : LeAudioClientImpl) :
  registry_invariant st ->
  registry_invariant
    (UpdateConfigAndCheckIfReconfigurationIsNeeded IsInvalid differs group_id
       context_type st).2.
Proof.
  intros Hinv. unfold UpdateConfigAndCheckIfReconfigurationIsNeeded.
  destruct (FindById st group_id) as [[id g]|]; [|done]. cbv zeta.
  destruct (GetCodecConfigurationByDirection g _ _ kLeAudioDirectionSink),
           (GetCodecConfigurationByDirection g _ _ kLeAudioDirectionSource);
    repeat match goal with
           | |- context [if ?c then _ else _] => destruct c
           end; done.
Qed.

Lemma ClientAudioIntefraceRelease_client (s : AudioSession) :
  client (ClientAudioIntefraceRelease s) = client s.
Proof.
  unfold ClientAudioIntefraceRelease.
  destruct (audio_source_instance_ s); cbn;
    by destruct (audio_sink_instance_ s).
Qed.

Lemma expose_and_set_active_invariant (id : Z) (s : AudioSession) :
  registry_invariant (client s) ->
  registry_invariant (client (expose_and_set_active id s)).
Proof.
  intros Hinv. unfold expose_and_set_active. cbv zeta.
  destruct (active_group_id_ (client s)) as [active|];
    cbn [client with_client session_call]; [|done].
  exact (GroupStop_invariant (Some active) (client s) Hinv).
Qed.

Lemma GroupSetActive_invariant
    (IsInvalid : LeAudioCodecConfiguration -> bool)
    (differs : LeAudioCodecConfiguration -> LeAudioCodecConfiguration -> bool)
    (source_acquired sink_acquired : bool) (group_id : option Z)
    (s : AudioSession) :
  registry_invariant (client s) ->
  registry_invariant
    (client (GroupSetActive IsInvalid differs source_acquired sink_acquired
               group_id s)).
Proof.
  intros Hinv. unfold GroupSetActive.
  destruct group_id as [id|].
  - destruct (FindById (client s) (Some id)) as [[i g]|]; [|done].
    destruct (bool_decide _); [done|]. cbv zeta.
    assert (Hsource : registry_invariant
                        (client (acquire_audio_source source_acquired s))).
    { unfold acquire_audio_source. by destruct (negb _). }
    set (s1 := acquire_audio_source source_acquired s) in *. clearbody s1.
    destruct (negb (audio_source_instance_ s1)); [done|].
    assert (Hsink : registry_invariant
                      (client (acquire_audio_sink sink_acquired s1))).
    { unfold acquire_audio_sink. by destruct (negb _). }
    set (s2 := acquire_audio_sink sink_acquired s1) in *. clearbody s2.
    destruct (negb (audio_sink_instance_ s2)); [done|].
    set (s3 := with_client _ s2).
    assert (Hconfig : registry_invariant (client s3))
      by (by apply UpdateConfigAndCheckIfReconfigurationIsNeeded_invariant).
    clearbody s3. destruct (_ && _); [done|].
    by apply expose_and_set_active_invariant.
  - destruct (active_group_id_ (client s)) as [active|]; [|done].
    cbv zeta. cbn [client with_client session_call].
    rewrite ClientAudioIntefraceRelease_client. cbn [client with_client].
    set (st1 := StopAudio (alarm_cancel_suspend_timeout (client s))).
    assert (Hst1 : registry_invariant st1)
      by (by apply SuspendAudio_invariant).
    exact (GroupStop_invariant (active_group_id_ st1) st1 Hst1).
Qed.

(** *** Every operation *)

Lemma run_client_invariant (op : client_operation) (st st' : LeAudioClientImpl) :
  run_client op st = Done st' ->
  registry_invariant st -> registry_invariant st'.
Proof.
  intros H Hinv. destruct op; cbn [run_client] in H.
  - by apply (group_add_node_invariant _ _ _ _ _ H).
  - by apply (group_remove_node_registry _ _ _ _ _ H).
  - by apply (remove_group_if_possible_invariant _ _ _ H).
  - by apply (GroupRemoveNode_invariant _ _ _ _ H).
  - by apply (RemoveDevice_invariant _ _ _ H).
  - by apply (Disconnect_invariant _ _ _ H).
  - by apply (DisconnectDevice_invariant _ _ _ _ H).
  - by apply (BackgroundConnectIfGroupConnected_invariant _ _ _ H).
  - by apply (OnGroupAddedCb_invariant _ _ _ _ _ _ H).
  - by apply (OnGroupMemberAddedCb_invariant _ _ _ _ H).
  - by apply (OnGroupMemberRemovedCb_invariant _ _ _ _ H).
  - by apply (AddFromStorage_invariant _ _ _ _ H).
  - by apply (UpdateContextAndLocations_invariant _ _ _ _ H).
  - apply rbind_Done in H as (r & Hr & [= <-]).
    by apply (group_UpdateActiveContextsMap_invariant _ _ _ _ Hr).
  - apply rbind_Done in H as (r & Hr & [= <-]).
    by apply (group_ReloadAudioLocations_invariant _ _ _ Hr).
  - by apply (callbacks_OnAudioConf_invariant _ _ _ _ H).
  - by apply (HandlePendingAvailableContexts_invariant _ _ _ H).
  - by apply (LeAudioCharValueHandle_invariant _ _ _ _ _ H).
  - injection H as <-. by apply ControlPointNotificationHandler_invariant.
  - by apply (AseInitialStateReadRequest_invariant _ _ _ H).
  - by apply (AttachToStreamingGroupIfNeeded_invariant _ _ _ H).
  - by apply (connectionReady_invariant _ _ _ H).
  - injection H as <-. by apply InternalGroupStream_invariant.
  - injection H as <-. by apply GroupStream_invariant.
  - injection H as <-. by apply GroupStop_invariant.
  - injection H as <-. by apply GroupSetActive_invariant.
  - injection H as <-.
    by apply UpdateConfigAndCheckIfReconfigurationIsNeeded_invariant.
  - apply rbind_Done in H as (r & Hr & [= <-]).
    by apply (group_ConfigureStream_invariant _ _ _ Hr).
  - by apply (StatusReportCb_invariant _ _ _ _ H).
  - by apply (IsoCigEventsCb_registry _ _ _ H).
  - by apply (OnLeAudioDeviceSetStateTimeout_invariant _ _ _ H).
  - apply rbind_Done in H as (r & Hr & [= <-]).
    by apply (GetStreamConfigurationByDirection_invariant _ _ _ _ Hr).
  - injection H as <-. by apply CancelStreamingRequest_invariant.
  - injection H as <-. by apply SuspendedForReconfiguration_invariant.
  - apply rbind_Done in H as (r & Hr & [= <-]).
    by apply (StartSendingAudio_invariant _ _ _ Hr).
  - by apply (StartReceivingAudio_invariant _ _ _ H).
  - injection H as <-. by apply SuspendAudio_invariant.
  - injection H as <-. by apply SuspendAudio_invariant.
  - apply rbind_Done in H as (g & _ & [= <-]). by apply OnAudioResume_invariant.
  - injection H as <-. by apply OnAudioSuspend_invariant.
  - injection H as <-. by apply suspend_timeout_expired_invariant.
  - injection H as <-. by apply OnAudioSinkSuspend_invariant.
  - injection H as <-. by apply OnAudioSourceSuspend_invariant.
  - by apply (OnAudioSinkResume_invariant _ _ H).
  - by apply (OnAudioSourceResume_invariant _ _ H).
  - by injection H as <-.
  - by apply (SendAudioDataToAF_invariant _ _ _ _ _ _ H).
  - by apply (SendAudioData_invariant _ _ _ _ _ _ H).
  - by apply rbind_Done in H as (sent & _ & [= <-]).
Qed.

End EveryOperation.

Section RegistryTheorem.
Context {E : Environment} {SM : LeAudioGroupStateMachine}.


End RegistryTheorem.

Lemma reference_state_machine_keeps_invariant :
  state_machine_keeps_invariant (SM := Reference.state_machine).
Proof.
  split; [|split; [|split; [|split; [|split]]]].
  - intros g devices context_type Hg. exact Hg.
  - intros g devices Hg. exact Hg.
  - intros g devices context_type Hg. exact Hg.
  - intros g devices address Hg. exact Hg.
  - intros value hdl address g g' devices Hg [= <-]. exact Hg.
  - exact reference_cig_create_keeps_invariant.
Qed.

